(* ===== verification/_CoqProject ===== *)
-Q . S2P
Prelude.v
Device.v
Machine.v
Block.v
Manager.v
Bitmap.v
Layout.v
Index.v
Resize.v
InodeNumber.v
Utf8.v
Cafs.v
Vfs.v
Contents.v
Files.v
Inodes.v
Directory.v
Mount.v
Paths.v
Errors.v
Shrink.v
FileSystem.v
Namespace.v
Tree.v
Hierarchy.v
Image.v
Components.v
Frame.v
KernelMemory.v
Config.v
Paging.v
PageTables.v
BootMemory.v
Logger.v
Boot.v
Screen.v
Logging.v
Pci.v
Startup.v
Timers.v
Interrupts.v
Dispatch.v
Kernel.v
Testing.v
Tests.v
FakeInode.v
IndexTests.v
