(* ===== verification/Prelude.v ===== *)
(** * Canyon: boot loader, kernel and the CAFS file system

    Canyon is a small operating system: a UEFI boot loader (bootloader/), a kernel
    (kernel/) and a file system library (fs/) that the kernel uses to read its disk and
    that the image builder uses to create it. This library models the file system from
    the block device up to paths, the boot loader from its configuration to the page
    tables, and the kernel's memory management, logger, interrupts, timers and storage
    set-up, and proves what their operations do.

    ** The program and its model

    A block device stores blocks of 512 bytes. The cache manager keeps at most 32 of
    them in memory, shared between the code that uses them, and writes them back when
    they are evicted or flushed. On the blocks lie a super block, a bitmap of inodes, the
    inode records, a bitmap of data blocks, and the data area. An inode record lists up to
    36 data blocks itself and the others through up to four levels of index blocks with
    63 entries. A directory is a file whose contents are inode numbers. [CAFS] keeps up to
    32 inodes in memory; [VFS] keeps a tree of directory entries and resolves paths.

    - [Prelude]: outcomes of Rust code (a value, a panic, a deadlock, undefined behaviour or
      endless recursion), the state monad [M] over them, 64-bit integers with overflow
      checks, little-endian codecs, the operations of [Vec] the program uses, and the
      automation ([omon] for monadic code, [zeval] for closed comparisons, the hint
      databases [canyon] and [lengths]).
    - [Device]: fs/src/lib.rs ([BlockDevice], [fake::Disk]) and [BLK] of
      kernel/src/drivers/pci.rs. The trait is the class [BlockDevice]; what its clients rely
      on is the class [BlockDeviceLaws].
    - [Block] and [Manager]: fs/src/cafs/cache.rs. [Block] holds one cached block, the
      interface [BlockCache] the file system is written against, its laws
      [BlockCacheLaws], and the specifications [spec] (the operation returns, with this
      result and these contents) and [faults] (it ends in this fault). [Manager] is the
      implementation: [CacheManager.crep n c v h] says that the cache [c] shows the
      contents [v] of a device of [n] blocks while the enclosing frames hold [h].
    - [Bitmap]: fs/src/cafs/bitmap.rs.
    - [Layout]: fs/src/cafs/layout.rs, the records with their bytes ([Repr], [ReprLaws])
      and operations. [Index] and [Resize] prove them: [inode_ok v m index data] says that
      the inode record [m] owns these index and data blocks.
    - [InodeNumber], [Utf8]: the encoding of inode numbers in directories, and the string
      functions of the standard library that names and paths go through.
    - [Cafs]: fs/src/cafs/mod.rs. [Contents], [Files], [Inodes], [Directory], [Mount],
      [Errors] and [Shrink] prove it bottom-up: blocks of a file, files on the disk ([disk_ok]),
      inodes in memory ([mem_ok], and [fs_inv] for both), directories, creation and
      opening, the ways it fails, and writes that give blocks back. [FileSystem] states the result for clients:
      [fs_ok n fs st files fr] says that the state holds the files [files] and that [fr]
      data blocks are free.
    - [Vfs]: fs/src/vfs and fs/src/main.rs. [Paths] proves the operations;
      [Namespace] states the contract: a list of names with contents ([Names]), which
      [VFS] refines ([names_ok]), for a root directory of files. [Tree] has the trees of
      directories ([Node]) that the entries in memory and the disk stand for, and [Hierarchy]
      states the contract for paths of any depth ([vfs_tree], [disk_tree]). [Image] proves the
      image builder.
    - [Components]: what the cache, the bitmaps, the inode records and the encodings
      promise, stated on their own.
    - [Frame], [KernelMemory]: kernel/src/memory/frame.rs and mod.rs,
      kernel/src/drivers/provider.rs, kernel/src/allocator.rs. [PhysFrame] and the address
      types of the x86_64 crate are the class [PhysFrame] with its documented behaviour as
      [PhysFrameLaws]; frames as numbers are an instance.

    - [Machine]: integers of 8, 16 and 32 bits, loops, and text with the formatting and
      parsing of numbers.
    - [Config]: bootloader/efi/src/config.rs, the parser; the lines of a file are a list of
      [item]s, and [setting] says what they mean for each option, without the parser. [Paging]: page_table.rs over the mapper of the x86_64 crate and the page
      allocation of UEFI (the class [Paging]); [PageTables] has the laws of that machine
      ([PagingLaws], over the entries of the tables and the bytes of the memory) and the
      mapping of segments, [BootMemory] the stack and the window onto physical memory, a
      simulated machine [Sim] that satisfies the laws, and two ways a segment is mapped
      wrongly. [Boot]: main.rs and fs.rs over the services of the firmware ([Firmware],
      [FirmwareLaws]); after [exit_boot_services] a vector cannot grow ([push_all]).
    - [Logger]: kernel/src/logger.rs, the frame buffer as a list of bytes; [Screen] relates it
      to an abstract terminal [Term], and [Logging] states what a session of messages
      shows on the screen and on the serial port. [plain] messages are in ASCII.
    - [Pci], [Startup]: kernel/src/drivers/pci.rs and ahci.rs, kernel/src/process/mod.rs.
      Configuration space, the AHCI controller and the partition table are the classes
      [ConfigSpace] and [Storage]. The code of the AHCI crate that runs when the controller is
      found is a [driver_code], a program that asks the kernel for DMA buffers and logs;
      [run_driver] runs it on the kernel's memory, whatever it is.
    - [Timers]: kernel/src/arch/x64/device/pit.rs and timer.rs, as step functions whose
      events are the steps of the program and the interrupts; [run] follows a schedule, and
      [fair_progress] is the argument for its progress. [calibrated] says what [timer::init]
      has measured when it is done, and [calm] which interrupts let it finish.
    - [Interrupts]: kernel/src/arch/x64/interrupt and gdt.rs, keyboard.rs, device/mod.rs,
      over the classes [InterruptDescriptorTable], [IoApic] and [LocalApic]; a handler has
      the type of its gate. [Dispatch] proves where signals go.
    - [Kernel]: [init] of kernel/src/lib.rs, which runs all parts of the kernel in order and
      logs every message of theirs.
    - [Testing]: kernel/src/testing.rs, the panic handlers and entry points: a program as the
      messages and port writes it makes visible, and what QEMU learns from them. [Tests]: the
      repository's own tests as computations that end in a panic when an assertion fails;
      [FakeInode] has the inodes that the tests of layout.rs build, and [IndexTests] those tests.

    The components meet in five places: [Boot.main] runs the parser, the page tables and the
    firmware (C11); [Startup.init_sata] mounts, through the driver, the partition and the
    cache, an image that [Img.create_img] wrote (C13); the handlers of [Interrupts] log with
    [Logger] and count with [Timers] (C16); the vectors of [Pci] are looked up in the table
    of [Interrupts] ([Dispatch.msi_without_handler]); and [Kernel.init] takes the information of the boot loader through
    the logger, memory, interrupts, timer and disk to a mounted file system (C14).

    Shared and mutable data is modelled as such: a cached block is found under its id and
    mutated in place, the enclosing frames' [Arc]s and guards are part of the state, an
    in-memory inode is a handle into a heap, and its reference count decides about
    eviction. Names, paths and file contents are lists of bytes. The program runs on one
    thread; a lock that is taken twice is a [Deadlock], and so is a lock that an interrupt
    handler takes from the program it interrupted.

    ** What the theorems show

    - The file system is a map from inode numbers to files: creating, writing, reading,
      flushing and opening again have exactly the effect on that map one expects, and on
      the number of free blocks (C1 to C5; [FileSystem] also has listing and the free
      space). It fails when the disk or the inode cache is full (C23, C25), and a write that
      gives blocks back frees the wrong ones: C24 says which, and what the files then hold.
    - Paths: [VFS] refines an abstract tree of directories of any depth, and what is written
      can be read, and other paths read as before, byte for byte (C6, C8 to C10, C26; [Namespace]
      has the root directory as a list of names); the program of the image builder writes an image that can be mounted and read
      (C7, C34).
    - The boot loader loads the kernel as it is linked, with stack and window, and passes on the
      memory map of the firmware (C11, C12), and understands its configuration (C21, C22).
    - The kernel mounts the image and starts (C13, C14), for every schedule of interrupts that
      lets the timer calibrate; it logs every printable message as an
      abstract terminal does (C15), has a handler of the right type for every exception and a route
      for its devices (C16, C17); its timer calibrates and [sleep] returns under fair schedules
      (C18, C19); PCI devices are enabled, each MSI capability from its own control word (C20).
    - The components: index trees, cache, bitmaps, frames, DMA buffers and heap (C27 to C33;
      [Components] and [KernelMemory] have more about each).
    - The harness for the kernel's tests tells the truth (C35), and the tests of the file system, the
      frame allocator and the index trees pass (C36, C37).
    - Where file system and kernel go wrong (C38 to C40, and the end of C14), and other defects
      ([timer_init_deadlock], [heap_dma_overlap], [segment_last_page_missed], [pci_enable_endless],
      [logger_unsupported_deadlock], [msi_without_handler], [double_fault_stack_misplaced],
      [Elf.map_elf_panics]).

    ** Bounds and fuel

    [CaInode]s, blocks and files are unbounded in number up to the limits of the code.
    Index blocks have at most four levels, so [IndirectOps.FUEL] = 64 never runs out; the
    theorems on [Meta.blocks] and [Meta.get_block_id] show that they return.
    [Bitmap.count_ones] shifts a 64-bit word and has fuel 64. [DirEntry.read_sub_dentry]
    takes fuel as an argument, because a directory that contains itself makes the program
    recurse for ever (C39); the height of the tree is enough (C26), two for the images of the builder.
    [Utf8.from_utf8_lossy] has the length of its input as fuel, [Machine.digits_upto] 64
    digits, more than a 64-bit number has. [Pci.walk] takes fuel as an argument: one more than
    the number of capabilities is enough, and none is for a circular list. A mapping takes at
    most [PageTables.TABLES] = 3 new page tables besides its frame.

    ** What is not modelled

    In the boot loader the start of the UEFI services and the log messages; in the kernel the
    port accessors of PCI, which are single instructions, and the two tests that provoke an
    exception; processes, whose code is commented out, and the message of [Elf.map_elf], which
    nothing calls. The transfers of the AHCI driver and the
    hardware behind them are those of a block device, and [vfs_write_tree] does not speak of
    writes that give blocks back; that is [cafs_write_shrink], one level below. *)
From Stdlib Require Import ZArith Lia.
From stdpp Require Import gmap sorting list_numbers list.

(** ** Outcomes of Rust code *)

(** Why a computation panicked. *)
Inductive panic :=
  | POverflow          (** checked machine arithmetic left its width *)
  | PIndex             (** slice or array index out of bounds *)
  | PAssert            (** [assert!] / [assert_eq!] failed *)
  | PUnwrap            (** [unwrap] on [None] / [Err] *)
  | PBlockCache        (** "Run out of BlockCache!" *)
  | PInodeCache        (** "Run out of InodeCache!" *)
  | PInodes            (** "run out of inode block" *)
  | PData              (** "run out of data block" *)
  | PSuperBlock        (** "Error loading CAFS!" *)
  | PExpect            (** [expect] on [None] / [Err] *)
  | PDivide            (** division by zero *)
  | PUnreachable       (** [unreachable!] was reached *)
  | PAlloc             (** the allocator has no memory *)
  | PAddr.             (** an address that is not canonical, or not physical *)

(** The ways a run can fail to return: a panic, a spin lock acquired while the
    same thread already holds it in a conflicting mode, a read of a value that
    is not a valid discriminant of its Rust enum, recursion without end. *)
Inductive fault :=
  | Panic (p : panic)
  | Deadlock
  | Undefined
  | Diverge.

Inductive outcome (A : Type) :=
  | Ok (a : A)
  | Fault (f : fault).
Arguments Ok {A} a.
Arguments Fault {A} f.

#[export] Instance panic_eq_dec : EqDecision panic.
Proof. solve_decision. Defined.
#[export] Instance fault_eq_dec : EqDecision fault.
Proof. solve_decision. Defined.
#[export] Instance outcome_eq_dec `{EqDecision A} : EqDecision (outcome A).
Proof. solve_decision. Defined.

#[export] Instance outcome_ret : MRet outcome := fun A a => Ok a.
#[export] Instance outcome_bind : MBind outcome := fun A B f m =>
  match m with Ok a => f a | Fault e => Fault e end.

(** State-passing computations that can fail. *)
Definition M (S A : Type) : Type := S -> outcome (A * S).

#[export] Instance M_ret {S} : MRet (M S) := fun A a s => Ok (a, s).
#[export] Instance M_bind {S} : MBind (M S) := fun A B f m s =>
  match m s with Ok (a, s') => f a s' | Fault e => Fault e end.

Definition throw {S A} (f : fault) : M S A := fun _ => Fault f.
Definition lift {S A} (o : outcome A) : M S A := fun s =>
  match o with Ok a => Ok (a, s) | Fault e => Fault e end.

Definition assert_ (b : bool) (p : panic) : outcome unit :=
  if b then Ok () else Fault (Panic p).

Definition unwrap {A} (o : option A) (p : panic) : outcome A :=
  match o with Some a => Ok a | None => Fault (Panic p) end.

(** A computation on a component of the state. *)
Definition zoom {S T A} (get : T -> S) (put : S -> T -> T) (m : M S A) : M T A := fun t =>
  match m (get t) with Ok (a, s) => Ok (a, put s t) | Fault e => Fault e end.

(** ** Machine integers: [u64] and [usize] in a build with overflow checks *)

Local Open Scope Z_scope.

Definition U64 : Z := 2 ^ 64.
Definition u64 (x : Z) : Prop := 0 <= x < U64.
Definition u8 (x : Z) : Prop := 0 <= x < 256.

Definition add64 (a b : Z) : outcome Z :=
  if a + b <? U64 then Ok (a + b) else Fault (Panic POverflow).
Definition sub64 (a b : Z) : outcome Z :=
  if b <=? a then Ok (a - b) else Fault (Panic POverflow).
Definition mul64 (a b : Z) : outcome Z :=
  if a * b <? U64 then Ok (a * b) else Fault (Panic POverflow).

Abbreviation zlen l := (Z.of_nat (length l)).

Lemma add64_ok a b : a + b < U64 -> add64 a b = Ok (a + b).
Proof. intros. unfold add64. by rewrite (proj2 (Z.ltb_lt _ _)). Qed.
Lemma sub64_ok a b : b <= a -> sub64 a b = Ok (a - b).
Proof. intros. unfold sub64. by rewrite (proj2 (Z.leb_le _ _)). Qed.
Lemma mul64_ok a b : a * b < U64 -> mul64 a b = Ok (a * b).
Proof. intros. unfold mul64. by rewrite (proj2 (Z.ltb_lt _ _)). Qed.
Lemma assert_ok b p : b = true -> assert_ b p = Ok ().
Proof. by intros ->. Qed.

(** ** Little-endian representation of integers *)

Fixpoint to_le (n : nat) (x : Z) : list Z :=
  match n with O => [] | S n => x mod 256 :: to_le n (x / 256) end.
Fixpoint from_le (l : list Z) : Z :=
  match l with [] => 0 | b :: l => b + 256 * from_le l end.

Fixpoint decode_u64s (n : nat) (l : list Z) : list Z :=
  match n with O => [] | S n => from_le (take 8 l) :: decode_u64s n (drop 8 l) end.
Fixpoint encode_u64s (xs : list Z) : list Z :=
  match xs with [] => [] | x :: xs => to_le 8 x ++ encode_u64s xs end.

Lemma length_to_le n x : length (to_le n x) = n.
Proof. revert x. induction n; intros; simpl; auto. Qed.

Lemma to_le_u8 n x : Forall u8 (to_le n x).
Proof.
  revert x. induction n; intros; simpl; constructor; auto.
  unfold u8. apply Z.mod_pos_bound. lia.
Qed.

Lemma from_to_le n x : 0 <= x < 256 ^ Z.of_nat n -> from_le (to_le n x) = x.
Proof.
  revert x. induction n as [|n IH]; intros x Hx; simpl.
  - change (256 ^ Z.of_nat 0) with 1 in Hx. lia.
  - rewrite Nat2Z.inj_succ, Z.pow_succ_r in Hx by lia. rewrite IH.
    + pose proof (Z.div_mod x 256). lia.
    + split; [apply Z.div_pos; lia|apply Z.div_lt_upper_bound; lia].
Qed.

Lemma from_le_bound l : Forall u8 l -> 0 <= from_le l < 256 ^ zlen l.
Proof.
  induction 1 as [|b l Hb Hl IH]; [simpl; lia|].
  cbn [from_le length]. rewrite Nat2Z.inj_succ, Z.pow_succ_r by lia. unfold u8 in Hb. lia.
Qed.

Lemma to_from_le l : Forall u8 l -> to_le (length l) (from_le l) = l.
Proof.
  induction 1 as [|b l Hb Hl IH]; [done|]. simpl. unfold u8 in Hb.
  rewrite (Z.mul_comm 256), Z.mod_add, Z.mod_small by lia.
  rewrite Z.div_add, Z.div_small, Z.add_0_l by lia. by rewrite IH.
Qed.

Lemma length_encode_u64s xs : length (encode_u64s xs) = (8 * length xs)%nat.
Proof. induction xs; simpl; rewrite ?length_app, ?length_to_le; simpl; lia. Qed.

Lemma encode_u64s_u8 xs : Forall u8 (encode_u64s xs).
Proof.
  induction xs; cbn [encode_u64s]; [done|].
  apply Forall_app; split; auto using to_le_u8.
Qed.

Lemma length_decode_u64s n l : length (decode_u64s n l) = n.
Proof. revert l. induction n; intros; simpl; auto. Qed.

Lemma decode_encode_u64s xs rest : Forall u64 xs ->
  decode_u64s (length xs) (encode_u64s xs ++ rest) = xs.
Proof.
  induction 1 as [|x xs Hx Hxs IH]; [done|]. cbn [length decode_u64s encode_u64s].
  rewrite <- (app_assoc (to_le 8 x)).
  rewrite take_app_le, take_ge, drop_app_ge by (rewrite length_to_le; lia).
  rewrite length_to_le. change (8 - 8)%nat with 0%nat. rewrite drop_0, IH.
  by rewrite from_to_le.
Qed.

Lemma decode_u64s_u64 n l : Forall u8 l -> Forall u64 (decode_u64s n l).
Proof.
  revert l. induction n as [|n IH]; intros l Hl; simpl; constructor.
  - pose proof (from_le_bound (take 8 l) (Forall_take _ _ _ Hl)) as Hb.
    assert (256 ^ zlen (take 8 l) <= 256 ^ 8).
    { apply Z.pow_le_mono_r; [lia|]. rewrite length_take. lia. }
    change U64 with (256 ^ 8) in *. unfold u64. change U64 with (256 ^ 8). lia.
  - apply IH. by apply Forall_drop.
Qed.

(** Facts about bytes and lengths that are used everywhere. *)
Create HintDb canyon.
Create Rewrite HintDb lengths.
#[export] Hint Resolve to_le_u8 encode_u64s_u8 decode_u64s_u64 Forall_take Forall_drop Forall_app_2 : canyon.
#[export] Hint Rewrite @length_app @length_take @length_drop @length_replicate @length_insert @length_fmap
  length_to_le length_encode_u64s length_decode_u64s : lengths.

(** ** Vectors: the [Vec] operations the program uses *)

(** [Vec::swap_remove]: the last element takes the place of the removed one. *)
Definition swap_remove {A} (i : nat) (l : list A) : list A :=
  match last l with
  | None => []
  | Some x => take (pred (length l)) (<[i := x]> l)
  end.

(** [iter().enumerate().find(..)]: the first position that satisfies [p]. *)
Fixpoint find_index {A} (p : A -> bool) (l : list A) : option nat :=
  match l with
  | [] => None
  | x :: l => if p x then Some 0%nat else S <$> find_index p l
  end.

(** Overwrite [src] into [l] from position [off]. *)
Definition splice {A} (off : nat) (src l : list A) : list A :=
  take off l ++ src ++ drop (off + length src) l.

Lemma length_splice {A} off (src l : list A) :
  (off + length src <= length l)%nat -> length (splice off src l) = length l.
Proof. intros. unfold splice. rewrite !length_app, length_take, length_drop. lia. Qed.

Lemma splice_read {A} off (src l : list A) :
  (off <= length l)%nat -> take (length src) (drop off (splice off src l)) = src.
Proof.
  intros. unfold splice.
  rewrite drop_app_ge by (rewrite length_take; lia).
  rewrite length_take, Nat.min_l, Nat.sub_diag, drop_0 by lia.
  by rewrite take_app_le, take_ge by lia.
Qed.

Lemma Forall_splice {A} (P : A -> Prop) off src l :
  Forall P src -> Forall P l -> Forall P (splice off src l).
Proof. intros. unfold splice. auto with canyon. Qed.

Lemma find_index_Some {A} (p : A -> bool) l i :
  find_index p l = Some i -> exists x, l !! i = Some x /\ p x = true.
Proof.
  revert i. induction l as [|x l IH]; intros i; simpl; [done|].
  destruct (p x) eqn:E; [intros [= <-]; eauto|].
  destruct (find_index p l); simpl; intros; simplify_eq; simpl; eauto.
Qed.

Lemma find_index_first {A} (p : A -> bool) l i j y :
  find_index p l = Some i -> (j < i)%nat -> l !! j = Some y -> p y = false.
Proof.
  revert i j. induction l as [|x l IH]; intros i j; simpl; [done|].
  destruct (p x) eqn:E; [intros [= <-]; lia|].
  destruct (find_index p l) as [k|]; simpl; [|done]. intros [= <-] Hj.
  destruct j as [|j]; simpl; [by intros [= <-]|]. intros. eapply IH; eauto. lia.
Qed.

Lemma find_index_None {A} (p : A -> bool) l :
  find_index p l = None <-> Forall (fun x => p x = false) l.
Proof.
  induction l as [|x l IH]; simpl; [done|]. rewrite Forall_cons, <- IH.
  destruct (p x); [split; [done|by intros [? _]]|]. rewrite fmap_None. tauto.
Qed.

Lemma swap_remove_Permutation {A} i (l : list A) x :
  l !! i = Some x -> l ≡ₚ x :: swap_remove i l.
Proof.
  intros Hi. destruct (last l) as [y|] eqn:Hy.
  2:{ apply last_None in Hy as ->. done. }
  unfold swap_remove. rewrite Hy. apply last_Some in Hy as [l' ->].
  rewrite length_app. simpl. replace (pred (length l' + 1)) with (length l') by lia.
  destruct (decide (i = length l')) as [->|Hne].
  - rewrite lookup_app_r, Nat.sub_diag in Hi by lia. simplify_eq/=.
    rewrite insert_app_r_alt, take_app_length by lia. by rewrite Permutation_app_comm.
  - assert (i < length l')%nat.
    { apply lookup_lt_Some in Hi. rewrite length_app in Hi. simpl in Hi. lia. }
    rewrite lookup_app_l in Hi by lia.
    rewrite insert_app_l by lia. rewrite take_app_length' by (by rewrite length_insert).
    rewrite (Permutation_app_comm l').  simpl.
    rewrite <- (take_drop_middle l' i x Hi) at 1.
    rewrite (insert_take_drop l') by lia.
    rewrite <- !Permutation_middle. apply Permutation_swap.
Qed.

Lemma length_swap_remove {A} i (l : list A) x :
  l !! i = Some x -> length l = S (length (swap_remove i l)).
Proof. intros H. by rewrite (swap_remove_Permutation i l x H) at 1. Qed.

(** ** Loops *)

(** [for x in l { acc = f(acc, x) }] *)
Fixpoint foldM {S A B} (f : B -> A -> M S B) (acc : B) (l : list A) : M S B :=
  match l with
  | [] => mret acc
  | x :: l => acc ← f acc x; foldM f acc l
  end.

(** [for x in l { f(x) }] *)
Definition forM {S A} (f : A -> M S unit) (l : list A) : M S unit :=
  foldM (fun _ x => f x) tt l.

(** [1u64 << i]: the shift amount is checked. *)
Definition shl64 (x i : Z) : outcome Z :=
  if i <? 64 then Ok (Z.shiftl x i mod U64) else Fault (Panic POverflow).

(** ** Bits *)

Fixpoint trailing_ones_upto (k : nat) (x : Z) : Z :=
  match k with
  | O => 0
  | S k => if Z.odd x then 1 + trailing_ones_upto k (x / 2) else 0
  end.
(** [u64::trailing_ones] *)
Definition trailing_ones (x : Z) : Z := trailing_ones_upto 64 x.

Arguments trailing_ones x : simpl never.

Lemma trailing_ones_upto_spec k x : let t := trailing_ones_upto k x in
  0 <= t <= Z.of_nat k /\ (forall i, 0 <= i < t -> Z.testbit x i = true) /\
  (t < Z.of_nat k -> Z.testbit x t = false).
Proof.
  revert x. induction k as [|k IH]; intros x; cbn zeta; [simpl; split_and!; lia|].
  cbn [trailing_ones_upto]. destruct (Z.odd x) eqn:Ho.
  - destruct (IH (x / 2)) as (H1 & H2 & H3). split_and!; [lia|lia|..].
    + intros i Hi. destruct (decide (i = 0)) as [->|]; [by rewrite Z.bit0_odd|].
      replace i with (Z.succ (i - 1)) by lia. rewrite <- Z.div2_bits by lia. apply H2. lia.
    + intros. replace (1 + _) with (Z.succ (trailing_ones_upto k (x / 2))) by lia.
      rewrite <- Z.div2_bits by lia. apply H3. lia.
  - split_and!; try lia. intros _. by rewrite Z.bit0_odd.
Qed.

Lemma u64_max_bits x : u64 x -> (forall i, 0 <= i < 64 -> Z.testbit x i = true) -> x = U64 - 1.
Proof.
  intros Hx Hb. change (U64 - 1) with (Z.ones 64). apply Z.bits_inj'. intros i Hi.
  rewrite Z.testbit_ones_nonneg by lia. destruct (Z.ltb_spec i 64); [auto with lia|].
  unfold u64, U64 in Hx. rewrite <- (Z.mod_small x (2 ^ 64)) by lia.
  by rewrite Z.mod_pow2_bits_high by lia.
Qed.

Lemma trailing_ones_free x : u64 x -> x <> U64 - 1 ->
  0 <= trailing_ones x < 64 /\ Z.testbit x (trailing_ones x) = false /\
  forall i, 0 <= i < trailing_ones x -> Z.testbit x i = true.
Proof.
  intros Hx Hm. destruct (trailing_ones_upto_spec 64 x) as (H1 & H2 & H3).
  fold (trailing_ones x) in *. assert (trailing_ones x <> 64).
  { intros E. apply Hm. apply u64_max_bits; [done|]. intros. apply H2. lia. }
  split_and!; auto; try lia. apply H3. lia.
Qed.

Lemma shl64_1 i : 0 <= i < 64 -> shl64 1 i = Ok (2 ^ i).
Proof.
  intros Hi. unfold shl64. rewrite (proj2 (Z.ltb_lt _ _)) by lia.
  rewrite Z.shiftl_1_l, Z.mod_small; [done|]. unfold U64. split; [lia|].
  apply Z.pow_lt_mono_r; lia.
Qed.

Lemma set_bit_u64 x i : u64 x -> 0 <= i < 64 -> u64 (Z.lor x (2 ^ i)).
Proof.
  intros Hx Hi. unfold u64. split; [apply Z.lor_nonneg; unfold u64 in *; lia|].
  destruct (decide (Z.lor x (2 ^ i) = 0)) as [->|Hne]; [done|].
  assert (0 <= Z.lor x (2 ^ i)) by (apply Z.lor_nonneg; unfold u64 in *; lia).
  unfold U64. apply Z.log2_lt_pow2; [lia|]. rewrite Z.log2_lor by (unfold u64 in *; lia).
  rewrite Z.log2_pow2 by lia. apply Z.max_lub_lt; [|lia].
  unfold u64, U64 in Hx. destruct (decide (x = 0)) as [->|]; [done|]. apply Z.log2_lt_pow2; lia.
Qed.

Lemma set_bit_testbit x i j : 0 <= i -> 0 <= j ->
  Z.testbit (Z.lor x (2 ^ i)) j = (j =? i) || Z.testbit x j.
Proof.
  intros. rewrite Z.lor_spec, Z.pow2_bits_eqb, orb_comm, Z.eqb_sym by done. done.
Qed.

Lemma clear_bit x i : 0 <= i -> Z.testbit x i = true -> x - 2 ^ i = Z.ldiff x (2 ^ i).
Proof.
  intros Hi Hb. apply Z.sub_nocarry_ldiff. apply Z.bits_inj'. intros j Hj.
  rewrite Z.ldiff_spec, Z.pow2_bits_eqb, Z.bits_0 by done.
  destruct (Z.eqb_spec i j) as [->|]; [by rewrite Hb|done].
Qed.

Lemma clear_bit_testbit x i j : 0 <= i -> 0 <= j ->
  Z.testbit (Z.ldiff x (2 ^ i)) j = negb (j =? i) && Z.testbit x j.
Proof.
  intros. rewrite Z.ldiff_spec, Z.pow2_bits_eqb, andb_comm, Z.eqb_sym by done. done.
Qed.

Lemma land_bit_pos x i : 0 <= i -> (0 <? Z.land x (2 ^ i)) = Z.testbit x i.
Proof.
  intros Hi. assert (E : Z.land x (2 ^ i) = if Z.testbit x i then 2 ^ i else 0).
  { apply Z.bits_inj'. intros j Hj. rewrite Z.land_spec, Z.pow2_bits_eqb by done.
    destruct (Z.eqb_spec i j) as [->|].
    - destruct (Z.testbit x j) eqn:E; [|by rewrite Z.bits_0].
      by rewrite Z.pow2_bits_true.
    - rewrite andb_false_r. destruct (Z.testbit x i); [|by rewrite Z.bits_0].
      by rewrite Z.pow2_bits_false by lia. }
  rewrite E. destruct (Z.testbit x i); [apply Z.ltb_lt|]; [|done]. apply Z.pow_pos_nonneg; lia.
Qed.

(** Compute the monadic plumbing only. *)
Ltac omon := cbn [mbind mret outcome_bind outcome_ret M_bind M_ret unwrap].

(** Closed comparisons, by evaluation. *)
Ltac zeval := repeat match goal with
  | |- _ /\ _ => split
  | |- _ <= _ => apply Z.leb_le; vm_compute; reflexivity
  | |- _ < _ => apply Z.ltb_lt; vm_compute; reflexivity
  | |- Forall _ _ => repeat constructor
  | |- u8 _ => unfold u8
  end.

(** ** Counting *)

(** How many [i < k] satisfy [f]. *)
Fixpoint cnt (f : Z -> bool) (k : nat) : Z :=
  match k with
  | O => 0
  | S k => (if f 0 then 1 else 0) + cnt (fun i => f (i + 1)) k
  end.

Lemma cnt_ext f g k : (forall i, 0 <= i < Z.of_nat k -> f i = g i) -> cnt f k = cnt g k.
Proof.
  revert f g. induction k as [|k IH]; intros f g Hfg; [done|]. cbn [cnt].
  rewrite (Hfg 0) by lia. rewrite (IH _ (fun i => g (i + 1))); [done|]. intros. apply Hfg. lia.
Qed.

Lemma cnt_app f a b : cnt f (a + b) = cnt f a + cnt (fun i => f (i + Z.of_nat a)) b.
Proof.
  revert f. induction a as [|a IH]; intros f; cbn [cnt Nat.add].
  - apply cnt_ext. intros. f_equal. lia.
  - rewrite IH, Z.add_assoc. f_equal. apply cnt_ext. intros. f_equal. lia.
Qed.

Lemma cnt_bounds f k : 0 <= cnt f k <= Z.of_nat k.
Proof. revert f. induction k as [|k IH]; intros f; cbn [cnt]; [lia|]. specialize (IH (fun i => f (i + 1))). destruct (f 0); lia. Qed.

Lemma cnt_negb f k : cnt (fun i => negb (f i)) k = Z.of_nat k - cnt f k.
Proof.
  revert f. induction k as [|k IH]; intros f; cbn [cnt]; [lia|].
  rewrite (IH (fun i => f (i + 1))). destruct (f 0); simpl negb; lia.
Qed.

(** [cnt] counts what [filter] keeps. *)
Lemma cnt_filter f k : cnt f k = zlen (filter (fun i => f i = true) (seqZ 0 (Z.of_nat k))).
Proof.
  enough (E : forall a, cnt (fun i => f (i + a)) k =
      zlen (filter (fun i => f i = true) (seqZ a (Z.of_nat k)))).
  { rewrite <- E. apply cnt_ext. intros. f_equal. lia. }
  induction k as [|k IH]; intros a; [done|]. rewrite seqZ_cons by lia. rewrite filter_cons.
  replace (Z.pred (Z.of_nat (S k))) with (Z.of_nat k) by lia. cbn [cnt].
  assert (Hs : cnt (fun i => f (i + 1 + a)) k = zlen (filter (fun i => f i = true) (seqZ (Z.succ a) (Z.of_nat k)))).
  { rewrite <- IH. apply cnt_ext. intros. f_equal. lia. }
  rewrite Hs, Z.add_0_l. destruct (f a); case_decide; try done. cbn [length]. lia.
Qed.

(** Adding one element to what is counted. *)
Lemma cnt_set f g k i : 0 <= i < Z.of_nat k -> f i = false -> g i = true ->
  (forall j, 0 <= j < Z.of_nat k -> j <> i -> g j = f j) -> cnt g k = cnt f k + 1.
Proof.
  revert f g i. induction k as [|k IH]; intros f g i Hi Hf Hg Hfg; [lia|]. cbn [cnt].
  destruct (decide (i = 0)) as [->|Hi0].
  - rewrite Hf, Hg, (cnt_ext (fun j => g (j + 1)) (fun j => f (j + 1))); [lia|]. intros. apply Hfg; lia.
  - rewrite (Hfg 0) by lia. rewrite (IH (fun j => f (j + 1)) _ (i - 1)); [lia|lia|..].
    + by replace (i - 1 + 1) with i by lia.
    + by replace (i - 1 + 1) with i by lia.
    + intros. apply Hfg; lia.
Qed.

Lemma cnt_none f k : (forall i, 0 <= i < Z.of_nat k -> f i = false) -> cnt f k = 0.
Proof.
  revert f. induction k as [|k IH]; intros f Hf; [done|]. cbn [cnt]. rewrite (Hf 0) by lia.
  rewrite IH; [done|]. intros. apply Hf. lia.
Qed.

Lemma u64_from_le l : length l = 8%nat -> Forall u8 l -> u64 (from_le l).
Proof. intros Hl Hu. pose proof (from_le_bound l Hu) as Hb. rewrite Hl in Hb. exact Hb. Qed.

Lemma from_to_le_u64 x : u64 x -> from_le (to_le 8 x) = x.
Proof. intros Hx. by apply (from_to_le 8). Qed.

(** Reading past the first part of a concatenation. *)
Lemma drop_app_eq {A} k (l l' : list A) : length l = k -> drop k (l ++ l') = l'.
Proof. intros <-. apply drop_app_length. Qed.
Lemma take_app_eq {A} k (l l' : list A) : length l = k -> take k (l ++ l') = l.
Proof. intros <-. apply take_app_length. Qed.
