(* ===== verification/Device.v ===== *)
(** Block devices: the constants and the [BlockDevice] trait of fs/src/lib.rs,
    the in-memory [fake::Disk], and the kernel's [BLK] partition device
    (kernel/src/drivers/pci.rs) over an AHCI driver. The trait is a class; what
    its clients may rely on is the class [BlockDeviceLaws], which both
    implementations discharge. *)
From S2P Require Import Prelude.
From Stdlib Require Import ZArith Lia.
From stdpp Require Import gmap functions list.
Local Open Scope Z_scope.

Definition BLOCK_SIZE : Z := 512.
Definition BLOCK_BITS : Z := BLOCK_SIZE * 8.

(** A block's contents: 512 bytes. *)
Definition block_ok (b : list Z) : Prop := zlen b = BLOCK_SIZE /\ Forall u8 b.
Definition zero_block : list Z := replicate (Z.to_nat BLOCK_SIZE) 0.

Lemma zero_block_ok : block_ok zero_block.
Proof. split; [done|]. apply Forall_replicate. unfold u8. lia. Qed.
#[export] Hint Resolve zero_block_ok : canyon.

Class BlockDevice (D : Type) := {
  read_block : D -> Z -> list Z -> outcome (list Z);
  write_block : D -> Z -> list Z -> outcome D
}.

(** A device of [n] blocks whose contents are [v]. *)
Class BlockDeviceLaws (D : Type) `{BlockDevice D} := {
  dev_rep : D -> Z -> (Z -> list Z) -> Prop;
  dev_block d n v b : dev_rep d n v -> 0 <= b < n -> block_ok (v b);
  dev_read d n v b buf : dev_rep d n v -> 0 <= b < n -> zlen buf = BLOCK_SIZE ->
    read_block d b buf = Ok (v b);
  dev_write d n v b buf : dev_rep d n v -> 0 <= b < n -> block_ok buf ->
    exists d', write_block d b buf = Ok d' /\ dev_rep d' n (<[b := buf]> v);
  dev_ext d n v w : dev_rep d n v -> (forall b, 0 <= b < n -> v b = w b) -> dev_rep d n w
}.

(** ** [fake::Disk] *)
Module Disk.

Record t := mk { total_blocks : Z; data : list (list Z) }.

Definition new (total_blocks : Z) : t :=
  mk total_blocks (replicate (Z.to_nat total_blocks) zero_block).

Definition read_block (self : t) (block_id : Z) (buf : list Z) : outcome (list Z) :=
  assert_ (block_id <? total_blocks self) PAssert ;;
  assert_ (zlen buf =? BLOCK_SIZE) PAssert ;;
  unwrap (data self !! Z.to_nat block_id) PIndex.

Definition write_block (self : t) (block_id : Z) (buf : list Z) : outcome t :=
  assert_ (block_id <? total_blocks self) PAssert ;;
  assert_ (zlen buf =? BLOCK_SIZE) PAssert ;;
  unwrap (data self !! Z.to_nat block_id) PIndex ;;
  Ok (mk (total_blocks self) (<[Z.to_nat block_id := buf]> (data self))).

#[export] Instance device : BlockDevice t := {|
  Device.read_block := read_block;
  Device.write_block := write_block
|}.

Definition rep (d : t) (n : Z) (v : Z -> list Z) : Prop :=
  total_blocks d = n /\ zlen (data d) = n /\
  forall b, 0 <= b < n -> data d !! Z.to_nat b = Some (v b) /\ block_ok (v b).

#[export] Program Instance laws : BlockDeviceLaws t := {| dev_rep := rep |}.
Next Obligation. intros d n v b (_ & _ & H) Hb. by apply H. Qed.
Next Obligation.
  intros d n v b buf (Ht & _ & H) Hb Hl. cbn. unfold read_block.
  destruct (H b Hb) as [-> _].
  by rewrite !assert_ok by lia.
Qed.
Next Obligation.
  intros d n v b buf (Ht & Hl & H) Hb Hbuf. pose proof (proj1 Hbuf). cbn. unfold write_block.
  destruct (H b Hb) as [-> _]. rewrite !assert_ok by lia.
  eexists. split; [done|]. split; [done|]. cbn [data]. rewrite length_insert. split; [done|].
  intros b' Hb'. destruct (decide (b = b')) as [->|Hne].
  - rewrite list_lookup_insert_eq, fn_lookup_insert by lia. done.
  - rewrite list_lookup_insert_ne, fn_lookup_insert_ne by lia. auto.
Qed.
Next Obligation.
  intros d n v w (Ht & Hl & H) Hvw. split_and!; auto.
  intros b Hb. rewrite <- Hvw by done. auto.
Qed.

Lemma new_rep n : 0 <= n -> rep (new n) n (fun _ => zero_block).
Proof.
  intros Hn. unfold rep, new. cbn [total_blocks data]. rewrite length_replicate.
  split; [done|]. split; [lia|]. intros b Hb.
  rewrite lookup_replicate_2 by lia. auto with canyon.
Qed.

End Disk.

(** ** [BLK]: a partition of a disk reached through the AHCI driver *)
Module Blk.

Section driver.
(** [AHCIDriver] wraps a driver of the isomorphic_drivers crate, which is a
    parameter: [driver_read] and [driver_write] are its block transfers. *)
Context {Drv : Type} (driver_read : Drv -> Z -> list Z -> outcome (list Z))
  (driver_write : Drv -> Z -> list Z -> outcome Drv).

Record t := mk { offset : Z; driver : Drv }.

Definition read_block (self : t) (block_id : Z) (buf : list Z) : outcome (list Z) :=
  assert_ (zlen buf =? BLOCK_SIZE) PAssert ;;
  lba ← add64 block_id (offset self);
  driver_read (driver self) lba buf.

Definition write_block (self : t) (block_id : Z) (buf : list Z) : outcome t :=
  assert_ (zlen buf =? BLOCK_SIZE) PAssert ;;
  lba ← add64 block_id (offset self);
  driver ← driver_write (driver self) lba buf;
  Ok (mk (offset self) driver).

Definition device : BlockDevice t := {|
  Device.read_block := read_block;
  Device.write_block := write_block
|}.
End driver.
Arguments t : clear implicits.
Arguments mk {Drv}.
Arguments offset {Drv}.
Arguments driver {Drv}.

Section laws.
(** The driver transfers whole sectors: [drv_rep d n v] holds of a disk of [n]
    sectors with contents [v]. *)
Context {Drv : Type} `{HD : BlockDevice Drv} `{HL : !BlockDeviceLaws Drv}.

#[local] Instance blk : BlockDevice (t Drv) := device Device.read_block Device.write_block.

(** A partition of [n] blocks that starts at [offset] inside the disk. *)
Definition rep (d : t Drv) (n : Z) (v : Z -> list Z) : Prop :=
  0 <= offset d /\ exists m w, dev_rep (driver d) m w /\ offset d + n <= m /\ m <= U64 /\
    forall b, 0 <= b < n -> w (b + offset d) = v b.

Program Definition laws : BlockDeviceLaws (t Drv) := {| dev_rep := rep |}.
Next Obligation.
  intros d n v b (Ho & m & w & Hw & Hn & Hm & Hv) Hb.
  rewrite <- Hv by done. eapply dev_block; [done|lia].
Qed.
Next Obligation.
  intros d n v b buf (Ho & m & w & Hw & Hn & Hm & Hv) Hb Hl. cbn. unfold read_block.
  rewrite assert_ok by lia. cbn. rewrite add64_ok by lia. cbn.
  rewrite <- Hv by done. eapply dev_read; [done|lia|done].
Qed.
Next Obligation.
  intros d n v b buf (Ho & m & w & Hw & Hn & Hm & Hv) Hb Hl. cbn. unfold write_block.
  rewrite assert_ok by (apply Z.eqb_eq, Hl). cbn. rewrite add64_ok by lia. cbn.
  destruct (dev_write (driver d) m w (b + offset d) buf) as (d' & -> & Hd'); [done|lia|done|].
  eexists. split; [done|]. split; [done|]. exists m, (<[b + offset d := buf]> w).
  split_and!; auto. intros b' Hb'. cbn. destruct (decide (b = b')) as [->|Hne].
  - by rewrite !fn_lookup_insert.
  - rewrite !fn_lookup_insert_ne by lia. auto.
Qed.
Next Obligation.
  intros d n v w (Ho & m & x & Hx & Hn & Hm & Hv) Hvw. split; [done|].
  exists m, x. split_and!; auto. intros b Hb. rewrite <- Hvw by done. auto.
Qed.
End laws.
End Blk.

#[export] Existing Instances Disk.device Disk.laws.
