(* ===== verification/Machine.v ===== *)
(** What the boot loader and the kernel use besides [Prelude]: integers of 8, 16 and
    32 bits, loops over explicit state, and text as lists of characters (their code
    points) with the formatting and parsing of numbers of the standard library. *)
From S2P Require Import Prelude.
From Stdlib Require Ascii.
From Stdlib Require Export (notations) String.
From Stdlib Require Import ZArith Lia.
From stdpp Require Import gmap functions sorting list_numbers list.
Local Open Scope Z_scope.

(** ** Machine integers *)

Definition sub8 (a b : Z) : outcome Z := sub64 a b.
Definition add8 (a b : Z) : outcome Z :=
  if a + b <? 2 ^ 8 then Ok (a + b) else Fault (Panic POverflow).
Definition add32 (a b : Z) : outcome Z :=
  if a + b <? 2 ^ 32 then Ok (a + b) else Fault (Panic POverflow).
(** The result of an [i32] operation. *)
Definition i32 (x : Z) : outcome Z :=
  if (- 2 ^ 31 <=? x) && (x <? 2 ^ 31) then Ok x else Fault (Panic POverflow).
Definition div64 (a b : Z) : outcome Z :=
  if b =? 0 then Fault (Panic PDivide) else Ok (a / b).

Lemma i32_ok x : - 2 ^ 31 <= x < 2 ^ 31 -> i32 x = Ok x.
Proof. intros. unfold i32. rewrite (proj2 (Z.leb_le _ _)), (proj2 (Z.ltb_lt _ _)) by lia. done. Qed.
Lemma div64_ok a b : b <> 0 -> div64 a b = Ok (a / b).
Proof. intros. unfold div64. by rewrite (proj2 (Z.eqb_neq _ _)). Qed.

(** The next arithmetic operation of the code does not overflow. *)
Ltac ostep := match goal with
  | |- context [mbind _ ?m] => lazymatch m with
    | add64 ?a ?b => rewrite (add64_ok a b) by lia
    | sub64 ?a ?b => rewrite (sub64_ok a b) by lia
    | mul64 ?a ?b => rewrite (mul64_ok a b) by lia
    | div64 ?a ?b => rewrite (div64_ok a b) by lia
    | i32 ?a => rewrite (i32_ok a) by lia
    | assert_ ?b ?p => rewrite (assert_ok b p) by lia
    end
  end; omon.

(** ** Running state-passing code *)

Lemma bind_ok {S A B} (m : M S A) (f : A -> M S B) s a s' : m s = Ok (a, s') -> (m ≫= f) s = f a s'.
Proof. intros E. unfold mbind, M_bind. by rewrite E. Qed.
Lemma bind_fault {S A B} (m : M S A) (f : A -> M S B) s e : m s = Fault e -> (m ≫= f) s = Fault e.
Proof. intros E. unfold mbind, M_bind. by rewrite E. Qed.
Lemma bind_lift {S A B} (o : outcome A) (f : A -> M S B) s a : o = Ok a -> (lift o ≫= f) s = f a s.
Proof. by intros ->. Qed.

(** ** Loops *)

(** [for x in l { acc = f(acc, x)? }] without other state *)
Fixpoint foldO {A B} (f : B -> A -> outcome B) (acc : B) (l : list A) : outcome B :=
  match l with
  | [] => Ok acc
  | x :: l => acc ← f acc x; foldO f acc l
  end.

Lemma foldO_app {A B} (f : B -> A -> outcome B) acc l1 l2 :
  foldO f acc (l1 ++ l2) = (acc ← foldO f acc l1; foldO f acc l2).
Proof.
  revert acc. induction l1 as [|x l1 IH]; intros acc; [done|]. cbn [foldO app]. omon.
  destruct (f acc x); [apply IH|done].
Qed.

(** An invariant of the loop state and the elements still to come is kept. *)
Lemma foldO_inv {A B} (f : B -> A -> outcome B) (I : B -> list A -> Prop) acc l :
  (forall acc x l, I acc (x :: l) -> exists acc', f acc x = Ok acc' /\ I acc' l) ->
  I acc l -> exists acc', foldO f acc l = Ok acc' /\ I acc' [].
Proof.
  intros Hstep. revert acc. induction l as [|x l IH]; intros acc HI; [by exists acc|].
  destruct (Hstep _ _ _ HI) as (acc' & E & HI'). cbn [foldO]. rewrite E. omon. auto.
Qed.

(** [iter().enumerate()] *)
Definition enumerate {A} (l : list A) : list (Z * A) := imap (fun i x => (Z.of_nat i, x)) l.

(** ** Text *)

(** The digits of a number, most significant first. *)
Fixpoint digits_upto (fuel : nat) (radix n : Z) : list Z :=
  match fuel with
  | O => []
  | S fuel => (if n <? radix then [] else digits_upto fuel radix (n / radix)) ++ [n mod radix]
  end.

(** The character of a digit: '0' to '9', 'a' to 'z'. *)
Definition digit_char (d : Z) : Z := if d <? 10 then 48 + d else 87 + d.

(** [Display] of an unsigned integer of at most 64 bits. *)
Definition decimal (n : Z) : list Z := digit_char <$> digits_upto 64 10 n.

(** [{:b}], [{:x}] and [{:X}] of an unsigned integer of at most 64 bits. *)
Definition upper_digit_char (d : Z) : Z := if d <? 10 then 48 + d else 55 + d.
Definition binary (n : Z) : list Z := digit_char <$> digits_upto 64 2 n.
Definition lower_hex (n : Z) : list Z := digit_char <$> digits_upto 64 16 n.
Definition upper_hex (n : Z) : list Z := upper_digit_char <$> digits_upto 64 16 n.

(** [{:>k}] and [{:0k}]: at least [k] characters. *)
Definition pad_left (fill : Z) (k : nat) (s : list Z) : list Z :=
  replicate (k - length s) fill ++ s.

(** The characters of a literal. *)
Fixpoint str (s : String.string) : list Z :=
  match s with
  | String.EmptyString => []
  | String.String c s => Z.of_N (Ascii.N_of_ascii c) :: str s
  end.
Arguments str s%_string.

(** [char::to_digit] *)
Definition to_digit (radix c : Z) : option Z :=
  let d := if (48 <=? c) && (c <=? 57) then c - 48
           else if (97 <=? c) && (c <=? 122) then c - 87
           else if (65 <=? c) && (c <=? 90) then c - 55 else radix in
  if d <? radix then Some d else None.

(** [u64::from_str_radix]: the value, unless there is no digit, a character that is
    not one, or an overflow. *)
Fixpoint parse_digits (radix acc : Z) (s : list Z) : option Z :=
  match s with
  | [] => Some acc
  | c :: s => d ← to_digit radix c; if acc * radix + d <? U64 then parse_digits radix (acc * radix + d) s else None
  end.
Definition from_str_radix (radix : Z) (s : list Z) : option Z :=
  match s with
  | [] | [43] | [45] => None
  | 43 :: s => parse_digits radix 0 s
  | s => parse_digits radix 0 s
  end.

Lemma parse_digits_app radix acc s1 s2 :
  parse_digits radix acc (s1 ++ s2) = (n ← parse_digits radix acc s1; parse_digits radix n s2).
Proof.
  revert acc. induction s1 as [|c s1 IH]; intros acc; [done|]. cbn.
  destruct (to_digit radix c); [|done]. cbn. case_match; [apply IH|done].
Qed.

Lemma to_digit_char radix d : 2 <= radix <= 36 -> 0 <= d < radix -> to_digit radix (digit_char d) = Some d.
Proof.
  intros Hr Hd. unfold digit_char, to_digit. destruct (Z.ltb_spec d 10).
  - rewrite (proj2 (Z.leb_le 48 _)), (proj2 (Z.leb_le _ 57)) by lia. cbn [andb].
    replace (48 + d - 48) with d by lia. by rewrite (proj2 (Z.ltb_lt _ _)) by lia.
  - rewrite (proj2 (Z.leb_gt (87 + d) 57)), andb_false_r by lia.
    rewrite (proj2 (Z.leb_le 97 _)), (proj2 (Z.leb_le _ 122)) by lia. cbn [andb].
    replace (87 + d - 87) with d by lia. by rewrite (proj2 (Z.ltb_lt _ _)) by lia.
Qed.

Lemma parse_digits_upto fuel radix n : 2 <= radix <= 36 -> u64 n -> n < radix ^ Z.of_nat fuel ->
  parse_digits radix 0 (digit_char <$> digits_upto fuel radix n) = Some n.
Proof.
  intros Hr. revert n. induction fuel as [|fuel IH]; intros n Hn Hf.
  { cbn in *. unfold u64 in Hn. f_equal. lia. }
  unfold u64 in *. pose proof (Z.mod_pos_bound n radix). pose proof (Z.div_mod n radix).
  cbn [digits_upto]. rewrite fmap_app, parse_digits_app.
  assert (E : parse_digits radix 0 (digit_char <$> (if n <? radix then [] else digits_upto fuel radix (n / radix))) =
    Some (n / radix)).
  { destruct (Z.ltb_spec n radix); [by rewrite Z.div_small by lia|]. apply IH.
    - split; [apply Z.div_pos; lia|]. apply Z.div_lt_upper_bound; [lia|]. unfold U64 in *. nia.
    - apply Z.div_lt_upper_bound; [lia|]. rewrite <- Z.pow_succ_r, <- Nat2Z.inj_succ by lia. done. }
  rewrite E. cbn. rewrite to_digit_char by lia. cbn.
  rewrite (proj2 (Z.ltb_lt _ _)) by lia. f_equal. lia.
Qed.

Lemma digits_upto_range fuel radix n : 2 <= radix -> Forall (fun d => 0 <= d < radix) (digits_upto fuel radix n).
Proof.
  intros Hr. revert n. induction fuel as [|fuel IH]; intros n; cbn; [done|].
  apply Forall_app_2; [case_match; [done|apply IH]|].
  apply Forall_singleton, Z.mod_pos_bound. lia.
Qed.

(** The characters of a printed number: digits and lower case letters. *)
Definition numeral (c : Z) : Prop := 48 <= c <= 57 \/ 97 <= c <= 122.

Lemma digit_char_numeral d : 0 <= d < 36 -> numeral (digit_char d).
Proof. intros. unfold digit_char, numeral. destruct (Z.ltb_spec d 10); lia. Qed.

Lemma digits_numeral radix n : 2 <= radix <= 36 -> Forall numeral (digit_char <$> digits_upto 64 radix n).
Proof.
  intros Hr. apply Forall_fmap. eapply Forall_impl; [apply (digits_upto_range 64 radix n); lia|].
  intros d Hd. cbn in Hd. apply digit_char_numeral. lia.
Qed.

Lemma digits_upto_nonempty radix n : digits_upto 64 radix n <> [].
Proof.
  intros E. assert (H : length (digits_upto 64 radix n) = 0%nat) by (by rewrite E).
  cbn [digits_upto] in H. rewrite length_app in H. cbn in H. lia.
Qed.

(** Printed numbers parse as themselves. *)
Lemma from_str_radix_digits radix n : 2 <= radix <= 36 -> u64 n ->
  from_str_radix radix (digit_char <$> digits_upto 64 radix n) = Some n.
Proof.
  intros Hr Hn. pose proof (digits_numeral radix n Hr) as Hnum.
  assert (E : parse_digits radix 0 (digit_char <$> digits_upto 64 radix n) = Some n).
  { apply parse_digits_upto; [done|done|]. unfold u64, U64 in Hn.
    assert (2 ^ 64 <= radix ^ 64) by (apply Z.pow_le_mono_l; lia). change (Z.of_nat 64) with 64. lia. }
  destruct (digit_char <$> digits_upto 64 radix n) as [|c s] eqn:Es.
  { by apply fmap_nil_inv, digits_upto_nonempty in Es. }
  apply Forall_cons in Hnum as [Hc _]. unfold numeral in Hc. cbn [from_str_radix].
  repeat case_match; try done; subst; lia.
Qed.
