(* ===== verification/Block.v ===== *)
(** A cached block ([Cache] of fs/src/cafs/cache.rs) with typed access to its
    bytes ([get_ref], [get_mut]) over a class of in-memory representations; the
    interface [BlockCache] the other components of the file system are written
    against; and the specifications ([spec]) they are proved with, stated on the
    abstract contents of the device instead of on the cache. *)
From S2P Require Import Prelude Device.
From Stdlib Require Import ZArith Lia.
From stdpp Require Import gmap functions list.
Local Open Scope Z_scope.

(** ** Typed views of bytes *)

(** [#[repr(C)]] data: its size, the value some bytes hold, and the bytes that
    result from storing a value over old bytes (padding keeps the old ones). *)
Class Repr (T : Type) := {
  size_of : Z;
  of_bytes : list Z -> T;
  to_bytes : list Z -> T -> list Z
}.
Arguments size_of T {_}.

Class ReprLaws (T : Type) `{Repr T} := {
  wf : T -> Prop;
  size_of_bounds : 0 < size_of T <= BLOCK_SIZE;
  length_to_bytes old x : zlen old = size_of T -> wf x -> zlen (to_bytes old x) = size_of T;
  to_bytes_u8 old x : Forall u8 old -> wf x -> Forall u8 (to_bytes old x);
  of_to_bytes old x : zlen old = size_of T -> wf x -> of_bytes (to_bytes old x) = x;
  of_bytes_wf l : zlen l = size_of T -> Forall u8 l -> wf (of_bytes l)
}.

(** The value of type [T] at [off] in a block, and the block with it replaced. *)
Definition peek T `{Repr T} (off : Z) (blk : list Z) : T :=
  of_bytes (take (Z.to_nat (size_of T)) (drop (Z.to_nat off) blk)).
Definition poke {T} `{Repr T} (off : Z) (y : T) (blk : list Z) : list Z :=
  splice (Z.to_nat off) (to_bytes (take (Z.to_nat (size_of T)) (drop (Z.to_nat off) blk)) y) blk.

Section views.
Context {T : Type} `{ReprLaws T}.

Lemma peek_bytes off blk : block_ok blk -> 0 <= off -> off + size_of T <= BLOCK_SIZE ->
  let l := take (Z.to_nat (size_of T)) (drop (Z.to_nat off) blk) in
  zlen l = size_of T /\ Forall u8 l.
Proof.
  intros [Hl Hb] Ho Hs l. pose proof (size_of_bounds (T := T)). unfold l. split.
  - rewrite length_take, length_drop. lia.
  - by apply Forall_take, Forall_drop.
Qed.

Lemma peek_wf off blk : block_ok blk -> 0 <= off -> off + size_of T <= BLOCK_SIZE ->
  wf (peek T off blk).
Proof. intros Hb Ho Hs. destruct (peek_bytes off blk Hb Ho Hs). by apply of_bytes_wf. Qed.

Lemma poke_ok off (y : T) blk : block_ok blk -> wf y ->
  0 <= off -> off + size_of T <= BLOCK_SIZE -> block_ok (poke off y blk).
Proof.
  intros Hb Hy Ho Hs. destruct (peek_bytes off blk Hb Ho Hs) as [Hl Hu]. split.
  - unfold poke. rewrite length_splice; [apply Hb|].
    pose proof (length_to_bytes _ y Hl Hy). pose proof (proj1 Hb). lia.
  - apply Forall_splice; [by apply to_bytes_u8|apply Hb].
Qed.

Lemma peek_poke off (y : T) blk : block_ok blk -> wf y ->
  0 <= off -> off + size_of T <= BLOCK_SIZE -> peek T off (poke off y blk) = y.
Proof.
  intros Hb Hy Ho Hs. destruct (peek_bytes off blk Hb Ho Hs) as [Hl Hu].
  pose proof (length_to_bytes _ y Hl Hy) as He. unfold peek, poke.
  pose proof (size_of_bounds (T := T)). rewrite <- He at 1. rewrite Nat2Z.id.
  rewrite splice_read by (pose proof (proj1 Hb); lia). by apply of_to_bytes.
Qed.
End views.

(** ** [Cache] *)
Module Cache.

Record t := mk { cache : list Z; block_id : Z; modified : bool }.

Definition new {D} `{BlockDevice D} (block_id : Z) (block_device : D) : outcome t :=
  cache ← read_block block_device block_id zero_block;
  Ok (mk cache block_id false).

Definition get_ref T `{Repr T} (self : t) (offset : Z) : outcome T :=
  fin ← add64 offset (size_of T);
  assert_ (fin <=? BLOCK_SIZE) PAssert ;;
  assert_ (offset <? BLOCK_SIZE) PIndex ;;
  Ok (peek T offset (cache self)).

(** [get_mut] gives write access to the value at [offset]: the value, and how a
    new one is stored back. *)
Definition get_mut T `{Repr T} (self : t) (offset : Z) : outcome (T * (T -> t)) :=
  x ← get_ref T self offset;
  Ok (x, fun y => mk (poke offset y (cache self)) (block_id self) true).

Definition sync {D} `{BlockDevice D} (self : t) (block_device : D) : outcome (t * D) :=
  if modified self then
    block_device ← write_block block_device (block_id self) (cache self);
    Ok (mk (cache self) (block_id self) false, block_device)
  else Ok (self, block_device).

Definition read {S} T `{Repr T} {V} (self : t) (offset : Z) (f : T -> M S V) : M S V :=
  x ← lift (get_ref T self offset); f x.

Definition modify {S} T `{Repr T} {V} (self : t) (offset : Z) (f : T -> M S (V * T)) :
    M S (V * t) :=
  '(x, put) ← lift (get_mut T self offset);
  '(v, y) ← f x;
  mret (v, put y).

Definition drop {D} `{BlockDevice D} (self : t) (block_device : D) : outcome D :=
  '(_, block_device) ← sync self block_device; Ok block_device.

End Cache.

(** How an enclosing frame holds a cached block: it owns a clone of the [Arc] and
    a read or write guard of the [RwLock] in it. *)
Inductive lock := Rd | Wr.
#[export] Instance lock_eq_dec : EqDecision lock.
Proof. solve_decision. Defined.

Definition CACHE_SIZE : nat := 32.

(** ** The interface other components use *)

(** [with_read b k] is [get(b).read()] with [k] run on the cached block while the
    guard and the [Arc] are alive; [with_write] the same with [write()], [k]
    returning the new state of the cached block. *)
Class BlockCache (S : Type) := {
  with_read : forall {A}, Z -> (Cache.t -> M S A) -> M S A;
  with_write : forall {A}, Z -> (Cache.t -> M S (A * Cache.t)) -> M S A;
  flush : M S unit
}.

(** [cache.get(b).read().read(off, f)] and [cache.get(b).write().modify(off, f)] *)
Definition read_at {S} `{BlockCache S} T `{Repr T} {A} (b off : Z) (f : T -> M S A) : M S A :=
  with_read b (fun c => Cache.read T c off f).
Definition modify_at {S} `{BlockCache S} T `{Repr T} {A} (b off : Z) (f : T -> M S (A * T)) :
    M S A :=
  with_write b (fun c => Cache.modify T c off f).

(** ** Specifications over the abstract contents *)

(** [rep st v h]: the cache is consistent, block [b] of the device reads as [v b]
    and the enclosing frames hold [h]. [stable h st st']: what they hold has not
    changed between [st] and [st']. *)
Class BlockCacheRep (S : Type) (n : Z) := {
  rep : S -> (Z -> list Z) -> list (Z * lock) -> Prop;
  stable : list (Z * lock) -> S -> S -> Prop
}.
Arguments rep {S} n {_}.
Arguments stable {S} n {_}.

(** From a state with contents [v] and frames [h], [m] returns (it neither
    panics, deadlocks nor diverges), and its result and the new contents
    satisfy [P]. *)
Definition spec {S} (n : Z) `{BlockCacheRep S n} {A} (m : M S A) (v : Z -> list Z)
    (h : list (Z * lock)) (P : A -> (Z -> list Z) -> Prop) : Prop :=
  forall st, rep n st v h ->
    exists a st' v', m st = Ok (a, st') /\ rep n st' v' h /\ stable n h st st' /\ P a v'.

(** From a state with contents [v] and frames [h], [m] ends in the fault [e]. *)
Definition faults {S} (n : Z) `{BlockCacheRep S n} {A} (m : M S A) (v : Z -> list Z)
    (h : list (Z * lock)) (e : fault) : Prop :=
  forall st, rep n st v h -> m st = Fault e.

Class BlockCacheLaws (S : Type) (n : Z) `{BlockCache S} `{!BlockCacheRep S n} := {
  rep_block st v h b : rep n st v h -> 0 <= b < n -> block_ok (v b);
  rep_ext st v w h : rep n st v h -> (forall b, 0 <= b < n -> v b = w b) -> rep n st w h;
  stable_refl h st : stable n h st st;
  stable_trans h st1 st2 st3 : stable n h st1 st2 -> stable n h st2 st3 -> stable n h st1 st3;
  stable_view h st st' v v' b : rep n st v h -> rep n st' v' h -> stable n h st st' ->
    b ∈ h.*1 -> 0 <= b < n -> v' b = v b;
  spec_with_read A b (k : Cache.t -> M S A) v h P :
    0 <= b < n -> (b, Wr) ∉ h -> (length h < CACHE_SIZE)%nat ->
    (forall c, Cache.cache c = v b -> Cache.block_id c = b -> spec n (k c) v ((b, Rd) :: h) P) ->
    spec n (with_read b k) v h P;
  spec_with_write A b (k : Cache.t -> M S (A * Cache.t)) v h P :
    0 <= b < n -> b ∉ h.*1 -> (length h < CACHE_SIZE)%nat ->
    (forall c, Cache.cache c = v b -> Cache.block_id c = b ->
      spec n (k c) v ((b, Wr) :: h) (fun '(a, c') v' =>
        Cache.block_id c' = b /\ block_ok (Cache.cache c') /\
        (c' = c \/ Cache.modified c' = true) /\ P a (<[b := Cache.cache c']> v'))) ->
    spec n (with_write b k) v h P;
  faults_with_read A b (k : Cache.t -> M S A) v h e :
    0 <= b < n -> (b, Wr) ∉ h -> (length h < CACHE_SIZE)%nat ->
    (forall c, Cache.cache c = v b -> Cache.block_id c = b -> faults n (k c) v ((b, Rd) :: h) e) ->
    faults n (with_read b k) v h e;
  faults_with_write A b (k : Cache.t -> M S (A * Cache.t)) v h e :
    0 <= b < n -> b ∉ h.*1 -> (length h < CACHE_SIZE)%nat ->
    (forall c, Cache.cache c = v b -> Cache.block_id c = b -> faults n (k c) v ((b, Wr) :: h) e) ->
    faults n (with_write b k) v h e;
  spec_flush v : spec n flush v [] (fun _ v' => v' = v)
}.

Section rules.
Context {S : Type} {n : Z} `{BlockCacheLaws S n}.

Lemma spec_ret {A} (a : A) v h (P : A -> _ -> Prop) : P a v -> spec n (mret a) v h P.
Proof. intros HP st Hst. exists a, st, v. split_and!; try done. apply stable_refl. Qed.

Lemma spec_bind {A B} (m : M S A) (f : A -> M S B) v h P Q :
  spec n m v h Q -> (forall a v', Q a v' -> spec n (f a) v' h P) -> spec n (m ≫= f) v h P.
Proof.
  intros Hm Hf st Hst. destruct (Hm st Hst) as (a & st1 & v1 & E1 & R1 & T1 & Q1).
  destruct (Hf a v1 Q1 st1 R1) as (b & st2 & v2 & E2 & R2 & T2 & Q2).
  exists b, st2, v2. unfold mbind, M_bind. rewrite E1.
  split_and!; try done. by eapply stable_trans.
Qed.

Lemma spec_conseq {A} (m : M S A) v h (P Q : A -> _ -> Prop) :
  spec n m v h Q -> (forall a v', Q a v' -> P a v') -> spec n m v h P.
Proof.
  intros Hm HPQ st Hst. destruct (Hm st Hst) as (a & st1 & v1 & ? & ? & ? & ?).
  exists a, st1, v1. auto.
Qed.

Lemma spec_lift {A} (o : outcome A) a v h (P : A -> _ -> Prop) :
  o = Ok a -> P a v -> spec n (lift o) v h P.
Proof. intros -> HP st Hst. exists a, st, v. split_and!; try done. apply stable_refl. Qed.

(** What the enclosing frames hold keeps its contents. *)
Lemma spec_frame {A} (m : M S A) v h P :
  spec n m v h P ->
  spec n m v h (fun a v' => P a v' /\ forall b, b ∈ h.*1 -> 0 <= b < n -> v' b = v b).
Proof.
  intros Hm st Hst. destruct (Hm st Hst) as (a & st1 & v1 & E1 & R1 & T1 & Q1).
  exists a, st1, v1. split_and!; auto. intros b Hb Hr. eapply stable_view; eauto.
Qed.

(** The device's blocks are blocks. *)
Lemma spec_blocks {A} (m : M S A) v h P :
  ((forall b, 0 <= b < n -> block_ok (v b)) -> spec n m v h P) -> spec n m v h P.
Proof. intros Hm st Hst. apply Hm; [|done]. intros. by eapply rep_block. Qed.

(** Typed access through the cache. *)
Lemma get_ref_ok T `{ReprLaws T} (c : Cache.t) off :
  0 <= off -> off + size_of T <= BLOCK_SIZE ->
  Cache.get_ref T c off = Ok (peek T off (Cache.cache c)).
Proof.
  intros. unfold Cache.get_ref. pose proof (size_of_bounds (T := T)).
  rewrite add64_ok by (unfold BLOCK_SIZE, U64 in *; lia). cbn.
  by rewrite !assert_ok by (unfold BLOCK_SIZE in *; lia).
Qed.

Lemma spec_bind_lift {A B} (o : outcome A) a (f : A -> M S B) v h P :
  o = Ok a -> spec n (f a) v h P -> spec n (lift o ≫= f) v h P.
Proof. by intros ->. Qed.

Lemma spec_read T `{ReprLaws T} {A} c off (f : T -> M S A) v h P :
  0 <= off -> off + size_of T <= BLOCK_SIZE ->
  spec n (f (peek T off (Cache.cache c))) v h P -> spec n (Cache.read T c off f) v h P.
Proof. intros. eapply spec_bind_lift; [by apply get_ref_ok|done]. Qed.

Lemma spec_modify T `{ReprLaws T} {A} c off (f : T -> M S (A * T)) v h P :
  0 <= off -> off + size_of T <= BLOCK_SIZE ->
  spec n (f (peek T off (Cache.cache c))) v h (fun '(a, y) v' =>
    P (a, Cache.mk (poke off y (Cache.cache c)) (Cache.block_id c) true) v') ->
  spec n (Cache.modify T c off f) v h P.
Proof.
  intros Ho Hs Hf. unfold Cache.modify. eapply spec_bind_lift.
  { unfold Cache.get_mut. by rewrite get_ref_ok. }
  eapply spec_bind; [done|]. intros [a y] v' HP. by apply spec_ret.
Qed.

Lemma spec_read_at T `{ReprLaws T} {A} b off (f : T -> M S A) v h P :
  0 <= b < n -> (b, Wr) ∉ h -> (length h < CACHE_SIZE)%nat ->
  0 <= off -> off + size_of T <= BLOCK_SIZE ->
  spec n (f (peek T off (v b))) v ((b, Rd) :: h) P -> spec n (read_at T b off f) v h P.
Proof.
  intros. apply spec_with_read; [done..|]. intros c Hc Hid.
  apply spec_read; [done..|]. by rewrite Hc.
Qed.

Lemma spec_modify_at T `{ReprLaws T} {A} b off (f : T -> M S (A * T)) v h P :
  0 <= b < n -> b ∉ h.*1 -> (length h < CACHE_SIZE)%nat ->
  0 <= off -> off + size_of T <= BLOCK_SIZE ->
  spec n (f (peek T off (v b))) v ((b, Wr) :: h) (fun '(a, y) v' =>
    wf y /\ P a (<[b := poke off y (v b)]> v')) ->
  spec n (modify_at T b off f) v h P.
Proof.
  intros Hb Hh Hl Ho Hs Hf. apply spec_blocks. intros Hok.
  apply spec_with_write; [done..|]. intros c Hc Hid.
  apply spec_modify; [done..|]. rewrite Hc. eapply spec_conseq; [done|].
  intros [a y] v' [Hy HP]. simpl. split_and!; auto; by apply poke_ok; [apply Hok|..].
Qed.

Lemma faults_bind {A B} (m : M S A) (f : A -> M S B) v h e :
  faults n m v h e -> faults n (m ≫= f) v h e.
Proof. intros Hm st Hst. unfold mbind, M_bind. by rewrite (Hm st Hst). Qed.

Lemma faults_spec_bind {A B} (m : M S A) (f : A -> M S B) v h e Q :
  spec n m v h Q -> (forall a v', Q a v' -> faults n (f a) v' h e) -> faults n (m ≫= f) v h e.
Proof.
  intros Hm Hf st Hst. destruct (Hm st Hst) as (a & st1 & v1 & E1 & R1 & T1 & Q1).
  unfold mbind, M_bind. rewrite E1. by apply (Hf a v1).
Qed.

Lemma faults_lift {A} (o : outcome A) v h e : o = Fault e -> faults n (lift o) v h e.
Proof. by intros ->. Qed.

Lemma faults_bind_lift {A B} (o : outcome A) a (f : A -> M S B) v h e :
  o = Ok a -> faults n (f a) v h e -> faults n (lift o ≫= f) v h e.
Proof. by intros ->. Qed.

Lemma faults_blocks {A} (m : M S A) v h e :
  ((forall b, 0 <= b < n -> block_ok (v b)) -> faults n m v h e) -> faults n m v h e.
Proof. intros Hm st Hst. apply Hm; [|done]. intros. by eapply rep_block. Qed.

Lemma faults_modify_at T `{ReprLaws T} {A} b off (f : T -> M S (A * T)) v h e :
  0 <= b < n -> b ∉ h.*1 -> (length h < CACHE_SIZE)%nat ->
  0 <= off -> off + size_of T <= BLOCK_SIZE ->
  faults n (f (peek T off (v b))) v ((b, Wr) :: h) e -> faults n (modify_at T b off f) v h e.
Proof.
  intros Hb Hh Hl Ho Hs Hf. apply faults_with_write; [done..|]. intros c Hc Hid st Hst.
  unfold Cache.modify, Cache.get_mut. rewrite get_ref_ok, Hc by done.
  specialize (Hf st Hst). unfold mbind, M_bind, lift. omon. by rewrite Hf.
Qed.
End rules.
