(* ===== verification/Manager.v ===== *)
(** [CacheManager] of fs/src/cafs/cache.rs: at most 32 cached blocks, the first
    one nobody else holds being written back and dropped when a new one is needed. *)
From S2P Require Import Prelude Device Block.
From Stdlib Require Import ZArith Lia.
From stdpp Require Import gmap functions list.
Local Open Scope Z_scope.

(** ** [CacheManager] *)
Module CacheManager.

Section manager.
Context {D : Type} `{BlockDevice D}.

(** [held] are the cached blocks the enclosing frames hold, innermost first. *)
Record t := mk { queue : list (Z * Cache.t); block_device : D; held : list (Z * lock) }.

Definition new (block_device : D) : t := mk [] block_device [].

Fixpoint entry (b : Z) (q : list (Z * Cache.t)) : option Cache.t :=
  match q with
  | [] => None
  | (id, c) :: q => if id =? b then Some c else entry b q
  end.

(** In-place mutation of the cached block [b]. *)
Fixpoint set_entry (b : Z) (c : Cache.t) (q : list (Z * Cache.t)) : list (Z * Cache.t) :=
  match q with
  | [] => []
  | (id, c') :: q => if id =? b then (id, c) :: q else (id, c') :: set_entry b c q
  end.

(** [Arc::strong_count]: the queue's own clone and those of the enclosing frames. *)
Definition strong_count (h : list (Z * lock)) (b : Z) : nat :=
  S (length (filter (fun x => x.1 = b) h)).

Definition substitute (h : list (Z * lock)) (q : list (Z * Cache.t)) (dev : D) :
    outcome (list (Z * Cache.t) * D) :=
  if decide (length q = CACHE_SIZE) then
    match find_index (fun x => bool_decide (strong_count h x.1 = 1%nat)) q with
    | Some idx =>
        '(_, c) ← unwrap (q !! idx) PIndex;
        dev ← Cache.drop c dev;
        Ok (swap_remove idx q, dev)
    | None => Fault (Panic PBlockCache)
    end
  else Ok (q, dev).

Definition get (block_id : Z) : M t unit := fun self =>
  match entry block_id (queue self) with
  | Some _ => Ok (tt, self)
  | None =>
      '(q, dev) ← substitute (held self) (queue self) (block_device self);
      c ← Cache.new block_id dev;
      Ok (tt, mk (q ++ [(block_id, c)]) dev (held self))
  end.

Definition hold (x : Z * lock) (self : t) : t :=
  mk (queue self) (block_device self) (x :: held self).
Definition release (self : t) : t :=
  mk (queue self) (block_device self) (tail (held self)).
Definition store (b : Z) (c : Cache.t) (self : t) : t :=
  mk (set_entry b c (queue self)) (block_device self) (held self).

Definition read_guard {A} (b : Z) (k : Cache.t -> M t A) : M t A := fun self =>
  if bool_decide ((b, Wr) ∈ held self) then Fault Deadlock else
  c ← unwrap (entry b (queue self)) PUnwrap;
  '(a, self) ← k c (hold (b, Rd) self);
  Ok (a, release self).

Definition write_guard {A} (b : Z) (k : Cache.t -> M t (A * Cache.t)) : M t A := fun self =>
  if bool_decide (b ∈ (held self).*1) then Fault Deadlock else
  c ← unwrap (entry b (queue self)) PUnwrap;
  '((a, c), self) ← k c (hold (b, Wr) self);
  Ok (a, release (store b c self)).

Definition with_read {A} (b : Z) (k : Cache.t -> M t A) : M t A := get b ;; read_guard b k.
Definition with_write {A} (b : Z) (k : Cache.t -> M t (A * Cache.t)) : M t A :=
  get b ;; write_guard b k.

Fixpoint sync_all (h : list (Z * lock)) (q : list (Z * Cache.t)) (dev : D) :
    outcome (list (Z * Cache.t) * D) :=
  match q with
  | [] => Ok ([], dev)
  | (id, c) :: q =>
      if bool_decide (id ∈ h.*1) then Fault Deadlock else
      '(c, dev) ← Cache.sync c dev;
      '(q, dev) ← sync_all h q dev;
      Ok ((id, c) :: q, dev)
  end.

Definition flush : M t unit := fun self =>
  '(q, dev) ← sync_all (held self) (queue self) (block_device self);
  Ok (tt, mk q dev (held self)).

#[export] Instance block_cache : BlockCache t := {|
  Block.with_read := @with_read;
  Block.with_write := @with_write;
  Block.flush := flush
|}.
End manager.
Arguments t : clear implicits.
Arguments mk {D}.
Arguments queue {D}.
Arguments block_device {D}.
Arguments held {D}.

(** *** The queue as a finite map *)

Lemma entry_elem b c q : NoDup q.*1 -> entry b q = Some c <-> (b, c) ∈ q.
Proof.
  induction q as [|[id c'] q IH]; csimpl.
  - intros _. split; [done|]. by intros ?%elem_of_nil.
  - intros [Hid Hq]%NoDup_cons. rewrite elem_of_cons. destruct (Z.eqb_spec id b) as [->|Hne].
    + split; [naive_solver|]. intros [?|Hin]; [naive_solver|].
      destruct Hid. apply list_elem_of_fmap. by exists (b, c).
    + rewrite IH by done. naive_solver.
Qed.

Lemma entry_None b q : entry b q = None <-> b ∉ q.*1.
Proof.
  induction q as [|[id c'] q IH]; csimpl.
  - split; [intros _ ?%elem_of_nil; done|done].
  - rewrite not_elem_of_cons, <- IH. destruct (Z.eqb_spec id b); naive_solver.
Qed.

Lemma entry_is_Some b q : is_Some (entry b q) <-> b ∈ q.*1.
Proof.
  pose proof (entry_None b q). destruct (entry b q) eqn:E.
  - split; [|eauto]. intros _. destruct (decide (b ∈ q.*1)); [done|]. naive_solver.
  - split; [by intros [? ?]|]. naive_solver.
Qed.

Lemma entry_Permutation b q q' : NoDup q.*1 -> q ≡ₚ q' -> entry b q = entry b q'.
Proof.
  intros Hq Hp. assert (NoDup q'.*1) by (by rewrite <- Hp). apply option_eq. intros c.
  rewrite !entry_elem by done. by rewrite Hp.
Qed.

Lemma entry_app b q q' :
  entry b (q ++ q') = match entry b q with Some c => Some c | None => entry b q' end.
Proof. induction q as [|[id c] q IH]; simpl; [done|]. by destruct (id =? b). Qed.

Lemma entry_set b b' c q : is_Some (entry b q) ->
  entry b' (set_entry b c q) = if decide (b = b') then Some c else entry b' q.
Proof.
  induction q as [|[id c'] q IH]; csimpl; [by intros [? ?]|].
  destruct (Z.eqb_spec id b) as [->|Hne]; simpl; intros Hs.
  - case_decide as Hd; [subst; by rewrite Z.eqb_refl|].
    by rewrite (proj2 (Z.eqb_neq b b')) by done.
  - rewrite IH by done. destruct (Z.eqb_spec id b') as [->|]; [|done].
    by rewrite decide_False by done.
Qed.

Lemma set_entry_fst b c q : (set_entry b c q).*1 = q.*1.
Proof. induction q as [|[id c'] q IH]; csimpl; [done|]. by destruct (id =? b); csimpl; rewrite ?IH. Qed.

Lemma strong_count_1 h b : strong_count h b = 1%nat <-> b ∉ h.*1.
Proof.
  unfold strong_count. split.
  - intros Hl [x [-> Hx]]%list_elem_of_fmap.
    assert (Hf : x ∈ filter (fun y => y.1 = x.1) h) by (by apply list_elem_of_filter).
    destruct (filter _ h); [by apply elem_of_nil in Hf|done].
  - intros Hb. destruct (filter _ h) as [|x l] eqn:E; [done|]. exfalso. apply Hb.
    assert (Hx : x ∈ filter (fun y => y.1 = b) h) by (rewrite E; constructor).
    apply list_elem_of_filter in Hx as [<- Hx]. apply list_elem_of_fmap. eauto.
Qed.

(** *** Consistency *)
Section laws.
Context {D : Type} `{HD : BlockDevice D} `{HL : !BlockDeviceLaws D} (n : Z).

(** The contents of block [b]: what is cached, or what the device holds. *)
Definition view (st : t D) (dv : Z -> list Z) (b : Z) : list Z :=
  match entry b (queue st) with Some c => Cache.cache c | None => dv b end.

(** A cached block: it is cached under its own id, holds 512 bytes, and equals
    the device's block unless it is marked modified. *)
Definition entry_ok (dv : Z -> list Z) (b : Z) (c : Cache.t) : Prop :=
  0 <= b < n /\ Cache.block_id c = b /\ block_ok (Cache.cache c) /\
  (Cache.modified c = false -> Cache.cache c = dv b).

Record inv (st : t D) (dv : Z -> list Z) : Prop := {
  inv_dev : dev_rep (block_device st) n dv;
  inv_nodup : NoDup (queue st).*1;
  inv_len : (length (queue st) <= CACHE_SIZE)%nat;
  inv_entry b c : entry b (queue st) = Some c -> entry_ok dv b c;
  inv_held b : b ∈ (held st).*1 -> is_Some (entry b (queue st))
}.

Definition crep (st : t D) (v : Z -> list Z) (h : list (Z * lock)) : Prop :=
  held st = h /\ exists dv, inv st dv /\ forall b, 0 <= b < n -> v b = view st dv b.

Definition cstable (h : list (Z * lock)) (st st' : t D) : Prop :=
  forall b, b ∈ h.*1 -> entry b (queue st') = entry b (queue st).

#[export] Instance manager_rep : BlockCacheRep (t D) n := {| rep := crep; stable := cstable |}.

(** An unheld block to evict exists when fewer than 32 are held. *)
Lemma find_unheld (q : list (Z * Cache.t)) (h : list (Z * lock)) :
  NoDup q.*1 -> (length h < length q)%nat ->
  exists i b c, find_index (fun x => bool_decide (strong_count h x.1 = 1%nat)) q = Some i /\
    q !! i = Some (b, c) /\ b ∉ h.*1.
Proof.
  intros Hq Hlen. destruct (find_index _ q) as [i|] eqn:E.
  - apply find_index_Some in E as Hi. destruct Hi as ([b c] & Hi & Hb).
    exists i, b, c. split_and!; auto.
    apply strong_count_1. by apply bool_decide_eq_true in Hb.
  - exfalso. apply find_index_None in E. rewrite Forall_forall in E.
    assert (Hsub : q.*1 ⊆+ h.*1).
    { apply NoDup_submseteq; [done|]. intros b ([b' c] & -> & Hin)%list_elem_of_fmap.
      specialize (E _ Hin). apply bool_decide_eq_false in E. rewrite strong_count_1 in E.
      simpl in *. destruct (decide (b' ∈ h.*1)); [done|]. by destruct E. }
    apply submseteq_length in Hsub. rewrite !length_fmap in Hsub. lia.
Qed.

(** Writing a cached block back. *)
Lemma sync_spec dev dv b c : dev_rep dev n dv -> entry_ok dv b c ->
  exists dev', Cache.sync c dev = Ok (Cache.mk (Cache.cache c) b false, dev') /\
    dev_rep dev' n (<[b := Cache.cache c]> dv).
Proof.
  intros Hdev (Hb & Hid & Hok & Hm). unfold Cache.sync.
  destruct c as [blk id m]; simpl in *. subst id. destruct m.
  - destruct (dev_write dev n dv b blk) as (dev' & -> & Hdev'); [done..|]. eauto.
  - eexists. split; [done|]. rewrite Hm by done. eapply dev_ext; [done|].
    intros b' _. destruct (decide (b = b')) as [->|]; [by rewrite fn_lookup_insert|].
    by rewrite fn_lookup_insert_ne.
Qed.

(** Dropping the block at position [i] of the queue writes it back: no block
    changes its contents. *)
Lemma evict_inv st dv i b c dev' : inv st dv -> queue st !! i = Some (b, c) ->
  b ∉ (held st).*1 -> dev_rep dev' n (<[b := Cache.cache c]> dv) ->
  let st' := mk (swap_remove i (queue st)) dev' (held st) in
  inv st' (<[b := Cache.cache c]> dv) /\
  (forall b', view st' (<[b := Cache.cache c]> dv) b' = view st dv b') /\
  (forall b', entry b' (queue st') = if decide (b = b') then None else entry b' (queue st)).
Proof.
  intros I Hi Hb Hdev st'. pose proof (swap_remove_Permutation _ _ _ Hi) as Hp.
  pose proof (inv_nodup _ _ I) as Hq. assert (Hq' := Hq). rewrite Hp in Hq'. csimpl in *.
  apply NoDup_cons in Hq' as [Hnin Hq'].
  assert (E : forall b', entry b' (queue st') = if decide (b = b') then None else entry b' (queue st)).
  { intros b'. rewrite (entry_Permutation b' _ _ Hq Hp). simpl.
    case_decide as Hd; [subst; by apply entry_None|]. by rewrite (proj2 (Z.eqb_neq _ _)). }
  split_and!; auto.
  - constructor; auto.
    + pose proof (inv_len _ _ I). pose proof (length_swap_remove _ _ _ Hi). simpl. lia.
    + intros b' c' Hc'. rewrite E in Hc'. case_decide; [done|].
      destruct (inv_entry _ _ I _ _ Hc') as (?&?&?&?). do 3 (split; [done|]).
      intros. rewrite fn_lookup_insert_ne by done. auto.
    + intros b' Hb'. rewrite E. rewrite decide_False by (intros ->; done).
      by apply (inv_held _ _ I).
  - intros b'. unfold view. rewrite E. case_decide as Hd.
    + subst b'. rewrite fn_lookup_insert.
      by rewrite (proj2 (entry_elem b c _ Hq)) by (by eapply list_elem_of_lookup_2).
    + by rewrite fn_lookup_insert_ne.
Qed.

Lemma substitute_spec st dv : inv st dv -> (length (held st) < CACHE_SIZE)%nat ->
  exists q dev' dv', substitute (held st) (queue st) (block_device st) = Ok (q, dev') /\
    inv (mk q dev' (held st)) dv' /\ (length q < CACHE_SIZE)%nat /\
    (forall b, view (mk q dev' (held st)) dv' b = view st dv b) /\
    (forall b, b ∈ (held st).*1 -> entry b q = entry b (queue st)) /\
    (forall b, entry b (queue st) = None -> entry b q = None).
Proof.
  intros I Hh. unfold substitute. destruct (decide _) as [Hlen|Hlen].
  2:{ exists (queue st), (block_device st), dv. destruct st; simpl in *.
      pose proof (inv_len _ _ I). simpl in *. split_and!; auto. lia. }
  destruct (find_unheld (queue st) (held st)) as (i & b & c & -> & Hi & Hb);
    [apply I|lia|]. rewrite Hi. cbn.
  pose proof (inv_entry _ _ I b c) as Hc.
  rewrite entry_elem in Hc by apply I. specialize (Hc (list_elem_of_lookup_2 _ _ _ Hi)).
  destruct (sync_spec _ _ b c (inv_dev _ _ I) Hc) as (dev' & Hs & Hdev').
  unfold Cache.drop. rewrite Hs. cbn.
  destruct (evict_inv _ _ _ _ _ _ I Hi Hb Hdev') as (I' & Hv & E). simpl in E.
  exists (swap_remove i (queue st)), dev', (<[b := Cache.cache c]> dv). split_and!; auto.
  - pose proof (length_swap_remove _ _ _ Hi). lia.
  - intros b' Hb'. rewrite (E b'). rewrite decide_False; [done|]. by intros ->.
  - intros b' Hb'. rewrite (E b'). by case_decide.
Qed.

(** [get] brings the block into the cache and changes no contents. *)
Lemma get_spec b st v h : crep st v h -> 0 <= b < n -> (length h < CACHE_SIZE)%nat ->
  exists st', get b st = Ok (tt, st') /\ crep st' v h /\ cstable h st st' /\
    is_Some (entry b (queue st')).
Proof.
  intros [<- (dv & I & Hv)] Hb Hh. unfold get. destruct (entry b (queue st)) as [c|] eqn:E.
  { exists st. split_and!; eauto; [|done]. split; eauto. }
  destruct (substitute_spec _ _ I Hh) as (q & dev' & dv' & -> & I' & Hlen & Hv' & Hst & Hn).
  cbn. unfold Cache.new. rewrite (dev_read _ _ _ _ _ (inv_dev _ _ I')) by done. cbn.
  assert (Eb : forall b', entry b' (q ++ [(b, Cache.mk (dv' b) b false)]) =
    if decide (b = b') then Some (Cache.mk (dv' b) b false) else entry b' q).
  { intros b'. rewrite entry_app. simpl. case_decide as Hd.
    - subst b'. by rewrite Hn, Z.eqb_refl.
    - rewrite (proj2 (Z.eqb_neq _ _)) by done. by destruct (entry b' q). }
  eexists. split_and!; [done|..].
  - split; [done|]. exists dv'. split.
    + constructor; simpl; auto.
      * apply I'.
      * rewrite fmap_app. apply NoDup_app. split_and!; [apply I'| |apply NoDup_singleton].
        intros x Hx ->%list_elem_of_singleton. by apply entry_None in Hx; [|apply Hn].
      * rewrite length_app. simpl. lia.
      * intros b' c'. rewrite Eb. case_decide as Hd; [intros [= <-]; subst|apply I'].
        do 2 (split; [done|]). split; [|done]. eapply dev_block; [apply I'|done].
      * intros b' Hb'. rewrite Eb. case_decide; [eauto|by apply (inv_held _ _ I')].
    + intros b' Hb'. rewrite Hv, <- Hv' by done. unfold view. simpl. rewrite Eb.
      case_decide as Hd; [subst; by rewrite Hn|done].
  - intros b' Hb'. simpl. rewrite Eb. case_decide as Hd; [subst|auto].
    destruct (inv_held _ _ I _ Hb'). congruence.
  - simpl. rewrite Eb. rewrite decide_True by done. eauto.
Qed.

Lemma crep_hold st v h b l : crep st v h -> is_Some (entry b (queue st)) ->
  crep (hold (b, l) st) v ((b, l) :: h).
Proof.
  intros [<- (dv & I & Hv)] Hb. split; [done|]. exists dv. split; [|done].
  destruct I. constructor; auto. csimpl. intros b' Hb'. apply elem_of_cons in Hb' as [->|Hb']; auto.
Qed.

Lemma crep_release st v x h : crep st v (x :: h) -> crep (release st) v h.
Proof.
  intros [Hh (dv & I & Hv)]. unfold release. split; [by rewrite Hh|]. exists dv. split; [|done].
  destruct I. constructor; auto. intros b' Hb'. simpl in *. apply inv_held0.
  rewrite Hh in *. csimpl. by constructor.
Qed.

Lemma crep_store st v h b c c' : crep st v h -> entry b (queue st) = Some c ->
  Cache.block_id c' = b -> block_ok (Cache.cache c') -> (c' = c \/ Cache.modified c' = true) ->
  crep (store b c' st) (<[b := Cache.cache c']> v) h.
Proof.
  intros [<- (dv & I & Hv)] Hc Hid Hok Hm. split; [done|]. exists dv.
  assert (E : forall b', entry b' (queue (store b c' st)) =
    if decide (b = b') then Some c' else entry b' (queue st)).
  { intros. apply entry_set. eauto. }
  destruct (inv_entry _ _ I _ _ Hc) as (Hb & Hc1 & Hc2 & Hc3). split.
  - constructor; [apply I|..].
    + simpl. rewrite set_entry_fst. apply I.
    + simpl. rewrite <- (length_fmap fst), set_entry_fst, length_fmap. apply I.
    + intros b' c''. rewrite E. case_decide as Hd; [intros [= <-]; subst b'|apply I].
      do 3 (split; [done|]). destruct Hm as [-> | Hm]; [done|]. by rewrite Hm.
    + intros b' Hb'. rewrite E. case_decide; [eauto|]. by apply (inv_held _ _ I).
  - intros b' Hb'. unfold view. rewrite E. case_decide as Hd.
    + subst b'. by rewrite fn_lookup_insert.
    + rewrite fn_lookup_insert_ne by done. by apply Hv.
Qed.

Lemma crep_entry st v h b c : crep st v h -> 0 <= b < n -> entry b (queue st) = Some c ->
  Cache.cache c = v b /\ Cache.block_id c = b.
Proof.
  intros [_ (dv & I & Hv)] Hb Hc. destruct (inv_entry _ _ I _ _ Hc) as (_ & ? & _).
  rewrite Hv by done. unfold view. by rewrite Hc.
Qed.

Lemma with_read_spec A b (k : Cache.t -> M (t D) A) v h P :
  0 <= b < n -> (b, Wr) ∉ h -> (length h < CACHE_SIZE)%nat ->
  (forall c, Cache.cache c = v b -> Cache.block_id c = b -> spec n (k c) v ((b, Rd) :: h) P) ->
  spec n (Block.with_read b k) v h P.
Proof.
  intros Hb Hw Hh Hk st Hst. destruct (get_spec b st v h) as (st1 & E1 & R1 & T1 & c & Hc); auto.
  destruct (crep_entry _ _ _ _ _ R1 Hb Hc) as [Hcv Hid].
  destruct (Hk c Hcv Hid (hold (b, Rd) st1)) as (a & st2 & v2 & E2 & R2 & T2 & HP).
  { apply crep_hold; [done|]. rewrite Hc. eauto. }
  exists a, (release st2), v2. split_and!; [| |intros b' Hb'|done].
  - cbn. unfold with_read, mbind, M_bind. rewrite E1. unfold read_guard.
    pose proof (proj1 R1) as ->. rewrite bool_decide_eq_false_2 by done.
    rewrite Hc. cbn. by rewrite E2.
  - by eapply crep_release.
  - simpl. rewrite T2; [by apply T1|]. csimpl. by constructor.
Qed.

Lemma with_write_spec A b (k : Cache.t -> M (t D) (A * Cache.t)) v h P :
  0 <= b < n -> b ∉ h.*1 -> (length h < CACHE_SIZE)%nat ->
  (forall c, Cache.cache c = v b -> Cache.block_id c = b ->
    spec n (k c) v ((b, Wr) :: h) (fun '(a, c') v' =>
      Cache.block_id c' = b /\ block_ok (Cache.cache c') /\
      (c' = c \/ Cache.modified c' = true) /\ P a (<[b := Cache.cache c']> v'))) ->
  spec n (Block.with_write b k) v h P.
Proof.
  intros Hb Hw Hh Hk st Hst. destruct (get_spec b st v h) as (st1 & E1 & R1 & T1 & c & Hc); auto.
  destruct (crep_entry _ _ _ _ _ R1 Hb Hc) as [Hcv Hid].
  destruct (Hk c Hcv Hid (hold (b, Wr) st1))
    as ([a c'] & st2 & v2 & E2 & R2 & T2 & Hid' & Hok' & Hm' & HP).
  { apply crep_hold; [done|]. rewrite Hc. eauto. }
  assert (Hc2 : entry b (queue st2) = Some c) by (rewrite T2; [done|csimpl; by constructor]).
  exists a, (release (store b c' st2)), (<[b := Cache.cache c']> v2).
  split_and!; [| |intros b' Hb'|done].
  - cbn. unfold with_write, mbind, M_bind. rewrite E1. unfold write_guard.
    pose proof (proj1 R1) as ->. rewrite bool_decide_eq_false_2 by done.
    rewrite Hc. cbn. by rewrite E2.
  - eapply crep_release, crep_store; eauto.
  - simpl. rewrite entry_set by eauto. rewrite decide_False by (by intros ->).
    rewrite T2; [by apply T1|]. csimpl. by constructor.
Qed.

Lemma with_read_faults A b (k : Cache.t -> M (t D) A) v h e :
  0 <= b < n -> (b, Wr) ∉ h -> (length h < CACHE_SIZE)%nat ->
  (forall c, Cache.cache c = v b -> Cache.block_id c = b -> faults n (k c) v ((b, Rd) :: h) e) ->
  faults n (Block.with_read b k) v h e.
Proof.
  intros Hb Hw Hh Hk st Hst. destruct (get_spec b st v h) as (st1 & E1 & R1 & T1 & c & Hc); auto.
  destruct (crep_entry _ _ _ _ _ R1 Hb Hc) as [Hcv Hid].
  cbn. unfold with_read, mbind, M_bind. rewrite E1. unfold read_guard.
  pose proof (proj1 R1) as E. rewrite E, bool_decide_eq_false_2, Hc by done. omon.
  rewrite (Hk c Hcv Hid); [done|]. apply crep_hold; [done|]. rewrite Hc. eauto.
Qed.

Lemma with_write_faults A b (k : Cache.t -> M (t D) (A * Cache.t)) v h e :
  0 <= b < n -> b ∉ h.*1 -> (length h < CACHE_SIZE)%nat ->
  (forall c, Cache.cache c = v b -> Cache.block_id c = b -> faults n (k c) v ((b, Wr) :: h) e) ->
  faults n (Block.with_write b k) v h e.
Proof.
  intros Hb Hw Hh Hk st Hst. destruct (get_spec b st v h) as (st1 & E1 & R1 & T1 & c & Hc); auto.
  destruct (crep_entry _ _ _ _ _ R1 Hb Hc) as [Hcv Hid].
  cbn. unfold with_write, mbind, M_bind. rewrite E1. unfold write_guard.
  pose proof (proj1 R1) as E. rewrite E, bool_decide_eq_false_2, Hc by done. omon.
  rewrite (Hk c Hcv Hid); [done|]. apply crep_hold; [done|]. rewrite Hc. eauto.
Qed.

(** Writing every cached block back leaves the device with the contents. *)
Lemma sync_all_spec q dev dv : NoDup q.*1 -> dev_rep dev n dv ->
  (forall b c, entry b q = Some c -> entry_ok dv b c) ->
  exists q' dev' dv', sync_all [] q dev = Ok (q', dev') /\ dev_rep dev' n dv' /\ q'.*1 = q.*1 /\
    (forall b, entry b q' = (fun c => Cache.mk (Cache.cache c) b false) <$> entry b q) /\
    (forall b, dv' b = match entry b q with Some c => Cache.cache c | None => dv b end).
Proof.
  revert dev dv. induction q as [|[b0 c0] q IH]; intros dev dv Hq Hdev He; csimpl in *.
  { exists [], dev, dv. auto. }
  apply NoDup_cons in Hq as [Hb0 Hq]. pose proof (He b0 c0) as Hc0.
  rewrite Z.eqb_refl in Hc0. specialize (Hc0 eq_refl).
  destruct (sync_spec _ _ _ _ Hdev Hc0) as (dev1 & -> & Hdev1). cbn.
  destruct (IH dev1 (<[b0 := Cache.cache c0]> dv)) as (q' & dev' & dv' & -> & Hdev' & Hf & Heq & Hdv');
    [done|done| |].
  { intros b c Hc. assert (b0 <> b). { intros ->. apply Hb0, entry_is_Some. eauto. }
    specialize (He b c). rewrite (proj2 (Z.eqb_neq _ _)) in He by done.
    destruct (He Hc) as (?&?&?&?). do 3 (split; [done|]). intros.
    rewrite fn_lookup_insert_ne by done. auto. }
  cbn. eexists _, dev', dv'. split_and!; [done|done|by csimpl; rewrite Hf|..]; intros b; simpl.
  - rewrite Heq. destruct (Z.eqb_spec b0 b) as [->|]; done.
  - rewrite Hdv'. destruct (Z.eqb_spec b0 b) as [->|].
    + rewrite (proj2 (entry_None b q)) by done. by rewrite fn_lookup_insert.
    + destruct (entry b q); [done|]. by rewrite fn_lookup_insert_ne.
Qed.

Lemma flush_crep st v : crep st v [] ->
  exists st', flush st = Ok (tt, st') /\ crep st' v [] /\
    dev_rep (block_device st') n v /\ Forall (fun x => Cache.modified x.2 = false) (queue st').
Proof.
  intros [Hh (dv & I & Hv)]. unfold flush. rewrite Hh.
  destruct (sync_all_spec (queue st) (block_device st) dv) as (q' & dev' & dv' & -> & Hdev & Hf & He & Hdv);
    [apply I..|].
  cbn. eexists. split_and!; [done|..]; simpl.
  - split; [done|]. exists dv'. split.
    + constructor; simpl; [done|rewrite Hf; apply I| | |by intros ? ?%elem_of_nil].
      * rewrite <- (length_fmap fst), Hf, length_fmap. apply I.
      * intros b c'. rewrite He. intros (c & Hc & ->)%fmap_Some.
        destruct (inv_entry _ _ I _ _ Hc) as (?&?&?&?). do 3 (split; [done|]).
        intros _. simpl. by rewrite Hdv, Hc.
    + intros b Hb. rewrite Hv by done. unfold view. simpl. rewrite He, Hdv.
      by destruct (entry b (queue st)).
  - eapply dev_ext; [done|]. intros b Hb. by rewrite Hdv, Hv.
  - apply Forall_forall. intros [b c'] Hin. simpl.
    apply (entry_elem b c') in Hin; [|rewrite Hf; apply I].
    rewrite He in Hin. apply fmap_Some in Hin as (c & _ & ->). done.
Qed.

#[export] Program Instance manager_laws : BlockCacheLaws (t D) n := {|
  spec_with_read := with_read_spec; spec_with_write := with_write_spec;
  faults_with_read := with_read_faults; faults_with_write := with_write_faults |}.
Next Obligation.
  intros st v h b [_ (dv & I & Hv)] Hb. rewrite Hv by done. unfold view.
  destruct (entry b (queue st)) as [c|] eqn:E; [apply (inv_entry _ _ I _ _ E)|].
  eapply dev_block; [apply I|done].
Qed.
Next Obligation.
  intros st v w h [? (dv & I & Hv)] Hvw. split; [done|]. exists dv. split; [done|].
  intros b Hb. by rewrite <- Hvw, Hv.
Qed.
Next Obligation. by intros h st b Hb. Qed.
Next Obligation. intros h st1 st2 st3 H1 H2 b Hb. by rewrite H2, H1. Qed.
Next Obligation.
  intros h st st' v v' b [<- (dv & I & Hv)] [Hh' (dv' & I' & Hv')] Hs Hb Hr.
  rewrite Hv, Hv' by done. unfold view. rewrite Hs by done.
  destruct (inv_held _ _ I _ Hb) as [c ->]. done.
Qed.
Next Obligation.
  intros v st Hst. destruct (flush_crep _ _ Hst) as (st' & E & R & _).
  exists tt, st', v. split_and!; try done. intros b Hb. by apply elem_of_nil in Hb.
Qed.

Lemma new_crep (dev : D) v : dev_rep dev n v -> crep (new dev) v [].
Proof.
  intros Hdev. split; [done|]. exists v. split; [|done].
  constructor; simpl; try done; [apply NoDup_nil_2|apply Nat.le_0_l|by intros ? ?%elem_of_nil].
Qed.

End laws.
Arguments view {D}.

End CacheManager.

#[export] Existing Instances CacheManager.block_cache CacheManager.manager_rep CacheManager.manager_laws.
