(* ===== verification/Bitmap.v ===== *)
(** The allocation bitmaps of fs/src/cafs/bitmap.rs: a run of blocks, each an
    array of 64 [u64], bit [i] of the bitmap being bit [i mod 64] of word
    [i mod 4096 / 64] of block [i / 4096]. The theorems describe every operation
    by its effect on the bits. *)
From S2P Require Import Prelude Device Block.
From Stdlib Require Import ZArith Lia.
From stdpp Require Import gmap functions list_numbers list.
Local Open Scope Z_scope.

Definition U64_MAX : Z := U64 - 1.

(** [type BitmapBlock = [u64; BLOCK_SIZE / 8]] *)
Record BitmapBlock := { words : list Z }.

#[export] Instance BitmapBlock_repr : Repr BitmapBlock := {|
  size_of := BLOCK_SIZE;
  of_bytes l := {| words := decode_u64s 64 l |};
  to_bytes _ x := encode_u64s (words x)
|}.

#[export] Program Instance BitmapBlock_laws : ReprLaws BitmapBlock := {|
  wf x := length (words x) = 64%nat /\ Forall u64 (words x)
|}.
Next Obligation. done. Qed.
Next Obligation. intros old x _ [Hl _]. cbn. by rewrite length_encode_u64s, Hl. Qed.
Next Obligation. intros. apply encode_u64s_u8. Qed.
Next Obligation.
  intros old [ws] _ [Hl Hw]. cbn -[decode_u64s] in *. f_equal.
  rewrite <- Hl, <- (app_nil_r (encode_u64s ws)). by apply decode_encode_u64s.
Qed.
Next Obligation.
  intros l _ Hl. cbn -[decode_u64s]. split; [apply length_decode_u64s|by apply decode_u64s_u64].
Qed.

Module Bitmap.

Record t := mk { start_block_id : Z; blocks : Z }.

Definition new (start_block_id blocks : Z) : t := mk start_block_id blocks.

Definition total_count (self : t) : outcome Z := mul64 (blocks self) BLOCK_BITS.

(** The bit-counting loop of [free_count]; each round shifts [num] by one, so 64
    rounds are enough for a [u64]. *)
Fixpoint count_ones (fuel : nat) (num one_count : Z) : outcome Z :=
  if num =? 0 then Ok one_count else
  match fuel with
  | O => Fault Diverge
  | S fuel =>
      one_count ← (if Z.land num 1 =? 1 then add64 one_count 1 else Ok one_count);
      count_ones fuel (Z.shiftr num 1) one_count
  end.

Definition free_in_word (bits64 : Z) : outcome Z :=
  one_count ← count_ones 64 bits64 0; sub64 64 one_count.

Fixpoint sum_free (ws : list Z) (acc : Z) : outcome Z :=
  match ws with
  | [] => Ok acc
  | w :: ws => x ← free_in_word w; acc ← add64 acc x; sum_free ws acc
  end.

(** [(block_pos, bits64_pos, inner_pos)] of a bit *)
Definition decompose (bit : Z) : Z * Z * Z :=
  let block_pos := bit / BLOCK_BITS in
  let bit := bit mod BLOCK_BITS in
  (block_pos, bit / 64, bit mod 64).

Section ops.
Context {S : Type} `{BlockCache S}.

Definition free_count (self : t) : M S Z :=
  foldM (fun count block_id =>
    b ← lift (add64 block_id (start_block_id self));
    x ← read_at BitmapBlock b 0 (fun bitmap_block => lift (sum_free (words bitmap_block) 0));
    lift (add64 count x)) 0 (seqZ 0 (blocks self)).

(** The first word that is not full, with its first clear bit. *)
Definition find_clear (ws : list Z) : option (nat * Z) :=
  p ← find_index (fun bits64 => negb (bits64 =? U64_MAX)) ws;
  Some (p, trailing_ones (ws !!! p)).

Definition set_bit (bits64_pos : nat) (inner_pos : Z) (b : BitmapBlock) : outcome BitmapBlock :=
  w ← unwrap (words b !! bits64_pos) PIndex;
  m ← shl64 1 inner_pos;
  Ok {| words := <[bits64_pos := Z.lor w m]> (words b) |}.

Definition alloc_in (self : t) (block_id : Z) : M S (option Z) :=
  b ← lift (add64 block_id (start_block_id self));
  with_write b (fun cache =>
    id ← Cache.read BitmapBlock cache 0 (fun bitmap_block => mret (find_clear (words bitmap_block)));
    match id with
    | Some (bits64_pos, inner_pos) =>
        '(_, cache) ← Cache.modify BitmapBlock cache 0 (fun bitmap_block =>
          x ← lift (set_bit bits64_pos inner_pos bitmap_block); mret (tt, x));
        base ← lift (mul64 block_id BLOCK_BITS);
        pos ← lift (add64 base (Z.of_nat bits64_pos * 64 + inner_pos));
        mret (Some pos, cache)
    | None => mret (None, cache)
    end).

Fixpoint alloc_from (self : t) (ids : list Z) : M S (option Z) :=
  match ids with
  | [] => mret None
  | block_id :: ids =>
      pos ← alloc_in self block_id;
      match pos with Some _ => mret pos | None => alloc_from self ids end
  end.

Definition alloc (self : t) : M S (option Z) := alloc_from self (seqZ 0 (blocks self)).

Definition clear_bit (bits64_pos inner_pos : Z) (b : BitmapBlock) : outcome BitmapBlock :=
  w ← unwrap (words b !! Z.to_nat bits64_pos) PIndex;
  m ← shl64 1 inner_pos;
  assert_ (0 <? Z.land w m) PAssert ;;
  w' ← sub64 w m;
  Ok {| words := <[Z.to_nat bits64_pos := w']> (words b) |}.

Definition dealloc (self : t) (bit : Z) : M S unit :=
  let '(block_pos, bits64_pos, inner_pos) := decompose bit in
  b ← lift (add64 block_pos (start_block_id self));
  modify_at BitmapBlock b 0 (fun bitmap_block =>
    x ← lift (clear_bit bits64_pos inner_pos bitmap_block); mret (tt, x)).
End ops.

(** *** The bits *)

(** Bit [i] of a bitmap block, and of the whole bitmap in the contents [v]. *)
Definition block_bit (blk : list Z) (i : Z) : bool :=
  Z.testbit (words (peek BitmapBlock 0 blk) !!! Z.to_nat (i / 64)) (i mod 64).
Definition bit (self : t) (v : Z -> list Z) (i : Z) : bool :=
  block_bit (v (start_block_id self + i / BLOCK_BITS)) (i mod BLOCK_BITS).

(** The bitmap lies inside a device of [n] blocks, small enough for its bits to
    be numbered by a [u64]. *)
Record ok (n : Z) (self : t) : Prop := {
  ok_start : 0 <= start_block_id self;
  ok_blocks : 0 <= blocks self;
  ok_end : start_block_id self + blocks self <= n;
  ok_bits : n * BLOCK_BITS < U64
}.

Lemma words_wf blk : block_ok blk ->
  length (words (peek BitmapBlock 0 blk)) = 64%nat /\ Forall u64 (words (peek BitmapBlock 0 blk)).
Proof. intros Hb. exact (peek_wf (T := BitmapBlock) 0 blk Hb (Z.le_refl 0) (Z.le_refl _)). Qed.

Lemma block_bit_poke blk ws i : block_ok blk -> length ws = 64%nat -> Forall u64 ws ->
  block_bit (poke 0 {| words := ws |} blk) i = Z.testbit (ws !!! Z.to_nat (i / 64)) (i mod 64).
Proof. intros. unfold block_bit. by rewrite peek_poke. Qed.

(** Replacing word [p] of a block by [w'] changes the bits of that word only. *)
Lemma block_bit_insert blk p w' j : block_ok blk -> (p < 64)%nat -> u64 w' -> 0 <= j < BLOCK_BITS ->
  block_bit (poke 0 {| words := <[p := w']> (words (peek BitmapBlock 0 blk)) |} blk) j =
  if decide (j / 64 = Z.of_nat p) then Z.testbit w' (j mod 64) else block_bit blk j.
Proof.
  intros Hb Hp Hw Hj. destruct (words_wf blk Hb) as [Hl Hu].
  rewrite block_bit_poke; [|done|by rewrite length_insert|by apply Forall_insert].
  case_decide as Hd.
  - rewrite Hd, Nat2Z.id, list_lookup_total_insert_eq by lia. done.
  - rewrite list_lookup_total_insert_ne; [done|].
    assert (0 <= j / 64) by (apply Z.div_pos; lia). lia.
Qed.

Lemma word_lookup blk p : block_ok blk -> (p < 64)%nat ->
  words (peek BitmapBlock 0 blk) !! p = Some (words (peek BitmapBlock 0 blk) !!! p) /\
  u64 (words (peek BitmapBlock 0 blk) !!! p).
Proof.
  intros Hb Hp. destruct (words_wf blk Hb) as [Hl Hu].
  destruct (lookup_lt_is_Some_2 (words (peek BitmapBlock 0 blk)) p) as [w Hw]; [lia|].
  rewrite (list_lookup_total_correct _ _ _ Hw). split; [done|].
  eapply Forall_lookup in Hu; eauto.
Qed.

Lemma find_clear_spec blk : block_ok blk ->
  match find_clear (words (peek BitmapBlock 0 blk)) with
  | Some (p, i) => (p < 64)%nat /\ 0 <= i < 64 /\
      block_bit blk (Z.of_nat p * 64 + i) = false /\
      forall j, 0 <= j < Z.of_nat p * 64 + i -> block_bit blk j = true
  | None => forall j, 0 <= j < BLOCK_BITS -> block_bit blk j = true
  end.
Proof.
  intros Hb. destruct (words_wf blk Hb) as [Hl Hu].
  assert (Hfull : forall j, (Z.to_nat (j / 64) < 64)%nat ->
    words (peek BitmapBlock 0 blk) !!! Z.to_nat (j / 64) = U64_MAX -> block_bit blk j = true).
  { intros j Hj E. unfold block_bit. rewrite E. change U64_MAX with (Z.ones 64).
    pose proof (Z.mod_pos_bound j 64). apply Z.ones_spec_low. lia. }
  unfold find_clear. destruct (find_index _ _) as [p|] eqn:E; cbn.
  - apply find_index_Some in E as Hx. destruct Hx as (w & Hw & Hne).
    apply lookup_lt_Some in Hw as Hp. rewrite Hl in Hp.
    destruct (word_lookup blk p Hb Hp) as [Hw' Hwu].
    rewrite (list_lookup_total_correct _ _ _ Hw) in *.
    destruct (trailing_ones_free w) as (Ht & Hf & Hlow); [done| |].
    { intros ->. by rewrite Z.eqb_refl in Hne. }
    split_and!; auto; try lia.
    + unfold block_bit. rewrite Z.div_add_l, Z.div_small, Z.add_0_r, Nat2Z.id by lia.
      rewrite (list_lookup_total_correct _ _ _ Hw).
      by rewrite (Z.add_comm (_ * _)), Z.mod_add, Z.mod_small by lia.
    + intros j Hj. pose proof (Z.div_mod j 64). pose proof (Z.mod_pos_bound j 64).
      assert (0 <= j / 64) by (apply Z.div_pos; lia).
      destruct (decide (j / 64 = Z.of_nat p)) as [Hd|Hd].
      * unfold block_bit. rewrite Hd, Nat2Z.id, (list_lookup_total_correct _ _ _ Hw).
        apply Hlow. lia.
      * destruct (word_lookup blk (Z.to_nat (j / 64)) Hb) as [Hx _]; [lia|].
        assert (Hlt : (Z.to_nat (j / 64) < p)%nat) by lia.
        apply Hfull; [lia|]. pose proof (find_index_first _ _ _ _ _ E Hlt Hx) as Hm.
        by apply negb_false_iff, Z.eqb_eq in Hm.
  - intros j Hj. apply find_index_None in E. rewrite Forall_lookup in E.
    assert (0 <= j / 64 < 64).
    { split; [apply Z.div_pos; lia|apply Z.div_lt_upper_bound; [lia|]]. unfold BLOCK_BITS, BLOCK_SIZE in *. lia. }
    destruct (word_lookup blk (Z.to_nat (j / 64)) Hb) as [Hx _]; [lia|].
    apply Hfull; [lia|]. specialize (E _ _ Hx). by apply negb_false_iff, Z.eqb_eq in E.
Qed.

(** *** Counting *)
Lemma count_ones_spec fuel num c : 0 <= num < 2 ^ Z.of_nat fuel -> 0 <= c ->
  c + Z.of_nat fuel < U64 -> count_ones fuel num c = Ok (c + cnt (Z.testbit num) fuel).
Proof.
  assert (Hz : forall k, cnt (Z.testbit 0) k = 0).
  { intros k. induction k as [|k IH]; [done|]. cbn [cnt]. rewrite Z.bits_0.
    rewrite (cnt_ext _ (Z.testbit 0)), IH; [done|]. intros. by rewrite !Z.bits_0. }
  revert num c. induction fuel as [|fuel IH]; intros num c Hn Hc Hf; cbn [count_ones].
  { change (2 ^ Z.of_nat 0) with 1 in Hn. replace num with 0 by lia. simpl. f_equal. lia. }
  destruct (Z.eqb_spec num 0) as [->|Hne]; [rewrite Hz; f_equal; lia|].
  rewrite Nat2Z.inj_succ, Z.pow_succ_r in Hn by lia.
  assert (Hs : 0 <= Z.shiftr num 1 < 2 ^ Z.of_nat fuel).
  { rewrite Z.shiftr_div_pow2 by lia. split; [apply Z.div_pos; lia|]. apply Z.div_lt_upper_bound; lia. }
  assert (Hl : (Z.land num 1 =? 1) = Z.testbit num 0).
  { change 1 with (Z.ones 1). rewrite Z.land_ones by lia. rewrite Z.bit0_odd, Zmod_odd.
    by destruct (Z.odd num). }
  assert (Hcnt : cnt (Z.testbit num) (S fuel) =
      (if Z.testbit num 0 then 1 else 0) + cnt (Z.testbit (Z.shiftr num 1)) fuel).
  { cbn [cnt]. f_equal. apply cnt_ext. intros i Hi. by rewrite Z.shiftr_spec by lia. }
  rewrite Hl, Hcnt. destruct (Z.testbit num 0); omon.
  - rewrite add64_ok by lia. omon. rewrite IH by lia. f_equal. lia.
  - rewrite IH by lia. f_equal; lia.
Qed.

Lemma free_in_word_spec w : u64 w ->
  free_in_word w = Ok (cnt (fun i => negb (Z.testbit w i)) 64).
Proof.
  intros Hw. unfold free_in_word. rewrite count_ones_spec by done. omon.
  rewrite cnt_negb. pose proof (cnt_bounds (Z.testbit w) 64). rewrite sub64_ok by lia. done.
Qed.

(** Bit [i] of a list of words. *)
Definition words_bit (ws : list Z) (i : Z) : bool :=
  Z.testbit (ws !!! Z.to_nat (i / 64)) (i mod 64).

Lemma sum_free_spec ws acc : Forall u64 ws -> 0 <= acc -> acc + 64 * zlen ws < U64 ->
  sum_free ws acc = Ok (acc + cnt (fun i => negb (words_bit ws i)) (64 * length ws)).
Proof.
  intros Hws. revert acc. induction Hws as [|w ws Hw Hws IH]; intros acc Ha Hl.
  { simpl. f_equal. lia. }
  cbn [sum_free length] in *. rewrite free_in_word_spec by done. omon.
  pose proof (cnt_bounds (fun i => negb (Z.testbit w i)) 64).
  rewrite add64_ok by lia. omon. rewrite IH by lia. f_equal.
  replace (64 * S (length ws))%nat with (64 + 64 * length ws)%nat by lia.
  rewrite cnt_app.
  rewrite (cnt_ext (fun i => negb (words_bit (w :: ws) i)) (fun i => negb (Z.testbit w i)) 64).
  2:{ intros i Hi. f_equal. unfold words_bit. by rewrite Z.div_small, Z.mod_small by lia. }
  rewrite (cnt_ext (fun i => negb (words_bit (w :: ws) (i + Z.of_nat 64))) (fun i => negb (words_bit ws i))); [lia|].
  intros i Hi. f_equal. unfold words_bit.
  replace (i + Z.of_nat 64) with (i + 1 * 64) by lia. rewrite Z.mod_add, Z.div_add by lia.
  assert (0 <= i / 64) by (apply Z.div_pos; lia).
  by replace (Z.to_nat (i / 64 + 1)) with (S (Z.to_nat (i / 64))) by lia.
Qed.

(** *** The operations *)
Section laws.
Context {S : Type} {n : Z} `{HL : BlockCacheLaws S n}.

(** What [alloc] returns: the first clear bit, now set; or nothing, when every
    bit is set. No other block changes. *)
Definition alloc_post (self : t) (v : Z -> list Z) (r : option Z) (v' : Z -> list Z) : Prop :=
  match r with
  | Some i =>
      0 <= i < blocks self * BLOCK_BITS /\ bit self v i = false /\
      (forall j, 0 <= j < i -> bit self v j = true) /\
      (forall j, 0 <= j < blocks self * BLOCK_BITS -> bit self v' j = (j =? i) || bit self v j) /\
      (forall b, b <> start_block_id self + i / BLOCK_BITS -> v' b = v b)
  | None => (forall b, v' b = v b) /\ forall j, 0 <= j < blocks self * BLOCK_BITS -> bit self v j = true
  end.

(** Bits of one block of the bitmap. *)
Lemma bit_block self v k i : 0 <= i < BLOCK_BITS ->
  bit self v (k * BLOCK_BITS + i) = block_bit (v (start_block_id self + k)) i.
Proof.
  intros. unfold bit. rewrite Z.div_add_l, Z.div_small, Z.add_0_r by lia.
  by rewrite (Z.add_comm (_ * _)), Z.mod_add, Z.mod_small by lia.
Qed.

(** Changing bit [i] of block [k] to [x], seen on the whole bitmap. *)
Lemma bit_insert self v k blk' i x j : 0 <= i < BLOCK_BITS -> 0 <= j ->
  (forall i', 0 <= i' < BLOCK_BITS -> block_bit blk' i' =
    if decide (i' = i) then x else block_bit (v (start_block_id self + k)) i') ->
  bit self (<[start_block_id self + k := blk']> v) j =
  if decide (j = k * BLOCK_BITS + i) then x else bit self v j.
Proof.
  intros Hi Hj Hblk. pose proof (Z.mod_pos_bound j BLOCK_BITS eq_refl).
  pose proof (Z.div_mod j BLOCK_BITS). unfold bit.
  destruct (decide (j / BLOCK_BITS = k)) as [Hk|Hk].
  - rewrite Hk, fn_lookup_insert, Hblk by lia. repeat case_decide; try lia; done.
  - rewrite fn_lookup_insert_ne by lia. rewrite decide_False; [done|]. intros ->.
    apply Hk. by rewrite Z.div_add_l, Z.div_small, Z.add_0_r by lia.
Qed.

Lemma set_bit_spec blk p i : block_ok blk -> (p < 64)%nat -> 0 <= i < 64 ->
  exists y, set_bit p i (peek BitmapBlock 0 blk) = Ok y /\ wf y /\
    forall j, 0 <= j < BLOCK_BITS -> block_bit (poke 0 y blk) j =
      if decide (j = Z.of_nat p * 64 + i) then true else block_bit blk j.
Proof.
  intros Hb Hp Hi. destruct (word_lookup blk p Hb Hp) as [Hw Hu]. unfold set_bit.
  rewrite Hw. omon. rewrite shl64_1 by done. omon. eexists. split; [done|]. split.
  { destruct (words_wf blk Hb). split; cbn [words]; [by rewrite length_insert|].
    apply Forall_insert; [done|]. by apply set_bit_u64. }
  intros j Hj. rewrite block_bit_insert; auto using set_bit_u64.
  pose proof (Z.div_mod j 64). pose proof (Z.mod_pos_bound j 64).
  unfold block_bit. case_decide as Hd.
  - rewrite set_bit_testbit by lia. rewrite Hd, Nat2Z.id.
    destruct (Z.eqb_spec (j mod 64) i); case_decide; try lia; done.
  - rewrite decide_False; [done|]. intros ->. apply Hd.
    by rewrite Z.div_add_l, Z.div_small, Z.add_0_r by lia.
Qed.

Definition alloc_in_post (self : t) (k : Z) (v : Z -> list Z) (r : option Z) (v' : Z -> list Z) : Prop :=
  let blk := v (start_block_id self + k) in
  match r with
  | Some pos => exists i blk', pos = k * BLOCK_BITS + i /\ 0 <= i < BLOCK_BITS /\
      block_bit blk i = false /\ (forall j, 0 <= j < i -> block_bit blk j = true) /\
      (forall j, 0 <= j < BLOCK_BITS -> block_bit blk' j =
        if decide (j = i) then true else block_bit blk j) /\
      (forall b, v' b = <[start_block_id self + k := blk']> v b)
  | None => (forall b, v' b = v b) /\ forall j, 0 <= j < BLOCK_BITS -> block_bit blk j = true
  end.

Lemma alloc_in_spec self k v h : ok n self -> 0 <= k < blocks self ->
  start_block_id self + k ∉ h.*1 -> (length h < CACHE_SIZE)%nat ->
  spec n (alloc_in self k) v h (alloc_in_post self k v).
Proof.
  intros [? ? ? Hbits] Hk Hh Hlen. assert (0 <= start_block_id self + k < n) by lia.
  unfold BLOCK_BITS, BLOCK_SIZE in Hbits. unfold alloc_in. rewrite Z.add_comm in Hh.
  eapply spec_bind_lift; [apply add64_ok; lia|]. apply spec_blocks. intros Hok.
  apply spec_with_write; [lia|done..|]. intros c Hc Hid.
  assert (Hb : block_ok (v (k + start_block_id self))) by (apply Hok; lia).
  pose proof (find_clear_spec _ Hb) as Hf.
  apply (spec_bind _ _ _ _ _ (fun x v' => v' = v /\ x = find_clear (words (peek BitmapBlock 0 (v (k + start_block_id self))))));
    [apply (spec_read BitmapBlock); [done..|]; rewrite Hc; by apply spec_ret|].
  intros ? ? [-> ->]. destruct (find_clear _) as [[p i]|].
  - destruct Hf as (Hp & Hi & Hfree & Hlow).
    destruct (set_bit_spec _ p i Hb Hp Hi) as (y & Hy & Hwf & Hbit).
    eapply spec_bind.
    { apply (spec_modify BitmapBlock c 0 _ _ _ (fun x v' => v' = v /\ x.2 = Cache.mk
        (poke 0 y (v (k + start_block_id self))) (k + start_block_id self) true)); [done..|].
      rewrite Hc. eapply spec_bind_lift; [done|]. apply spec_ret. by rewrite Hid. }
    intros [u c'] v' [-> Hc']. simpl in Hc'.
    eapply spec_bind_lift; [apply mul64_ok; unfold BLOCK_BITS, BLOCK_SIZE; lia|].
    eapply spec_bind_lift; [apply add64_ok; unfold BLOCK_BITS, BLOCK_SIZE; lia|].
    apply spec_ret. subst c'. split_and!; [done|by apply poke_ok..|by right|].
    exists (Z.of_nat p * 64 + i), (poke 0 y (v (k + start_block_id self))).
    rewrite (Z.add_comm (start_block_id self)). split_and!; auto; unfold BLOCK_BITS, BLOCK_SIZE; lia.
  - apply spec_ret. split_and!; [done|rewrite Hc; by apply Hb..|by left|].
    rewrite Hc. split; [|by rewrite (Z.add_comm (start_block_id self))].
    intros b. destruct (decide (k + start_block_id self = b)) as [<-|].
    + by rewrite fn_lookup_insert.
    + by rewrite fn_lookup_insert_ne.
Qed.

(** Nobody holds a block of the bitmap. *)
Definition unheld (self : t) (h : list (Z * lock)) : Prop :=
  forall b, start_block_id self <= b < start_block_id self + blocks self -> b ∉ h.*1.

Lemma alloc_from_spec self k m v h : ok n self -> unheld self h -> (length h < CACHE_SIZE)%nat ->
  0 <= k -> 0 <= m -> k + m = blocks self ->
  (forall j, 0 <= j < k * BLOCK_BITS -> bit self v j = true) ->
  spec n (alloc_from self (seqZ k m)) v h (alloc_post self v).
Proof.
  intros Hok Hun Hlen Hk Hm. revert k Hk v. pattern m. apply natlike_ind; [| |done]; clear m Hm.
  { intros k Hk v Hkm Hfull. rewrite seqZ_nil by lia. apply spec_ret. split; [done|].
    intros. apply Hfull. lia. }
  intros m Hm IH k Hk v Hkm Hfull. rewrite seqZ_cons by lia. rewrite Z.pred_succ. cbn [alloc_from].
  eapply spec_bind; [apply alloc_in_spec; [done|lia|apply Hun; lia|done]|].
  intros [pos|] v'.
  - intros (i & blk' & -> & Hi & Hfree & Hlow & Hbit & Hv'). apply spec_ret.
    assert (Hins : forall j, 0 <= j -> bit self v' j =
      if decide (j = k * BLOCK_BITS + i) then true else bit self v j).
    { intros j Hj. rewrite <- (bit_insert self v k blk' i true j) by done. unfold bit. by rewrite Hv'. }
    assert (0 < BLOCK_BITS) by done. split_and!; try nia.
    + by rewrite bit_block.
    + intros j Hj. destruct (decide (j < k * BLOCK_BITS)); [apply Hfull; lia|].
      replace j with (k * BLOCK_BITS + (j - k * BLOCK_BITS)) by lia.
      rewrite bit_block by lia. apply Hlow. lia.
    + intros j Hj. rewrite Hins by lia. destruct (Z.eqb_spec j (k * BLOCK_BITS + i)); by case_decide.
    + intros b Hb. rewrite Hv'. apply fn_lookup_insert_ne. intros <-. apply Hb.
      by rewrite Z.div_add_l, Z.div_small, Z.add_0_r by lia.
  - intros [Hv' Hb]. assert (Hbv : forall j, bit self v' j = bit self v j).
    { intros j. unfold bit. by rewrite Hv'. }
    eapply spec_conseq; [apply (IH (Z.succ k)); [lia|lia|]|].
    + intros j Hj. rewrite Hbv. destruct (decide (j < k * BLOCK_BITS)); [apply Hfull; lia|].
      replace j with (k * BLOCK_BITS + (j - k * BLOCK_BITS)) by lia.
      rewrite bit_block by lia. apply Hb. lia.
    + unfold alloc_post. intros [i|] w.
      * setoid_rewrite Hbv. intros (?&?&?&?&Hw). split_and!; auto; try lia.
        intros. by rewrite Hw, Hv'.
      * setoid_rewrite Hbv. intros [Hw ?]. split; [|done]. intros. by rewrite Hw, Hv'.
Qed.

Lemma alloc_correct self v h : ok n self -> unheld self h -> (length h < CACHE_SIZE)%nat ->
  spec n (alloc self) v h (alloc_post self v).
Proof.
  intros Hok Hun Hlen. apply alloc_from_spec; auto; try lia. apply Hok.
Qed.

(** The position of a bit. *)
Lemma decompose_bounds self i : 0 <= i < blocks self * BLOCK_BITS ->
  0 <= i / BLOCK_BITS < blocks self /\ 0 <= i mod BLOCK_BITS / 64 < 64 /\
  0 <= i mod BLOCK_BITS mod 64 < 64.
Proof.
  intros Hi. pose proof (Z.mod_pos_bound i BLOCK_BITS eq_refl). split_and!.
  - apply Z.div_pos; [lia|done].
  - apply Z.div_lt_upper_bound; [done|]. lia.
  - apply Z.div_pos; lia.
  - apply Z.div_lt_upper_bound; [lia|]. unfold BLOCK_BITS, BLOCK_SIZE in *. lia.
  - apply Z.mod_pos_bound. lia.
  - apply Z.mod_pos_bound. lia.
Qed.

Lemma clear_bit_spec blk p i : block_ok blk -> 0 <= p < 64 -> 0 <= i < 64 ->
  clear_bit p i (peek BitmapBlock 0 blk) =
    if block_bit blk (p * 64 + i) then
      Ok {| words := <[Z.to_nat p := Z.ldiff (words (peek BitmapBlock 0 blk) !!! Z.to_nat p) (2 ^ i)]>
                       (words (peek BitmapBlock 0 blk)) |}
    else Fault (Panic PAssert).
Proof.
  intros Hb Hp Hi. destruct (word_lookup blk (Z.to_nat p) Hb) as [Hw Hu]; [lia|].
  unfold clear_bit. rewrite Hw. omon. rewrite shl64_1 by done. omon.
  rewrite land_bit_pos by lia. unfold block_bit.
  rewrite Z.div_add_l, Z.div_small, Z.add_0_r by lia.
  rewrite (Z.add_comm (_ * _)), Z.mod_add, Z.mod_small by lia.
  destruct (Z.testbit _ i) eqn:E; [|done]. cbn [assert_]. omon.
  assert (Z.ldiff (words (peek BitmapBlock 0 blk) !!! Z.to_nat p) (2 ^ i) >= 0).
  { apply Z.le_ge, Z.ldiff_nonneg. unfold u64 in Hu. lia. }
  rewrite <- Prelude.clear_bit in * by (done || lia). by rewrite sub64_ok by lia.
Qed.

Lemma clear_bit_ok blk p i : block_ok blk -> 0 <= p < 64 -> 0 <= i < 64 ->
  block_bit blk (p * 64 + i) = true ->
  exists y, clear_bit p i (peek BitmapBlock 0 blk) = Ok y /\ wf y /\
    forall j, 0 <= j < BLOCK_BITS -> block_bit (poke 0 y blk) j =
      if decide (j = p * 64 + i) then false else block_bit blk j.
Proof.
  intros Hb Hp Hi Hbit. destruct (word_lookup blk (Z.to_nat p) Hb) as [Hw Hu]; [lia|].
  rewrite clear_bit_spec, Hbit by done. eexists. split; [done|].
  set (w := words (peek BitmapBlock 0 blk) !!! Z.to_nat p) in *.
  assert (Hy : u64 (Z.ldiff w (2 ^ i))).
  { assert (0 <= Z.ldiff w (2 ^ i)) by (apply Z.ldiff_nonneg; unfold u64 in Hu; lia).
    unfold block_bit in Hbit. rewrite Z.div_add_l, Z.div_small, Z.add_0_r in Hbit by lia.
    rewrite (Z.add_comm (_ * _)), Z.mod_add, Z.mod_small in Hbit by lia. fold w in Hbit.
    rewrite <- Prelude.clear_bit in * by (done || lia). unfold u64 in *. lia. }
  destruct (words_wf blk Hb) as [Hl Hf]. split.
  { split; cbn [words]; [by rewrite length_insert|by apply Forall_insert]. }
  intros j Hj. rewrite block_bit_insert by (done || lia).
  pose proof (Z.div_mod j 64). pose proof (Z.mod_pos_bound j 64).
  unfold block_bit. destruct (decide (j / 64 = Z.of_nat (Z.to_nat p))) as [Hd|Hd].
  - rewrite clear_bit_testbit by lia. rewrite Hd, Nat2Z.id. fold w.
    destruct (Z.eqb_spec (j mod 64) i); case_decide; try lia; done.
  - rewrite decide_False; [done|]. intros ->. apply Hd.
    rewrite Z.div_add_l, Z.div_small, Z.add_0_r by lia. lia.
Qed.

Definition dealloc_post (self : t) (v : Z -> list Z) (i : Z) (v' : Z -> list Z) : Prop :=
  (forall j, 0 <= j -> bit self v' j = if decide (j = i) then false else bit self v j) /\
  (forall b, b <> start_block_id self + i / BLOCK_BITS -> v' b = v b).

Lemma bit_decompose self v i :
  bit self v i = block_bit (v (i / BLOCK_BITS + start_block_id self))
    (i mod BLOCK_BITS / 64 * 64 + i mod BLOCK_BITS mod 64).
Proof.
  unfold bit. rewrite Z.add_comm. f_equal.
  pose proof (Z.div_mod (i mod BLOCK_BITS) 64). lia.
Qed.

Lemma dealloc_correct self v h i : ok n self -> unheld self h -> (length h < CACHE_SIZE)%nat ->
  0 <= i < blocks self * BLOCK_BITS -> bit self v i = true ->
  spec n (dealloc self i) v h (fun _ v' => dealloc_post self v i v').
Proof.
  intros Hok Hun Hlen Hi Hbit. destruct (decompose_bounds self i Hi) as (Hk & Hp & Hr).
  destruct Hok as [? ? ? Hbits]. unfold BLOCK_BITS, BLOCK_SIZE in Hbits.
  apply spec_blocks. intros Hblk. unfold dealloc, decompose.
  eapply spec_bind_lift; [apply add64_ok; lia|].
  apply (spec_modify_at BitmapBlock); [lia|apply Hun; lia|done..|].
  rewrite bit_decompose in Hbit.
  assert (Hb : block_ok (v (i / BLOCK_BITS + start_block_id self))) by (apply Hblk; lia).
  destruct (clear_bit_ok _ _ _ Hb Hp Hr Hbit) as (y & Hy & Hwf & Hyb).
  eapply spec_bind_lift; [done|]. apply spec_ret. split; [done|]. split.
  - intros j Hj. rewrite (Z.add_comm (i / BLOCK_BITS)) in *.
    erewrite bit_insert; [|..|exact Hyb]; [|unfold BLOCK_BITS, BLOCK_SIZE in *; lia|done].
    pose proof (Z.div_mod i BLOCK_BITS). pose proof (Z.div_mod (i mod BLOCK_BITS) 64).
    repeat case_decide; try done; unfold BLOCK_BITS, BLOCK_SIZE in *; lia.
  - intros b' Hb'. apply fn_lookup_insert_ne. lia.
Qed.

(** A bit that is not set cannot be freed. *)
Lemma dealloc_clear self v h i : ok n self -> unheld self h -> (length h < CACHE_SIZE)%nat ->
  0 <= i < blocks self * BLOCK_BITS -> bit self v i = false ->
  faults n (dealloc self i) v h (Panic PAssert).
Proof.
  intros Hok Hun Hlen Hi Hbit. apply faults_blocks. intros Hblk. destruct (decompose_bounds self i Hi) as (Hk & Hp & Hj).
  destruct Hok as [? ? ? Hbits]. unfold BLOCK_BITS, BLOCK_SIZE in Hbits.
  eapply faults_bind_lift; [apply add64_ok; lia|].
  apply (faults_modify_at BitmapBlock); [lia|apply Hun; lia|done..|].
  apply faults_bind, faults_lift. rewrite clear_bit_spec; [|apply Hblk; lia|done..].
  rewrite bit_decompose in Hbit. by rewrite Hbit.
Qed.

Lemma free_count_loop self v h k m acc : ok n self -> unheld self h -> (length h < CACHE_SIZE)%nat ->
  0 <= k -> 0 <= m -> k + m = blocks self ->
  acc = cnt (fun i => negb (bit self v i)) (Z.to_nat (k * BLOCK_BITS)) ->
  spec n (foldM (fun count block_id =>
    b ← lift (add64 block_id (start_block_id self));
    x ← read_at BitmapBlock b 0 (fun bitmap_block => lift (sum_free (words bitmap_block) 0));
    lift (add64 count x)) acc (seqZ k m)) v h
    (fun r v' => v' = v /\
      r = cnt (fun i => negb (bit self v i)) (Z.to_nat (blocks self * BLOCK_BITS))).
Proof.
  intros Hok Hun Hlen Hk Hm. revert k Hk acc. pattern m. apply natlike_ind; [| |done]; clear m Hm.
  { intros k Hk acc Hkm Hacc. rewrite seqZ_nil by lia. apply spec_ret. rewrite Hacc. by replace k with (blocks self) by lia. }
  intros m Hm IH k Hk acc Hkm Hacc. rewrite seqZ_cons by lia. rewrite Z.pred_succ. cbn [foldM].
  destruct Hok as [? ? ? Hbits]. unfold BLOCK_BITS, BLOCK_SIZE in Hbits.
  set (c := cnt (fun i => negb (block_bit (v (k + start_block_id self)) i)) (64 * 64)).
  assert (Hacc' : acc + c = cnt (fun i => negb (bit self v i)) (Z.to_nat (Z.succ k * BLOCK_BITS))).
  { replace (Z.to_nat (Z.succ k * BLOCK_BITS)) with (Z.to_nat (k * BLOCK_BITS) + 64 * 64)%nat
      by (unfold BLOCK_BITS, BLOCK_SIZE; lia).
    rewrite cnt_app, Hacc. f_equal. apply cnt_ext. intros i Hi.
    rewrite Z2Nat.id by (unfold BLOCK_BITS, BLOCK_SIZE; lia). rewrite (Z.add_comm i), bit_block by (unfold BLOCK_BITS, BLOCK_SIZE; lia).
    by rewrite (Z.add_comm k). }
  pose proof (cnt_bounds (fun i => negb (bit self v i)) (Z.to_nat (Z.succ k * BLOCK_BITS))).
  pose proof (cnt_bounds (fun i => negb (bit self v i)) (Z.to_nat (k * BLOCK_BITS))).
  eapply (spec_bind _ _ _ _ _ (fun r v' => v' = v /\ r = acc + c)).
  - eapply spec_bind_lift; [apply add64_ok; lia|].
    eapply (spec_bind _ _ _ _ _ (fun r v' => v' = v /\ r = c)).
    + apply spec_blocks. intros Hblk. apply (spec_read_at BitmapBlock); [lia| |done..|].
      { intros Hin. apply (Hun (k + start_block_id self)); [lia|]. apply list_elem_of_fmap. by exists (k + start_block_id self, Wr). }
      destruct (words_wf (v (k + start_block_id self))) as [Hl Hu]; [apply Hblk; lia|].
      eapply spec_lift; [apply sum_free_spec; [done|lia|rewrite Hl; done]|]. split; [done|]. by rewrite Hl.
    + intros ? ? [-> ->]. eapply spec_lift; [apply add64_ok|done].
      unfold BLOCK_BITS, BLOCK_SIZE in *. lia.
  - intros ? ? [-> ->]. apply (IH (Z.succ k)); [lia|lia|done].
Qed.

Lemma free_count_correct self v h : ok n self -> unheld self h -> (length h < CACHE_SIZE)%nat ->
  spec n (free_count self) v h (fun r v' => v' = v /\
    r = cnt (fun i => negb (bit self v i)) (Z.to_nat (blocks self * BLOCK_BITS))).
Proof. intros Hok Hun Hlen. apply free_count_loop; try done; [apply Hok]. Qed.

End laws.

End Bitmap.
