(* ===== verification/Layout.v ===== *)
(** The on-disk structures of fs/src/cafs/layout.rs (and [InodeType] of
    fs/src/fs.rs): the super block, the inode record [Meta] with 36 direct block
    ids and a tree of index blocks up to four levels deep, and the operations on
    them. This file holds the data, its byte representation and the operations;
    [Index] proves what they do. *)
From S2P Require Import Prelude Device Block.
From Stdlib Require Import ZArith Lia.
From stdpp Require Import gmap functions sorting list_numbers list.
Local Open Scope Z_scope.

(** ** [InodeType] *)
Inductive InodeType := File | Dir.
#[export] Instance InodeType_eq_dec : EqDecision InodeType.
Proof. solve_decision. Defined.

Definition InodeType_u64 (t : InodeType) : Z := match t with File => 0 | Dir => 1 end.
(** Reading a stored discriminant: other values are not of the type. *)
Definition InodeType_of (x : Z) : outcome InodeType :=
  if x =? 0 then Ok File else if x =? 1 then Ok Dir else Fault Undefined.

(** ** [SuperBlock] *)
Module SuperBlock.
Definition FS_MAGIC : Z := 0x5138.

Record t := mk {
  magic : Z;
  total_blocks : Z;
  inode_bitmap_blocks : Z;
  inode_area_blocks : Z;
  data_bitmap_blocks : Z;
  data_area_blocks : Z
}.

Definition initialize (total_blocks inode_bitmap_blocks inode_area_blocks data_bitmap_blocks
    data_area_blocks : Z) (self : t) : t :=
  mk FS_MAGIC total_blocks inode_bitmap_blocks inode_area_blocks data_bitmap_blocks data_area_blocks.

Definition is_valid (self : t) : bool := magic self =? FS_MAGIC.
End SuperBlock.

(** A [u32], four bytes of padding, five [u64]. *)
#[export] Instance SuperBlock_repr : Repr SuperBlock.t := {|
  size_of := 48;
  of_bytes l :=
    let w := decode_u64s 5 (drop 8 l) in
    SuperBlock.mk (from_le (take 4 l)) (w !!! 0%nat) (w !!! 1%nat) (w !!! 2%nat) (w !!! 3%nat) (w !!! 4%nat);
  to_bytes old x :=
    to_le 4 (SuperBlock.magic x) ++ take 4 (drop 4 old) ++
    encode_u64s [SuperBlock.total_blocks x; SuperBlock.inode_bitmap_blocks x;
      SuperBlock.inode_area_blocks x; SuperBlock.data_bitmap_blocks x; SuperBlock.data_area_blocks x]
|}.

(** ** Sizes *)
Definition DIRECT_COUNT : Z := 36.
Definition INDIRECT_LEN : Z := BLOCK_SIZE / 8 - 1.
Definition DIRECT_MAX : Z := DIRECT_COUNT * BLOCK_SIZE.
Definition BLOCK_TABLE_INDIRECT_MAX : Z := INDIRECT_LEN * BLOCK_SIZE.
Definition BLOCK_TABLE_MAX : Z := DIRECT_MAX + BLOCK_TABLE_INDIRECT_MAX.
Definition BLOCK_DIRECTORY_INDIRECT_MAX : Z := INDIRECT_LEN * INDIRECT_LEN * BLOCK_SIZE.
Definition BLOCK_DIRECTORY_MAX : Z := DIRECT_MAX + BLOCK_DIRECTORY_INDIRECT_MAX.
Definition L3_INDIRECT_MAX : Z := INDIRECT_LEN * INDIRECT_LEN * INDIRECT_LEN * BLOCK_SIZE.
Definition L3_MAX : Z := DIRECT_MAX + L3_INDIRECT_MAX.
Definition L4_INDIRECT_MAX : Z := INDIRECT_LEN * INDIRECT_LEN * INDIRECT_LEN * INDIRECT_LEN * BLOCK_SIZE.
Definition L4_MAX : Z := DIRECT_MAX + L4_INDIRECT_MAX.

(** ** [IndirectBlock] *)
Inductive IndirectBlockType := BlockTable | BlockDirectory | L3 | L4.
#[export] Instance IndirectBlockType_eq_dec : EqDecision IndirectBlockType.
Proof. solve_decision. Defined.

Definition IndirectBlockType_u64 (t : IndirectBlockType) : Z :=
  match t with BlockTable => 0 | BlockDirectory => 1 | L3 => 2 | L4 => 3 end.
Definition IndirectBlockType_of (x : Z) : outcome IndirectBlockType :=
  if x =? 0 then Ok BlockTable else if x =? 1 then Ok BlockDirectory
  else if x =? 2 then Ok L3 else if x =? 3 then Ok L4 else Fault Undefined.

(** The transmute of the discriminant plus or minus one. *)
Definition IndirectBlockType_add (self : IndirectBlockType) : outcome IndirectBlockType :=
  if IndirectBlockType_u64 self =? IndirectBlockType_u64 L4 then Ok L4
  else IndirectBlockType_of (IndirectBlockType_u64 self + 1).
Definition IndirectBlockType_decrease (self : IndirectBlockType) : outcome IndirectBlockType :=
  if IndirectBlockType_u64 self =? IndirectBlockType_u64 BlockTable then Ok BlockTable
  else IndirectBlockType_of (IndirectBlockType_u64 self - 1).

(** ** [LevelInfo] *)
Module LevelInfo.
Record t := mk { l4 : Z; l3 : Z; block_directory : Z; block_table : Z; direct : Z }.

Definition root_level (self : t) : option IndirectBlockType :=
  if l4 self =? 1 then Some L4
  else if l3 self =? 1 then Some L3
  else if block_directory self =? 1 then Some BlockDirectory
  else if block_table self =? 1 then Some BlockTable
  else None.

Definition type_count (self : t) (type_ : IndirectBlockType) : Z :=
  match type_ with
  | BlockTable => block_table self
  | BlockDirectory => block_directory self
  | L3 => l3 self
  | L4 => l4 self
  end.

Definition index_block_count (self : t) : outcome Z :=
  x ← add64 (l4 self) (l3 self); x ← add64 x (block_directory self); add64 x (block_table self).
End LevelInfo.

(** The stored type is kept as the raw discriminant: it is only interpreted where
    the code matches on it. *)
Module IndirectBlock.
Record t := mk { entries : list Z; type_ : Z }.
End IndirectBlock.

#[export] Instance IndirectBlock_repr : Repr IndirectBlock.t := {|
  size_of := BLOCK_SIZE;
  of_bytes l := IndirectBlock.mk (decode_u64s 63 l) (from_le (take 8 (drop 504 l)));
  to_bytes _ x := encode_u64s (IndirectBlock.entries x) ++ to_le 8 (IndirectBlock.type_ x)
|}.

(** [filter] of the entries of an index block: not zero and not excluded. *)
Definition keep (filter_ : option (list Z)) (x : Z) : bool :=
  negb (x =? 0) && match filter_ with None => true | Some l => bool_decide (x ∉ l) end.

Module IndirectOps.
Section ops.
Context {S : Type} `{BlockCache S}.

(** Nested calls hold one cached block each and read only; a chain of 33 distinct
    blocks exhausts the cache, so a chain of 64 that does not repeats a block and
    the recursion never ends. *)
Definition FUEL : nat := 64.

Fixpoint get_block_id (fuel : nat) (self : IndirectBlock.t) (inner_id : Z) : M S Z :=
  match fuel with
  | O => throw Diverge
  | Datatypes.S fuel =>
      type_ ← lift (IndirectBlockType_of (IndirectBlock.type_ self));
      match type_ with
      | BlockTable => lift (unwrap (IndirectBlock.entries self !! Z.to_nat inner_id) PIndex)
      | dir =>
          let divisor :=
            match dir with
            | BlockTable => 1
            | BlockDirectory => INDIRECT_LEN
            | L3 => INDIRECT_LEN * INDIRECT_LEN
            | L4 => INDIRECT_LEN * INDIRECT_LEN * INDIRECT_LEN
            end in
          let index := inner_id / divisor in
          let offset := inner_id mod divisor in
          id ← lift (unwrap (IndirectBlock.entries self !! Z.to_nat index) PIndex);
          read_at IndirectBlock.t id 0 (fun block => get_block_id fuel block offset)
      end
  end.

(** [_to_vec]: appends to [data_ids] and [index_ids]. *)
Fixpoint to_vec_ (fuel : nat) (self : IndirectBlock.t) (data_ids index_ids : list Z)
    (filter_ : option (list Z)) : M S (list Z * list Z) :=
  match fuel with
  | O => throw Diverge
  | Datatypes.S fuel =>
      type_ ← lift (IndirectBlockType_of (IndirectBlock.type_ self));
      let ids := filter (fun x => keep filter_ x = true) (IndirectBlock.entries self) in
      match type_ with
      | BlockTable => mret (data_ids ++ ids, index_ids)
      | _ =>
          foldM (fun '(data_ids, index_ids) id =>
            read_at IndirectBlock.t id 0 (fun block =>
              to_vec_ fuel block data_ids (index_ids ++ [id]) filter_)) (data_ids, index_ids) ids
      end
  end.

Definition to_vec (self : IndirectBlock.t) (filter_ : option (list Z)) : M S (list Z * list Z) :=
  '(data_ids, index_ids) ← to_vec_ FUEL self [] [] filter_;
  mret (index_ids, data_ids).
End ops.
End IndirectOps.

(** ** [Meta]: an inode on disk *)
Module Meta.
Record t := mk { size : Z; direct : list Z; indirect : Z; type_ : Z; name : list Z }.

Definition init (type_ : InodeType) (name : list Z) (self : t) : t :=
  mk 0 (replicate (length (direct self)) 0) 0 (InodeType_u64 type_) name.

Definition is_dir (self : t) : outcome bool :=
  x ← InodeType_of (type_ self); Ok (bool_decide (x = Dir)).
Definition is_file (self : t) : outcome bool :=
  x ← InodeType_of (type_ self); Ok (bool_decide (x = File)).

Definition _data_blocks (size : Z) : outcome Z :=
  x ← add64 size BLOCK_SIZE; x ← sub64 x 1; Ok (x / BLOCK_SIZE).
Definition data_blocks (self : t) : outcome Z := _data_blocks (size self).

(** [(x + y - 1) / y] *)
Definition div_up (x y : Z) : outcome Z := s ← add64 x y; s ← sub64 s 1; Ok (s / y).

Definition indirect_size_of (size : Z) : Z := if DIRECT_MAX <=? size then size - DIRECT_MAX else 0.

Definition index_blocks (size : Z) : outcome LevelInfo.t :=
  let indirect_size := indirect_size_of size in
  block_table_len ← div_up indirect_size BLOCK_TABLE_INDIRECT_MAX;
  block_directory_len ← div_up indirect_size BLOCK_DIRECTORY_INDIRECT_MAX;
  l3_len ← div_up indirect_size L3_INDIRECT_MAX;
  if L3_MAX <? size then
    Ok (LevelInfo.mk 1 l3_len block_directory_len block_table_len DIRECT_COUNT)
  else if BLOCK_DIRECTORY_MAX <? size then
    Ok (LevelInfo.mk 0 1 block_directory_len block_table_len DIRECT_COUNT)
  else if BLOCK_TABLE_MAX <? size then
    Ok (LevelInfo.mk 0 0 1 block_table_len DIRECT_COUNT)
  else if DIRECT_MAX <? size then
    Ok (LevelInfo.mk 0 0 0 1 DIRECT_COUNT)
  else
    direct ← div_up size BLOCK_SIZE;
    Ok (LevelInfo.mk 0 0 0 0 direct).

(** An iterator chained with [repeat(0)]: the list of what is left before the
    zeros. [next_n] takes [k] elements. *)
Definition next_n (k : Z) (it : list Z) : list Z * list Z :=
  (resize (Z.to_nat k) 0 it, drop (Z.to_nat k) it).

Definition pop_n (k : Z) (l : list Z) : outcome (list Z * list Z) :=
  if k <=? zlen l then
    let m := (length l - Z.to_nat k)%nat in Ok (reverse (drop m l), take m l)
  else Fault (Panic PUnwrap).

Section ops.
Context {S : Type} `{BlockCache S}.

Definition get_block_id (self : t) (inner_id : Z) : M S (option Z) :=
  blocks ← lift (_data_blocks (size self));
  if blocks <=? inner_id then mret None
  else if inner_id <? DIRECT_COUNT then
    x ← lift (unwrap (direct self !! Z.to_nat inner_id) PIndex); mret (Some x)
  else
    read_at IndirectBlock.t (indirect self) 0 (fun block =>
      x ← IndirectOps.get_block_id IndirectOps.FUEL block (inner_id - DIRECT_COUNT);
      mret (Some x)).

(** [(index, blocks)] *)
Definition blocks (self : t) : M S (list Z * list Z) :=
  let blocks := filter (fun x => x <> 0) (direct self) in
  '(index, blocks) ←
    (if indirect self =? 0 then mret ([], blocks)
     else
       '(index_ids, data_ids) ← read_at IndirectBlock.t (indirect self) 0 (fun block =>
         IndirectOps.to_vec block None);
       mret ([indirect self] ++ index_ids, blocks ++ data_ids));
  mret (merge_sort Z.le index, blocks).

(** The index blocks of one level: block [i] gets the next 63 elements. *)
Definition write_level (type_ : IndirectBlockType) (ids : list Z) (it : list Z) : M S (list Z) :=
  foldM (fun it i =>
    let '(entries, rest) := next_n INDIRECT_LEN it in
    modify_at IndirectBlock.t i 0 (fun block =>
      mret (tt, IndirectBlock.mk entries (IndirectBlockType_u64 type_))) ;;
    mret rest) it ids.

Definition forward (self : t) (level_info : LevelInfo.t) (index data : list Z) : M S t :=
  let '(direct, data_iter) := next_n DIRECT_COUNT data in
  let indirect_size := indirect_size_of (size self) in
  if indirect_size =? 0 then mret (mk (size self) direct 0 (type_ self) (name self))
  else
    let '(l4_ids, index_iter) :=
      if LevelInfo.l4 level_info =? 0 then ([], index) else next_n 1 index in
    let l4_id := default 0 (head l4_ids) in
    let '(l3_ids, index_iter) := next_n (LevelInfo.l3 level_info) index_iter in
    let l3_id := default 0 (head l3_ids) in
    let '(l2_ids, index_iter) := next_n (LevelInfo.block_directory level_info) index_iter in
    let l2_id := default 0 (head l2_ids) in
    let '(l1_ids, index_iter) := next_n (LevelInfo.block_table level_info) index_iter in
    let l1_id := default 0 (head l1_ids) in
    (if l4_id =? 0 then mret tt
     else modify_at IndirectBlock.t l4_id 0 (fun block =>
       mret (tt, IndirectBlock.mk (next_n INDIRECT_LEN l3_ids).1 (IndirectBlockType_u64 L4)))) ;;
    write_level L3 l3_ids l2_ids ;;
    write_level BlockDirectory l2_ids l1_ids ;;
    write_level BlockTable l1_ids data_iter ;;
    let indirect :=
      if LevelInfo.l4 level_info =? 1 then l4_id
      else if LevelInfo.l3 level_info =? 1 then l3_id
      else if LevelInfo.block_directory level_info =? 1 then l2_id
      else if LevelInfo.block_table level_info =? 1 then l1_id
      else indirect self in
    mret (mk (size self) direct indirect (type_ self) (name self)).

Definition set_size (self : t) (size : Z) : t :=
  mk size (direct self) (indirect self) (type_ self) (name self).

Definition extend (self : t) (new_size : Z) (new_info : LevelInfo.t)
    (data_blocks index_blocks : list Z) : M S t :=
  lift (assert_ (size self <=? new_size) PAssert) ;;
  let self := set_size self new_size in
  '(index, data) ← blocks self;
  forward self new_info (index ++ index_blocks) (data ++ data_blocks).

(** Returns the block ids that are no longer used, index blocks first. *)
Definition shrink (self : t) (new_size : Z) : M S ((list Z * list Z) * t) :=
  lift (assert_ (new_size <=? size self) PAssert) ;;
  prev_data_blocks ← lift (data_blocks self);
  curr_info ← lift (index_blocks (size self));
  new_info ← lift (index_blocks new_size);
  let self := set_size self new_size in
  '(index, data) ← blocks self;
  curr_count ← lift (LevelInfo.index_block_count curr_info);
  new_count ← lift (LevelInfo.index_block_count new_info);
  k ← lift (sub64 curr_count new_count);
  '(collected_index_ids, index) ← lift (pop_n k index);
  new_data_blocks ← lift (_data_blocks new_size);
  k ← lift (sub64 prev_data_blocks new_data_blocks);
  '(collected_data_ids, data) ← lift (pop_n k data);
  self ← forward self new_info index data;
  mret ((collected_index_ids, collected_data_ids), self).

Definition clear_size (self : t) : M S (list Z * t) :=
  '(index, data) ← blocks self;
  ty ← lift (InodeType_of (type_ self));
  mret (index ++ data, init ty (name self) self).
End ops.
End Meta.

#[export] Instance Meta_repr : Repr Meta.t := {|
  size_of := 512;
  of_bytes l := Meta.mk (from_le (take 8 l)) (decode_u64s 36 (drop 8 l)) (from_le (take 8 (drop 296 l)))
    (from_le (take 8 (drop 304 l))) (drop 312 l);
  to_bytes _ x := to_le 8 (Meta.size x) ++ encode_u64s (Meta.direct x) ++ to_le 8 (Meta.indirect x) ++
    to_le 8 (Meta.type_ x) ++ Meta.name x
|}.

(** [type DataBlock = [u8; BLOCK_SIZE]] *)
Record DataBlock := { bytes : list Z }.
#[export] Instance DataBlock_repr : Repr DataBlock := {|
  size_of := BLOCK_SIZE;
  of_bytes l := {| bytes := l |};
  to_bytes _ x := bytes x
|}.

(** ** The representations are faithful *)

#[export] Program Instance DataBlock_laws : ReprLaws DataBlock := {|
  wf x := zlen (bytes x) = BLOCK_SIZE /\ Forall u8 (bytes x)
|}.
Next Obligation. done. Qed.
Next Obligation. by intros old x _ [? _]. Qed.
Next Obligation. by intros old x _ [_ ?]. Qed.
Next Obligation. by intros old [l] _ _. Qed.
Next Obligation. done. Qed.

#[export] Program Instance IndirectBlock_laws : ReprLaws IndirectBlock.t := {|
  wf x := length (IndirectBlock.entries x) = 63%nat /\ Forall u64 (IndirectBlock.entries x) /\
    u64 (IndirectBlock.type_ x)
|}.
Next Obligation. done. Qed.
Next Obligation.
  intros old x _ (Hl & _). cbn -[to_le]. autorewrite with lengths. by rewrite Hl.
Qed.
Next Obligation. intros old x _ _. apply Forall_app; auto with canyon. Qed.
Next Obligation.
  intros old [es ty] _ (Hl & He & Ht). cbn [to_bytes of_bytes IndirectBlock_repr IndirectBlock.entries IndirectBlock.type_] in *.
  f_equal.
  - rewrite <- Hl. by apply decode_encode_u64s.
  - rewrite drop_app_eq by (by rewrite length_encode_u64s, Hl).
    rewrite take_ge by (by rewrite length_to_le). by apply from_to_le_u64.
Qed.
Next Obligation.
  intros l Hl Hu. cbn [of_bytes IndirectBlock_repr IndirectBlock.entries IndirectBlock.type_ size_of] in *.
  split_and!; [by rewrite length_decode_u64s|by apply decode_u64s_u64|].
  apply u64_from_le; [|by apply Forall_take, Forall_drop].
  rewrite length_take, length_drop. unfold BLOCK_SIZE in Hl. lia.
Qed.

#[export] Program Instance Meta_laws : ReprLaws Meta.t := {|
  wf x := u64 (Meta.size x) /\ length (Meta.direct x) = 36%nat /\ Forall u64 (Meta.direct x) /\
    u64 (Meta.indirect x) /\ u64 (Meta.type_ x) /\ length (Meta.name x) = 200%nat /\
    Forall u8 (Meta.name x)
|}.
Next Obligation. done. Qed.
Next Obligation.
  intros old x _ (_ & Hd & _ & _ & _ & Hn & _). cbn -[to_le].
  autorewrite with lengths. by rewrite Hd, Hn.
Qed.
Next Obligation.
  intros old x _ (_ & _ & _ & _ & _ & _ & Hn). cbn -[to_le].
  auto with canyon.
Qed.
Next Obligation.
  intros old [sz di ind ty nm] _ (Hs & Hd & Hdu & Hi & Ht & Hn & _).
  cbn [to_bytes of_bytes Meta_repr Meta.size Meta.direct Meta.indirect Meta.type_ Meta.name] in *.
  assert (Hds : length (encode_u64s di) = 288%nat) by (by rewrite length_encode_u64s, Hd).
  replace 312%nat with (8 + (288 + (8 + 8)))%nat by done. replace 304%nat with (8 + (288 + 8))%nat by done.
  replace 296%nat with (8 + 288)%nat by done. rewrite <- !drop_drop.
  rewrite take_app_eq, !(drop_app_eq 8 (to_le 8 sz)), !(drop_app_eq 288), take_app_eq by (done || by rewrite length_to_le).
  rewrite !(drop_app_eq 8), take_app_eq by (by rewrite length_to_le).
  rewrite !from_to_le_u64 by done. f_equal. rewrite <- Hd. by apply decode_encode_u64s.
Qed.
Next Obligation.
  intros l Hl Hu. cbn [of_bytes Meta_repr Meta.size Meta.direct Meta.indirect Meta.type_ Meta.name size_of] in *.
  split_and!.
  all: try (apply u64_from_le; [rewrite length_take, ?length_drop; lia|by repeat apply Forall_take; try apply Forall_drop]).
  - by rewrite length_decode_u64s.
  - by apply decode_u64s_u64, Forall_drop.
  - rewrite length_drop. lia.
  - by apply Forall_drop.
Qed.

#[export] Program Instance SuperBlock_laws : ReprLaws SuperBlock.t := {|
  wf x := 0 <= SuperBlock.magic x < 2 ^ 32 /\ u64 (SuperBlock.total_blocks x) /\
    u64 (SuperBlock.inode_bitmap_blocks x) /\ u64 (SuperBlock.inode_area_blocks x) /\
    u64 (SuperBlock.data_bitmap_blocks x) /\ u64 (SuperBlock.data_area_blocks x)
|}.
Next Obligation. done. Qed.
Next Obligation.
  intros old x Hl _. cbn [size_of SuperBlock_repr to_bytes] in *.
  autorewrite with lengths. simpl length. lia.
Qed.
Next Obligation.
  intros old x Ho _. cbn [size_of SuperBlock_repr to_bytes] in *.
  auto with canyon.
Qed.
Next Obligation.
  intros old [m a b c d e] Hl (Hm & Ha & Hb & Hc & Hd & He).
  cbn [size_of to_bytes of_bytes SuperBlock_repr SuperBlock.magic SuperBlock.total_blocks
    SuperBlock.inode_bitmap_blocks SuperBlock.inode_area_blocks SuperBlock.data_bitmap_blocks
    SuperBlock.data_area_blocks] in *.
  rewrite app_assoc, drop_app_eq by (rewrite length_app, length_to_le, length_take, length_drop; lia).
  rewrite <- app_assoc, take_app_eq by apply length_to_le. rewrite (from_to_le 4) by done.
  rewrite <- (app_nil_r (encode_u64s _)).
  rewrite (decode_encode_u64s [a; b; c; d; e]); [done|]. by rewrite !Forall_cons.
Qed.
Next Obligation.
  intros l Hl Hu. cbn [of_bytes SuperBlock_repr size_of SuperBlock.magic SuperBlock.total_blocks
    SuperBlock.inode_bitmap_blocks SuperBlock.inode_area_blocks SuperBlock.data_bitmap_blocks
    SuperBlock.data_area_blocks] in *.
  pose proof (decode_u64s_u64 5 (drop 8 l) (Forall_drop _ _ _ Hu)) as Hw.
  pose proof (length_decode_u64s 5 (drop 8 l)) as Hwl.
  destruct (decode_u64s 5 (drop 8 l)) as [|a [|b [|c [|d [|e [|]]]]]]; try done.
  split; [|by inversion_clear Hw as [|? ? Ha Hw']; decompose_Forall].
  pose proof (from_le_bound (take 4 l) (Forall_take _ _ _ Hu)) as Hb.
  rewrite length_take in Hb. replace (Nat.min 4 (length l)) with 4%nat in Hb by lia. exact Hb.
Qed.
