(* ===== verification/Index.v ===== *)
(** What the operations of [Layout] do. [meta_rep v m index data] says that the
    inode record [m] owns, in the contents [v], the data blocks [data] in file
    order and the index blocks [index]; the theorems show that [forward] (hence
    [extend] and [shrink]) establishes it, and that [blocks] and [get_block_id]
    read it back. *)
From S2P Require Import Prelude Device Block Layout.
From Stdlib Require Import ZArith Lia.
From stdpp Require Import gmap functions sorting list_numbers list.
Local Open Scope Z_scope.

(** ** How many index blocks a file needs *)

Definition cdiv (a b : Z) : Z := (a + b - 1) / b.

Ltac unfold_sizes := unfold L4_MAX, L4_INDIRECT_MAX, L3_MAX, L3_INDIRECT_MAX, BLOCK_DIRECTORY_MAX,
  BLOCK_DIRECTORY_INDIRECT_MAX, BLOCK_TABLE_MAX, BLOCK_TABLE_INDIRECT_MAX, DIRECT_MAX, DIRECT_COUNT in *;
  change INDIRECT_LEN with 63 in *; unfold BLOCK_SIZE in *.

Ltac size_lia := unfold_sizes; unfold cdiv in *; Z.to_euclidean_division_equations; lia.

(** The number of blocks of each level for a file of [s] bytes: none without an
    indirect part, otherwise one root and, below it, as many blocks as needed. *)
Inductive level_shape (s : Z) : LevelInfo.t -> Prop :=
  | shape_direct : s <= DIRECT_MAX -> level_shape s (LevelInfo.mk 0 0 0 0 (cdiv s 512))
  | shape_l1 m : m = cdiv s 512 - 36 -> 0 < m <= 63 ->
      level_shape s (LevelInfo.mk 0 0 0 1 36)
  | shape_l2 m n1 : m = cdiv s 512 - 36 -> 63 < m -> m <= 63 * n1 -> 63 * (n1 - 1) < m ->
      n1 <= 63 -> level_shape s (LevelInfo.mk 0 0 1 n1 36)
  | shape_l3 m n1 n2 : m = cdiv s 512 - 36 -> 63 * 63 < m -> m <= 63 * n1 -> 63 * (n1 - 1) < m ->
      n1 <= 63 * n2 -> 63 * (n2 - 1) < n1 -> n2 <= 63 -> level_shape s (LevelInfo.mk 0 1 n2 n1 36)
  | shape_l4 m n1 n2 n3 : m = cdiv s 512 - 36 -> 63 * 63 * 63 < m -> m <= 63 * n1 ->
      63 * (n1 - 1) < m -> n1 <= 63 * n2 -> 63 * (n2 - 1) < n1 -> n2 <= 63 * n3 ->
      63 * (n3 - 1) < n2 -> n3 <= 63 -> level_shape s (LevelInfo.mk 1 n3 n2 n1 36).

Lemma div_up_ok x y : 0 <= x -> 0 < y -> x + y < U64 -> Meta.div_up x y = Ok (cdiv x y).
Proof. intros. unfold Meta.div_up. rewrite add64_ok by lia. omon. by rewrite sub64_ok by lia. Qed.

Lemma data_blocks_ok s : 0 <= s <= L4_MAX -> Meta._data_blocks s = Ok (cdiv s 512).
Proof. intros. apply div_up_ok; unfold_sizes; unfold U64; lia. Qed.

Lemma index_blocks_shape s : 0 <= s <= L4_MAX ->
  exists info, Meta.index_blocks s = Ok info /\ level_shape s info.
Proof.
  intros Hs. unfold Meta.index_blocks, Meta.indirect_size_of.
  assert (Hx : 0 <= (if DIRECT_MAX <=? s then s - DIRECT_MAX else 0) <= L4_MAX).
  { destruct (Z.leb_spec DIRECT_MAX s); unfold_sizes; lia. }
  rewrite !div_up_ok by (unfold_sizes; unfold U64; lia). omon.
  destruct (Z.ltb_spec L3_MAX s) as [H3|H3].
  { rewrite (proj2 (Z.leb_le _ _)) by (unfold_sizes; lia).
    eexists. split; [done|]. eapply shape_l4; [done|..]; size_lia. }
  destruct (Z.ltb_spec BLOCK_DIRECTORY_MAX s) as [H2|H2].
  { rewrite (proj2 (Z.leb_le _ _)) by (unfold_sizes; lia).
    eexists. split; [done|]. eapply shape_l3; [done|..]; size_lia. }
  destruct (Z.ltb_spec BLOCK_TABLE_MAX s) as [H1|H1].
  { rewrite (proj2 (Z.leb_le _ _)) by (unfold_sizes; lia).
    eexists. split; [done|]. eapply shape_l2; [done|..]; size_lia. }
  destruct (Z.ltb_spec DIRECT_MAX s) as [H0|H0].
  { eexists. split; [done|]. eapply shape_l1; [done|size_lia]. }
  eexists. split; [done|]. by apply shape_direct.
Qed.

Lemma index_shape s info : 0 <= s <= L4_MAX -> Meta.index_blocks s = Ok info -> level_shape s info.
Proof. intros Hs E. destruct (index_blocks_shape s Hs) as (i & E' & Hi). by rewrite E in E'; simplify_eq. Qed.

(** The number of index blocks. *)
Definition index_count (info : LevelInfo.t) : Z :=
  LevelInfo.l4 info + LevelInfo.l3 info + LevelInfo.block_directory info + LevelInfo.block_table info.

Lemma shape_bounds s info : 0 <= s <= L4_MAX -> level_shape s info ->
  0 <= LevelInfo.l4 info /\ 0 <= LevelInfo.l3 info /\ 0 <= LevelInfo.block_directory info /\
  0 <= LevelInfo.block_table info /\ index_count info <= s.
Proof.
  intros Hs Hi. unfold index_count.
  destruct Hi; subst; cbn [LevelInfo.l4 LevelInfo.l3 LevelInfo.block_directory LevelInfo.block_table];
    split_and!; size_lia.
Qed.

Lemma index_block_count_ok s info : 0 <= s <= L4_MAX -> level_shape s info ->
  LevelInfo.index_block_count info = Ok (index_count info).
Proof.
  intros Hs Hi. destruct (shape_bounds s info Hs Hi) as (?&?&?&?&Hc).
  unfold LevelInfo.index_block_count, index_count in *.
  assert (s < U64) by (unfold_sizes; unfold U64; lia).
  rewrite add64_ok by lia. omon. rewrite add64_ok by lia. omon. rewrite add64_ok by lia. done.
Qed.

(** It depends on the number of data blocks only, and grows with it. *)
Lemma shape_mono s s' info info' : 0 <= s <= L4_MAX -> 0 <= s' <= L4_MAX ->
  cdiv s 512 <= cdiv s' 512 ->
  level_shape s info -> level_shape s' info' -> index_count info <= index_count info'.
Proof.
  intros Hs Hs' Hc Hi Hi'. unfold index_count.
  destruct Hi, Hi'; subst; cbn [LevelInfo.l4 LevelInfo.l3 LevelInfo.block_directory LevelInfo.block_table];
    try lia; size_lia.
Qed.

(** ** The tree of index blocks *)

(** The blocks [ids], of type [ty], list [below] in order: block [j] holds the
    entries from [63 j] on, padded with zeros. *)
Definition level_ok (v : Z -> list Z) (ty : Z) (ids below : list Z) : Prop :=
  forall j id, ids !! j = Some id ->
    peek IndirectBlock.t 0 (v id) = IndirectBlock.mk (resize 63 0 (drop (63 * j) below)) ty.

(** [ids] are the nodes of level [lv] (0 for block tables, 3 for L4), the index
    blocks below them are [index], and their leaves are [data]. *)
Fixpoint index_rep (v : Z -> list Z) (lv : nat) (ids index data : list Z) : Prop :=
  match lv with
  | O => index = [] /\ level_ok v 0 ids data /\ (length data <= 63 * length ids)%nat
  | S lv' => exists below index', index ≡ₚ below ++ index' /\
      level_ok v (Z.of_nat lv) ids below /\ (length below <= 63 * length ids)%nat /\
      index_rep v lv' below index' data
  end.

Lemma resize_drop_take j k (l : list Z) : (j < k)%nat ->
  resize 63 0 (drop (63 * j) (take (63 * k) l)) = resize 63 0 (drop (63 * j) l).
Proof. intros. rewrite skipn_firstn_comm, resize_take_le by lia. done. Qed.

Lemma level_ok_app v ty ids1 ids2 below : level_ok v ty (ids1 ++ ids2) below ->
  level_ok v ty ids1 (take (63 * length ids1) below) /\
  level_ok v ty ids2 (drop (63 * length ids1) below).
Proof.
  intros Hl. split; intros j id Hj.
  - assert (j < length ids1)%nat by (by eapply lookup_lt_Some).
    rewrite (Hl j id) by (by rewrite lookup_app_l). by rewrite resize_drop_take.
  - rewrite (Hl (length ids1 + j)%nat id).
    + rewrite drop_drop. do 3 f_equal. lia.
    + rewrite lookup_app_r by lia. by replace (length ids1 + j - length ids1)%nat with j by lia.
Qed.

Lemma index_rep_app v lv ids1 ids2 index data : index_rep v lv (ids1 ++ ids2) index data ->
  exists index1 index2 data1 data2, data = data1 ++ data2 /\ index ≡ₚ index1 ++ index2 /\
    index_rep v lv ids1 index1 data1 /\ index_rep v lv ids2 index2 data2.
Proof.
  revert ids1 ids2 index data. induction lv as [|lv IH]; intros ids1 ids2 index data; cbn [index_rep].
  - intros (-> & Hl & Hlen). apply level_ok_app in Hl as [Hl1 Hl2]. rewrite length_app in Hlen.
    exists [], [], (take (63 * length ids1) data), (drop (63 * length ids1) data).
    rewrite length_take, length_drop. split_and!; auto; [by rewrite take_drop|lia|lia].
  - intros (below & index' & Hp & Hl & Hlen & Hr). apply level_ok_app in Hl as [Hl1 Hl2].
    rewrite length_app in Hlen. rewrite <- (take_drop (63 * length ids1) below) in Hr.
    destruct (IH _ _ _ _ Hr) as (i1 & i2 & d1 & d2 & -> & Hp' & Hr1 & Hr2).
    exists (take (63 * length ids1) below ++ i1), (drop (63 * length ids1) below ++ i2), d1, d2.
    split_and!; auto.
    + rewrite Hp, Hp'. rewrite <- (take_drop (63 * length ids1) below) at 1. solve_Permutation.
    + eexists _, i1. split_and!; [done|done| |done]. rewrite length_take. lia.
    + eexists _, i2. split_and!; [done|done| |done]. rewrite length_drop. lia.
Qed.

(** Filtering out the padding. *)
Lemma filter_resize (P : Z -> Prop) `{forall x, Decision (P x)} k (l : list Z) :
  ~ P 0 -> Forall P l -> filter P (resize k 0 l) = take k l.
Proof.
  intros H0 Hl. revert k. induction Hl as [|x l Hx Hl IH]; intros k.
  - rewrite resize_nil, take_nil. induction k; [done|]. by rewrite replicate_S, filter_cons_False.
  - destruct k as [|k]; [done|]. cbn [resize take]. by rewrite filter_cons_True, IH.
Qed.

(** None of the blocks is zero or filtered out. *)
Definition kept (flt : option (list Z)) (l : list Z) : Prop := Forall (fun x => keep flt x = true) l.

#[export] Instance kept_Permutation flt : Proper (Permutation ==> iff) (kept flt).
Proof. intros l l' Hl. unfold kept. by rewrite Hl. Qed.

Lemma kept_None l : Forall (fun x => x <> 0) l -> kept None l.
Proof. intros Hl. eapply Forall_impl; [exact Hl|]. intros x Hx. unfold keep. by rewrite (proj2 (Z.eqb_neq _ _)). Qed.

Lemma filter_kept flt l : kept flt l -> filter (fun x => keep flt x = true) l = l.
Proof. intros Hl. induction Hl as [|x l Hx Hl IH]; [done|]. by rewrite filter_cons_True, IH. Qed.

(** The padding is never kept. *)
Lemma filter_pad flt k (l : list Z) : (length l <= k)%nat ->
  filter (fun x => keep flt x = true) (resize k 0 l) = filter (fun x => keep flt x = true) l.
Proof.
  intros Hl. rewrite resize_ge, filter_app by done. rewrite <- (app_nil_r (filter _ l)) at 2. f_equal.
  induction (k - length l)%nat as [|m IH]; [done|]. cbn [replicate]. by rewrite filter_cons_False.
Qed.

(** A single node lists at most 63 blocks, and [keep] recovers them. *)
Lemma filter_entries flt (l : list Z) : (length l <= 63)%nat -> kept flt l ->
  filter (fun x => keep flt x = true) (resize 63 0 l) = l.
Proof. intros Hl Hz. rewrite filter_pad by done. by apply filter_kept. Qed.

(** The entries of node [j] of a level. *)
Lemma level_entry v ty ids below j id : level_ok v ty ids below -> ids !! j = Some id ->
  forall t x, (t < 63)%nat -> below !! (63 * j + t)%nat = Some x ->
  IndirectBlock.entries (peek IndirectBlock.t 0 (v id)) !! t = Some x /\
  IndirectBlock.type_ (peek IndirectBlock.t 0 (v id)) = ty.
Proof.
  intros Hl Hj t x Ht Hx. rewrite (Hl j id Hj). cbn [IndirectBlock.entries IndirectBlock.type_].
  split; [|done]. apply lookup_lt_Some in Hx as Hlt.
  rewrite lookup_resize by (rewrite ?length_drop; lia). by rewrite lookup_drop.
Qed.

Lemma type_of_level lv : (lv <= 3)%nat -> exists ty, IndirectBlockType_of (Z.of_nat lv) = Ok ty /\
  (ty = BlockTable <-> lv = 0%nat).
Proof. intros. do 4 (destruct lv as [|lv]; [eexists; split; [done|done]|]). lia. Qed.

Lemma index_rep_nil v lv index data : index_rep v lv [] index data -> index = [] /\ data = [].
Proof.
  revert index data. induction lv as [|lv IH]; intros index data; cbn [index_rep].
  - intros (-> & _ & Hl). split; [done|]. apply nil_length_inv. simpl in Hl. lia.
  - intros (below & index' & Hp & _ & Hl & Hr).
    assert (below = []) as -> by (apply nil_length_inv; simpl in Hl; lia).
    destruct (IH _ _ Hr) as [-> ->]. split; [|done]. by apply Permutation_nil_r.
Qed.

(** A node of level [lv] covers [63 ^ (lv + 1)] leaves. *)
Lemma index_rep_length v lv ids index data : index_rep v lv ids index data ->
  (length data <= 63 ^ (S lv) * length ids)%nat.
Proof.
  revert ids index data. induction lv as [|lv IH]; intros ids index data; cbn [index_rep].
  - intros (_ & _ & Hl). simpl in *. lia.
  - intros (below & index' & _ & _ & Hl & Hr). specialize (IH _ _ _ Hr).
    rewrite (Nat.pow_succ_r _ (S lv)) by lia. nia.
Qed.

(** Only the nodes matter. *)
Lemma level_ok_frame v v' ty ids below : (forall i, i ∈ ids -> v' i = v i) ->
  level_ok v ty ids below -> level_ok v' ty ids below.
Proof.
  intros Hv Hl j id Hj. rewrite Hv; [by apply Hl|]. by eapply list_elem_of_lookup_2.
Qed.

Lemma index_rep_frame v v' lv : forall ids index data,
  (forall i, i ∈ ids ++ index -> v' i = v i) ->
  index_rep v lv ids index data -> index_rep v' lv ids index data.
Proof.
  induction lv as [|lv IH]; intros ids index data Hv; cbn [index_rep].
  - intros (-> & Hl & Hlen). split_and!; [done| |done].
    eapply level_ok_frame; [|exact Hl]. set_solver.
  - intros (below & index' & Hp & Hl & Hlen & Hr).
    assert (Hin : forall i, i ∈ below ++ index' -> i ∈ index) by (intros; by rewrite Hp).
    exists below, index'. split_and!; [done| |done|].
    + eapply level_ok_frame; [|exact Hl]. set_solver.
    + apply IH; [|done]. intros i Hi. apply Hv. rewrite elem_of_app. right. by apply Hin.
Qed.

(** ** The blocks of an inode *)

(** The first 36 data blocks are direct; the others, if any, are the leaves of a
    tree of at most four levels rooted at [indirect], whose nodes are [index]. *)
Record meta_rep (v : Z -> list Z) (m : Meta.t) (index data : list Z) : Prop := {
  mr_direct : Meta.direct m = resize 36 0 data;
  mr_nonzero : Forall (fun x => x <> 0) data;
  mr_tree :
    (drop 36 data = [] /\ Meta.indirect m = 0 /\ index = []) \/
    (exists lv index', (lv <= 3)%nat /\ index ≡ₚ Meta.indirect m :: index' /\
      drop 36 data <> [] /\ index_rep v lv [Meta.indirect m] index' (drop 36 data))
}.

Lemma meta_rep_frame v v' m index data : (forall i, i ∈ index -> v' i = v i) ->
  meta_rep v m index data -> meta_rep v' m index data.
Proof.
  intros Hv [Hd Hz Ht]. split; [done..|]. destruct Ht as [?|(lv & index' & Hlv & Hp & Hne & Hr)]; [by left|].
  right. exists lv, index'. split_and!; [done..|]. eapply index_rep_frame; [|exact Hr].
  intros i Hi. apply Hv. by rewrite Hp.
Qed.

Lemma merge_sort_perm (l l' : list Z) : l ≡ₚ l' -> merge_sort Z.le l = merge_sort Z.le l'.
Proof.
  intros Hp. apply (StronglySorted_unique Z.le).
  - apply StronglySorted_merge_sort; apply _.
  - apply StronglySorted_merge_sort; apply _.
  - by rewrite !merge_sort_Permutation.
Qed.

(** ** Reading the tree *)
Section reading.
Context {St : Type} {n : Z} `{HL : BlockCacheLaws St n}.

(** Index blocks the current frames may read: allocated, and not held for writing. *)
Definition readable (h : list (Z * lock)) (ids : list Z) : Prop :=
  Forall (fun i => 0 < i < n /\ (i, Wr) ∉ h) ids.

#[export] Instance readable_Permutation h : Proper (Permutation ==> iff) (readable h).
Proof. intros l l' Hl. unfold readable. by rewrite Hl. Qed.

Lemma readable_cons h b ids : readable h ids -> readable ((b, Rd) :: h) ids.
Proof.
  intros Hr. eapply Forall_impl; [exact Hr|]. intros i [Hi Hw]. split; [done|].
  rewrite not_elem_of_cons. split; [congruence|done].
Qed.

(** Visiting the nodes [ids] of one level, as the loop of [_to_vec] does. *)
Definition visit (flt : option (list Z)) (fuel : nat) (acc : list Z * list Z) (ids : list Z) : M St (list Z * list Z) :=
  foldM (fun '(data_ids, index_ids) id =>
    read_at IndirectBlock.t id 0 (fun block =>
      IndirectOps.to_vec_ fuel block data_ids (index_ids ++ [id]) flt)) acc ids.

(** The visit appends the leaves in order, and each index block once. *)
Definition visited (v : Z -> list Z) (acc : list Z * list Z) (ids index data : list Z)
    (r : list Z * list Z) (v' : Z -> list Z) : Prop :=
  v' = v /\ r.1 = acc.1 ++ data /\ exists pre, r.2 = acc.2 ++ pre /\ pre ≡ₚ ids ++ index.

(** One node, given the nodes below it. *)
Lemma to_vec_node flt lv fuel id index data v h d i :
  (forall ids' index' acc', index_rep v lv ids' index' data ->
    readable h (ids' ++ index') -> kept flt (index' ++ data) ->
    spec n (visit flt fuel acc' ids') v h (visited v acc' ids' index' data)) ->
  index_rep v (S lv) [id] index data -> (lv < 3)%nat -> readable h index -> kept flt (index ++ data) ->
  spec n (IndirectOps.to_vec_ (S fuel) (peek IndirectBlock.t 0 (v id)) d i flt)
    v h (visited v (d, i) [] index data).
Proof.
  intros IH (below & index' & Hp & Hl & Hlen & Hr) Hlv Hrd Hk.
  rewrite Hp, <- app_assoc in Hk. apply Forall_app in Hk as [Hkb Hk].
  rewrite (Hl 0%nat id eq_refl), Nat.mul_0_r, drop_0. cbn [IndirectOps.to_vec_ IndirectBlock.type_ IndirectBlock.entries].
  destruct (type_of_level (S lv)) as (ty & Hty & Hbt); [lia|]. rewrite Hty.
  eapply spec_bind_lift; [done|]. rewrite Hp in Hrd. rewrite filter_entries by (done || simpl in Hlen; lia).
  assert (Hv : spec n (visit flt fuel (d, i) below) v h (visited v (d, i) [] index data)).
  { eapply spec_conseq; [by apply (IH below index')|].
    intros r v' (-> & Hd & pre & Hi & Hpre). split_and!; auto. exists pre. split; [done|].
    by rewrite Hpre, Hp. }
  destruct ty; [naive_solver lia|exact Hv..].
Qed.

Lemma to_vec_leaf flt fuel id data v h d i : index_rep v 0 [id] [] data ->
  kept flt data ->
  spec n (IndirectOps.to_vec_ (S fuel) (peek IndirectBlock.t 0 (v id)) d i flt)
    v h (visited v (d, i) [] [] data).
Proof.
  intros (_ & Hl & Hlen) Hz. rewrite (Hl 0%nat id eq_refl), Nat.mul_0_r, drop_0.
  cbn [IndirectOps.to_vec_ IndirectBlock.type_ IndirectBlock.entries].
  eapply spec_bind_lift; [done|]. rewrite filter_entries; [|simpl in Hlen; lia|done].
  apply spec_ret. split_and!; auto. exists []. by rewrite app_nil_r.
Qed.

Lemma visit_nil flt fuel acc lv v h index data : index_rep v lv [] index data ->
  spec n (visit flt fuel acc []) v h (visited v acc [] index data).
Proof.
  intros Hr. destruct (index_rep_nil _ _ _ _ Hr) as [-> ->]. apply spec_ret.
  split_and!; [done|by rewrite app_nil_r|]. exists []. by rewrite app_nil_r.
Qed.

Lemma visit_spec flt lv : forall fuel ids index data v h acc,
  (lv < fuel)%nat -> (lv <= 3)%nat -> (length h + lv < CACHE_SIZE)%nat ->
  index_rep v lv ids index data -> readable h (ids ++ index) -> kept flt (index ++ data) ->
  spec n (visit flt fuel acc ids) v h (visited v acc ids index data).
Proof.
  induction lv as [lv IHlv] using lt_wf_ind. intros fuel ids.
  induction ids as [|id ids IHids]; intros index data v h [d i] Hf Hlv Hh Hr Hrd Hz.
  { by eapply visit_nil. }
  destruct (index_rep_app v lv [id] ids index data Hr) as (i1 & i2 & d1 & d2 & -> & Hp & Hr1 & Hr2).
  assert (Hz' : kept flt ((i1 ++ d1) ++ i2 ++ d2)).
  { rewrite Hp in Hz. rewrite <- app_assoc in Hz |- *. by rewrite (app_assoc d1), (Permutation_app_comm d1 i2), <- app_assoc. }
  apply Forall_app in Hz' as [Hz1 Hz2].
  assert (Hrd1 : readable h [id] /\ readable h i1 /\ readable h (ids ++ i2)).
  { rewrite Hp in Hrd. unfold readable in *. rewrite !Forall_app, !Forall_cons, ?Forall_app in *.
    rewrite Forall_nil. tauto. }
  destruct Hrd1 as (Hid & Hrd1 & Hrd2). apply Forall_cons in Hid as [[Hid Hw] _].
  unfold visit. cbn [foldM]. eapply (spec_bind _ _ _ _ _ (visited v (d, i ++ [id]) [] i1 d1)).
  - apply (spec_read_at IndirectBlock.t); [lia|done|lia|done|done|].
    destruct fuel as [|fuel]; [lia|]. destruct lv as [|lv].
    + assert (Hi1 := Hr1). destruct Hi1 as [-> _]. by apply to_vec_leaf.
    + apply (to_vec_node flt lv); [|done|lia|by apply readable_cons|done].
      intros ids' index' acc' Hr' Hrd' Hk'. apply (IHlv lv); auto; simpl; lia.
  - intros [d' i'] v' (-> & Hd & pre & Hi & Hpre). simpl in *.
    eapply spec_conseq; [apply (IHids i2 d2 v h (d', i')); auto|].
    intros [d'' i''] v' (-> & Hd' & pre' & Hi' & Hpre'). simpl in *. subst. split; [done|]. simpl.
    split; [by rewrite app_assoc|]. exists (id :: pre ++ pre'). split; [by rewrite <- !app_assoc|].
    rewrite Hpre, Hpre', Hp. solve_Permutation.
Qed.

(** [to_vec] on the root of a tree of level [lv]. *)
Lemma to_vec_root flt lv id index data v h : (lv <= 3)%nat -> (length h + lv < CACHE_SIZE)%nat ->
  index_rep v lv [id] index data -> readable h (id :: index) -> kept flt (index ++ data) ->
  spec n (read_at IndirectBlock.t id 0 (fun block => IndirectOps.to_vec block flt)) v h
    (fun r v' => v' = v /\ r.2 = data /\ r.1 ≡ₚ index).
Proof.
  intros Hlv Hh Hr Hrd Hz. apply Forall_cons in Hrd as [[Hid Hw] Hrd].
  apply (spec_read_at IndirectBlock.t); [lia|done|lia|done|done|].
  eapply (spec_bind _ _ _ _ _ (visited v ([], []) [] index data)).
  - unfold IndirectOps.FUEL. destruct lv as [|lv].
    + assert (Hi := Hr). destruct Hi as [-> _]. by apply to_vec_leaf.
    + apply (to_vec_node flt lv); [|done|lia|by apply readable_cons|done].
      intros ids' index' acc' Hr' Hrd' Hk'. apply (visit_spec flt lv); auto; simpl; lia.
  - intros [d i] v' (-> & Hd & pre & Hi & Hpre). apply spec_ret. simpl in *. by subst.
Qed.

(** A loop, split in two. *)
Lemma spec_foldM_app {A B} (f : B -> A -> M St B) acc l1 l2 v h (P : B -> (Z -> list Z) -> Prop) Q :
  spec n (foldM f acc l1) v h P -> (forall r v', P r v' -> spec n (foldM f r l2) v' h Q) ->
  spec n (foldM f acc (l1 ++ l2)) v h Q.
Proof.
  intros H1 H2 st Hst. assert (E : foldM f acc (l1 ++ l2) st = (foldM f acc l1 ≫= fun r => foldM f r l2) st).
  { clear. revert acc st. induction l1 as [|x l1 IH]; intros acc st; [done|]. cbn. unfold mbind, M_bind, outcome_bind in *.
    destruct (f acc x st) as [[b st']|e]; [apply IH|done]. }
  rewrite E. by apply (spec_bind _ _ _ _ _ _ H1 H2).
Qed.

(** [to_vec] with the filter [x] on a node that lists [x]: the blocks below [x] are left out. *)
Lemma to_vec_without lv id pre x post i1 i3 d1 d3 v h : (lv < 3)%nat -> (length h + S lv < CACHE_SIZE)%nat ->
  level_ok v (Z.of_nat (S lv)) [id] (pre ++ x :: post) -> (length (pre ++ x :: post) <= 63)%nat ->
  index_rep v lv pre i1 d1 -> index_rep v lv post i3 d3 ->
  kept (Some [x]) (pre ++ i1 ++ d1) -> kept (Some [x]) (post ++ i3 ++ d3) ->
  readable h (id :: (pre ++ i1) ++ post ++ i3) ->
  spec n (read_at IndirectBlock.t id 0 (fun block => IndirectOps.to_vec block (Some [x]))) v h
    (fun r v' => v' = v /\ r.2 = d1 ++ d3 /\ r.1 ≡ₚ (pre ++ i1) ++ post ++ i3).
Proof.
  intros Hlv Hh Hl Hlen Hr1 Hr3 Hk1 Hk3 Hrd. apply Forall_cons in Hrd as [[Hid Hw] Hrd].
  apply Forall_app in Hrd as [Hrd1 Hrd3]. apply Forall_app in Hk1 as [Hkp Hk1], Hk3 as [Hkq Hk3].
  assert (exists fuel, IndirectOps.FUEL = S fuel /\ (lv < fuel)%nat) as (fuel & Ef & Hfuel) by (exists 63%nat; split; [done|lia]).
  unfold IndirectOps.to_vec. rewrite Ef. clear Ef.
  apply (spec_read_at IndirectBlock.t); [lia|done|lia|done|done|].
  assert (Hids : filter (fun y => keep (Some [x]) y = true) (resize 63 0 (pre ++ x :: post)) = pre ++ post).
  { rewrite filter_pad by done. rewrite filter_app, filter_cons_False.
    - by rewrite !filter_kept.
    - unfold keep. rewrite bool_decide_eq_false_2; [by rewrite andb_false_r|]. intros []. by left. }
  eapply (spec_bind _ _ _ _ _ (fun r v' => v' = v /\ r.1 = d1 ++ d3 /\ r.2 ≡ₚ (pre ++ i1) ++ post ++ i3)).
  2:{ intros [d i] v' (-> & Hd & Hi). by apply spec_ret. }
  rewrite (Hl 0%nat id eq_refl), Nat.mul_0_r, drop_0.
  cbn [IndirectOps.to_vec_ IndirectBlock.type_ IndirectBlock.entries]. rewrite Hids.
  destruct (type_of_level (S lv)) as (ty & Hty & Hbt); [lia|]. rewrite Hty. eapply spec_bind_lift; [done|].
  assert (Hgo : spec n (visit (Some [x]) fuel ([], []) (pre ++ post)) v ((id, Rd) :: h)
    (fun r v' => v' = v /\ r.1 = d1 ++ d3 /\ r.2 ≡ₚ (pre ++ i1) ++ post ++ i3)).
  { eapply spec_foldM_app.
    - apply (visit_spec (Some [x]) lv fuel pre i1 d1); auto; first [lia|simpl; lia|by apply readable_cons].
    - intros [d i] v' (-> & Hd & pr & Hi & Hpr). simpl in Hd, Hi. subst d i. eapply spec_conseq.
      + apply (visit_spec (Some [x]) lv fuel post i3 d3); auto; first [lia|simpl; lia|by apply readable_cons].
      + intros [d i] v' (-> & Hd & pr' & Hi & Hpr'). simpl in *. subst. by rewrite Hpr, Hpr'. }
  destruct ty; [naive_solver lia|exact Hgo..].
Qed.

Lemma get_block_id_leaf fuel ids data j id i x v h : index_rep v 0 ids [] data ->
  ids !! j = Some id -> (i < 63)%nat -> data !! (j * 63 + i)%nat = Some x ->
  spec n (IndirectOps.get_block_id (S fuel) (peek IndirectBlock.t 0 (v id)) (Z.of_nat i)) v h
    (fun r v' => v' = v /\ r = x).
Proof.
  intros (_ & Hl & _) Hj Hi Hx. rewrite Nat.mul_comm in Hx.
  destruct (level_entry _ _ _ _ _ _ Hl Hj i x Hi Hx) as [He Ht].
  cbn [IndirectOps.get_block_id]. rewrite Ht. eapply spec_bind_lift; [done|].
  rewrite Nat2Z.id, He. by eapply spec_lift.
Qed.

Lemma divisor_level lv ty : (lv < 3)%nat -> IndirectBlockType_of (Z.of_nat (S lv)) = Ok ty ->
  ty <> BlockTable /\
  match ty with
  | BlockTable => 1 | BlockDirectory => INDIRECT_LEN | L3 => INDIRECT_LEN * INDIRECT_LEN
  | L4 => INDIRECT_LEN * INDIRECT_LEN * INDIRECT_LEN
  end = Z.of_nat (63 ^ S lv).
Proof.
  intros Hlv Ht. destruct lv as [|[|[|lv]]]; [..|lia]; vm_compute in Ht; simplify_eq; by vm_compute.
Qed.

Lemma get_block_id_node lv : forall fuel ids index data j id i x v h,
  (lv < fuel)%nat -> (lv <= 3)%nat -> (length h + lv < CACHE_SIZE + 1)%nat ->
  index_rep v lv ids index data -> readable h index -> ids !! j = Some id ->
  (i < 63 ^ S lv)%nat -> data !! (j * 63 ^ S lv + i)%nat = Some x ->
  spec n (IndirectOps.get_block_id fuel (peek IndirectBlock.t 0 (v id)) (Z.of_nat i)) v h
    (fun r v' => v' = v /\ r = x).
Proof.
  induction lv as [|lv IH]; intros fuel ids index data j id i x v h Hf Hlv Hh Hr Hrd Hj Hi Hx;
    (destruct fuel as [|fuel]; [lia|]).
  { assert (Hi0 := Hr). destruct Hi0 as [-> _]. by eapply get_block_id_leaf. }
  destruct Hr as (below & index' & Hp & Hl & _ & Hr).
  rewrite Nat.pow_succ_r in Hi, Hx by lia. set (P := (63 ^ S lv)%nat) in *.
  pose proof (index_rep_length _ _ _ _ _ Hr) as Hlen. fold P in Hlen.
  apply lookup_lt_Some in Hx as Hlt. pose proof (Nat.div_mod_eq i P) as Hdm.
  assert (HP : (0 < P)%nat) by (unfold P; apply Nat.neq_0_lt_0, Nat.pow_nonzero; lia).
  pose proof (Nat.mod_upper_bound i P ltac:(lia)) as Hm.
  assert (Ht : (i / P < 63)%nat) by (apply Nat.Div0.div_lt_upper_bound; lia).
  destruct (lookup_lt_is_Some_2 below (63 * j + i / P)%nat) as [y Hy]; [nia|].
  destruct (level_entry _ _ _ _ _ _ Hl Hj _ _ Ht Hy) as [He Hty].
  destruct (type_of_level (S lv)) as (ty & Hty' & _); [lia|].
  destruct (divisor_level lv ty) as [Hnb Hdiv]; [lia|done|].
  assert (Hrdy : readable h [y]).
  { rewrite Hp in Hrd. apply Forall_app in Hrd as [Hrd _]. constructor; [|constructor].
    eapply Forall_lookup in Hrd; eauto. }
  apply Forall_cons in Hrdy as [[Hyn Hyw] _].
  assert (Hgo : spec n (read_at IndirectBlock.t y 0 (fun block =>
      IndirectOps.get_block_id fuel block (Z.of_nat (i mod P)))) v h (fun r v' => v' = v /\ r = x)).
  { apply (spec_read_at IndirectBlock.t); [lia|done|lia|done|done|].
    apply (IH fuel below index' data (63 * j + i / P)%nat y); [lia|lia|cbn [length]; lia|done| |done|done|].
    - apply readable_cons. rewrite Hp in Hrd. by apply Forall_app in Hrd as [_ Hrd].
    - rewrite <- Hx. f_equal. nia. }
  cbn [IndirectOps.get_block_id]. rewrite Hty, Hty'. eapply spec_bind_lift; [done|].
  assert (Hq : forall D, D = Z.of_nat P ->
    Z.to_nat (Z.of_nat i / D) = (i / P)%nat /\ Z.of_nat i mod D = Z.of_nat (i mod P)).
  { intros D ->. rewrite <- Nat2Z.inj_div, <- Nat2Z.inj_mod. by rewrite Nat2Z.id. }
  destruct (Hq _ Hdiv) as [Hq1 Hq2].
  destruct ty; [done|..]; rewrite Hq1, Hq2, He; (eapply spec_bind_lift; [done|exact Hgo]).
Qed.

(** [Meta::blocks] finds exactly the blocks the inode owns: the data blocks in file
    order, the index blocks sorted. *)
Lemma blocks_spec m index data v h : meta_rep v m index data -> readable h index ->
  (length h + 3 < CACHE_SIZE)%nat ->
  spec n (Meta.blocks m) v h (fun r v' => v' = v /\ r = (merge_sort Z.le index, data)).
Proof.
  intros [Hd Hz Ht] Hrd Hh. unfold Meta.blocks. rewrite Hd, filter_resize by (done || lia).
  destruct Ht as [(Hdr & -> & ->)|(lv & index' & Hlv & Hp & Hne & Hr)].
  - cbn [Z.eqb]. eapply spec_bind; [by apply (spec_ret _ _ _ (fun r v' => r = ([], take 36 data) /\ v' = v))|].
    intros [i d] v' [? ->]. simplify_eq. apply spec_ret. split; [done|]. f_equal.
    rewrite <- (take_drop 36 data) at 2. by rewrite Hdr, app_nil_r.
  - rewrite Hp in Hrd. assert (Hi := Hrd). apply Forall_cons in Hi as [[Hi _] _].
    rewrite (proj2 (Z.eqb_neq _ _)) by lia.
    eapply (spec_bind _ _ _ _ _ (fun r v' => v' = v /\ r.2 = data /\ r.1 ≡ₚ index)).
    + eapply spec_bind; [eapply to_vec_root; eauto; [lia|]|].
      { apply kept_None, Forall_app. split; [|by apply Forall_drop].
        apply Forall_cons in Hrd as [_ Hrd]. eapply Forall_impl; [exact Hrd|]. simpl. lia. }
      intros [i d] v' (-> & Hd' & Hi'). simpl in *. apply spec_ret. subst. split_and!; [done|apply take_drop|].
      by rewrite Hp, Hi'.
    + intros [i d] v' (-> & Hd' & Hi'). apply spec_ret. simpl in *. subst.
      by rewrite (merge_sort_perm i index).
Qed.

(** [Meta::get_block_id] maps a block of the file to its place on the disk. *)
Lemma get_block_id_spec m index data v h i : meta_rep v m index data -> readable h index ->
  (length h + 3 < CACHE_SIZE)%nat -> 0 <= Meta.size m <= L4_MAX -> zlen data = cdiv (Meta.size m) 512 ->
  0 <= i -> spec n (Meta.get_block_id m i) v h (fun r v' => v' = v /\ r = data !! Z.to_nat i).
Proof.
  intros [Hd Hz Ht] Hrd Hh Hs Hlen Hi. unfold Meta.get_block_id.
  eapply spec_bind_lift; [by apply data_blocks_ok|].
  destruct (Z.leb_spec (cdiv (Meta.size m) 512) i) as [Hge|Hlt].
  { apply spec_ret. split; [done|]. symmetry. apply lookup_ge_None. lia. }
  destruct (lookup_lt_is_Some_2 data (Z.to_nat i)) as [x Hx]; [lia|]. rewrite Hx.
  unfold DIRECT_COUNT. destruct (Z.ltb_spec i 36) as [H36|H36].
  { eapply (spec_bind_lift _ x); [|by apply spec_ret]. rewrite Hd, lookup_resize by lia. by rewrite Hx. }
  assert (Hx' : drop 36 data !! Z.to_nat (i - 36) = Some x).
  { rewrite lookup_drop, <- Hx. f_equal. lia. }
  destruct Ht as [(Hdr & _)|(lv & index' & Hlv & Hp & _ & Hr)]; [by rewrite Hdr in Hx'|].
  rewrite Hp in Hrd. apply Forall_cons in Hrd as [[Hin Hw] Hrd].
  apply (spec_read_at IndirectBlock.t); [lia|done|lia|done|done|].
  eapply (spec_bind _ _ _ _ _ (fun r v' => v' = v /\ r = x));
    [|intros r v' [-> ->]; by apply spec_ret].
  rewrite <- (Z2Nat.id (i - 36)) by lia. pose proof (index_rep_length _ _ _ _ _ Hr) as Hl.
  apply lookup_lt_Some in Hx' as Hlt'. cbn [length] in Hl. rewrite Nat.mul_1_r in Hl.
  eapply (get_block_id_node lv IndirectOps.FUEL _ index' (drop 36 data) 0);
    [unfold IndirectOps.FUEL; lia|lia|cbn [length]; lia|done|by apply readable_cons|done|lia|done].
Qed.
End reading.
