(* ===== verification/Resize.v ===== *)
(** What [forward], [extend], [shrink] and [clear_size] of fs/src/cafs/layout.rs do:
    they (re)build the tree of index blocks of an inode, so that [meta_rep] holds
    of the blocks they were given, and write nothing but those index blocks. *)
From S2P Require Import Prelude Device Block Layout Index.
From Stdlib Require Import ZArith Lia.
From stdpp Require Import gmap functions sorting list_numbers list.
Local Open Scope Z_scope.

(** [v'] differs from [v] on [ids] only. *)
Definition only (ids : list Z) (v v' : Z -> list Z) : Prop := forall i, i ∉ ids -> v' i = v i.

Lemma only_refl ids v : only ids v v.
Proof. done. Qed.

Lemma only_trans ids ids' v v' v'' : only ids v v' -> only ids' v' v'' -> only (ids ++ ids') v v''.
Proof. intros H1 H2 i Hi. rewrite not_elem_of_app in Hi. rewrite H2, H1; tauto. Qed.

Lemma only_sub ids ids' v v' : ids ⊆ ids' -> only ids v v' -> only ids' v v'.
Proof. intros Hs H i Hi. apply H. set_solver. Qed.

Lemma level_ok_only v v' ty ids ids' below : only ids' v v' -> ids ## ids' ->
  level_ok v ty ids below -> level_ok v' ty ids below.
Proof. intros Ho Hd. apply level_ok_frame. intros i Hi. apply Ho. set_solver. Qed.

Lemma level_ok_cons v ty id ids below :
  peek IndirectBlock.t 0 (v id) = IndirectBlock.mk (resize 63 0 below) ty ->
  level_ok v ty ids (drop 63 below) -> level_ok v ty (id :: ids) below.
Proof.
  intros Hid Hl [|j] i Hj; cbn [lookup list_lookup] in Hj.
  - simplify_eq. by rewrite Nat.mul_0_r, drop_0.
  - rewrite (Hl j i Hj), drop_drop. do 3 f_equal. lia.
Qed.

Lemma next_n_app k l l' : zlen l = k -> Meta.next_n k (l ++ l') = (l, l').
Proof.
  intros <-. unfold Meta.next_n. rewrite Nat2Z.id. rewrite resize_le by (rewrite length_app; lia).
  by rewrite take_app_length, drop_app_length.
Qed.

(** The four levels of index blocks, each listing the one below. *)
Definition levels (v : Z -> list Z) (l4s l3s l2s l1s data : list Z) : Prop :=
  level_ok v 3 l4s l3s /\ level_ok v 2 l3s l2s /\ level_ok v 1 l2s l1s /\ level_ok v 0 l1s data.

Lemma index_rep_S v lv ids below index data : level_ok v (Z.of_nat (S lv)) ids below ->
  zlen below <= 63 * zlen ids -> index_rep v lv below index data ->
  index_rep v (S lv) ids (below ++ index) data.
Proof. intros Hl Hlen Hr. exists below, index. split_and!; [done|done|lia|done]. Qed.

Lemma index_rep_O v ids data : level_ok v 0 ids data -> zlen data <= 63 * zlen ids ->
  index_rep v 0 ids [] data.
Proof. intros Hl Hlen. split_and!; [done|done|lia]. Qed.

Lemma zlen_1 {A} (l : list A) : zlen l = 1 -> exists x, l = [x].
Proof. destruct l as [|x [|]]; cbn [length]; try lia. eauto. Qed.

Lemma zlen_0 {A} (l : list A) : zlen l = 0 -> l = [].
Proof. destruct l; cbn [length]; [done|lia]. Qed.

Lemma split_at (l : list Z) k : 0 <= k <= zlen l ->
  exists l1 l2, l = l1 ++ l2 /\ zlen l1 = k /\ zlen l2 = zlen l - k.
Proof.
  intros. exists (take (Z.to_nat k) l), (drop (Z.to_nat k) l).
  rewrite take_drop, length_take, length_drop. split_and!; [done|lia..].
Qed.

(** The index blocks, level by level. *)
Lemma split_levels s info (index : list Z) : 0 <= s <= L4_MAX -> level_shape s info ->
  zlen index = index_count info ->
  exists l4s l3s l2s l1s, index = l4s ++ l3s ++ l2s ++ l1s /\ zlen l4s = LevelInfo.l4 info /\
    zlen l3s = LevelInfo.l3 info /\ zlen l2s = LevelInfo.block_directory info /\
    zlen l1s = LevelInfo.block_table info.
Proof.
  intros Hs Hi Hlen. destruct (shape_bounds s info Hs Hi) as (?&?&?&?&_). unfold index_count in Hlen.
  destruct (split_at index (LevelInfo.l4 info)) as (l4s & r4 & -> & ? & ?); [lia|].
  destruct (split_at r4 (LevelInfo.l3 info)) as (l3s & r3 & -> & ? & ?); [lia|].
  destruct (split_at r3 (LevelInfo.block_directory info)) as (l2s & l1s & -> & ? & ?); [lia|].
  exists l4s, l3s, l2s, l1s. split_and!; [done..|lia].
Qed.

(** The root of the tree, as [forward] chooses it. *)
Definition root (info : LevelInfo.t) (l4s l3s l2s l1s : list Z) (old : Z) : Z :=
  if LevelInfo.l4 info =? 1 then default 0 (head l4s)
  else if LevelInfo.l3 info =? 1 then default 0 (head l3s)
  else if LevelInfo.block_directory info =? 1 then default 0 (head l2s)
  else if LevelInfo.block_table info =? 1 then default 0 (head l1s)
  else old.

Lemma levels_tree v s info l4s l3s l2s l1s data old : level_shape s info -> DIRECT_MAX < s ->
  zlen l4s = LevelInfo.l4 info -> zlen l3s = LevelInfo.l3 info ->
  zlen l2s = LevelInfo.block_directory info -> zlen l1s = LevelInfo.block_table info ->
  zlen data = cdiv s 512 - 36 -> levels v l4s l3s l2s l1s data ->
  exists lv index', (lv <= 3)%nat /\
    l4s ++ l3s ++ l2s ++ l1s ≡ₚ root info l4s l3s l2s l1s old :: index' /\
    index_rep v lv [root info l4s l3s l2s l1s old] index' data.
Proof.
  intros Hsh Hs H4 H3 H2 H1 Hd (L4 & L3 & L2 & L1). unfold root.
  destruct Hsh; cbn [LevelInfo.l4 LevelInfo.l3 LevelInfo.block_directory LevelInfo.block_table] in *;
    cbn [Z.eqb Pos.eqb]; repeat match goal with
    | H : zlen ?l = 0 |- _ => apply zlen_0 in H as ->
    | H : zlen ?l = 1 |- _ => apply zlen_1 in H as [? ->]
    end; cbn [head default app].
  - lia.
  - exists 0%nat, []. split_and!; [lia|done|]. apply index_rep_O; [done|cbn [length]; lia].
  - exists 1%nat, (l1s ++ []). split_and!; [lia|by rewrite app_nil_r|].
    apply index_rep_S, index_rep_O; [done|cbn [length]; lia|done|lia].
  - exists 2%nat, (l2s ++ l1s ++ []). split_and!; [lia|by rewrite app_nil_r|].
    apply index_rep_S, index_rep_S, index_rep_O; [done|cbn [length]; lia|done|lia|done|lia].
  - exists 3%nat, (l3s ++ l2s ++ l1s ++ []). split_and!; [lia|by rewrite app_nil_r|].
    apply index_rep_S, index_rep_S, index_rep_S, index_rep_O;
      [done|cbn [length]; lia|done|lia|done|lia|done|lia].
Qed.

(** ** A consistent inode *)

(** The inode [m] owns the index blocks [index] and the data blocks [data], as
    many as its size calls for, all different. *)
Record inode_ok (v : Z -> list Z) (m : Meta.t) (index data : list Z) : Prop := {
  io_rep : meta_rep v m index data;
  io_size : 0 <= Meta.size m <= L4_MAX;
  io_data : zlen data = cdiv (Meta.size m) 512;
  io_index info : Meta.index_blocks (Meta.size m) = Ok info -> zlen index = index_count info;
  io_own : NoDup (index ++ data);
  io_u64 : Forall u64 data
}.

#[export] Instance meta_rep_Permutation v m : Proper (Permutation ==> eq ==> iff) (meta_rep v m).
Proof.
  intros i1 i2 Hp d1 d2 ->. split; intros [Hd Hz Ht]; split; try done.
  - destruct Ht as [(? & ? & ->)|(lv & i & ? & Hi & ?)]; [left; split_and!; auto; symmetry; by apply Permutation_nil_l|].
    right. exists lv, i. split_and!; [done|by rewrite <- Hp|naive_solver..].
  - destruct Ht as [(? & ? & ->)|(lv & i & ? & Hi & ?)]; [left; split_and!; auto; by apply Permutation_nil_r|].
    right. exists lv, i. split_and!; [done|by rewrite Hp|naive_solver..].
Qed.

Lemma inode_ok_frame v v' m index data : (forall i, i ∈ index -> v' i = v i) ->
  inode_ok v m index data -> inode_ok v' m index data.
Proof. intros Hv [? ? ? ? ? ?]. split; try done. by eapply meta_rep_frame. Qed.

Lemma inode_ok_perm v m index index' data : index ≡ₚ index' ->
  inode_ok v m index data -> inode_ok v m index' data.
Proof.
  intros Hp [? ? ? Hi ? ?]. split; try done; [by rewrite <- Hp| |by rewrite <- Hp].
  intros info E. by rewrite <- Hp, (Hi info E).
Qed.

Lemma inode_index v m index data : inode_ok v m index data ->
  exists info, Meta.index_blocks (Meta.size m) = Ok info /\ level_shape (Meta.size m) info /\
    zlen index = index_count info.
Proof.
  intros Hm. destruct (index_blocks_shape (Meta.size m) (io_size _ _ _ _ Hm)) as (info & E & Hi).
  exists info. split_and!; auto. by eapply io_index.
Qed.

Lemma pop_n_ok k (l : list Z) : 0 <= k <= zlen l ->
  Meta.pop_n k l = Ok (reverse (drop (length l - Z.to_nat k) l), take (length l - Z.to_nat k) l).
Proof. intros. unfold Meta.pop_n. by rewrite (proj2 (Z.leb_le _ _)) by lia. Qed.

Section writing.
Context {St : Type} {n : Z} `{HL : BlockCacheLaws St n}.

(** Blocks no enclosing frame holds: they may be written. *)
Definition writable (h : list (Z * lock)) (ids : list Z) : Prop :=
  Forall (fun i => 0 < i < n /\ i ∉ h.*1) ids.

#[export] Instance writable_Permutation h : Proper (Permutation ==> iff) (writable h).
Proof. intros l l' Hl. unfold writable. by rewrite Hl. Qed.

Lemma writable_readable h ids : writable h ids -> readable (n := n) h ids.
Proof.
  intros Hw. eapply Forall_impl; [exact Hw|]. intros i [Hi Hh]. split; [done|].
  contradict Hh. apply list_elem_of_fmap. by exists (i, Wr).
Qed.

(** One index block. *)
Lemma write_node id ty it v h : 0 < id < n -> id ∉ h.*1 -> (length h < CACHE_SIZE)%nat ->
  Forall u64 it -> u64 ty ->
  spec n (modify_at IndirectBlock.t id 0 (fun _ =>
      mret (tt, IndirectBlock.mk (Meta.next_n INDIRECT_LEN it).1 ty))) v h
    (fun _ v' => peek IndirectBlock.t 0 (v' id) = IndirectBlock.mk (resize 63 0 it) ty /\ only [id] v v').
Proof.
  intros Hid Hh Hl Hit Hty. apply spec_blocks. intros Hok.
  change (Meta.next_n INDIRECT_LEN it).1 with (resize 63 0 it).
  assert (Hwf : wf (IndirectBlock.mk (resize 63 0 it) ty)).
  { cbn [wf IndirectBlock_laws IndirectBlock.entries IndirectBlock.type_]. split_and!; [apply length_resize| |done].
    apply Forall_resize; [|done]. unfold u64, U64. lia. }
  apply (spec_modify_at IndirectBlock.t); [lia|done|done|done|done|].
  apply spec_ret. split; [done|]. rewrite fn_lookup_insert. split.
  - rewrite peek_poke; auto; [apply Hok; lia|done|done].
  - intros i Hi. apply fn_lookup_insert_ne. set_solver.
Qed.

Lemma write_level_spec type_ ids : forall it v h,
  NoDup ids -> writable h ids -> (length h < CACHE_SIZE)%nat -> Forall u64 it ->
  spec n (Meta.write_level type_ ids it) v h (fun _ v' =>
    level_ok v' (IndirectBlockType_u64 type_) ids it /\ only ids v v').
Proof.
  induction ids as [|id ids IH]; intros it v h Hnd Hw Hh Hit.
  { apply spec_ret. split; [|done]. intros j i Hj. by rewrite lookup_nil in Hj. }
  apply NoDup_cons in Hnd as [Hni Hnd]. apply Forall_cons in Hw as [[Hid Hih] Hw].
  unfold Meta.write_level. cbn [foldM]. unfold Meta.next_n at 1.
  eapply (spec_bind _ _ _ _ _ (fun r v' => r = drop 63 it /\
    peek IndirectBlock.t 0 (v' id) = IndirectBlock.mk (resize 63 0 it) (IndirectBlockType_u64 type_) /\
    only [id] v v')).
  - eapply spec_bind; [apply (write_node id (IndirectBlockType_u64 type_)); auto; by destruct type_|].
    intros _ v' [Hp Ho]. by apply spec_ret.
  - intros r v1 (-> & Hp & Ho). eapply spec_conseq; [apply IH; auto; by apply Forall_drop|].
    intros _ v2 [Hl Ho2]. split.
    + apply level_ok_cons; [|done]. by rewrite Ho2.
    + eapply only_sub; [|by eapply only_trans]. set_solver.
Qed.

Lemma write_root l4s l3s v h : zlen l4s = 0 \/ zlen l4s = 1 -> writable h l4s ->
  (length h < CACHE_SIZE)%nat -> Forall u64 l3s ->
  spec n (if default 0 (head l4s) =? 0 then mret tt
      else modify_at IndirectBlock.t (default 0 (head l4s)) 0 (fun _ =>
        mret (tt, IndirectBlock.mk (Meta.next_n INDIRECT_LEN l3s).1 (IndirectBlockType_u64 L4)))) v h
    (fun _ v' => level_ok v' 3 l4s l3s /\ only l4s v v').
Proof.
  intros [->%zlen_0|[x ->]%zlen_1] Hw Hh H3; cbn [head default Z.eqb].
  - apply spec_ret. split; [|done]. intros j i Hj. by rewrite lookup_nil in Hj.
  - apply Forall_cons in Hw as [[Hx Hxh] _]. cbn [option_fmap from_option id].
    rewrite (proj2 (Z.eqb_neq _ _)) by (simpl; lia).
    eapply spec_conseq; [by apply write_node|]. intros _ v' [Hp Ho]. split; [|done].
    apply level_ok_cons; [done|]. intros j i Hj. by rewrite lookup_nil in Hj.
Qed.

Lemma writable_u64 h ids : n <= U64 -> writable h ids -> Forall u64 ids.
Proof. intros Hn Hw. eapply Forall_impl; [exact Hw|]. intros i [Hi _]. unfold u64. lia. Qed.

(** The writes of [forward]. *)
Lemma write_levels {A} l4s l3s l2s l1s data (k : M St A) v h P :
  n <= U64 -> zlen l4s = 0 \/ zlen l4s = 1 -> NoDup (l4s ++ l3s ++ l2s ++ l1s) ->
  writable h (l4s ++ l3s ++ l2s ++ l1s) -> (length h < CACHE_SIZE)%nat -> Forall u64 data ->
  (forall v', levels v' l4s l3s l2s l1s data -> only (l4s ++ l3s ++ l2s ++ l1s) v v' ->
    spec n k v' h P) ->
  spec n ((if default 0 (head l4s) =? 0 then mret tt
      else modify_at IndirectBlock.t (default 0 (head l4s)) 0 (fun _ =>
        mret (tt, IndirectBlock.mk (Meta.next_n INDIRECT_LEN l3s).1 (IndirectBlockType_u64 L4)))) ;;
    Meta.write_level L3 l3s l2s ;; Meta.write_level BlockDirectory l2s l1s ;;
    Meta.write_level BlockTable l1s data ;; k) v h P.
Proof.
  intros Hn H4 Hnd Hw Hh Hd Hk. pose proof (writable_u64 _ _ Hn Hw) as Hu.
  unfold writable in Hw. rewrite !Forall_app in Hw, Hu. destruct Hw as (W4 & W3 & W2 & W1).
  destruct Hu as (U4 & U3 & U2 & U1).
  rewrite !NoDup_app in Hnd. destruct Hnd as (N4 & D4 & N3 & D3 & N2 & D2 & N1).
  eapply spec_bind; [by apply (write_root l4s)|]. intros _ v1 [K4 O4].
  eapply spec_bind; [by apply write_level_spec|]. intros _ v2 [K3 O3].
  eapply spec_bind; [by apply write_level_spec|]. intros _ v3 [K2 O2].
  eapply spec_bind; [by apply write_level_spec|]. intros _ v4 [K1 O1].
  apply Hk.
  - split_and!; [| | |done].
    + do 3 (eapply level_ok_only; [eassumption|set_solver|]). done.
    + do 2 (eapply level_ok_only; [eassumption|set_solver|]). done.
    + do 1 (eapply level_ok_only; [eassumption|set_solver|]). done.
  - repeat (eapply only_trans; [eassumption|]). done.
Qed.

(** [forward] makes the inode own the blocks it is given. *)
Lemma forward_spec m info index data v h :
  n <= U64 -> 0 <= Meta.size m <= L4_MAX -> level_shape (Meta.size m) info ->
  zlen index = index_count info -> zlen data = cdiv (Meta.size m) 512 ->
  NoDup index -> writable h index -> (length h < CACHE_SIZE)%nat ->
  Forall u64 data -> Forall (fun x => x <> 0) data ->
  spec n (Meta.forward m info index data) v h (fun m' v' => meta_rep v' m' index data /\
    Meta.size m' = Meta.size m /\ Meta.type_ m' = Meta.type_ m /\ Meta.name m' = Meta.name m /\
    only index v v').
Proof.
  intros Hn Hs Hsh Hi Hd Hnd Hw Hh Hu Hz. unfold Meta.forward. unfold Meta.next_n at 1.
  change (Z.to_nat DIRECT_COUNT) with 36%nat. unfold Meta.indirect_size_of.
  destruct (split_levels _ _ _ Hs Hsh Hi) as (l4s & l3s & l2s & l1s & -> & H4 & H3 & H2 & H1).
  destruct (Z.le_gt_cases (Meta.size m) DIRECT_MAX) as [Hle|Hgt].
  - replace (_ =? 0) with true by (destruct (Z.leb_spec DIRECT_MAX (Meta.size m)); lia).
    assert (zlen (drop 36 data) = 0) by (rewrite length_drop; size_lia).
    assert (zlen (l4s ++ l3s ++ l2s ++ l1s) = 0) as ->%zlen_0.
    { rewrite Hi. clear -Hsh Hle. unfold index_count. destruct Hsh; simpl; size_lia. }
    apply spec_ret. split_and!; auto using only_refl. split; [done|done|]. left.
    split_and!; [by apply zlen_0|done|done].
  - replace (_ =? 0) with false by (destruct (Z.leb_spec DIRECT_MAX (Meta.size m)); lia).
    assert (E4 : (if LevelInfo.l4 info =? 0 then ([], l4s ++ l3s ++ l2s ++ l1s)
      else Meta.next_n 1 (l4s ++ l3s ++ l2s ++ l1s)) = (l4s, l3s ++ l2s ++ l1s) /\
      (zlen l4s = 0 \/ zlen l4s = 1)).
    { clear -Hsh H4. destruct Hsh; cbn [LevelInfo.l4 Z.eqb] in *; try (apply zlen_0 in H4 as ->; auto).
      rewrite next_n_app by done. auto. }
    destruct E4 as [-> H4']. cbv zeta iota beta.
    rewrite !next_n_app by done. rewrite <- (app_nil_r l1s) at 1. rewrite next_n_app by done.
    apply write_levels; auto using Forall_drop. intros v' Hv' Ho. apply spec_ret. split_and!; auto.
    destruct (levels_tree v' _ _ _ _ _ _ (drop 36 data) (Meta.indirect m) Hsh Hgt H4 H3 H2 H1)
      as (lv & index' & Hlv & Hp & Hr); [rewrite length_drop; size_lia|done|].
    split; [done|done|]. right. exists lv, index'. split_and!; [done|exact Hp| |exact Hr].
    intros E. apply (f_equal length) in E. rewrite length_drop in E. simpl in E. size_lia.
Qed.

Lemma blocks_of m index data v h : inode_ok v m index data -> writable h index ->
  (length h + 3 < CACHE_SIZE)%nat ->
  forall size, spec n (Meta.blocks (Meta.set_size m size)) v h
    (fun r v' => v' = v /\ r = (merge_sort Z.le index, data)).
Proof.
  intros [[Hd Hz Ht] _ _ _ _ _] Hw Hh size. apply blocks_spec; [by split|by apply writable_readable|done].
Qed.

(** [extend] appends the new data blocks. *)
Lemma extend_spec m index data new_size info new_data new_index v h :
  n <= U64 -> inode_ok v m index data -> Meta.size m <= new_size <= L4_MAX ->
  Meta.index_blocks new_size = Ok info ->
  zlen (data ++ new_data) = cdiv new_size 512 -> zlen (index ++ new_index) = index_count info ->
  NoDup ((index ++ new_index) ++ (data ++ new_data)) -> writable h (index ++ new_index) ->
  Forall (fun x => 0 < x < U64) new_data -> (length h + 3 < CACHE_SIZE)%nat ->
  spec n (Meta.extend m new_size info new_data new_index) v h (fun m' v' =>
    inode_ok v' m' (index ++ new_index) (data ++ new_data) /\ Meta.size m' = new_size /\
    Meta.type_ m' = Meta.type_ m /\ Meta.name m' = Meta.name m /\ only (index ++ new_index) v v').
Proof.
  intros Hn Hm Hs Hi Hd Hix Hnd Hw Hu Hh. pose proof (io_size _ _ _ _ Hm) as Hs0. unfold Meta.extend.
  pose proof (index_shape new_size info ltac:(lia) Hi) as Hsh.
  eapply spec_bind_lift; [apply assert_ok; lia|]. cbv zeta.
  eapply spec_bind; [apply (blocks_of _ index data); auto; unfold writable in *; by apply Forall_app in Hw as [? _]|].
  intros r v' [-> ->].
  assert (Hp : merge_sort Z.le index ++ new_index ≡ₚ index ++ new_index) by (by rewrite merge_sort_Permutation).
  eapply spec_conseq.
  - apply (forward_spec (Meta.set_size m new_size)); auto; try done; [simpl; lia|by rewrite Hp| |by rewrite Hp|lia| |].
    + rewrite Hp. by apply NoDup_app in Hnd as [? _].
    + apply Forall_app. split; [by eapply io_u64|]. eapply Forall_impl; [exact Hu|]. unfold u64; simpl; lia.
    + apply Forall_app. split; [apply Hm|]. eapply Forall_impl; [exact Hu|]. simpl; lia.
  - intros m' v' (Hr & Es & Et & En & Ho). rewrite Hp in Hr. simpl in Es, Et, En.
    split_and!; auto; [|intros i ?; apply Ho; by rewrite Hp]. split; rewrite ?Es; auto; [lia|congruence|].
    apply Forall_app. split; [by eapply io_u64|]. eapply Forall_impl; [exact Hu|]. unfold u64; simpl; lia.
Qed.

(** [shrink] keeps the first blocks of the file, the index blocks in the order of their
    numbers, and returns the others, the last ones first. *)
Lemma shrink_exact m index data new_size v h :
  n <= U64 -> inode_ok v m index data -> 0 <= new_size <= Meta.size m ->
  writable h index -> (length h + 3 < CACHE_SIZE)%nat ->
  spec n (Meta.shrink m new_size) v h (fun '((index_ids, data_ids), m') v' =>
    exists index' data', merge_sort Z.le index = index' ++ reverse index_ids /\ data = data' ++ reverse data_ids /\
      inode_ok v' m' index' data' /\ Meta.size m' = new_size /\
      Meta.type_ m' = Meta.type_ m /\ Meta.name m' = Meta.name m /\ only index' v v').
Proof.
  intros Hn Hm Hs Hw Hh. pose proof (io_size _ _ _ _ Hm) as Hs0. unfold Meta.shrink.
  destruct (inode_index _ _ _ _ Hm) as (info & E & Hsh & Hix).
  destruct (index_blocks_shape new_size) as (info' & E' & Hsh'); [lia|].
  pose proof (io_data _ _ _ _ Hm) as Hd. pose proof (shape_bounds new_size info' ltac:(lia) Hsh') as Hb.
  assert (Hc : 0 <= cdiv new_size 512 <= cdiv (Meta.size m) 512) by size_lia.
  pose proof (shape_mono new_size (Meta.size m) _ _ ltac:(lia) ltac:(lia) (proj2 Hc) Hsh' Hsh) as Hmono.
  eapply spec_bind_lift; [apply assert_ok; lia|].
  eapply spec_bind_lift; [by apply data_blocks_ok|].
  eapply spec_bind_lift; [done|]. eapply spec_bind_lift; [done|]. cbv zeta.
  eapply spec_bind; [by apply (blocks_of _ index data)|]. intros r v' [-> ->].
  eapply spec_bind_lift; [by apply (index_block_count_ok (Meta.size m))|].
  eapply spec_bind_lift; [apply (index_block_count_ok new_size); [lia|done]|].
  eapply spec_bind_lift; [apply sub64_ok; lia|].
  pose proof (merge_sort_Permutation Z.le index) as Hp. set (si := merge_sort Z.le index) in *.
  assert (Hsi : zlen si = index_count info) by (by rewrite Hp).
  assert (0 <= index_count info') by (unfold index_count; lia).
  eapply spec_bind_lift; [apply pop_n_ok; lia|].
  eapply spec_bind_lift; [apply data_blocks_ok; lia|].
  eapply spec_bind_lift; [apply sub64_ok; lia|].
  eapply spec_bind_lift; [apply pop_n_ok; lia|].
  set (j := (length si - _)%nat). set (k := (length data - _)%nat).
  assert (Hnd : NoDup (take j si ++ take k data)).
  { pose proof (io_own _ _ _ _ Hm) as Ho. rewrite <- Hp in Ho.
    rewrite <- (take_drop j si), <- (take_drop k data) in Ho.
    rewrite !NoDup_app in *. set_solver. }
  eapply spec_bind.
  - apply (forward_spec (Meta.set_size m new_size)); auto; try done; [simpl; lia| | | | |lia| |].
    + rewrite length_take. unfold j. simpl. lia.
    + rewrite length_take. unfold k. simpl. lia.
    + by apply NoDup_app in Hnd as [? _].
    + apply Forall_take. by rewrite Hp.
    + apply Forall_take, Hm.
    + apply Forall_take, Hm.
  - intros m' v' (Hr & Es & Et & En & Ho). simpl in Es, Et, En. apply spec_ret.
    exists (take j si), (take k data).
    rewrite !reverse_involutive, !take_drop.
    split_and!; auto. split; rewrite ?Es; auto; [lia| | |by apply Forall_take, Hm].
    + rewrite length_take. unfold k. lia.
    + intros info0 E0. rewrite E' in E0. simplify_eq. rewrite length_take. unfold j. lia.
Qed.

Lemma shrink_spec m index data new_size v h :
  n <= U64 -> inode_ok v m index data -> 0 <= new_size <= Meta.size m ->
  writable h index -> (length h + 3 < CACHE_SIZE)%nat ->
  spec n (Meta.shrink m new_size) v h (fun '((index_ids, data_ids), m') v' =>
    exists index' data', index ≡ₚ index' ++ index_ids /\ data = data' ++ reverse data_ids /\
      inode_ok v' m' index' data' /\ Meta.size m' = new_size /\
      Meta.type_ m' = Meta.type_ m /\ Meta.name m' = Meta.name m /\ only index' v v').
Proof.
  intros Hn Hm Hs Hw Hh. eapply spec_conseq; [by apply (shrink_exact m index data)|].
  intros [[ii di] m'] v' (index' & data' & Hi & Hd & Hrest). exists index', data'. split; [|by split].
  by rewrite <- (merge_sort_Permutation Z.le index), Hi, reverse_Permutation.
Qed.

(** [clear_size] returns all the blocks of the inode, which owns none afterwards. *)
Lemma clear_size_spec m index data v h ty :
  inode_ok v m index data -> InodeType_of (Meta.type_ m) = Ok ty -> writable h index ->
  length (Meta.direct m) = 36%nat -> (length h + 3 < CACHE_SIZE)%nat ->
  spec n (Meta.clear_size m) v h (fun '(ids, m') v' => v' = v /\ ids ≡ₚ index ++ data /\
    inode_ok v m' [] [] /\ Meta.size m' = 0 /\ Meta.type_ m' = Meta.type_ m /\
    Meta.name m' = Meta.name m).
Proof.
  intros Hm Hty Hw Hl Hh. unfold Meta.clear_size.
  eapply spec_bind; [apply blocks_spec; [apply Hm|by apply writable_readable|done]|].
  intros r v' [-> ->]. eapply spec_bind_lift; [done|]. apply spec_ret. split_and!; auto.
  - by rewrite merge_sort_Permutation.
  - unfold Meta.init. rewrite Hl. split; cbn [Meta.size]; [|unfold_sizes; lia|done| |by apply NoDup_nil_2|done].
    + split; [done|done|by left].
    + intros info E. vm_compute in E. by simplify_eq.
  - simpl. unfold InodeType_of in Hty.
    destruct (Z.eqb_spec (Meta.type_ m) 0); [by simplify_eq|].
    destruct (Z.eqb_spec (Meta.type_ m) 1); by simplify_eq.
Qed.
End writing.
