(* ===== verification/InodeNumber.v ===== *)
(** [inode_number_binary] and [inode_number_from] of fs/src/cafs/mod.rs: how a
    directory stores the inode numbers of its files. The entries of a directory
    are separated by a zero byte, so the ten bytes of an entry must not contain
    one: a zero byte of the number is stored as 255 and recorded in a flag byte,
    and a flag byte that would itself be zero is recorded in a tenth byte. *)
From S2P Require Import Prelude.
From Stdlib Require Import ZArith Lia.
From stdpp Require Import list_numbers list.
Local Open Scope Z_scope.

Definition U8_MAX : Z := 255.

(** [u8] addition with its overflow check. *)
Definition add8 (a b : Z) : outcome Z := if a + b <? 256 then Ok (a + b) else Fault (Panic POverflow).

(** The loop over the bytes from index [i] on. *)
Fixpoint binary_loop (i : nat) (bytes repre : list Z) (flag : Z) : outcome (list Z * Z) :=
  match bytes with
  | [] => Ok (repre, flag)
  | byte :: bytes =>
      if byte =? 0 then
        flag ← add8 flag (Z.shiftl 1 (Z.of_nat i));
        binary_loop (S i) bytes (<[i := U8_MAX]> repre) flag
      else binary_loop (S i) bytes (<[i := byte]> repre) flag
  end.

Definition inode_number_binary (inode_number : Z) : outcome (list Z) :=
  '(repre, flag) ← binary_loop 0 (to_le 8 inode_number) (replicate 10 0) 0;
  let '(flag, meta_flag) := if flag =? 0 then (U8_MAX, 20) else (flag, 10) in
  Ok (<[9%nat := meta_flag]> (<[8%nat := flag]> repre)).

Fixpoint from_loop (i : nat) (flag : Z) (arr bytes : list Z) : list Z :=
  match arr with
  | [] => bytes
  | byte :: arr =>
      from_loop (S i) flag arr
        (if Z.shiftr (Z.land flag (Z.shiftl 1 (Z.of_nat i))) (Z.of_nat i) =? 0
         then <[i := byte]> bytes else bytes)
  end.

Definition inode_number_from (arr : list Z) : Z :=
  let meta_flag := arr !!! 9%nat in
  let flag := if meta_flag =? 20 then 0 else arr !!! 8%nat in
  from_le (from_loop 0 flag (take 8 arr) (replicate 8 0)).

(** ** What the loops compute *)

(** The bits of the zero bytes. *)
Fixpoint zero_mask (bytes : list Z) : Z :=
  match bytes with [] => 0 | b :: bytes => Z.b2z (b =? 0) + 2 * zero_mask bytes end.

Definition escape (b : Z) : Z := if b =? 0 then U8_MAX else b.

Lemma zero_mask_bound bytes : 0 <= zero_mask bytes < 2 ^ zlen bytes.
Proof.
  induction bytes as [|b bytes IH]; [done|]. cbn [zero_mask length].
  rewrite Nat2Z.inj_succ, Z.pow_succ_r by lia. destruct (b =? 0); simpl Z.b2z; lia.
Qed.

Lemma zero_mask_testbit bytes i : (i < length bytes)%nat ->
  Z.testbit (zero_mask bytes) (Z.of_nat i) = (bytes !!! i =? 0).
Proof.
  revert i. induction bytes as [|b bytes IH]; intros i Hi; cbn [zero_mask length] in *; [lia|].
  rewrite Z.add_comm. destruct i as [|i].
  - by rewrite Z.testbit_0_r.
  - rewrite Nat2Z.inj_succ, Z.testbit_succ_r by lia. by rewrite IH by lia.
Qed.

Lemma zero_mask_0 bytes : zero_mask bytes = 0 -> forall i, (i < length bytes)%nat -> bytes !!! i <> 0.
Proof.
  intros Hm i Hi E. pose proof (zero_mask_testbit bytes i Hi) as Ht.
  by rewrite Hm, E, Z.bits_0 in Ht.
Qed.

Lemma insert_splice (i : nat) (x : Z) (l1 : list Z) y l2 : length l1 = i ->
  <[i := x]> (l1 ++ y :: l2) = (l1 ++ [x]) ++ l2.
Proof. intros <-. rewrite insert_app_r_alt by lia. by rewrite Nat.sub_diag, <- app_assoc. Qed.

Lemma binary_loop_spec bytes : forall pre rest flag,
  length rest = length bytes -> 0 <= flag < 2 ^ zlen pre -> (length pre + length bytes <= 8)%nat ->
  forall tl, binary_loop (length pre) bytes (pre ++ rest ++ tl) flag =
    Ok (pre ++ (escape <$> bytes) ++ tl, flag + 2 ^ zlen pre * zero_mask bytes).
Proof.
  induction bytes as [|b bytes IH]; intros pre rest flag Hl Hf H8 tl; cbn [binary_loop zero_mask].
  - apply nil_length_inv in Hl as ->. simpl. by rewrite Z.mul_0_r, Z.add_0_r.
  - destruct rest as [|r rest]; [done|]. cbn [length] in *. simplify_eq/=.
    assert (Hs : forall x, length (pre ++ [x]) = S (length pre)) by (intros; rewrite length_app; simpl; lia).
    assert (Hp : 2 ^ zlen (pre ++ [b]) = 2 * 2 ^ zlen pre).
    { rewrite Hs, Nat2Z.inj_succ, Z.pow_succ_r by lia. done. }
    assert (2 ^ zlen pre <= 2 ^ 7) by (apply Z.pow_le_mono_r; lia).
    rewrite Z.shiftl_1_l. unfold escape at 1. destruct (Z.eqb_spec b 0) as [->|Hb]; simpl Z.b2z.
    + unfold add8. rewrite (proj2 (Z.ltb_lt _ _)) by lia. omon.
      rewrite insert_splice, <- (Hs U8_MAX), IH by (rewrite ?Hs in *; lia || done).
      rewrite <- app_assoc. simpl. do 2 f_equal. rewrite !Hs in *. lia.
    + rewrite insert_splice, <- (Hs b), IH by (rewrite ?Hs in *; lia || done).
      rewrite <- app_assoc. simpl. do 2 f_equal. rewrite !Hs in *. lia.
Qed.

Lemma flag_bit flag i : 0 <= i ->
  (Z.shiftr (Z.land flag (Z.shiftl 1 i)) i =? 0) = negb (Z.testbit flag i).
Proof.
  intros Hi. rewrite Z.shiftr_land, Z.shiftr_shiftl_l, Z.sub_diag, Z.shiftl_0_r by lia.
  change 1 with (Z.ones 1). rewrite Z.land_ones by lia. change (2 ^ 1) with 2.
  rewrite <- Z.bit0_mod, Z.shiftr_spec, Z.add_0_l by lia. by destruct (Z.testbit flag i).
Qed.

Lemma from_loop_spec flag bytes : forall arr pre rest,
  length rest = length bytes -> length arr = length bytes ->
  (forall k, (k < length bytes)%nat ->
    if Z.testbit flag (Z.of_nat (length pre + k)) then bytes !!! k = rest !!! k
    else bytes !!! k = arr !!! k) ->
  from_loop (length pre) flag arr (pre ++ rest) = pre ++ bytes.
Proof.
  induction bytes as [|b bytes IH]; intros [|a arr] pre [|r rest] Hr Ha Hk; try done. cbn [from_loop].
  cbn [length] in *. simplify_eq.
  assert (Hs : forall x, length (pre ++ [x]) = S (length pre)) by (intros; rewrite length_app; simpl; lia).
  rewrite flag_bit by lia.
  replace (if negb (Z.testbit flag (zlen pre)) then <[length pre:=a]> (pre ++ r :: rest) else pre ++ r :: rest)
    with ((pre ++ [b]) ++ rest).
  - rewrite <- (Hs b), IH by (try done; intros k Hk'; rewrite Hs;
      specialize (Hk (S k) ltac:(lia)); by rewrite Nat.add_succ_comm).
    by rewrite <- app_assoc.
  - specialize (Hk 0%nat ltac:(lia)). rewrite Nat.add_0_r in Hk. simpl in Hk.
    destruct (Z.testbit flag (zlen pre)); simpl negb; cbv iota; subst b; [by rewrite <- app_assoc|].
    by rewrite insert_splice.
Qed.

(** ** The encoding *)

Definition encode_number (x : Z) : list Z :=
  let bytes := to_le 8 x in
  (escape <$> bytes) ++
  (if zero_mask bytes =? 0 then [U8_MAX; 20] else [zero_mask bytes; 10]).

Lemma binary_eq x : inode_number_binary x = Ok (encode_number x).
Proof.
  unfold inode_number_binary. pose proof (length_to_le 8 x) as Hl.
  change (replicate 10 0) with ([] ++ replicate 8 0 ++ [0; 0]).
  rewrite (binary_loop_spec (to_le 8 x) [] (replicate 8 0) 0) by (rewrite ?Hl; simpl; lia || done).
  omon. unfold encode_number. rewrite Z.add_0_l. change (2 ^ zlen []) with 1. rewrite Z.mul_1_l.
  assert (He : length (escape <$> to_le 8 x) = 8%nat) by (by rewrite length_fmap).
  cbn [app]. destruct (zero_mask (to_le 8 x) =? 0); f_equal;
    by rewrite !insert_app_r_alt, He by (rewrite He; lia).
Qed.

Lemma length_encode_number x : length (encode_number x) = 10%nat.
Proof.
  unfold encode_number. rewrite length_app, length_fmap, length_to_le. by destruct (_ =? 0).
Qed.

(** No byte is zero. *)
Lemma encode_number_nonzero x : Forall (fun b => 0 < b < 256) (encode_number x).
Proof.
  pose proof (zero_mask_bound (to_le 8 x)) as Hm. rewrite length_to_le in Hm. change (2 ^ Z.of_nat 8) with 256 in Hm.
  unfold encode_number. apply Forall_app. split.
  - apply Forall_fmap. eapply Forall_impl; [apply (to_le_u8 8 x)|]. intros b Hb. unfold u8 in Hb.
    unfold compose, escape, U8_MAX. destruct (Z.eqb_spec b 0); lia.
  - destruct (Z.eqb_spec (zero_mask (to_le 8 x)) 0); repeat constructor; unfold U8_MAX; lia.
Qed.

Lemma number_roundtrip x : u64 x -> inode_number_from (encode_number x) = x.
Proof.
  intros Hx. unfold inode_number_from, encode_number. pose proof (length_to_le 8 x) as Hl.
  set (bytes := to_le 8 x) in *. assert (He : length (escape <$> bytes) = 8%nat) by (by rewrite length_fmap).
  rewrite take_app_eq by done. rewrite !lookup_total_app_r, He by lia.
  etransitivity; [|by apply from_to_le_u64]. fold bytes. f_equal.
  apply (from_loop_spec _ bytes (escape <$> bytes) [] (replicate 8 0)); [by rewrite Hl|done|].
  intros k Hk. cbn [length Nat.add]. rewrite (list_lookup_total_fmap escape bytes k Hk).
  rewrite (lookup_total_replicate_2) by lia. unfold escape.
  destruct (Z.eqb_spec (zero_mask bytes) 0) as [E|E]; cbn [lookup_total list_lookup_total Nat.sub Z.eqb Pos.eqb].
  - rewrite Z.bits_0. pose proof (zero_mask_0 bytes E k Hk). by destruct (Z.eqb_spec (bytes !!! k) 0).
  - rewrite zero_mask_testbit by done. by destruct (Z.eqb_spec (bytes !!! k) 0).
Qed.
