(* ===== verification/Utf8.v ===== *)
(** [String::from_utf8_lossy] and [split], as the file system uses them on names
    and paths. A Rust string is its list of bytes. *)
From S2P Require Import Prelude.
From Stdlib Require Import ZArith Lia.
From stdpp Require Import list_numbers list.
Local Open Scope Z_scope.

(** ** [from_utf8_lossy] *)

Definition between (lo hi x : Z) : bool := (lo <=? x) && (x <=? hi).
Definition continuation (x : Z) : bool := between 0x80 0xBF x.

(** Whether the second byte of a three or four byte sequence fits the first. *)
Definition second3 (b x : Z) : bool :=
  ((b =? 0xE0) && between 0xA0 0xBF x) || (between 0xE1 0xEC b && between 0x80 0xBF x) ||
  ((b =? 0xED) && between 0x80 0x9F x) || (between 0xEE 0xEF b && between 0x80 0xBF x).
Definition second4 (b x : Z) : bool :=
  ((b =? 0xF0) && between 0x90 0xBF x) || (between 0xF1 0xF3 b && between 0x80 0xBF x) ||
  ((b =? 0xF4) && between 0x80 0x8F x).

(** The byte at [i], or zero after the end. *)
Definition safe_get (l : list Z) (i : nat) : Z := default 0 (l !! i).

(** The next sequence of [l], not empty: its length and whether it is valid; an
    invalid one ends before the byte that does not fit. *)
Definition utf8_next (l : list Z) : nat * bool :=
  let b := safe_get l 0 in
  if b <? 0x80 then (1%nat, true)
  else if between 0xC2 0xDF b then
    if continuation (safe_get l 1) then (2%nat, true) else (1%nat, false)
  else if between 0xE0 0xEF b then
    if negb (second3 b (safe_get l 1)) then (1%nat, false)
    else if negb (continuation (safe_get l 2)) then (2%nat, false) else (3%nat, true)
  else if between 0xF0 0xF4 b then
    if negb (second4 b (safe_get l 1)) then (1%nat, false)
    else if negb (continuation (safe_get l 2)) then (2%nat, false)
    else if negb (continuation (safe_get l 3)) then (3%nat, false) else (4%nat, true)
  else (1%nat, false).

(** U+FFFD *)
Definition REPLACEMENT : list Z := [0xEF; 0xBF; 0xBD].

(** Each sequence has at least one byte, so the length is enough fuel. *)
Fixpoint lossy_loop (fuel : nat) (l : list Z) : list Z :=
  match fuel, l with
  | S fuel, _ :: _ =>
      let '(k, valid) := utf8_next l in
      (if valid then take k l else REPLACEMENT) ++ lossy_loop fuel (drop k l)
  | _, _ => []
  end.

Definition from_utf8_lossy (l : list Z) : list Z := lossy_loop (length l) l.

(** Valid UTF-8: what a [String] holds. *)
Fixpoint valid_loop (fuel : nat) (l : list Z) : bool :=
  match fuel, l with
  | S fuel, _ :: _ => (utf8_next l).2 && valid_loop fuel (drop (utf8_next l).1 l)
  | _, _ => true
  end.
Definition utf8 (l : list Z) : bool := valid_loop (length l) l.

Lemma utf8_next_pos l : (0 < (utf8_next l).1)%nat.
Proof. unfold utf8_next. repeat case_match; simpl; lia. Qed.

Lemma lossy_valid fuel l : (length l <= fuel)%nat -> valid_loop fuel l = true -> lossy_loop fuel l = l.
Proof.
  revert l. induction fuel as [|fuel IH]; intros [|b l] Hl Hv; simpl in Hl; try done; [lia|].
  cbn [valid_loop lossy_loop] in *. pose proof (utf8_next_pos (b :: l)) as Hp.
  destruct (utf8_next (b :: l)) as [k valid] eqn:E. simpl in Hv, Hp. apply andb_prop in Hv as [-> Hv].
  rewrite IH; [apply take_drop|rewrite length_drop; simpl; lia|done].
Qed.

(** Lossy conversion changes nothing in valid strings. *)
Lemma from_utf8_lossy_valid l : utf8 l = true -> from_utf8_lossy l = l.
Proof. by apply lossy_valid. Qed.

Lemma ascii_utf8 l : Forall (fun b => 0 <= b < 128) l -> utf8 l = true.
Proof.
  unfold utf8. induction 1 as [|b l Hb Hl IH]; [done|]. cbn [valid_loop length].
  assert (E : utf8_next (b :: l) = (1%nat, true)).
  { unfold utf8_next. change (safe_get (b :: l) 0) with b. by rewrite (proj2 (Z.ltb_lt b 128)) by lia. }
  rewrite E. exact IH.
Qed.

(** ** [split] *)

(** The pieces of [l] between the separators. *)
Fixpoint split (sep : Z) (l : list Z) : list (list Z) :=
  match l with
  | [] => [[]]
  | x :: l =>
      if x =? sep then [] :: split sep l
      else match split sep l with [] => [[x]] | p :: ps => (x :: p) :: ps end
  end.

(** Putting the separators back. *)
Fixpoint join_on (sep : Z) (ps : list (list Z)) : list Z :=
  match ps with
  | [] => []
  | [p] => p
  | p :: ps => p ++ sep :: join_on sep ps
  end.

Lemma split_nonempty sep l : split sep l <> [].
Proof. destruct l as [|x l]; simpl; [done|]. case_match; [done|]. by destruct (split sep l). Qed.

Lemma split_app sep p l : sep ∉ p -> split sep (p ++ sep :: l) = p :: split sep l.
Proof.
  induction p as [|x p IH]; intros Hp; simpl.
  - by rewrite Z.eqb_refl.
  - apply not_elem_of_cons in Hp as [Hx Hp]. rewrite (proj2 (Z.eqb_neq _ _)), IH by done. done.
Qed.

Lemma split_sep sep l : split sep (sep :: l) = [] :: split sep l.
Proof. apply (split_app sep []), not_elem_of_nil. Qed.

Lemma split_one sep p : sep ∉ p -> split sep p = [p].
Proof.
  induction p as [|x p IH]; intros Hp; simpl; [done|].
  apply not_elem_of_cons in Hp as [Hx Hp]. by rewrite (proj2 (Z.eqb_neq _ _)), IH by done.
Qed.

(** Splitting a joined list gives the pieces back. *)
Lemma split_join sep ps : ps <> [] -> Forall (fun p => sep ∉ p) ps -> split sep (join_on sep ps) = ps.
Proof.
  intros Hne Hf. induction Hf as [|p ps Hp Hf IH]; [done|]. destruct ps as [|p' ps].
  - by apply split_one.
  - change (join_on sep (p :: p' :: ps)) with (p ++ sep :: join_on sep (p' :: ps)).
    by rewrite split_app, IH.
Qed.

Lemma join_on_app sep ps p : ps <> [] -> join_on sep (ps ++ [p]) = join_on sep ps ++ sep :: p.
Proof.
  induction ps as [|q ps IH]; [done|]. intros _. destruct ps as [|q' ps]; [done|].
  change (join_on sep ((q :: q' :: ps) ++ [p])) with (q ++ sep :: join_on sep ((q' :: ps) ++ [p])).
  rewrite IH by done. cbn [join_on]. by rewrite <- app_assoc.
Qed.

(** Joining gives back what was split. *)
Lemma join_split sep l : join_on sep (split sep l) = l.
Proof.
  induction l as [|x l IH]; [done|]. cbn [split]. pose proof (split_nonempty sep l) as Hne.
  destruct (split sep l) as [|p ps]; [done|]. destruct (Z.eqb_spec x sep) as [->|Hx].
  - change (join_on sep ([] :: p :: ps)) with (sep :: join_on sep (p :: ps)). by rewrite IH.
  - rewrite <- IH. by destruct ps.
Qed.
