(* ===== verification/Cafs.v ===== *)
(** The file system of fs/src/cafs/mod.rs: [CaInode], an inode in memory, and
    [CAFS], with the inode cache. This file holds the operations; [Files] and [Inodes] prove
    what they do. *)
From S2P Require Import Prelude Device Block Manager Bitmap Layout InodeNumber Utf8.
From Stdlib Require Import ZArith Lia.
From stdpp Require Import gmap functions sorting list_numbers list.
Local Open Scope Z_scope.

Definition NAME_LENGTH_LIMIT : Z := 199.
Definition INODE_CACHE_SIZE : nat := 32.

(** ** [CaInode] *)
Module CaInode.

Record t := mk {
  inode_number : Z;
  type_ : InodeType;
  size : Z;
  block_id : Z;
  offset : Z;
  name : list Z;
  blocks : list Z
}.

(** [[0u8; NAME_LENGTH_LIMIT + 1]] with the name copied to its front. *)
Definition name_bytes (name : list Z) : list Z := splice 0 name (replicate 200 0).

Definition is_file (self : t) : bool := bool_decide (type_ self = File).

(** [Inode::name] *)
Definition name_str (self : t) : list Z :=
  let first_zero_index := default (length (name self)) (find_index (fun x => x =? 0) (name self)) in
  from_utf8_lossy (take first_zero_index (name self)).

Definition last_size (self : t) : Z :=
  if negb (size self mod BLOCK_SIZE =? 0) then size self mod BLOCK_SIZE else BLOCK_SIZE.

Section ops.
Context {C : Type} `{BlockCache C}.

Definition new (inode_number : Z) (type_ : InodeType) (block_id offset : Z) (name : list Z) : M C t :=
  lift (assert_ (zlen name <=? NAME_LENGTH_LIMIT) PAssert) ;;
  let bytes := name_bytes name in
  modify_at Meta.t block_id offset (fun meta => mret (tt, Meta.init type_ bytes meta)) ;;
  mret (mk inode_number type_ 0 block_id offset bytes []).

Definition from (inode_number block_id offset : Z) : M C t :=
  read_at Meta.t block_id offset (fun meta =>
    type_ ← lift (InodeType_of (Meta.type_ meta));
    '(_, blocks) ← Meta.blocks meta;
    mret (mk inode_number type_ (Meta.size meta) block_id offset (Meta.name meta) blocks)).

Definition data (self : t) : M C (list Z) :=
  match list.last (blocks self) with
  | None => mret []
  | Some last =>
      foldM (fun data id =>
        read_at DataBlock id 0 (fun block =>
          if id =? last then mret (data ++ take (Z.to_nat (last_size self)) (bytes block))
          else mret (data ++ bytes block))) [] (blocks self)
  end.
End ops.
End CaInode.

(** ** [CAFS] *)
Module CAFS.

(** The fields that never change once the file system is open. *)
Record t := mk {
  inode_bitmap : Bitmap.t;
  data_bitmap : Bitmap.t;
  inode_area_start_block : Z;
  data_area_start_block : Z
}.

(** The state: the block cache; the in-memory inodes, an [Arc<RwLock<CaInode>>]
    being an index into [heap]; the [inode_cache], in order, a handle once per
    [Arc] in it; and the [Arc]s that variables hold. No guard of an inode is alive
    when an operation looks at another one, so the locks of the inodes are left
    out. *)
Record state (C : Type) := St {
  cache_manager : C;
  heap : list CaInode.t;
  inode_cache : list nat;
  refs : list nat
}.
Arguments St {C}.
Arguments cache_manager {C}.
Arguments heap {C}.
Arguments inode_cache {C}.
Arguments refs {C}.

Section ops.
Context {C : Type} `{BlockCache C}.

Definition cached {A} (m : M C A) : M (state C) A :=
  zoom cache_manager (fun c st => St c (heap st) (inode_cache st) (refs st)) m.

(** *** [Arc]s of inodes *)

Definition count (h : nat) (l : list nat) : nat := length (filter (fun x => x = h) l).
Definition strong_count (st : state C) (h : nat) : nat := (count h (inode_cache st) + count h (refs st))%nat.

Fixpoint remove_one (h : nat) (l : list nat) : list nat :=
  match l with [] => [] | x :: l => if decide (x = h) then l else x :: remove_one h l end.

Definition arc_new (i : CaInode.t) : M (state C) nat := fun st =>
  let h := length (heap st) in
  Ok (h, St (cache_manager st) (heap st ++ [i]) (inode_cache st) (h :: refs st)).
Definition arc_clone (h : nat) : M (state C) unit := fun st =>
  Ok (tt, St (cache_manager st) (heap st) (inode_cache st) (h :: refs st)).
Definition arc_drop (h : nat) : M (state C) unit := fun st =>
  Ok (tt, St (cache_manager st) (heap st) (inode_cache st) (remove_one h (refs st))).
Definition deref (h : nat) : M (state C) CaInode.t := fun st =>
  i ← unwrap (heap st !! h) PIndex; Ok (i, st).
Definition assign (h : nat) (i : CaInode.t) : M (state C) unit := fun st =>
  Ok (tt, St (cache_manager st) (<[h := i]> (heap st)) (inode_cache st) (refs st)).
(** [queue.push(h)]: the [Arc] moves from a variable into the cache. *)
Definition push (h : nat) : M (state C) unit := fun st =>
  Ok (tt, St (cache_manager st) (heap st) (inode_cache st ++ [h]) (remove_one h (refs st))).

(** Dropping one [Arc] nobody else holds when the cache is full. *)
Definition substitute : M (state C) unit := fun st =>
  if decide (length (inode_cache st) = INODE_CACHE_SIZE) then
    match find_index (fun h => bool_decide (strong_count st h = 1%nat)) (inode_cache st) with
    | Some idx => Ok (tt, St (cache_manager st) (heap st) (swap_remove idx (inode_cache st)) (refs st))
    | None => Fault (Panic PInodeCache)
    end
  else Ok (tt, st).

Definition add_inode_cache (inode_meta : nat) : M (state C) unit :=
  substitute ;; push inode_meta.

(** *** Allocation *)

Definition inode_pos_of (self : t) (id : Z) : outcome (Z * Z) :=
  let inode_size := size_of Meta.t in
  let inodes_per_block := BLOCK_SIZE / inode_size in
  block_id ← add64 (inode_area_start_block self) (id / inodes_per_block);
  offset ← mul64 (id mod inodes_per_block) inode_size;
  Ok (block_id, offset).

Definition alloc_inode_meta (self : t) (type_ : InodeType) (name : list Z) : M (state C) nat :=
  id ← cached (Bitmap.alloc (inode_bitmap self));
  match id with
  | None => throw (Panic PInodes)
  | Some id =>
      '(block_id, offset) ← lift (inode_pos_of self id);
      inode ← cached (CaInode.new id type_ block_id offset name);
      meta ← arc_new inode;
      arc_clone meta ;;
      add_inode_cache meta ;;
      mret meta
  end.

Definition alloc_data (self : t) : M C Z :=
  id ← Bitmap.alloc (data_bitmap self);
  match id with
  | Some id => lift (add64 id (data_area_start_block self))
  | None => throw (Panic PData)
  end.

Definition fs_flush : M (state C) unit := cached flush.

(** *** Finding an inode *)

(** The first cached inode with this number. *)
Definition find_cached (st : state C) (inode_number : Z) : option nat :=
  i ← find_index (fun h =>
        match heap st !! h with
        | Some i => CaInode.inode_number i =? inode_number
        | None => false
        end) (inode_cache st);
  inode_cache st !! i.

Definition cainode (self : t) (inode_number : Z) : M (state C) nat := fun st =>
  match find_cached st inode_number with
  | Some h => (arc_clone h ;; mret h) st
  | None =>
      (substitute ;;
       '(block_id, offset) ← lift (inode_pos_of self inode_number);
       i ← cached (CaInode.from inode_number block_id offset);
       h ← arc_new i;
       arc_clone h ;;
       push h ;;
       mret h) st
  end.

(** *** [FS for CAFS] *)

Fixpoint alloc_datas (self : t) (k : nat) : M C (list Z) :=
  match k with
  | O => mret []
  | S k => x ← alloc_data self; xs ← alloc_datas self k; mret (x :: xs)
  end.

(** The closure of [write] that resizes the inode: its data blocks. *)
Definition resize_meta (self : t) (new_size : Z) (meta : Meta.t) : M C (list Z * Meta.t) :=
  curr_info ← lift (Meta.index_blocks (Meta.size meta));
  new_info ← lift (Meta.index_blocks new_size);
  meta ←
    (if Meta.size meta <? new_size then
       a ← lift (Meta._data_blocks new_size);
       b ← lift (Meta.data_blocks meta);
       k ← lift (sub64 a b);
       data_blocks ← alloc_datas self (Z.to_nat k);
       a ← lift (LevelInfo.index_block_count new_info);
       b ← lift (LevelInfo.index_block_count curr_info);
       k ← lift (sub64 a b);
       index_blocks ← alloc_datas self (Z.to_nat k);
       Meta.extend meta new_size new_info data_blocks index_blocks
     else if new_size <? Meta.size meta then
       '(ids, meta) ← Meta.shrink meta new_size;
       forM (fun id => Bitmap.dealloc (data_bitmap self) id) ids.1 ;;
       forM (fun id => Bitmap.dealloc (data_bitmap self) id) ids.2 ;;
       mret meta
     else mret meta);
  '(_, blocks) ← Meta.blocks meta;
  mret (blocks, meta).

(** Each block gets the next 512 bytes, zeros after the end. *)
Definition write_blocks (blocks contents : list Z) : M C (list Z) :=
  foldM (fun contents id =>
    let '(next, contents) := Meta.next_n BLOCK_SIZE contents in
    modify_at DataBlock id 0 (fun block => mret (tt, {| bytes := next |})) ;;
    mret contents) contents blocks.

Definition write (self : t) (inode_number : Z) (contents : list Z) : M (state C) unit :=
  let new_size := zlen contents in
  inode ← cainode self inode_number;
  '(block_id, offset) ← lift (inode_pos_of self inode_number);
  blocks ← cached (modify_at Meta.t block_id offset (resize_meta self new_size));
  cached (write_blocks blocks contents) ;;
  i ← deref inode;
  assign inode (CaInode.mk (CaInode.inode_number i) (CaInode.type_ i) new_size (CaInode.block_id i)
    (CaInode.offset i) (CaInode.name i) blocks) ;;
  arc_drop inode.

Definition create (self : t) (parent : Z) (name : list Z) : M (state C) nat :=
  meta ← alloc_inode_meta self File name;
  parent ← cainode self parent;
  p ← deref parent;
  contents ← cached (CaInode.data p);
  let contents := match contents with [] => [] | _ => contents ++ [0] end in
  i ← deref meta;
  repre ← lift (inode_number_binary (CaInode.inode_number i));
  write self (CaInode.inode_number p) (contents ++ repre) ;;
  arc_clone meta ;;
  add_inode_cache meta ;;
  arc_drop parent ;;
  mret meta.

Definition df (self : t) : M (state C) (Z * Z) :=
  free ← cached (Bitmap.free_count (data_bitmap self));
  total ← lift (Bitmap.total_count (data_bitmap self));
  free ← lift (mul64 free BLOCK_SIZE);
  total ← lift (mul64 total BLOCK_SIZE);
  mret (free, total).

Definition inode (self : t) (inode_number : Z) : M (state C) nat := cainode self inode_number.

(** The entries of a directory: ten bytes each, the slice panics on fewer. *)
Fixpoint parse_entries (pieces : list (list Z)) : outcome (list Z) :=
  match pieces with
  | [] => Ok []
  | sub_inode :: pieces =>
      assert_ (10 <=? zlen sub_inode) PIndex ;;
      let inode_number := inode_number_from (take 10 sub_inode) in
      inodes ← parse_entries pieces;
      Ok (inode_number :: inodes)
  end.

Definition sub_inodes (self : t) (inode_number : Z) : M (state C) (list Z) :=
  parent ← inode self inode_number;
  p ← deref parent;
  inodes ←
    (if CaInode.is_file p then mret []
     else
       data ← cached (CaInode.data p);
       match data with
       | [] => mret []
       | _ => lift (parse_entries (Utf8.split 0 data))
       end);
  arc_drop parent ;;
  mret inodes.

(** *** Creating and opening a file system *)

(** [init] on the cache manager of the device. *)
Definition format (total_blocks inode_bitmap_blocks : Z) : M (state C) t :=
  lift (assert_ (size_of Meta.t mod 8 =? 0) PAssert) ;;
  let inode_bitmap := Bitmap.new 1 inode_bitmap_blocks in
  inode_num ← lift (Bitmap.total_count inode_bitmap);
  x ← lift (mul64 inode_num (size_of Meta.t));
  x ← lift (add64 x BLOCK_SIZE);
  x ← lift (sub64 x 1);
  let inode_area_blocks := x / BLOCK_SIZE in
  inode_total_blocks ← lift (add64 inode_bitmap_blocks inode_area_blocks);
  x ← lift (sub64 total_blocks 1);
  data_total_blocks ← lift (sub64 x inode_total_blocks);
  let data_bitmap_blocks := data_total_blocks / (BLOCK_BITS + 1) in
  data_area_blocks ← lift (sub64 data_total_blocks data_bitmap_blocks);
  x ← lift (add64 1 inode_total_blocks);
  let data_bitmap := Bitmap.new x data_bitmap_blocks in
  inode_area_start_block ← lift (add64 1 inode_bitmap_blocks);
  data_area_start_block ← lift (add64 x data_bitmap_blocks);
  let fs := mk inode_bitmap data_bitmap inode_area_start_block data_area_start_block in
  cached (forM (fun i => modify_at DataBlock i 0 (fun data_block =>
    mret (tt, {| bytes := replicate (length (bytes data_block)) 0 |}))) (seqZ 0 total_blocks)) ;;
  cached (modify_at SuperBlock.t 0 0 (fun super_block =>
    mret (tt, SuperBlock.initialize total_blocks inode_bitmap_blocks inode_area_blocks
      data_bitmap_blocks data_area_blocks super_block))) ;;
  root ← alloc_inode_meta fs Dir [47];
  i ← deref root;
  lift (assert_ (CaInode.inode_number i =? 0) PAssert) ;;
  arc_drop root ;;
  fs_flush ;;
  mret fs.

(** [open] on the cache manager of the device. *)
Definition mount : M (state C) t :=
  cached (read_at SuperBlock.t 0 0 (fun super_block =>
    lift (assert_ (SuperBlock.is_valid super_block) PSuperBlock) ;;
    inode_total_blocks ← lift (add64 (SuperBlock.inode_bitmap_blocks super_block)
      (SuperBlock.inode_area_blocks super_block));
    let inode_bitmap := Bitmap.new 1 (SuperBlock.inode_bitmap_blocks super_block) in
    x ← lift (add64 1 inode_total_blocks);
    let data_bitmap := Bitmap.new x (SuperBlock.data_bitmap_blocks super_block) in
    inode_area_start_block ← lift (add64 1 (SuperBlock.inode_bitmap_blocks super_block));
    data_area_start_block ← lift (add64 x (SuperBlock.data_bitmap_blocks super_block));
    mret (mk inode_bitmap data_bitmap inode_area_start_block data_area_start_block))).
End ops.

Definition start {D} `{BlockDevice D} (block_device : D) : state (CacheManager.t D) :=
  St (CacheManager.new block_device) [] [] [].

Definition init {D} `{BlockDevice D} (block_device : D) (total_blocks inode_bitmap_blocks : Z) :
    outcome (t * state (CacheManager.t D)) :=
  format total_blocks inode_bitmap_blocks (start block_device).

Definition open {D} `{BlockDevice D} (block_device : D) : outcome (t * state (CacheManager.t D)) :=
  mount (start block_device).
End CAFS.
