(* ===== verification/Vfs.v ===== *)
(** The virtual file system of fs/src/vfs: paths, the tree of directory entries
    kept in memory, and the operations on paths; and the image builder of
    fs/src/main.rs. This file holds the operations; [Paths] proves what they do. *)
From S2P Require Import Prelude Device Block Manager Bitmap Layout InodeNumber Utf8 Cafs Machine.
From Stdlib Require Import ZArith Lia.
From stdpp Require Import gmap functions sorting list_numbers list.
Local Open Scope Z_scope.

Inductive Error := NotExist (name : list Z) | RunOutOfInode.

(** ** [Path] *)
Module Path.
Record t := mk { parents : list (list Z); name : list Z }.
End Path.

(** The byte of ['/']. *)
Definition SLASH : Z := 47.

(** ** [DirEntry] *)
Module DirEntry.

(** Each entry is in the [subdirs] of one parent, so the shared, mutable entries
    form a tree; the back pointer [parent] is never read, and [fs] is the one file
    system. *)
Inductive t := mk { inode_type : InodeType; inode_number : Z; name : list Z; subdirs : list t }.

Definition push (d : t) (self : t) : t :=
  mk (inode_type self) (inode_number self) (name self) (subdirs self ++ [d]).

(** Mutating the entry at a position: the index of the child to follow at each
    step. *)
Fixpoint update (pos : list nat) (f : t -> t) (self : t) : t :=
  match pos with
  | [] => f self
  | i :: pos => mk (inode_type self) (inode_number self) (name self)
      (alter (update pos f) i (subdirs self))
  end.

Fixpoint at_ (pos : list nat) (self : t) : option t :=
  match pos with
  | [] => Some self
  | i :: pos => d ← subdirs self !! i; at_ pos d
  end.

Section ops.
Context {C : Type} `{BlockCache C}.
Variable fs : CAFS.t.

Definition new (inode_number : Z) : M (CAFS.state C) t :=
  inode ← CAFS.inode fs inode_number;
  i ← CAFS.deref inode;
  CAFS.arc_drop inode ;;
  mret (mk (CaInode.type_ i) inode_number (CaInode.name_str i) []).

(** A directory that contains itself makes the recursion endless; a tree of depth
    [k] needs fuel [k + 1]. *)
Fixpoint read_sub_dentry (fuel : nat) (parent_dentry : t) : M (CAFS.state C) t :=
  match fuel with
  | O => throw Diverge
  | S fuel =>
      sub_inodes ← CAFS.sub_inodes fs (inode_number parent_dentry);
      foldM (fun parent_dentry inode_number =>
        dentry ← new inode_number;
        dentry ← read_sub_dentry fuel dentry;
        mret (push dentry parent_dentry)) parent_dentry sub_inodes
  end.
End ops.
End DirEntry.

(** ** [VFS] *)
Module VFS.

Definition parse_path (path : list Z) : outcome Path.t :=
  let dirs := drop 1 (Utf8.split SLASH path) in
  name ← unwrap (last dirs) PUnwrap;
  Ok (Path.mk (take (length dirs - 1) dirs) name).

(** The position of the entry a path leads to. *)
Fixpoint find_dentry (dir : DirEntry.t) (dirs : list (list Z)) : Error + list nat :=
  match dirs with
  | [] => inr []
  | parent_dir :: dirs =>
      match find_index (fun d => bool_decide (DirEntry.name d = parent_dir)) (DirEntry.subdirs dir) with
      | None => inl (NotExist parent_dir)
      | Some i =>
          match DirEntry.subdirs dir !! i with
          | None => inl (NotExist parent_dir)
          | Some next =>
              match find_dentry next dirs with inl e => inl e | inr pos => inr (i :: pos) end
          end
      end
  end.

(** The state: the file system and the entry of the root directory. *)
Record state (C : Type) := St { primary_partition : CAFS.state C; dentry_cache : DirEntry.t }.
Arguments St {C}.
Arguments primary_partition {C}.
Arguments dentry_cache {C}.

Section ops.
Context {C : Type} `{BlockCache C}.

Definition on_fs {A} (m : M (CAFS.state C) A) : M (state C) A :=
  zoom primary_partition (fun p st => St p (dentry_cache st)) m.

Definition lookup_dentry (dirs : list (list Z)) : M (state C) (Error + list nat) := fun st =>
  Ok (find_dentry (dentry_cache st) dirs, st).
Definition dentry_at (pos : list nat) : M (state C) DirEntry.t := fun st =>
  d ← unwrap (DirEntry.at_ pos (dentry_cache st)) PUnwrap; Ok (d, st).
Definition push_dentry (pos : list nat) (d : DirEntry.t) : M (state C) unit := fun st =>
  Ok (tt, St (primary_partition st) (DirEntry.update pos (DirEntry.push d) (dentry_cache st))).

Definition ls_root : M (state C) (list (list Z)) := fun st =>
  Ok (DirEntry.name (dentry_cache st) :: (DirEntry.name <$> DirEntry.subdirs (dentry_cache st)), st).

Variable fs : CAFS.t.

Definition create (path : list Z) : M (state C) (Error + unit) :=
  p ← lift (parse_path path);
  dir ← lookup_dentry (Path.parents p);
  match dir with
  | inl e => mret (inl e)
  | inr pos =>
      dir ← dentry_at pos;
      inode_meta ← on_fs (CAFS.create fs (DirEntry.inode_number dir) (Path.name p));
      i ← on_fs (CAFS.deref inode_meta);
      d ← on_fs (DirEntry.new fs (CaInode.inode_number i));
      push_dentry pos d ;;
      on_fs (CAFS.arc_drop inode_meta) ;;
      mret (inr tt)
  end.

Definition read_unstable (path : list Z) : M (state C) (Error + list Z) :=
  p ← lift (parse_path path);
  let path := Path.parents p ++ [Path.name p] in
  dentry ← lookup_dentry path;
  match dentry with
  | inl e => mret (inl e)
  | inr pos =>
      d ← dentry_at pos;
      inode ← on_fs (CAFS.inode fs (DirEntry.inode_number d));
      i ← on_fs (CAFS.deref inode);
      data ← on_fs (CAFS.cached (CaInode.data i));
      on_fs (CAFS.arc_drop inode) ;;
      mret (inr data)
  end.

Definition write (path : list Z) (contents : list Z) : M (state C) (Error + unit) :=
  p ← lift (parse_path path);
  let path := Path.parents p ++ [Path.name p] in
  dentry ← lookup_dentry path;
  match dentry with
  | inl e => mret (inl e)
  | inr pos =>
      d ← dentry_at pos;
      on_fs (CAFS.write fs (DirEntry.inode_number d) contents) ;;
      mret (inr tt)
  end.
End ops.

(** [VFS::new]: the file system, and the state with the entries of all its files. *)
Definition new {D} `{BlockDevice D} (fuel : nat) (block_device : D) :
    outcome (CAFS.t * state (CacheManager.t D)) :=
  '(fs, st) ← CAFS.open block_device;
  '(root_dentry, st) ← (root_dentry ← DirEntry.new fs 0; DirEntry.read_sub_dentry fs fuel root_dentry) st;
  Ok (fs, St st root_dentry).
End VFS.

(** ** [create_img] of fs/src/main.rs *)
Module Img.

(** "test.txt", "hello", "Test File" *)
Definition test_txt : list Z := [116; 101; 115; 116; 46; 116; 120; 116].
Definition hello : list Z := [104; 101; 108; 108; 111].
Definition test_file : list Z := [84; 101; 115; 116; 32; 70; 105; 108; 101].

(** One file of the image. *)
Definition add_file {C} `{BlockCache C} (fs : CAFS.t) (name contents : list Z) : M (CAFS.state C) nat :=
  inode ← CAFS.create fs 0 name;
  i ← CAFS.deref inode;
  CAFS.write fs (CaInode.inode_number i) contents ;;
  mret inode.

(** The contents of the disk that are written to cafs.bin, [file] being the
    contents of rootfs/hello if it can be read. *)
Definition create_img (size : Z) (file : option (list Z)) : outcome (list (list Z)) :=
  x ← mul64 2 size;
  let total_blocks := (x * 2 ^ 10) mod U64 in
  let inode_bitmap_blocks := 10 in
  '(fs, st) ← CAFS.init (Disk.new total_blocks) total_blocks inode_bitmap_blocks;
  '(_, st) ← (inode ← add_file fs test_txt test_file;
              file ← lift (unwrap file PUnwrap);
              inode2 ← add_file fs hello file;
              CAFS.fs_flush) st;
  Ok (Disk.data (CacheManager.block_device (CAFS.cache_manager st))).

(** How the program ends: its exit status, and the contents of cafs.bin if it wrote
    the file. *)
Record ending := Ending { status : Z; cafs_bin : option (list (list Z)) }.

(** [create_img(size)?] as the last step of [main]; [writable] says whether cafs.bin can
    be written, and an error that [main] returns is exit status 1. *)
Definition build (size : Z) (file : option (list Z)) (writable : bool) : outcome ending :=
  data ← create_img size file;
  Ok (if writable then Ending 0 (Some data) else Ending 1 None).

(** [main]; [args] includes the name of the program. *)
Definition main (args : list (list Z)) (file : option (list Z)) (writable : bool) : outcome ending :=
  if 2 <? zlen args then Ok (Ending 64 None)
  else if zlen args =? 2 then
    arg ← unwrap (args !! 1%nat) PIndex;
    size ← unwrap (from_str_radix 10 arg) PExpect;
    build size file writable
  else build 50 file writable.
End Img.
