(* ===== verification/Contents.v ===== *)
(** The parts of [CAFS::write] and [CaInode::data] that work on the block cache:
    allocating data blocks, resizing the inode, writing the contents into its
    blocks and reading them back. *)
From S2P Require Import Prelude Device Block Bitmap Layout Index Resize Cafs.
From Stdlib Require Import ZArith Lia.
From stdpp Require Import gmap functions sorting list_numbers list.
Local Open Scope Z_scope.

(** ** The areas of the disk *)

Definition inode_count (fs : CAFS.t) : Z := Bitmap.blocks (CAFS.inode_bitmap fs) * BLOCK_BITS.
Definition data_count (fs : CAFS.t) : Z := Bitmap.blocks (CAFS.data_bitmap fs) * BLOCK_BITS.

(** The super block, the inode bitmap, the inode area, the data bitmap and the
    data area follow each other on a disk of [n] blocks. *)
Record geometry (n : Z) (fs : CAFS.t) : Prop := {
  geo_ib_start : Bitmap.start_block_id (CAFS.inode_bitmap fs) = 1;
  geo_ib_blocks : 0 <= Bitmap.blocks (CAFS.inode_bitmap fs);
  geo_ia : CAFS.inode_area_start_block fs = 1 + Bitmap.blocks (CAFS.inode_bitmap fs);
  geo_db_start : Bitmap.start_block_id (CAFS.data_bitmap fs) = CAFS.inode_area_start_block fs + inode_count fs;
  geo_db_blocks : 0 <= Bitmap.blocks (CAFS.data_bitmap fs);
  geo_da : CAFS.data_area_start_block fs =
    Bitmap.start_block_id (CAFS.data_bitmap fs) + Bitmap.blocks (CAFS.data_bitmap fs);
  geo_end : CAFS.data_area_start_block fs + data_count fs <= n;
  geo_bits : n * BLOCK_BITS < U64
}.

(** Block [b] holds data, or a part of the data bitmap. *)
Definition in_data (fs : CAFS.t) (b : Z) : Prop :=
  CAFS.data_area_start_block fs <= b < CAFS.data_area_start_block fs + data_count fs.
Definition in_data_bitmap (fs : CAFS.t) (b : Z) : Prop :=
  Bitmap.start_block_id (CAFS.data_bitmap fs) <= b <
  Bitmap.start_block_id (CAFS.data_bitmap fs) + Bitmap.blocks (CAFS.data_bitmap fs).

(** Whether the data block [b] is allocated, and how many are not. *)
Definition used (fs : CAFS.t) (v : Z -> list Z) (b : Z) : bool :=
  Bitmap.bit (CAFS.data_bitmap fs) v (b - CAFS.data_area_start_block fs).
Definition free (fs : CAFS.t) (v : Z -> list Z) : Z :=
  cnt (fun i => negb (Bitmap.bit (CAFS.data_bitmap fs) v i)) (Z.to_nat (data_count fs)).

Lemma geometry_data_bitmap n fs : geometry n fs -> Bitmap.ok n (CAFS.data_bitmap fs).
Proof.
  intros []. split; unfold data_count, inode_count, BLOCK_BITS, BLOCK_SIZE in *; lia.
Qed.

Lemma geometry_inode_bitmap n fs : geometry n fs -> Bitmap.ok n (CAFS.inode_bitmap fs).
Proof.
  intros []. split; unfold data_count, inode_count, BLOCK_BITS, BLOCK_SIZE in *; lia.
Qed.

(** The order of the areas. *)
Lemma geometry_order n fs : geometry n fs ->
  0 <= inode_count fs /\ 0 <= data_count fs /\ 0 < CAFS.inode_area_start_block fs /\
  CAFS.inode_area_start_block fs + inode_count fs = Bitmap.start_block_id (CAFS.data_bitmap fs) /\
  Bitmap.start_block_id (CAFS.data_bitmap fs) <= CAFS.data_area_start_block fs /\
  CAFS.data_area_start_block fs + data_count fs <= n /\ 0 < n < U64.
Proof. intros []. unfold data_count, inode_count, BLOCK_BITS, BLOCK_SIZE in *. lia. Qed.

(** The bitmap blocks determine the bits. *)
Lemma bit_frame m (v v' : Z -> list Z) i : 0 <= i < Bitmap.blocks m * BLOCK_BITS ->
  (forall b, Bitmap.start_block_id m <= b < Bitmap.start_block_id m + Bitmap.blocks m -> v' b = v b) ->
  Bitmap.bit m v' i = Bitmap.bit m v i.
Proof.
  intros Hi Hv. unfold Bitmap.bit. rewrite Hv; [done|].
  destruct (Bitmap.decompose_bounds m i Hi) as (? & _). lia.
Qed.

(** ** The contents *)

(** The data blocks hold the bytes [c], zeros after the end. *)
Fixpoint holds (v : Z -> list Z) (data c : list Z) : Prop :=
  match data with
  | [] => True
  | x :: data => v x = resize 512 0 c /\ holds v data (drop 512 c)
  end.

Lemma holds_frame v v' data c : (forall x, x ∈ data -> v' x = v x) -> holds v data c -> holds v' data c.
Proof.
  revert c. induction data as [|x data IH]; intros c Hv; [done|]. cbn [holds]. intros [Hx Hd]. split.
  - rewrite Hv by set_solver. done.
  - apply IH; [set_solver|done].
Qed.

Lemma holds_contents v data c : zlen data = cdiv (zlen c) 512 -> holds v data c ->
  take (length c) (concat (v <$> data)) = c.
Proof.
  revert c. induction data as [|x data IH]; intros c Hl.
  - intros _. destruct c as [|b c]; [done|]. cbn [length] in Hl. size_lia.
  - cbn [holds fmap list_fmap concat]. intros [-> Hd].
    destruct (Nat.le_gt_cases (length c) 512) as [Hc|Hc].
    + rewrite resize_ge by done. rewrite <- app_assoc. by apply take_app_eq.
    + rewrite resize_le by lia. rewrite take_app, length_take, take_take.
      transitivity (take 512 c ++ drop 512 c); [|apply take_drop]. f_equal; [f_equal; lia|].
      replace (length c - Nat.min 512 (length c))%nat with (length (drop 512 c)) by (rewrite length_drop; lia).
      apply IH; [|done]. rewrite length_drop. cbn [length] in Hl. size_lia.
Qed.

Lemma length_concat_blocks (l : list (list Z)) : Forall (fun b => length b = 512%nat) l ->
  length (concat l) = (512 * length l)%nat.
Proof. induction 1 as [|b l Hb Hl IH]; [done|]. cbn [concat length]. rewrite length_app. lia. Qed.

Section alloc.
Context {C : Type} {n : Z} `{HL : BlockCacheLaws C n}.
Variable fs : CAFS.t.
Hypothesis geo : geometry n fs.

(** No frame holds a block of the data bitmap or of the data area. *)
Definition clear_of (h : list (Z * lock)) : Prop :=
  (length h + 3 < CACHE_SIZE)%nat /\
  forall b, in_data_bitmap fs b \/ in_data fs b -> b ∉ h.*1.

(** The blocks [xs] were free and are now allocated; nothing else changed. *)
Record allocated (v : Z -> list Z) (xs : list Z) (v' : Z -> list Z) : Prop := {
  al_nodup : NoDup xs;
  al_range : Forall (fun x => in_data fs x /\ used fs v x = false) xs;
  al_used b : in_data fs b -> used fs v' b = (bool_decide (b ∈ xs) || used fs v b);
  al_free : free fs v' = free fs v - zlen xs;
  al_only b : (~ in_data_bitmap fs b) -> v' b = v b
}.

Lemma allocated_nil v : allocated v [] v.
Proof. split; try done; [apply NoDup_nil_2|simpl; lia]. Qed.

Lemma allocated_app v xs v1 ys v2 : allocated v xs v1 -> allocated v1 ys v2 -> allocated v (xs ++ ys) v2.
Proof.
  intros [N1 R1 U1 F1 O1] [N2 R2 U2 F2 O2].
  assert (Hys : forall y, y ∈ ys -> (y ∉ xs) /\ in_data fs y /\ used fs v y = false).
  { intros y Hy. eapply Forall_forall in R2 as [Hy1 Hy2]; [|exact Hy]. rewrite U1 in Hy2 by done.
    apply orb_false_elim in Hy2 as [Hne ?]. split_and!; [|done|done].
    by apply bool_decide_eq_false in Hne. }
  split.
  - apply NoDup_app. split_and!; [done| |done]. intros x Hx Hy. by destruct (Hys x Hy).
  - apply Forall_app. split; [done|]. apply Forall_forall. intros y Hy. by destruct (Hys y Hy) as (_ & ? & ?).
  - intros b Hb. rewrite U2, U1, orb_assoc by done. f_equal. rewrite <- bool_decide_or.
    apply bool_decide_ext. set_solver.
  - rewrite F2, F1, length_app. lia.
  - intros b Hb. rewrite O2, O1; done.
Qed.

Lemma unheld_data_bitmap h : clear_of h -> Bitmap.unheld (CAFS.data_bitmap fs) h.
Proof. intros [_ Hh] b Hb. apply Hh. by left. Qed.

(** Allocating one block. *)
Lemma alloc_data_spec v h : clear_of h -> 0 < free fs v ->
  spec n (CAFS.alloc_data fs) v h (fun x v' => allocated v [x] v').
Proof.
  intros Hh Hf. unfold CAFS.alloc_data. pose proof (geometry_data_bitmap _ _ geo) as Hok.
  eapply spec_bind; [apply Bitmap.alloc_correct; [done|by apply unheld_data_bitmap|destruct Hh; lia]|].
  intros [i|] v'; cbn [Bitmap.alloc_post].
  - intros (Hi & Hb & _ & Hv' & Ho). fold (data_count fs) in *.
    eapply spec_lift; [apply add64_ok; pose proof (geometry_order _ _ geo); lia|].
    assert (Hd : in_data fs (i + CAFS.data_area_start_block fs)) by (unfold in_data; lia).
    split.
    + apply NoDup_singleton.
    + constructor; [|done]. split; [done|]. unfold used. by rewrite Z.add_simpl_r.
    + intros b Hb'. unfold used. unfold in_data in Hb'. rewrite Hv' by lia. f_equal.
      apply eq_bool_prop_intro. rewrite bool_decide_spec, list_elem_of_singleton, Is_true_true, Z.eqb_eq. lia.
    + cbn [length]. unfold free.
      rewrite (cnt_set (fun j => negb (Bitmap.bit (CAFS.data_bitmap fs) v' j))
        (fun j => negb (Bitmap.bit (CAFS.data_bitmap fs) v j)) (Z.to_nat (data_count fs)) i); [lia|lia|..].
      * rewrite Hv' by lia. by rewrite Z.eqb_refl.
      * by rewrite Hb.
      * intros j Hj Hne. rewrite Hv' by lia. by rewrite (proj2 (Z.eqb_neq _ _)).
    + intros b Hnb. apply Ho. intros ->. apply Hnb. unfold in_data_bitmap.
      destruct (Bitmap.decompose_bounds _ i Hi) as (? & _). lia.
  - intros [_ Hall]. fold (data_count fs) in *. exfalso. unfold free in Hf.
    rewrite cnt_none in Hf; [lia|]. intros i Hi. by rewrite Hall by lia.
Qed.

(** Allocating [k] blocks, when that many are free. *)
Lemma alloc_datas_spec k : forall v h, clear_of h -> Z.of_nat k <= free fs v ->
  spec n (CAFS.alloc_datas fs k) v h (fun xs v' => length xs = k /\ allocated v xs v').
Proof.
  induction k as [|k IH]; intros v h Hh Hf; cbn [CAFS.alloc_datas].
  { apply spec_ret. split; [done|apply allocated_nil]. }
  eapply spec_bind; [apply alloc_data_spec; [done|lia]|]. intros x v1 H1.
  eapply spec_bind; [apply IH; [done|]; rewrite (al_free _ _ _ H1); simpl; lia|].
  intros xs v2 [Hl H2]. apply spec_ret. split; [by rewrite <- Hl|]. by apply (allocated_app v [x] v1).
Qed.

(** Otherwise the allocation panics. *)
Lemma alloc_data_full v h : clear_of h -> free fs v <= 0 ->
  faults n (CAFS.alloc_data fs) v h (Panic PData).
Proof.
  intros Hh Hf. unfold CAFS.alloc_data. pose proof (geometry_data_bitmap _ _ geo) as Hok.
  eapply faults_spec_bind; [apply Bitmap.alloc_correct; [done|by apply unheld_data_bitmap|destruct Hh; lia]|].
  intros [i|] v'; cbn [Bitmap.alloc_post]; [|done].
  intros (Hi & Hb & _). exfalso. fold (data_count fs) in *. unfold free in Hf.
  pose proof (cnt_set (fun j => negb (Bitmap.bit (CAFS.data_bitmap fs) v j) && negb (j =? i))
    (fun j => negb (Bitmap.bit (CAFS.data_bitmap fs) v j)) (Z.to_nat (data_count fs)) i) as E.
  rewrite E in Hf; [|lia|..].
  - pose proof (cnt_bounds (fun j => negb (Bitmap.bit (CAFS.data_bitmap fs) v j) && negb (j =? i))
      (Z.to_nat (data_count fs))). lia.
  - by rewrite Z.eqb_refl, andb_false_r.
  - by rewrite Hb.
  - intros j Hj Hne. by rewrite (proj2 (Z.eqb_neq _ _)), andb_true_r by done.
Qed.

Lemma alloc_datas_full k : forall v h, clear_of h -> free fs v < Z.of_nat k ->
  faults n (CAFS.alloc_datas fs k) v h (Panic PData).
Proof.
  induction k as [|k IH]; intros v h Hh Hf; cbn [CAFS.alloc_datas].
  { unfold free in Hf. pose proof (cnt_bounds (fun j => negb (Bitmap.bit (CAFS.data_bitmap fs) v j))
      (Z.to_nat (data_count fs))). lia. }
  destruct (Z.le_gt_cases (free fs v) 0).
  - by apply faults_bind, alloc_data_full.
  - eapply faults_spec_bind; [by apply alloc_data_spec; [done|lia]|]. intros x v1 H1.
    apply faults_bind, IH; [done|]. rewrite (al_free _ _ _ H1). simpl. lia.
Qed.

(** ** Resizing *)

(** How many index blocks a file of [s] bytes needs. *)
Definition index_need (s : Z) : Z :=
  match Meta.index_blocks s with Ok info => index_count info | Fault _ => 0 end.
(** How many blocks [write] allocates when a file grows from [s] to [s'] bytes. *)
Definition need (s s' : Z) : Z :=
  (cdiv s' 512 - cdiv s 512) + (index_need s' - index_need s).

(** All the blocks of the inode are allocated data blocks. *)
Definition owned (v : Z -> list Z) (ids : list Z) : Prop :=
  Forall (fun b => in_data fs b /\ used fs v b = true) ids.

(** What [resize_meta] did to an inode with blocks [index] and [data]: it now has
    [ni] and [nd] in addition, freshly allocated. *)
Record resized (v : Z -> list Z) (m : Meta.t) (index data : list Z) (new_size : Z)
    (m' : Meta.t) (ni nd : list Z) (v' : Z -> list Z) : Prop := {
  rs_ok : inode_ok v' m' (index ++ ni) (data ++ nd);
  rs_size : Meta.size m' = new_size;
  rs_type : Meta.type_ m' = Meta.type_ m;
  rs_name : Meta.name m' = Meta.name m;
  rs_fresh : NoDup (nd ++ ni);
  rs_range : Forall (fun x => in_data fs x /\ used fs v x = false) (nd ++ ni);
  rs_used b : in_data fs b -> used fs v' b = (bool_decide (b ∈ nd ++ ni) || used fs v b);
  rs_only b : (~ in_data_bitmap fs b) -> b ∉ index ++ ni -> v' b = v b;
  rs_free : free fs v' = free fs v - zlen (nd ++ ni)
}.

Lemma in_data_bounds b : in_data fs b -> 0 < b < n.
Proof. intros Hb. pose proof (geometry_order _ _ geo). unfold in_data in Hb. lia. Qed.

Lemma in_data_not_bitmap b : in_data fs b -> ~ in_data_bitmap fs b.
Proof.
  intros Hb. destruct geo. unfold in_data, in_data_bitmap in *. lia.
Qed.

Lemma owned_writable h ids : clear_of h -> Forall (in_data fs) ids -> writable (n := n) h ids.
Proof.
  intros [_ Hh] Ho. eapply Forall_impl; [exact Ho|]. intros b Hb. split; [by apply in_data_bounds|].
  apply Hh. by right.
Qed.

Lemma owned_in_data v ids : owned v ids -> Forall (in_data fs) ids.
Proof. intros Ho. eapply Forall_impl; [exact Ho|]. by intros b [? _]. Qed.

(** Writing data blocks leaves the bitmap alone. *)
Lemma only_used v v' ids : only ids v v' -> Forall (in_data fs) ids ->
  (forall b, in_data fs b -> used fs v' b = used fs v b) /\ free fs v' = free fs v.
Proof.
  intros Ho Hi. assert (Hb : forall i, 0 <= i < data_count fs ->
    Bitmap.bit (CAFS.data_bitmap fs) v' i = Bitmap.bit (CAFS.data_bitmap fs) v i).
  { intros i Hr. apply bit_frame; [done|]. intros b Hb. apply Ho. intros Hin.
    eapply Forall_forall in Hi; [|exact Hin]. by apply in_data_not_bitmap in Hi. }
  split.
  - intros b Hd. apply Hb. unfold in_data in Hd. lia.
  - apply cnt_ext. intros i Hr. by rewrite Hb by lia.
Qed.

Lemma index_need_ok s info : Meta.index_blocks s = Ok info -> index_need s = index_count info.
Proof. unfold index_need. by intros ->. Qed.

(** The growing branch. *)
Lemma extend_meta_spec v h m index data new_size info info' :
  clear_of h -> inode_ok v m index data -> owned v (index ++ data) ->
  Meta.size m < new_size <= L4_MAX -> need (Meta.size m) new_size <= free fs v ->
  Meta.index_blocks (Meta.size m) = Ok info -> Meta.index_blocks new_size = Ok info' ->
  spec n (a ← lift (Meta._data_blocks new_size);
       b ← lift (Meta.data_blocks m);
       k ← lift (sub64 a b);
       data_blocks ← CAFS.alloc_datas fs (Z.to_nat k);
       a ← lift (LevelInfo.index_block_count info');
       b ← lift (LevelInfo.index_block_count info);
       k ← lift (sub64 a b);
       index_blocks ← CAFS.alloc_datas fs (Z.to_nat k);
       Meta.extend m new_size info' data_blocks index_blocks) v h
    (fun m' v' => exists ni nd, resized v m index data new_size m' ni nd v' /\
      zlen (nd ++ ni) = need (Meta.size m) new_size).
Proof.
  intros Hh Hm Ho Hs Hf Hi Hi'. pose proof (io_size _ _ _ _ Hm) as Hs0.
  pose proof (index_shape (Meta.size m) info ltac:(lia) Hi) as Hsh.
  pose proof (index_shape new_size info' ltac:(lia) Hi') as Hsh'.
  assert (Hc : cdiv (Meta.size m) 512 <= cdiv new_size 512) by size_lia.
  pose proof (shape_mono (Meta.size m) new_size _ _ ltac:(lia) ltac:(lia) Hc Hsh Hsh') as Hmono.
  unfold need in Hf. rewrite (index_need_ok _ _ Hi), (index_need_ok _ _ Hi') in Hf.
  eapply spec_bind_lift; [apply data_blocks_ok; lia|].
  eapply spec_bind_lift; [apply data_blocks_ok; lia|].
  eapply spec_bind_lift; [apply sub64_ok; lia|].
  eapply spec_bind; [apply alloc_datas_spec; [done|lia]|]. intros nd v1 [Hnd A1].
  eapply spec_bind_lift; [apply (index_block_count_ok new_size); [lia|done]|].
  eapply spec_bind_lift; [apply (index_block_count_ok (Meta.size m)); [lia|done]|].
  eapply spec_bind_lift; [apply sub64_ok; lia|].
  eapply spec_bind; [apply alloc_datas_spec; [done|rewrite (al_free _ _ _ A1); lia]|]. intros ni v2 [Hni A2].
  pose proof (allocated_app _ _ _ _ _ A1 A2) as [An Ar Au Af Ao].
  assert (Hfresh : forall x, x ∈ nd ++ ni -> in_data fs x /\ x ∉ index ++ data).
  { intros x Hx. eapply Forall_forall in Ar as [Hd Hu]; [|exact Hx]. split; [done|]. intros Hin.
    eapply Forall_forall in Ho as [_ Hu']; [|exact Hin]. congruence. }
  assert (Hown : Forall (in_data fs) (index ++ data)) by (by eapply owned_in_data).
  assert (Hall : Forall (in_data fs) (index ++ ni)).
  { apply Forall_app in Hown as [? _]. apply Forall_app. split; [done|]. apply Forall_forall.
    intros x Hx. apply Hfresh. set_solver. }
  assert (Hm2 : inode_ok v2 m index data).
  { eapply inode_ok_frame; [|exact Hm]. intros i Hin. apply Ao, in_data_not_bitmap.
    eapply Forall_forall in Hown; [done|set_solver]. }
  eapply spec_conseq; [apply (extend_spec m index data); try done|].
  - pose proof (geometry_order _ _ geo). lia.
  - lia.
  - rewrite length_app, Nat2Z.inj_add, Hnd, (io_data _ _ _ _ Hm). lia.
  - rewrite length_app, Nat2Z.inj_add, Hni, (io_index _ _ _ _ Hm info Hi). lia.
  - pose proof (io_own _ _ _ _ Hm) as Hn. clear -An Hfresh Hn. rewrite !NoDup_app in *.
    split_and!; naive_solver set_solver.
  - eapply owned_writable; done.
  - apply Forall_forall. intros x Hx. destruct (Hfresh x) as [Hd _]; [set_solver|].
    apply in_data_bounds in Hd. pose proof (geometry_order _ _ geo). lia.
  - apply Hh.
  - intros m' v' (Hok & Es & Et & En & Hon). exists ni, nd.
    destruct (only_used v2 v' (index ++ ni) Hon Hall) as [Hu Hfr]. split.
    + split; try done.
      * intros b Hb. by rewrite Hu, Au.
      * intros b Hb Hnb. rewrite Hon by done. by apply Ao.
      * by rewrite Hfr.
    + unfold need. rewrite (index_need_ok _ _ Hi), (index_need_ok _ _ Hi'), length_app. lia.
Qed.

(** Nothing to allocate or to free. *)
Lemma resized_same v m index data new_size m' v' :
  inode_ok v' m' index data -> owned v (index ++ data) -> Meta.size m' = new_size ->
  Meta.type_ m' = Meta.type_ m -> Meta.name m' = Meta.name m -> only index v v' ->
  resized v m index data new_size m' [] [] v'.
Proof.
  intros Hok Ho Hs Ht Hn Hon. apply owned_in_data, Forall_app in Ho as [Hi _].
  destruct (only_used _ _ _ Hon Hi) as [Hu Hf].
  split; rewrite ?app_nil_r; try done; [apply NoDup_nil_2|auto|simpl; lia].
Qed.

(** The shrinking branch, when the number of blocks stays the same. *)
Lemma shrink_meta_spec v h m index data new_size :
  clear_of h -> inode_ok v m index data -> owned v (index ++ data) ->
  0 <= new_size <= Meta.size m -> cdiv new_size 512 = cdiv (Meta.size m) 512 ->
  spec n ('(ids, meta) ← Meta.shrink m new_size;
       forM (fun id => Bitmap.dealloc (CAFS.data_bitmap fs) id) ids.1 ;;
       forM (fun id => Bitmap.dealloc (CAFS.data_bitmap fs) id) ids.2 ;;
       mret meta) v h
    (fun m' v' => resized v m index data new_size m' [] [] v').
Proof.
  intros Hh Hm Ho Hs Hc. pose proof (geometry_order _ _ geo) as Hg. pose proof (io_size _ _ _ _ Hm) as Hs0.
  pose proof (owned_in_data _ _ Ho) as Hd. apply Forall_app in Hd as [Hd _].
  eapply spec_bind; [apply (shrink_spec m index data); try done; [lia|by apply owned_writable|apply Hh]|].
  intros [[ii di] m'] v' (index' & data' & Hp & Hdata & Hok & Es & Et & En & Hon).
  assert (di = []) as ->.
  { pose proof (io_data _ _ _ _ Hok) as L. rewrite Es, Hc, <- (io_data _ _ _ _ Hm), Hdata, length_app, length_reverse in L.
    apply nil_length_inv. lia. }
  assert (ii = []) as ->.
  { destruct (inode_index _ _ _ _ Hm) as (i1 & _ & S1 & L1).
    destruct (inode_index _ _ _ _ Hok) as (i2 & _ & S2 & L2). rewrite Es in S2.
    pose proof (shape_mono (Meta.size m) new_size _ _ Hs0 ltac:(lia) ltac:(lia) S1 S2).
    pose proof (shape_mono new_size (Meta.size m) _ _ ltac:(lia) Hs0 ltac:(lia) S2 S1).
    apply Permutation_length in Hp as Hl. rewrite length_app in Hl.
    apply nil_length_inv. lia. }
  rewrite ?reverse_nil, app_nil_r in Hp, Hdata. subst data'. apply spec_ret. apply resized_same; try done.
  - eapply inode_ok_perm; [symmetry; exact Hp|done].
  - eapply only_sub; [|exact Hon]. intros x. by rewrite Hp.
Qed.

(** The closure of [write]: when the file keeps its blocks, and there is room for
    the new ones. *)
Lemma resize_meta_spec v h m index data new_size :
  clear_of h -> inode_ok v m index data -> owned v (index ++ data) ->
  0 <= new_size <= L4_MAX -> cdiv (Meta.size m) 512 <= cdiv new_size 512 ->
  need (Meta.size m) new_size <= free fs v ->
  spec n (CAFS.resize_meta fs new_size m) v h (fun '(blocks, m') v' =>
    exists ni nd, blocks = data ++ nd /\ resized v m index data new_size m' ni nd v' /\
      zlen (nd ++ ni) = need (Meta.size m) new_size).
Proof.
  intros Hh Hm Ho Hs Hc Hf. pose proof (io_size _ _ _ _ Hm) as Hs0. unfold CAFS.resize_meta.
  destruct (index_blocks_shape (Meta.size m) Hs0) as (info & Hi & Hsh).
  destruct (index_blocks_shape new_size Hs) as (info' & Hi' & Hsh').
  eapply spec_bind_lift; [done|]. eapply spec_bind_lift; [done|].
  eapply (spec_bind _ _ _ _ _ (fun m' v' => exists ni nd, resized v m index data new_size m' ni nd v' /\
    zlen (nd ++ ni) = need (Meta.size m) new_size)).
  - assert (Hsame : new_size <= Meta.size m -> need (Meta.size m) new_size = 0).
    { intros Hle. assert (Hc' : cdiv new_size 512 = cdiv (Meta.size m) 512) by size_lia.
      unfold need. rewrite (index_need_ok _ _ Hi), (index_need_ok _ _ Hi').
      pose proof (shape_mono _ _ _ _ Hs0 Hs ltac:(lia) Hsh Hsh').
      pose proof (shape_mono _ _ _ _ Hs Hs0 ltac:(lia) Hsh' Hsh). lia. }
    destruct (Z.ltb_spec (Meta.size m) new_size); [apply extend_meta_spec; auto; lia|].
    destruct (Z.ltb_spec new_size (Meta.size m)).
    + eapply spec_conseq; [apply shrink_meta_spec; eauto; [lia|size_lia]|].
      intros m' v' Hr. exists [], []. split; [exact Hr|]. rewrite Hsame by lia. done.
    + apply spec_ret. exists [], []. rewrite Hsame by lia. split; [|done].
      apply resized_same; auto using only_refl. lia.
  - intros m' v' (ni & nd & Hr & Hl).
    assert (Hall : Forall (in_data fs) (index ++ ni)).
    { apply owned_in_data, Forall_app in Ho as [? _]. apply Forall_app. split; [done|].
      pose proof (rs_range _ _ _ _ _ _ _ _ _ Hr) as Hn. apply Forall_app in Hn as [_ Hn].
      eapply Forall_impl; [exact Hn|]. by intros b [? _]. }
    eapply spec_bind.
    { apply (blocks_spec m' (index ++ ni) (data ++ nd)); [apply Hr| |apply Hh].
      by apply writable_readable, owned_writable. }
    intros [i b] w [-> [= _ ->]]. apply spec_ret. eauto.
Qed.

End alloc.

Section io.
Context {C : Type} {n : Z} `{HL : BlockCacheLaws C n}.

(** ** Writing the contents *)

Lemma write_blocks_spec data : forall c v h, NoDup data -> writable (n := n) h data ->
  (length h < CACHE_SIZE)%nat -> Forall u8 c ->
  spec n (CAFS.write_blocks data c) v h (fun _ v' => holds v' data c /\ only data v v').
Proof.
  induction data as [|x data IH]; intros c v h Hnd Hw Hh Hc.
  { apply spec_ret. by split; [|apply only_refl]. }
  apply NoDup_cons in Hnd as [Hx Hnd]. apply Forall_cons in Hw as [[Hxn Hxh] Hw].
  unfold CAFS.write_blocks. cbn [foldM]. unfold Meta.next_n at 1.
  change (Z.to_nat BLOCK_SIZE) with 512%nat.
  eapply (spec_bind _ _ _ _ _ (fun r v' => r = drop 512 c /\ v' x = resize 512 0 c /\ only [x] v v')).
  - eapply (spec_bind _ _ _ _ _ (fun _ v' => v' x = resize 512 0 c /\ only [x] v v')).
    + apply spec_blocks. intros Hok. apply (spec_modify_at DataBlock); [lia|done|done|done|done|].
      apply spec_ret. cbn [wf DataBlock_laws bytes]. rewrite length_resize. split.
      { split; [done|]. apply Forall_resize; [unfold u8; lia|done]. }
      rewrite fn_lookup_insert. split.
      * destruct (Hok x ltac:(lia)) as [Hl _]. unfold poke, splice. cbn [to_bytes DataBlock_repr bytes].
        unfold BLOCK_SIZE in *. rewrite length_resize, drop_ge by lia. by rewrite app_nil_r.
      * intros i Hi. apply fn_lookup_insert_ne. set_solver.
    + intros _ v' [? ?]. by apply spec_ret.
  - intros r v1 (-> & Hv1 & Ho1). eapply spec_conseq; [apply IH; auto; by apply Forall_drop|].
    intros _ v2 [Hd Ho2]. split.
    + split; [|done]. by rewrite Ho2.
    + eapply only_sub; [|by eapply only_trans]. set_solver.
Qed.

(** ** Reading a file *)

(** All but the last block, then the rest. *)
Lemma data_fold ls x pre : forall acc v h,
  x ∉ pre -> (length h < CACHE_SIZE)%nat -> readable (n := n) h (pre ++ [x]) ->
  spec n (foldM (fun data id =>
      read_at DataBlock id 0 (fun block =>
        if id =? x then mret (data ++ take (Z.to_nat ls) (bytes block))
        else mret (data ++ bytes block))) acc (pre ++ [x])) v h
    (fun r v' => v' = v /\ r = acc ++ concat (v <$> pre) ++ take (Z.to_nat ls) (v x)).
Proof.
  assert (Hpeek : forall blk, block_ok blk -> bytes (peek DataBlock 0 blk) = blk).
  { intros blk [Hl _]. unfold peek. cbn [of_bytes DataBlock_repr size_of bytes].
    rewrite drop_0, take_ge; [done|]. unfold BLOCK_SIZE in *. lia. }
  induction pre as [|y pre IH]; intros acc v h Hx Hh Hr; cbn [foldM app];
    apply Forall_cons in Hr as [[Hn Hw] Hr]; apply spec_blocks; intros Hok.
  - eapply (spec_bind _ _ _ _ _ (fun r v' => v' = v /\ r = acc ++ take (Z.to_nat ls) (v x))).
    + apply (spec_read_at DataBlock); [lia|done|done|done|done|]. rewrite Z.eqb_refl, Hpeek by (apply Hok; lia).
      by apply spec_ret.
    + intros r v' [-> ->]. by apply spec_ret.
  - apply not_elem_of_cons in Hx as [Hxy Hx].
    eapply (spec_bind _ _ _ _ _ (fun r v' => v' = v /\ r = acc ++ v y)).
    + apply (spec_read_at DataBlock); [lia|done|done|done|done|].
      rewrite (proj2 (Z.eqb_neq _ _)), Hpeek by (done || apply Hok; lia). by apply spec_ret.
    + intros r v' [-> ->]. eapply spec_conseq; [by apply IH|]. intros r v' [-> ->]. split; [done|].
      cbn [fmap list_fmap concat]. by rewrite <- !app_assoc.
Qed.

(** [data] returns the first [size] bytes of the blocks. *)
Lemma data_spec i v h : NoDup (CaInode.blocks i) -> readable (n := n) h (CaInode.blocks i) ->
  (length h < CACHE_SIZE)%nat -> 0 <= CaInode.size i ->
  zlen (CaInode.blocks i) = cdiv (CaInode.size i) 512 ->
  spec n (CaInode.data i) v h (fun r v' => v' = v /\
    r = take (Z.to_nat (CaInode.size i)) (concat (v <$> CaInode.blocks i))).
Proof.
  intros Hnd Hr Hh Hs Hl. unfold CaInode.data.
  destruct (CaInode.blocks i) as [|b l] eqn:E using rev_ind; [|clear IHl].
  { apply spec_ret. split; [done|]. symmetry. apply take_nil. }
  rewrite last_snoc. apply spec_blocks. intros Hok. apply NoDup_app in Hnd as (_ & Hd & _).
  eapply spec_conseq; [apply data_fold; [set_solver|done|done]|].
  intros r v' [-> ->]. split; [done|]. cbn [app]. rewrite fmap_app, concat_app. cbn [fmap list_fmap concat].
  rewrite app_nil_r. rewrite length_app in Hl. cbn [length] in Hl.
  assert (Hc : length (concat (v <$> l)) = (512 * length l)%nat).
  { rewrite length_concat_blocks, length_fmap; [done|]. apply Forall_fmap, Forall_forall. intros y Hy.
    eapply Forall_forall in Hr as [Hy' _]; [|apply elem_of_app; by left].
    destruct (Hok y ltac:(lia)) as [Hb _]. unfold BLOCK_SIZE in Hb. unfold compose. lia. }
  rewrite take_app, Hc, (take_ge (concat _)) by (rewrite Hc; size_lia). do 2 f_equal.
  unfold CaInode.last_size, BLOCK_SIZE. destruct (Z.eqb_spec (CaInode.size i mod 512) 0); simpl negb; cbv iota; size_lia.
Qed.
End io.
