(* ===== verification/Files.v ===== *)
(** What the operations of [CAFS] do, on an abstract file system: a finite map
    from inode numbers to files (type, name, contents). [fs_inv] relates it to
    the disk contents and to the inode cache. *)
From S2P Require Import Prelude Device Block Manager Bitmap Layout Index Resize InodeNumber Utf8 Cafs Contents.
From Stdlib Require Import ZArith Lia.
From stdpp Require Import gmap functions sorting list_numbers list.
Local Open Scope Z_scope.

(** ** The abstract file system *)

Record file := mk_file { f_type : InodeType; f_name : list Z; f_data : list Z }.

Definition set_data (f : file) (c : list Z) : file := mk_file (f_type f) (f_name f) c.

(** The blocks of the inode [i]: index blocks and data blocks. *)
Definition blocks_of (own : Z -> list Z * list Z) (i : Z) : list Z := (own i).1 ++ (own i).2.

(** ** The disk *)

(** The inode [m] with its blocks is the file [f]. *)
Record file_ok (v : Z -> list Z) (m : Meta.t) (f : file) (index data : list Z) : Prop := {
  fo_inode : inode_ok v m index data;
  fo_type : Meta.type_ m = InodeType_u64 (f_type f);
  fo_name : Meta.name m = f_name f;
  fo_size : Meta.size m = zlen (f_data f);
  fo_data : holds v data (f_data f)
}.

Lemma file_ok_frame v v' m f index data : (forall b, b ∈ index ++ data -> v' b = v b) ->
  file_ok v m f index data -> file_ok v' m f index data.
Proof.
  intros Hv []. split; try done.
  - eapply inode_ok_frame; [|done]. set_solver.
  - eapply holds_frame; [|done]. set_solver.
Qed.

Section disk.
Variable fs : CAFS.t.

Definition inode_block (i : Z) : Z := CAFS.inode_area_start_block fs + i.
Definition meta_of (v : Z -> list Z) (i : Z) : Meta.t := peek Meta.t 0 (v (inode_block i)).

(** What the super block says of the areas. *)
Record super_ok (sb : SuperBlock.t) : Prop := {
  su_magic : SuperBlock.is_valid sb = true;
  su_ib : SuperBlock.inode_bitmap_blocks sb = Bitmap.blocks (CAFS.inode_bitmap fs);
  su_ia : SuperBlock.inode_area_blocks sb = inode_count fs;
  su_db : SuperBlock.data_bitmap_blocks sb = Bitmap.blocks (CAFS.data_bitmap fs)
}.

(** The inode bitmap marks the files, each inode describes its file, and the data
    bitmap marks exactly the blocks of the files, which do not share any. *)
Record disk_ok (v : Z -> list Z) (files : gmap Z file) (own : Z -> list Z * list Z) : Prop := {
  do_super : super_ok (peek SuperBlock.t 0 (v 0));
  do_inode i : 0 <= i < inode_count fs ->
    Bitmap.bit (CAFS.inode_bitmap fs) v i = bool_decide (is_Some (files !! i));
  do_num i f : files !! i = Some f -> 0 <= i < inode_count fs;
  do_file i f : files !! i = Some f -> file_ok v (meta_of v i) f (own i).1 (own i).2;
  do_area i f : files !! i = Some f -> Forall (in_data fs) (blocks_of own i);
  do_used b : in_data fs b ->
    used fs v b = true <-> exists i f, files !! i = Some f /\ b ∈ blocks_of own i;
  do_disj i j f g b : files !! i = Some f -> files !! j = Some g ->
    b ∈ blocks_of own i -> b ∈ blocks_of own j -> i = j
}.

(** ** The inode cache *)

(** The in-memory inode of a file. *)
Definition inode_view (i : Z) (f : file) (own : Z -> list Z * list Z) : CaInode.t :=
  CaInode.mk i (f_type f) (zlen (f_data f)) (inode_block i) 0 (f_name f) (own i).2.

(** Every cached inode agrees with the disk, no file is cached as two different
    inodes, and the inodes in use are cached. *)
Record mem_ok {C} (files : gmap Z file) (own : Z -> list Z * list Z) (st : CAFS.state C) : Prop := {
  mo_len : (length (CAFS.inode_cache st) <= INODE_CACHE_SIZE)%nat;
  mo_cached h : h ∈ CAFS.inode_cache st ->
    exists i f, files !! i = Some f /\ CAFS.heap st !! h = Some (inode_view i f own);
  mo_unique h h' c c' : h ∈ CAFS.inode_cache st -> h' ∈ CAFS.inode_cache st ->
    CAFS.heap st !! h = Some c -> CAFS.heap st !! h' = Some c' ->
    CaInode.inode_number c = CaInode.inode_number c' -> h = h';
  mo_refs h : h ∈ CAFS.refs st -> h ∈ CAFS.inode_cache st
}.

(** ** One write, seen on the disk *)

Lemma inode_wf n v m m' index data : geometry n fs -> inode_ok v m' index data ->
  Forall (in_data fs) (index ++ data) -> wf m ->
  Meta.type_ m' = Meta.type_ m -> Meta.name m' = Meta.name m -> wf m'.
Proof.
  intros geo Hok Hd (_ & _ & _ & _ & Hty & Hnl & Hnu) Et En.
  destruct (io_rep _ _ _ _ Hok) as [Hdir _ Htree]. pose proof (io_size _ _ _ _ Hok).
  pose proof (geometry_order _ _ geo). cbn [wf Meta_laws]. rewrite Et, En, Hdir.
  split_and!; try done.
  - unfold_sizes; unfold u64, U64; lia.
  - apply length_resize.
  - apply Forall_resize; [unfold u64, U64; lia|apply Hok].
  - destruct Htree as [(_ & -> & _)|(lv & i' & _ & Hp & _)]; [done|].
    eapply Forall_forall in Hd; [|apply elem_of_app; left; rewrite Hp; by left].
    unfold in_data in Hd. unfold u64. lia.
Qed.

(** The inode [i] got the size of [c] and the blocks [ni] and [nd] in addition, and
    [c] was written into its data blocks. *)
Record written (v : Z -> list Z) (m : Meta.t) (index data : list Z) (i : Z) (c : list Z)
    (ni nd : list Z) (v' : Z -> list Z) : Prop := {
  wr_meta : exists m' v1, resized fs v m index data (zlen c) m' ni nd v1 /\ wf m' /\
    only (data ++ nd) (<[inode_block i := poke 0 m' (v (inode_block i))]> v1) v';
  wr_holds : holds v' (data ++ nd) c
}.

Lemma inode_block_bounds n i : geometry n fs -> 0 <= i < inode_count fs ->
  0 < inode_block i < n /\ ~ in_data fs (inode_block i) /\ ~ in_data_bitmap fs (inode_block i) /\
  Bitmap.start_block_id (CAFS.inode_bitmap fs) + Bitmap.blocks (CAFS.inode_bitmap fs) <= inode_block i.
Proof.
  intros geo Hi. pose proof (geometry_order _ _ geo). destruct geo.
  unfold inode_block, in_data, in_data_bitmap. lia.
Qed.

Section written.
Context {n : Z} (geo : geometry n fs).
Variables (v v' : Z -> list Z) (files : gmap Z file) (own : Z -> list Z * list Z).
Variables (i : Z) (f : file) (c ni nd : list Z).
Hypothesis Hdisk : disk_ok v files own.
Hypothesis Hf : files !! i = Some f.
Hypothesis Hblk : block_ok (v (inode_block i)).
Hypothesis Hw : written v (meta_of v i) (own i).1 (own i).2 i c ni nd v'.

(** The blocks that keep their contents. *)
Lemma written_other b : (~ in_data_bitmap fs b) -> b <> inode_block i ->
  b ∉ (own i).1 ++ ni -> b ∉ (own i).2 ++ nd -> v' b = v b.
Proof.
  destruct Hw as [(m' & v1 & Hr & _ & Ho) _]. intros Hb Hi Hx Hd.
  rewrite Ho, fn_lookup_insert_ne by done. by eapply rs_only.
Qed.

(** The new blocks are data blocks no file owned. *)
Lemma written_fresh b : b ∈ ni ++ nd -> in_data fs b /\ used fs v b = false.
Proof.
  destruct Hw as [(m' & v1 & Hr & _ & _) _]. intros Hb. pose proof (rs_range _ _ _ _ _ _ _ _ _ _ Hr) as R.
  eapply Forall_forall in R; [exact R|]. set_solver.
Qed.

Lemma written_in_data b : b ∈ ((own i).1 ++ ni) ++ ((own i).2 ++ nd) -> in_data fs b.
Proof.
  intros Hb. destruct (decide (b ∈ ni ++ nd)) as [Hn|Hn]; [by apply written_fresh|].
  pose proof (do_area _ _ _ Hdisk i f Hf) as Ha. eapply Forall_forall in Ha; [done|].
  unfold blocks_of. set_solver.
Qed.

(** Blocks of other files are not touched. *)
Lemma written_disjoint j g b : files !! j = Some g -> j <> i -> b ∈ blocks_of own j ->
  b ∉ ((own i).1 ++ ni) ++ ((own i).2 ++ nd).
Proof.
  intros Hg Hj Hb Hin. pose proof (do_area _ _ _ Hdisk j g Hg) as Ha. eapply Forall_forall in Ha; [|exact Hb].
  destruct (decide (b ∈ ni ++ nd)) as [Hn|Hn].
  - apply written_fresh in Hn as [_ Hu]. pose proof (proj2 (do_used _ _ _ Hdisk b Ha)) as Hu'.
    rewrite Hu' in Hu; [done|eauto].
  - apply Hj. eapply (do_disj _ _ _ Hdisk j i g f b); auto. unfold blocks_of. set_solver.
Qed.

Lemma written_used b : in_data fs b -> used fs v' b = (bool_decide (b ∈ nd ++ ni) || used fs v b).
Proof.
  destruct Hw as [(m' & v1 & Hr & _ & Ho) _]. intros Hb.
  rewrite <- (rs_used _ _ _ _ _ _ _ _ _ _ Hr) by done. unfold used. apply bit_frame.
  { unfold in_data, data_count in Hb. lia. }
  intros b' Hb'. pose proof (do_num _ _ _ Hdisk i f Hf) as Hi.
  destruct (inode_block_bounds n i geo Hi) as (_ & _ & Hnb & _).
  rewrite Ho, fn_lookup_insert_ne; [done|by intros <-|].
  intros Hin. assert (Hd : in_data fs b') by (apply written_in_data; set_solver).
  by apply (in_data_not_bitmap _ geo) in Hd.
Qed.

Lemma written_free : free fs v' = free fs v - zlen (nd ++ ni).
Proof.
  destruct Hw as [(m' & v1 & Hr & _ & Ho) _]. rewrite <- (rs_free _ _ _ _ _ _ _ _ _ _ Hr).
  apply cnt_ext. intros k Hk. f_equal. apply bit_frame; [unfold data_count in Hk; lia|].
  intros b' Hb'. pose proof (do_num _ _ _ Hdisk i f Hf) as Hi.
  destruct (inode_block_bounds n i geo Hi) as (_ & _ & Hnb & _).
  rewrite Ho, fn_lookup_insert_ne; [done|by intros <-|].
  intros Hin. assert (Hd : in_data fs b') by (apply written_in_data; set_solver).
  by apply (in_data_not_bitmap _ geo) in Hd.
Qed.

(** The inode of the file. *)
Lemma written_file : file_ok v' (meta_of v' i) (set_data f c) ((own i).1 ++ ni) ((own i).2 ++ nd).
Proof.
  pose proof (do_file _ _ _ Hdisk i f Hf) as [Hok Hty Hnm Hsz Hho].
  pose proof (do_num _ _ _ Hdisk i f Hf) as Hi.
  destruct (inode_block_bounds n i geo Hi) as (_ & Hnd & Hnb & _).
  destruct Hw as [(m' & v1 & Hr & Hwf & Ho) Hh].
  assert (Hm : meta_of v' i = m').
  { unfold meta_of. rewrite Ho, fn_lookup_insert; [by apply peek_poke|].
    intros Hin. apply Hnd, written_in_data. set_solver. }
  rewrite Hm. destruct Hr as [R Es Et En _ _ _ _ _]. split; try done; [|by rewrite Et|by rewrite En].
  eapply inode_ok_frame; [|exact R]. intros b Hb. pose proof (io_own _ _ _ _ R) as Hown.
  apply NoDup_app in Hown as (_ & Hdis & _). rewrite Ho by (by apply Hdis).
  apply fn_lookup_insert_ne. intros <-. apply Hnd, written_in_data. set_solver.
Qed.

(** The other files. *)
Lemma written_other_file j g : files !! j = Some g -> j <> i ->
  file_ok v' (meta_of v' j) g (own j).1 (own j).2.
Proof.
  intros Hg Hj. pose proof (do_file _ _ _ Hdisk j g Hg) as Hok.
  pose proof (do_num _ _ _ Hdisk j g Hg) as Hjn.
  destruct (inode_block_bounds n j geo Hjn) as (_ & Hnd & Hnb & _).
  unfold meta_of. rewrite written_other; [|done|unfold inode_block; lia| |].
  - eapply file_ok_frame; [|exact Hok]. intros b Hb. fold (blocks_of own j) in Hb.
    pose proof (written_disjoint j g b Hg Hj Hb) as Hdis.
    pose proof (do_area _ _ _ Hdisk j g Hg) as Ha. eapply Forall_forall in Ha; [|exact Hb].
    pose proof (do_num _ _ _ Hdisk i f Hf) as Hi.
    destruct (inode_block_bounds n i geo Hi) as (_ & Hndi & _).
    apply written_other; [by apply (in_data_not_bitmap _ geo)|by intros ->|set_solver|set_solver].
  - intros Hin. apply Hnd, written_in_data. set_solver.
  - intros Hin. apply Hnd, written_in_data. set_solver.
Qed.

Definition own' : Z -> list Z * list Z := <[i := ((own i).1 ++ ni, (own i).2 ++ nd)]> own.

Lemma own'_eq : own' i = ((own i).1 ++ ni, (own i).2 ++ nd).
Proof. apply fn_lookup_insert. Qed.
Lemma own'_ne j : j <> i -> own' j = own j.
Proof. intros. by apply fn_lookup_insert_ne. Qed.

Lemma written_disk : disk_ok v' (<[i := set_data f c]> files) own'.
Proof.
  assert (Hcases : forall j g, <[i := set_data f c]> files !! j = Some g ->
    (j = i /\ g = set_data f c) \/ (j <> i /\ files !! j = Some g)).
  { intros j g. rewrite lookup_insert_Some. naive_solver. }
  pose proof (do_num _ _ _ Hdisk i f Hf) as Hi.
  split.
  - rewrite written_other; [by eapply do_super|..]; pose proof (geometry_order _ _ geo);
      [unfold in_data_bitmap; lia|unfold inode_block; lia|..];
      intros Hin; assert (Hd : in_data fs 0) by (apply written_in_data; set_solver); unfold in_data in Hd; lia.
  - intros j Hj. transitivity (Bitmap.bit (CAFS.inode_bitmap fs) v j).
    + apply bit_frame; [done|]. intros b Hb. pose proof (geometry_order _ _ geo).
      destruct (inode_block_bounds n i geo Hi) as (_ & _ & _ & ?).
      assert (~ in_data fs b /\ ~ in_data_bitmap fs b) as [Hnd Hnb].
      { unfold in_data, in_data_bitmap. destruct geo. lia. }
      apply written_other; [done|lia|..]; intros Hin; apply Hnd, written_in_data; set_solver.
    + rewrite (do_inode _ _ _ Hdisk j Hj). apply bool_decide_ext. rewrite !is_Some_alt.
      destruct (decide (j = i)) as [->|Hne]; [by rewrite lookup_insert_eq, Hf|by rewrite lookup_insert_ne].
  - intros j g [[-> _]|[_ Hg]]%Hcases; [done|]. by eapply do_num.
  - intros j g [[-> ->]|[Hne Hg]]%Hcases; [rewrite own'_eq; apply written_file|].
    rewrite own'_ne by done. by apply written_other_file.
  - intros j g [[-> ->]|[Hne Hg]]%Hcases; unfold blocks_of; [|rewrite own'_ne by done; by eapply do_area].
    rewrite own'_eq. apply Forall_forall. intros b Hb. by apply written_in_data.
  - intros b Hb. rewrite written_used, orb_true_iff, bool_decide_eq_true, (do_used _ _ _ Hdisk) by done.
    split.
    + intros [Hin|(j & g & Hg & Hin)].
      * exists i, (set_data f c). rewrite lookup_insert_eq. split; [done|]. unfold blocks_of. rewrite own'_eq. set_solver.
      * destruct (decide (j = i)) as [->|Hne].
        -- exists i, (set_data f c). rewrite lookup_insert_eq. split; [done|].
           unfold blocks_of in *. rewrite own'_eq. set_solver.
        -- exists j, g. rewrite lookup_insert_ne by done. unfold blocks_of in *. by rewrite own'_ne.
    + intros (j & g & [[-> ->]|[Hne Hg]]%Hcases & Hin); unfold blocks_of in Hin.
      * rewrite own'_eq in Hin. destruct (decide (b ∈ nd ++ ni)) as [|Hni]; [by left|]. right.
        exists i, f. split; [done|]. unfold blocks_of. set_solver.
      * rewrite own'_ne in Hin by done. right. eauto.
  - intros j k g g' b [[-> ->]|[Hj Hg]]%Hcases [[-> ->]|[Hk Hg']]%Hcases; unfold blocks_of;
      rewrite ?own'_eq, ?own'_ne by done; intros H1 H2; try done.
    + by destruct (written_disjoint k g' b Hg' Hk H2).
    + by destruct (written_disjoint j g b Hg Hj H1).
    + by eapply do_disj.
Qed.
End written.
End disk.
