(* ===== verification/Inodes.v ===== *)
(** The inode cache of [CAFS] and the operations on a file: finding an inode,
    reading and writing a file. *)
From S2P Require Import Prelude Device Block Manager Bitmap Layout Index Resize InodeNumber Utf8 Cafs Contents Files.
From Stdlib Require Import ZArith Lia.
From stdpp Require Import gmap functions sorting list_numbers list.
Local Open Scope Z_scope.

(** [m] returns from [st], with a result and a state in [P]. *)
Definition runs {S A} (m : M S A) (st : S) (P : A -> S -> Prop) : Prop :=
  exists a st', m st = Ok (a, st') /\ P a st'.

Lemma runs_ret {S A} (a : A) (st : S) (P : A -> S -> Prop) : P a st -> runs (mret a) st P.
Proof. intros HP. by exists a, st. Qed.

Lemma runs_bind {S A B} (m : M S A) (k : A -> M S B) st (Q : A -> S -> Prop) P :
  runs m st Q -> (forall a st', Q a st' -> runs (k a) st' P) -> runs (m ≫= k) st P.
Proof.
  intros (a & st1 & E1 & Q1) Hk. destruct (Hk a st1 Q1) as (b & st2 & E2 & P2).
  exists b, st2. unfold mbind, M_bind. by rewrite E1.
Qed.

Lemma runs_conseq {S A} (m : M S A) st (P Q : A -> S -> Prop) :
  runs m st Q -> (forall a st', Q a st' -> P a st') -> runs m st P.
Proof. intros (a & st1 & E & HQ) H. exists a, st1. auto. Qed.

Lemma runs_lift {S A B} (o : outcome A) a (k : A -> M S B) st P :
  o = Ok a -> runs (k a) st P -> runs (lift o ≫= k) st P.
Proof. by intros ->. Qed.

(** ** Multiplicities *)

Lemma count_cons h x l : CAFS.count h (x :: l) = ((if decide (x = h) then 1 else 0) + CAFS.count h l)%nat.
Proof. unfold CAFS.count. rewrite filter_cons. by case_decide. Qed.

Lemma count_elem h l : h ∈ l <-> (0 < CAFS.count h l)%nat.
Proof.
  induction l as [|x l IH]; [split; [by intros ?%elem_of_nil|by inversion 1]|].
  rewrite elem_of_cons, IH, count_cons. case_decide; naive_solver lia.
Qed.

Lemma count_perm h l l' : l ≡ₚ l' -> CAFS.count h l = CAFS.count h l'.
Proof. intros Hp. unfold CAFS.count. by rewrite Hp. Qed.

Lemma count_app h l l' : CAFS.count h (l ++ l') = (CAFS.count h l + CAFS.count h l')%nat.
Proof. unfold CAFS.count. by rewrite filter_app, length_app. Qed.

Section cache.
Context {C : Type}.
Implicit Types st : CAFS.state C.

(** An inode can be added: the cache is not full, or some inode in it is not in
    use. *)
Definition room st : Prop :=
  (length (CAFS.inode_cache st) < INODE_CACHE_SIZE)%nat \/
  exists h, h ∈ CAFS.inode_cache st /\ CAFS.strong_count st h = 1%nat.

(** What [substitute] leaves in the cache. *)
Record kept st (q : list nat) : Prop := {
  k_len : (length q < INODE_CACHE_SIZE)%nat;
  k_le : (length q <= length (CAFS.inode_cache st))%nat;
  k_sub h : h ∈ q -> h ∈ CAFS.inode_cache st;
  k_nodup : NoDup (CAFS.inode_cache st) -> NoDup q;
  k_refs h : h ∈ CAFS.refs st -> h ∈ CAFS.inode_cache st -> h ∈ q;
  k_same : (length (CAFS.inode_cache st) < INODE_CACHE_SIZE)%nat -> q = CAFS.inode_cache st
}.

Lemma inode_substitute_spec st : (length (CAFS.inode_cache st) <= INODE_CACHE_SIZE)%nat -> room st ->
  exists q, CAFS.substitute st = Ok (tt, CAFS.St (CAFS.cache_manager st) (CAFS.heap st) q (CAFS.refs st)) /\
    kept st q.
Proof.
  intros Hl Hr. unfold CAFS.substitute. case_decide as Hfull.
  - destruct Hr as [?|(h & Hh & Hc)]; [lia|].
    destruct (find_index _ _) as [idx|] eqn:E.
    + apply find_index_Some in E as (x & Hx & Hsc). apply bool_decide_eq_true in Hsc.
      pose proof (swap_remove_Permutation idx (CAFS.inode_cache st) x Hx) as Hp.
      pose proof (Permutation_length Hp) as Hlen. cbn [length] in Hlen.
      exists (swap_remove idx (CAFS.inode_cache st)). split; [done|]. split; try lia.
      * intros h' Hh'. rewrite Hp. by right.
      * rewrite Hp at 1. by intros [_ ?]%NoDup_cons.
      * intros h' Hh' Hc'. rewrite Hp, elem_of_cons in Hc'. destruct Hc' as [-> |?]; [|done].
        exfalso. apply count_elem in Hh'. unfold CAFS.strong_count in Hsc.
        rewrite (count_perm x _ _ Hp), count_cons, decide_True in Hsc by done. lia.
    + apply find_index_None in E. eapply Forall_forall in E; [|exact Hh].
      by rewrite bool_decide_true in E.
  - exists (CAFS.inode_cache st). split; [by destruct st|]. split; try done. lia.
Qed.

(** No room: nothing is evicted. *)
Lemma substitute_full st : length (CAFS.inode_cache st) = INODE_CACHE_SIZE ->
  (forall h, h ∈ CAFS.inode_cache st -> (1 < CAFS.strong_count st h)%nat) ->
  CAFS.substitute st = Fault (Panic PInodeCache).
Proof.
  intros Hl Hsc. unfold CAFS.substitute. rewrite decide_True by done.
  destruct (find_index _ _) as [idx|] eqn:E; [|done].
  apply find_index_Some in E as (x & Hx & Hc). apply bool_decide_eq_true in Hc.
  apply list_elem_of_lookup_2 in Hx. specialize (Hsc x Hx). lia.
Qed.
End cache.

(** ** The whole file system *)
Section ops.
Context {C : Type} {n : Z} `{HL : BlockCacheLaws C n}.
Variable fs : CAFS.t.
Hypothesis geo : geometry n fs.

(** The disk reads as [v], which holds the files, whose blocks are [own]. *)
Record fs_inv (st : CAFS.state C) (v : Z -> list Z) (files : gmap Z file)
    (own : Z -> list Z * list Z) : Prop := {
  fi_rep : rep n (CAFS.cache_manager st) v [];
  fi_disk : disk_ok fs v files own;
  fi_mem : mem_ok fs files own st
}.

(** Running a computation on the block cache. *)
Lemma runs_cached {A} (m : M C A) (st : CAFS.state C) v Q : rep n (CAFS.cache_manager st) v [] -> spec n m v [] Q ->
  runs (CAFS.cached m) st (fun a st' => exists c' v', rep n c' v' [] /\ Q a v' /\
    st' = CAFS.St c' (CAFS.heap st) (CAFS.inode_cache st) (CAFS.refs st)).
Proof.
  intros Hr Hm. destruct (Hm _ Hr) as (a & c' & v' & E & R & _ & HQ).
  exists a, (CAFS.St c' (CAFS.heap st) (CAFS.inode_cache st) (CAFS.refs st)).
  unfold CAFS.cached, zoom. rewrite E. split; [done|]. by exists c', v'.
Qed.

(** Two computations on the block cache, one after the other. *)
Lemma runs_cached_seq {A B D} (m : M C A) (k : A -> M C B) (K : A -> M (CAFS.state C) D) (st : CAFS.state C) v Q P :
  rep n (CAFS.cache_manager st) v [] -> spec n (a ← m; k a ;; mret a) v [] Q ->
  (forall a c' v', rep n c' v' [] -> Q a v' ->
    runs (K a) (CAFS.St c' (CAFS.heap st) (CAFS.inode_cache st) (CAFS.refs st)) P) ->
  runs (a ← CAFS.cached m; CAFS.cached (k a) ;; K a) st P.
Proof.
  intros Hr Hs HK. destruct (Hs _ Hr) as (a & c' & v' & E & R & _ & HQ).
  unfold mbind, M_bind in E. unfold runs, mbind, M_bind, CAFS.cached, zoom.
  destruct (m (CAFS.cache_manager st)) as [[a1 c1]|] eqn:E1; [|done].
  cbn [CAFS.cache_manager CAFS.heap CAFS.inode_cache CAFS.refs].
  destruct (k a1 c1) as [[b c2]|] eqn:E2; [|done]. injection E as <- <-. by apply (HK a1 c2 v').
Qed.

Lemma clear_nil : clear_of fs [].
Proof. split; [unfold CACHE_SIZE; simpl; lia|]. intros b _. apply not_elem_of_nil. Qed.

(** Changing the block cache only. *)
Lemma mem_ok_cache files own (st : CAFS.state C) (c : C) : mem_ok fs files own st ->
  mem_ok fs files own (CAFS.St c (CAFS.heap st) (CAFS.inode_cache st) (CAFS.refs st)).
Proof. intros []. by split. Qed.

Lemma inode_pos i : 0 <= i < inode_count fs -> CAFS.inode_pos_of fs i = Ok (inode_block fs i, 0).
Proof.
  intros Hi. unfold CAFS.inode_pos_of. destruct (inode_block_bounds fs n i geo Hi) as (Hb & _).
  unfold inode_block in *. pose proof (geometry_order _ _ geo).
  change (BLOCK_SIZE / size_of Meta.t) with 1. rewrite Z.div_1_r, Z.mod_1_r.
  rewrite add64_ok by lia. by rewrite mul64_ok.
Qed.

(** Finding the inode of a file in the cache. *)
Lemma find_cached_Some (st : CAFS.state C) files own h i : mem_ok fs files own st -> CAFS.find_cached st i = Some h ->
  h ∈ CAFS.inode_cache st /\ exists f, files !! i = Some f /\ CAFS.heap st !! h = Some (inode_view fs i f own).
Proof.
  intros Hm. unfold CAFS.find_cached. intros Hh. apply bind_Some in Hh as (k & Hk & Hh).
  apply find_index_Some in Hk as (h' & Hh' & Hnum). rewrite Hh in Hh'. injection Hh' as <-.
  apply list_elem_of_lookup_2 in Hh as Hin. split; [done|].
  destruct (mo_cached _ _ _ _ Hm h Hin) as (j & f & Hf & Hheap). rewrite Hheap in Hnum.
  apply Z.eqb_eq in Hnum. cbn in Hnum. subst j. eauto.
Qed.

Lemma find_cached_None (st : CAFS.state C) files own h i f : mem_ok fs files own st -> CAFS.find_cached st i = None ->
  h ∈ CAFS.inode_cache st -> CAFS.heap st !! h <> Some (inode_view fs i f own).
Proof.
  intros Hm Hh Hin Hheap. unfold CAFS.find_cached in Hh. apply bind_None in Hh as [Hh|(k & Hk & Hh)].
  - apply find_index_None in Hh. eapply Forall_forall in Hh; [|exact Hin].
    rewrite Hheap in Hh. cbn in Hh. by rewrite Z.eqb_refl in Hh.
  - apply find_index_Some in Hk as (x & Hx & _). congruence.
Qed.

(** The inode is cached, or there is room for it. *)
Definition available (st : CAFS.state C) (i : Z) : Prop := CAFS.find_cached st i <> None \/ room st.

(** Adding the inode of a file that is not cached, in use by a variable. *)
Lemma mem_ok_push files own (st : CAFS.state C) q i f : mem_ok fs files own st -> kept st q ->
  files !! i = Some f -> (forall h g, h ∈ CAFS.inode_cache st -> CAFS.heap st !! h <> Some (inode_view fs i g own)) ->
  forall c : C, mem_ok fs files own (CAFS.St c (CAFS.heap st ++ [inode_view fs i f own])
    (q ++ [length (CAFS.heap st)]) (length (CAFS.heap st) :: CAFS.refs st)).
Proof.
  intros Hm [Hl _ Hs _ Hr _] Hf Hnew c. destruct Hm as [_ Hc Hu Hrf].
  assert (Hheap : forall h, h ∈ q -> (h < length (CAFS.heap st))%nat /\
    (CAFS.heap st ++ [inode_view fs i f own]) !! h = CAFS.heap st !! h).
  { intros h Hh. destruct (Hc h (Hs h Hh)) as (j & g & _ & Hg). apply lookup_lt_Some in Hg as Hlt.
    split; [done|]. by rewrite lookup_app_l. }
  assert (Hlast : (CAFS.heap st ++ [inode_view fs i f own]) !! length (CAFS.heap st) = Some (inode_view fs i f own)).
  { by rewrite lookup_app_r, Nat.sub_diag by lia. }
  split; cbn [CAFS.inode_cache CAFS.heap CAFS.refs].
  - rewrite length_app. simpl. lia.
  - intros h. rewrite elem_of_app, list_elem_of_singleton. intros [Hh| ->]; [|eauto].
    destruct (Hheap h Hh) as [_ ->]. by apply Hc, Hs.
  - assert (Hnum : forall h c0, h ∈ q -> CAFS.heap st !! h = Some c0 -> CaInode.inode_number c0 <> i).
    { intros h c0 Hh Hg. destruct (Hc h (Hs h Hh)) as (j & g & _ & Hg'). rewrite Hg' in Hg. simplify_eq.
      cbn. intros ->. by apply (Hnew h g (Hs h Hh)). }
    intros h h' c1 c2. rewrite !elem_of_app, !list_elem_of_singleton. intros [Hh| ->] [Hh'| ->].
    + destruct (Hheap h Hh) as [_ ->], (Hheap h' Hh') as [_ ->]. apply Hu; auto.
    + destruct (Hheap h Hh) as [_ ->]. rewrite Hlast. intros Hg [= <-] E. by destruct (Hnum h c1 Hh Hg).
    + destruct (Hheap h' Hh') as [_ ->]. rewrite Hlast. intros [= <-] Hg E. by destruct (Hnum h' c2 Hh' Hg).
    + done.
  - intros h. rewrite elem_of_cons, elem_of_app, list_elem_of_singleton. intros [-> |Hh]; [by right|].
    left. apply Hr; auto.
Qed.

Lemma InodeType_of_u64 t : InodeType_of (InodeType_u64 t) = Ok t.
Proof. by destruct t. Qed.

(** The blocks of a file may be read and written by anyone who holds no block of
    the data area. *)
Lemma file_readable v files own h i f : disk_ok fs v files own -> files !! i = Some f ->
  (forall b, in_data fs b -> b ∉ h.*1) -> readable (n := n) h (own i).1 /\ readable (n := n) h (own i).2.
Proof.
  intros Hd Hf Hh. pose proof (do_area _ _ _ _ Hd i f Hf) as Ha. apply Forall_app in Ha as [H1 H2].
  split; (eapply Forall_impl; [eassumption|]); intros b Hb; (split; [by apply (in_data_bounds fs geo)|]);
    intros Hin; apply (Hh b Hb); apply list_elem_of_fmap; by exists (b, Wr).
Qed.

(** [CaInode::from] reads the inode of a file. *)
Lemma from_spec v files own i f : disk_ok fs v files own -> files !! i = Some f ->
  spec n (CaInode.from i (inode_block fs i) 0) v [] (fun r v' => v' = v /\ r = inode_view fs i f own).
Proof.
  intros Hd Hf. pose proof (do_num _ _ _ _ Hd i f Hf) as Hi.
  destruct (inode_block_bounds fs n i geo Hi) as (Hb & Hnd & _).
  apply (spec_read_at Meta.t); [lia|apply not_elem_of_nil|unfold CACHE_SIZE; simpl; lia|done|done|].
  fold (meta_of fs v i). destruct (do_file _ _ _ _ Hd i f Hf) as [Hok Hty Hnm Hsz _]. rewrite Hty.
  eapply spec_bind_lift; [apply InodeType_of_u64|].
  eapply spec_bind.
  { apply (blocks_spec _ (own i).1 (own i).2); [apply Hok| |unfold CACHE_SIZE; simpl; lia].
    eapply (file_readable v files own _ i f Hd Hf). intros b Hb'. simpl. set_solver. }
  intros [ix bl] v' [-> [= _ ->]]. apply spec_ret. split; [done|]. unfold inode_view. by rewrite Hsz, Hnm.
Qed.

(** Looking up the inode of a file. *)
Record looked_up (st : CAFS.state C) (v : Z -> list Z) (files : gmap Z file)
    (own : Z -> list Z * list Z) (i : Z) (f : file) (h : nat) (st' : CAFS.state C) : Prop := {
  lu_inv : fs_inv st' v files own;
  lu_heap : CAFS.heap st' !! h = Some (inode_view fs i f own);
  lu_in : h ∈ CAFS.inode_cache st';
  lu_refs : CAFS.refs st' = h :: CAFS.refs st;
  lu_len : (length (CAFS.inode_cache st') <= S (length (CAFS.inode_cache st)))%nat;
  lu_nodup : NoDup (CAFS.inode_cache st) -> NoDup (CAFS.inode_cache st');
  lu_prefix h0 c0 : CAFS.heap st !! h0 = Some c0 -> CAFS.heap st' !! h0 = Some c0;
  lu_found h0 : CAFS.find_cached st i = Some h0 -> h = h0 /\ CAFS.inode_cache st' = CAFS.inode_cache st /\
    CAFS.heap st' = CAFS.heap st
}.

Lemma cainode_spec st v files own i f : fs_inv st v files own -> files !! i = Some f -> available st i ->
  runs (CAFS.cainode fs i) st (looked_up st v files own i f).
Proof.
  intros [Hr Hd Hm] Hf Hav. unfold CAFS.cainode, runs. destruct (CAFS.find_cached st i) as [h|] eqn:Efc.
  - destruct (find_cached_Some _ _ _ _ _ Hm Efc) as (Hin & g & Hg & Hheap). simplify_eq.
    eexists h, _. split; [done|]. split; try done; [|simpl; lia|naive_solver].
    split; [done|done|]. destruct Hm as [? ? ? Hrf]. split; try done. simpl. intros h'.
    rewrite elem_of_cons. intros [-> |?]; auto.
  - destruct Hav as [?|Hroom]; [done|]. pose proof (do_num _ _ _ _ Hd i f Hf) as Hi.
    destruct (inode_substitute_spec st (mo_len _ _ _ _ Hm) Hroom) as (q & Eq & Hq).
    destruct (from_spec v files own i f Hd Hf _ Hr) as (a & c' & v' & Efr & R' & _ & -> & ->).
    exists (length (CAFS.heap st)). eexists. split.
    { unfold mbind, M_bind. rewrite Eq. rewrite inode_pos by done. unfold lift, CAFS.cached, zoom.
      cbn [CAFS.cache_manager CAFS.heap CAFS.inode_cache CAFS.refs]. rewrite Efr.
      unfold CAFS.arc_new, CAFS.arc_clone, CAFS.push.
      cbn [CAFS.cache_manager CAFS.heap CAFS.inode_cache CAFS.refs CAFS.remove_one].
      rewrite decide_True by done. reflexivity. }
    pose proof (mem_ok_push files own st q i f Hm Hq Hf
      (fun h g Hh => find_cached_None st files own h i g Hm Efc Hh) c') as Hm'.
    split; cbn [CAFS.cache_manager CAFS.heap CAFS.inode_cache CAFS.refs].
    + by split.
    + by rewrite lookup_app_r, Nat.sub_diag by lia.
    + apply elem_of_app. right. by left.
    + done.
    + rewrite length_app. simpl. destruct Hq. lia.
    + intros Hnd. apply NoDup_app. split_and!; [by eapply k_nodup| |apply NoDup_singleton].
      intros x Hx ->%list_elem_of_singleton. apply (k_sub _ _ Hq) in Hx.
      destruct (mo_cached _ _ _ _ Hm _ Hx) as (? & ? & _ & Hlt%lookup_lt_Some). lia.
    + intros h0 c0 Hh0. by apply lookup_app_l_Some.
    + intros h0 E. by rewrite Efc in E.
Qed.

(** Dropping what a variable held. *)
Lemma remove_one_sub h l x : x ∈ CAFS.remove_one h l -> x ∈ l.
Proof.
  induction l as [|y l IH]; simpl; [done|]. case_decide; [set_solver|]. rewrite !elem_of_cons. naive_solver.
Qed.

Lemma drop_inv st v files own h : fs_inv st v files own ->
  runs (CAFS.arc_drop h) st (fun _ st' => fs_inv st' v files own /\
    st' = CAFS.St (CAFS.cache_manager st) (CAFS.heap st) (CAFS.inode_cache st) (CAFS.remove_one h (CAFS.refs st))).
Proof.
  intros [Hr Hd Hm]. eexists tt, _. split; [done|]. split; [|done]. split; [done|done|].
  destruct Hm as [? ? ? Hrf]. split; try done. simpl. intros x Hx. by apply Hrf, (remove_one_sub h).
Qed.

(** The contents of the file an inode in memory stands for. *)
Lemma read_spec v files own i f : disk_ok fs v files own -> files !! i = Some f ->
  spec n (CaInode.data (inode_view fs i f own)) v [] (fun r v' => v' = v /\ r = f_data f).
Proof.
  intros Hd Hf. destruct (do_file _ _ _ _ Hd i f Hf) as [Hok _ _ Hsz Hho].
  pose proof (io_data _ _ _ _ Hok) as Hl. rewrite Hsz in Hl.
  eapply spec_conseq; [apply data_spec; cbn [inode_view CaInode.blocks CaInode.size]|].
  - pose proof (io_own _ _ _ _ Hok) as Hn. by apply NoDup_app in Hn as (_ & _ & ?).
  - eapply (file_readable v files own _ i f Hd Hf). intros b _. apply not_elem_of_nil.
  - unfold CACHE_SIZE. simpl. lia.
  - lia.
  - done.
  - intros r v' [-> ->]. split; [done|]. cbn [inode_view CaInode.blocks CaInode.size].
    rewrite Nat2Z.id. by apply holds_contents.
Qed.

(** ** [write] *)

(** The changes to the disk. *)
Lemma write_disk v files own i f c : disk_ok fs v files own -> files !! i = Some f ->
  Forall u8 c -> zlen c <= L4_MAX -> cdiv (zlen (f_data f)) 512 <= cdiv (zlen c) 512 ->
  need (zlen (f_data f)) (zlen c) <= free fs v ->
  spec n (blocks ← modify_at Meta.t (inode_block fs i) 0 (CAFS.resize_meta fs (zlen c));
          CAFS.write_blocks blocks c ;; mret blocks) v [] (fun blocks v' =>
    exists ni nd, blocks = (own i).2 ++ nd /\ zlen (nd ++ ni) = need (zlen (f_data f)) (zlen c) /\
      block_ok (v (inode_block fs i)) /\ written fs v (meta_of fs v i) (own i).1 (own i).2 i c ni nd v').
Proof.
  intros Hd Hf Hc Hmax Hcd Hfree. apply spec_blocks. intros Hok.
  pose proof (do_num _ _ _ _ Hd i f Hf) as Hi. destruct (inode_block_bounds fs n i geo Hi) as (Hb & Hnd & Hnb & _).
  pose proof (Hok _ (conj (Z.lt_le_incl _ _ (proj1 Hb)) (proj2 Hb))) as Hblk.
  destruct (do_file _ _ _ _ Hd i f Hf) as [Hino _ _ Hsz _].
  pose proof (do_area _ _ _ _ Hd i f Hf) as Harea.
  assert (Hown : owned fs v ((own i).1 ++ (own i).2)).
  { apply Forall_forall. intros b Hin. eapply Forall_forall in Harea; [|exact Hin]. split; [done|].
    apply (do_used _ _ _ _ Hd b Harea). eauto. }
  eapply (spec_bind _ _ _ _ _ (fun blocks v' => exists ni nd m' v1, blocks = (own i).2 ++ nd /\
    zlen (nd ++ ni) = need (zlen (f_data f)) (zlen c) /\
    resized fs v (meta_of fs v i) (own i).1 (own i).2 (zlen c) m' ni nd v1 /\ wf m' /\
    v' = <[inode_block fs i := poke 0 m' (v (inode_block fs i))]> v1)).
  - apply (spec_modify_at Meta.t); [lia|apply not_elem_of_nil|unfold CACHE_SIZE; simpl; lia|done|done|].
    fold (meta_of fs v i). eapply spec_conseq.
    + apply (resize_meta_spec fs geo v _ _ (own i).1 (own i).2); try done; try (rewrite Hsz; done).
      * split; [unfold CACHE_SIZE; simpl; lia|]. intros b Hb'. simpl. rewrite list_elem_of_singleton.
        intros ->. tauto.
      * lia.
    + intros [blocks m'] v1 (ni & nd & -> & Hrs & Hl). rewrite Hsz in Hl. assert (Hwf : wf m').
      { eapply (inode_wf fs n v1 (meta_of fs v i)); [done|apply Hrs| |by apply peek_wf|apply Hrs|apply Hrs].
        pose proof (rs_range _ _ _ _ _ _ _ _ _ _ Hrs) as Hnew. unfold blocks_of in Harea.
        rewrite !Forall_app in *. destruct Hnew as [N1 N2]. destruct Harea as [A1 A2].
        split_and!; auto; (eapply Forall_impl; [eassumption|]); by intros b [? _]. }
      split; [done|]. exists ni, nd, m', v1. split_and!; done.
  - intros blocks v2 (ni & nd & m' & v1 & -> & Hl & Hrs & Hwf & ->).
    pose proof (rs_ok _ _ _ _ _ _ _ _ _ _ Hrs) as Hok1. pose proof (io_own _ _ _ _ Hok1) as Hn.
    assert (Hdat : Forall (in_data fs) ((own i).2 ++ nd)).
    { pose proof (rs_range _ _ _ _ _ _ _ _ _ _ Hrs) as Hnew. unfold blocks_of in Harea.
      rewrite !Forall_app in *. destruct Hnew as [N1 _]. destruct Harea as [_ A2]. split; [done|].
      eapply Forall_impl; [exact N1|]. by intros b [? _]. }
    eapply spec_bind.
    { apply write_blocks_spec; [by apply NoDup_app in Hn as (_ & _ & ?)| |unfold CACHE_SIZE; simpl; lia|done].
      apply (owned_writable fs geo); [apply clear_nil|done]. }
    intros _ v3 [Hho Hon]. apply spec_ret. exists ni, nd. split_and!; auto. split; [|done]. by exists m', v1.
Qed.

(** The inode in memory after the write. *)
Lemma mem_ok_write files own (st : CAFS.state C) h i f c ni nd (cm : C) : mem_ok fs files own st ->
  files !! i = Some f -> h ∈ CAFS.inode_cache st -> CAFS.heap st !! h = Some (inode_view fs i f own) ->
  mem_ok fs (<[i := set_data f c]> files) (own' own i ni nd)
    (CAFS.St cm (<[h := inode_view fs i (set_data f c) (own' own i ni nd)]> (CAFS.heap st))
      (CAFS.inode_cache st) (CAFS.refs st)).
Proof.
  intros [Hl Hc Hu Hrf] Hf Hin Hh. apply lookup_lt_Some in Hh as Hlt.
  split; cbn [CAFS.inode_cache CAFS.heap CAFS.refs]; auto.
  - intros h' Hh'. destruct (decide (h' = h)) as [->|Hne].
    + exists i, (set_data f c). by rewrite lookup_insert_eq, list_lookup_insert_eq.
    + destruct (Hc h' Hh') as (j & g & Hg & Hheap). exists j, g.
      assert (j <> i). { intros ->. simplify_eq. apply Hne. by eapply (Hu h' h). }
      rewrite lookup_insert_ne, list_lookup_insert_ne by done. split; [done|]. rewrite Hheap.
      unfold inode_view. by rewrite own'_ne.
  - assert (Hnum : forall h1 c1, <[h := inode_view fs i (set_data f c) (own' own i ni nd)]> (CAFS.heap st) !! h1 = Some c1 ->
      exists c0, CAFS.heap st !! h1 = Some c0 /\ CaInode.inode_number c0 = CaInode.inode_number c1).
    { intros h1 c1. rewrite list_lookup_insert_Some. intros [(-> & <- & _)|[_ ?]]; eauto. }
    intros h1 h2 c1 c2 H1 H2 (d1 & E1 & N1)%Hnum (d2 & E2 & N2)%Hnum E. apply (Hu h1 h2 d1 d2); auto. congruence.
Qed.

(** The handles still stand for the same inodes. *)
Definition numbers_kept (st st' : CAFS.state C) : Prop := forall h c, CAFS.heap st !! h = Some c ->
  exists c', CAFS.heap st' !! h = Some c' /\ CaInode.inode_number c' = CaInode.inode_number c.

(** Writing a file: its contents are replaced, the other files are as before, and
    the blocks it needs in addition are no longer free. *)
Lemma write_spec st v files own i f c : fs_inv st v files own -> files !! i = Some f ->
  available st i -> Forall u8 c -> zlen c <= L4_MAX ->
  cdiv (zlen (f_data f)) 512 <= cdiv (zlen c) 512 -> need (zlen (f_data f)) (zlen c) <= free fs v ->
  runs (CAFS.write fs i c) st (fun _ st' => exists v' own',
    fs_inv st' v' (<[i := set_data f c]> files) own' /\
    free fs v' = free fs v - need (zlen (f_data f)) (zlen c) /\
    CAFS.refs st' = CAFS.refs st /\ numbers_kept st st' /\
    (length (CAFS.inode_cache st') <= S (length (CAFS.inode_cache st)))%nat /\
    (CAFS.find_cached st i <> None -> CAFS.inode_cache st' = CAFS.inode_cache st)).
Proof.
  intros Hinv Hf Hav Hc Hmax Hcd Hfree. unfold CAFS.write.
  eapply runs_bind; [by apply (cainode_spec st v files own i f)|]. intros h st1 [[Hr Hd Hm] Hh Hin Hrefs Hlen _ Hpre Hfound].
  pose proof (do_num _ _ _ _ Hd i f Hf) as Hi. eapply runs_lift; [by apply inode_pos|]. cbv iota beta.
  eapply runs_cached_seq; [done|by eapply write_disk|].
  intros blocks c' v' Hr' (ni & nd & -> & Hl & Hblk & Hw).
  exists tt. eexists. split.
  { unfold mbind, M_bind, CAFS.deref. cbn [CAFS.heap]. rewrite Hh. reflexivity. }
  cbn [CAFS.cache_manager CAFS.heap CAFS.inode_cache CAFS.refs]. rewrite Hrefs. cbn [CAFS.remove_one].
  rewrite decide_True by done.
  exists v', (own' own i ni nd). split_and!; try done.
  - split; cbn [CAFS.cache_manager]; [done|by eapply written_disk|].
    pose proof (mem_ok_write files own st1 h i f c ni nd c' Hm Hf Hin Hh) as [? ? ? Hrf].
    cbn [CAFS.cache_manager CAFS.heap CAFS.inode_cache CAFS.refs] in *.
    unfold inode_view in *. rewrite own'_eq in *. split; try done.
    cbn [CAFS.cache_manager CAFS.heap CAFS.inode_cache CAFS.refs]. intros x Hx. apply Hrf. rewrite Hrefs. by right.
  - erewrite written_free by done. by rewrite Hl.
  - intros h0 c0 Hh0%Hpre. cbn [CAFS.heap]. destruct (decide (h0 = h)) as [->|Hne].
    + rewrite list_lookup_insert_eq by (by eapply lookup_lt_Some). simplify_eq. eauto.
    + rewrite list_lookup_insert_ne by done. eauto.
  - intros Hn. destruct (CAFS.find_cached st i) as [h0|]; [|done]. by destruct (Hfound h0) as (_ & ? & _).
Qed.

(** Steps of the operations. *)
Lemma runs_deref {A} h c (k : CaInode.t -> M (CAFS.state C) A) st P : CAFS.heap st !! h = Some c ->
  runs (k c) st P -> runs (CAFS.deref h ≫= k) st P.
Proof. intros Hh (a & st' & E & HP). exists a, st'. unfold mbind, M_bind, CAFS.deref. by rewrite Hh. Qed.

Lemma file_data_spec st v files own i f : fs_inv st v files own -> files !! i = Some f ->
  runs (CAFS.cached (CaInode.data (inode_view fs i f own))) st (fun d st' => d = f_data f /\
    fs_inv st' v files own /\ CAFS.heap st' = CAFS.heap st /\
    CAFS.inode_cache st' = CAFS.inode_cache st /\ CAFS.refs st' = CAFS.refs st).
Proof.
  intros [Hr Hd Hm] Hf. eapply runs_conseq; [by eapply runs_cached; [exact Hr|eapply read_spec]|].
  intros d st' (c' & v' & R & [-> ->] & ->). split_and!; try done. split; [done|done|by apply mem_ok_cache].
Qed.

Lemma runs_data {A} st v files own i f (k : list Z -> M (CAFS.state C) A) P :
  fs_inv st v files own -> files !! i = Some f ->
  (forall st', fs_inv st' v files own -> CAFS.heap st' = CAFS.heap st ->
    CAFS.inode_cache st' = CAFS.inode_cache st -> CAFS.refs st' = CAFS.refs st -> runs (k (f_data f)) st' P) ->
  runs (CAFS.cached (CaInode.data (inode_view fs i f own)) ≫= k) st P.
Proof.
  intros Hinv Hf Hk. eapply runs_bind; [by apply file_data_spec|].
  intros d st' (-> & Hinv' & Eh & Ec & Er). by apply Hk.
Qed.
End ops.
