(* ===== verification/Directory.v ===== *)
(** Creating files and listing directories: [alloc_inode_meta], [create],
    [sub_inodes] and [df] of fs/src/cafs/mod.rs on the abstract file system. *)
From S2P Require Import Prelude Device Block Manager Bitmap Layout Index Resize InodeNumber Utf8 Cafs Contents Files Inodes.
From Stdlib Require Import ZArith Lia.
From stdpp Require Import gmap functions sorting list_numbers list.
Local Open Scope Z_scope.

(** ** The contents of a directory *)

(** The entries, separated by a zero byte. *)
Definition dir_data (nums : list Z) : list Z := join_on 0 (encode_number <$> nums).

(** What [create] does to the contents of the parent directory. *)
Definition append_entry (d : list Z) (i : Z) : list Z :=
  (match d with [] => [] | _ => d ++ [0] end) ++ encode_number i.

Lemma encode_number_no_zero i : 0 ∉ encode_number i.
Proof.
  intros Hin. pose proof (encode_number_nonzero i) as Hf. eapply Forall_forall in Hf; [|exact Hin]. lia.
Qed.

Lemma dir_data_nil nums : dir_data nums = [] <-> nums = [].
Proof.
  split; [|by intros ->]. destruct nums as [|i nums]; [done|]. unfold dir_data. rewrite ?fmap_cons; cbn [join_on].
  pose proof (length_encode_number i) as Hl. intros E.
  assert (E' : encode_number i = []).
  { destruct (encode_number <$> nums); [done|]. by apply app_eq_nil in E as [? _]. }
  by rewrite E' in Hl.
Qed.

Lemma append_entry_dir nums i : append_entry (dir_data nums) i = dir_data (nums ++ [i]).
Proof.
  unfold append_entry. destruct (decide (nums = [])) as [->|Hne]; [done|].
  assert (Hd : dir_data nums <> []) by (by rewrite dir_data_nil).
  transitivity ((dir_data nums ++ [0]) ++ encode_number i); [by destruct (dir_data nums)|].
  unfold dir_data. rewrite fmap_app, fmap_cons, fmap_nil, join_on_app by (by destruct nums). by rewrite <- app_assoc.
Qed.

Lemma parse_entries_encode nums : Forall u64 nums -> CAFS.parse_entries (encode_number <$> nums) = Ok nums.
Proof.
  induction 1 as [|i nums Hi Hn IH]; [done|]. cbn [fmap list_fmap CAFS.parse_entries].
  rewrite assert_ok by (rewrite length_encode_number; done). omon.
  rewrite take_ge by (rewrite length_encode_number; lia). rewrite number_roundtrip by done.
  fold (encode_number <$> nums). by rewrite IH.
Qed.

(** Splitting the contents gives the numbers back. *)
Lemma parse_dir nums : nums <> [] -> Forall u64 nums ->
  CAFS.parse_entries (Utf8.split 0 (dir_data nums)) = Ok nums.
Proof.
  intros Hne Hu. unfold dir_data. rewrite split_join.
  - by apply parse_entries_encode.
  - by destruct nums.
  - apply Forall_fmap, Forall_true. intros i. apply encode_number_no_zero.
Qed.

Lemma dir_data_u8 nums : Forall u8 (dir_data nums).
Proof.
  unfold dir_data. induction nums as [|i nums IH]; [constructor|].
  assert (Hi : Forall u8 (encode_number i)).
  { eapply Forall_impl; [apply encode_number_nonzero|]. unfold u8. simpl. lia. }
  rewrite fmap_cons; cbn [join_on]. destruct (encode_number <$> nums) eqn:E; [done|].
  apply Forall_app. split; [done|]. constructor; [unfold u8; lia|done].
Qed.

(** ** Creating an inode on the disk *)
Section disk.
Context {n : Z} (fs : CAFS.t) (geo : geometry n fs).

Definition new_file (ty : InodeType) (name : list Z) : file := mk_file ty (CaInode.name_bytes name) [].

Lemma name_bytes_ok name : zlen name <= NAME_LENGTH_LIMIT -> Forall u8 name ->
  length (CaInode.name_bytes name) = 200%nat /\ Forall u8 (CaInode.name_bytes name).
Proof.
  intros Hl Hu. unfold CaInode.name_bytes, NAME_LENGTH_LIMIT in *. split.
  - rewrite length_splice; rewrite length_replicate; lia.
  - apply Forall_splice; [done|]. apply Forall_replicate. unfold u8. lia.
Qed.

(** An inode without blocks. *)
Lemma init_file_ok v ty nm m : length (Meta.direct m) = 36%nat ->
  file_ok v (Meta.init ty nm m) (mk_file ty nm []) [] [].
Proof.
  intros Hd. unfold Meta.init. rewrite Hd. split; try done.
  split; cbn [Meta.size]; [|unfold_sizes; lia|done| |apply NoDup_nil_2|done].
  - split; [done|done|by left].
  - intros info E. vm_compute in E. by simplify_eq.
Qed.

(** What a new inode record leaves alone: the data area with its bitmap, and the
    records of other inodes. *)
Lemma created_same v v1 i blk b : Bitmap.alloc_post (CAFS.inode_bitmap fs) v (Some i) v1 ->
  in_data fs b \/ in_data_bitmap fs b \/ (exists j, j <> i /\ 0 <= j < inode_count fs /\ b = inode_block fs j) ->
  (<[inode_block fs i := blk]> v1) b = v b.
Proof.
  intros (Hi & _ & _ & _ & Hv1) Hb'. fold (inode_count fs) in *.
  destruct (inode_block_bounds fs n i geo Hi) as (HB & HBd & HBb & HBi).
  destruct (Bitmap.decompose_bounds _ i Hi) as (Hk & _).
  pose proof (geometry_order _ _ geo) as Hg. pose proof geo as [? ? ? ? ? ? ? ?].
  assert (b <> inode_block fs i).
  { intros ->. destruct Hb' as [?|[?|(j & Hj & _ & E)]]; [done|done|unfold inode_block in E; lia]. }
  rewrite fn_lookup_insert_ne by done. apply Hv1.
  unfold in_data, in_data_bitmap, inode_block in *. destruct Hb' as [?|[?|(j & _ & ? & ->)]]; lia.
Qed.

Lemma init_wf ty nm blk : block_ok blk -> length nm = 200%nat -> Forall u8 nm ->
  let old := peek Meta.t 0 blk in wf (Meta.init ty nm old) /\ length (Meta.direct old) = 36%nat.
Proof.
  intros Hblk Hnl Hnu old. assert (Hm36 : length (Meta.direct old) = 36%nat).
  { destruct (peek_wf (T := Meta.t) 0 _ Hblk) as (_ & ? & _); [done|done|]. done. }
  split; [|done]. unfold Meta.init. rewrite Hm36. cbn [wf Meta_laws Meta.size Meta.direct Meta.indirect Meta.type_ Meta.name].
  split_and!; try done; [apply Forall_replicate; done|by destruct ty..].
Qed.

Lemma disk_create v v1 files own i ty nm : disk_ok fs v files own ->
  Bitmap.alloc_post (CAFS.inode_bitmap fs) v (Some i) v1 ->
  (forall b, 0 <= b < n -> block_ok (v1 b)) -> length nm = 200%nat -> Forall u8 nm ->
  let m := Meta.init ty nm (meta_of fs v1 i) in
  let v2 := <[inode_block fs i := poke 0 m (v1 (inode_block fs i))]> v1 in
  wf m /\ files !! i = None /\ disk_ok fs v2 (<[i := mk_file ty nm []]> files) (<[i := ([], [])]> own) /\
  free fs v2 = free fs v.
Proof.
  intros [Hsup Hino Hnum Hfile Harea Hused Hdisj] Hpost Hok Hnl Hnu m v2.
  assert (Hsame := fun b => created_same v v1 i (poke 0 m (v1 (inode_block fs i))) b Hpost). fold v2 in Hsame.
  destruct Hpost as (Hi & Hb & _ & Hbits & Hv1). fold (inode_count fs) in *.
  destruct (inode_block_bounds fs n i geo Hi) as (HB & HBd & HBb & HBi).
  destruct (Bitmap.decompose_bounds _ i Hi) as (Hk & _).
  assert (Hblk : block_ok (v1 (inode_block fs i))) by (apply Hok; lia).
  destruct (init_wf ty nm _ Hblk Hnl Hnu) as [Hwf Hm36].
  assert (Hnone : files !! i = None).
  { rewrite (Hino i Hi) in Hb. apply bool_decide_eq_false in Hb. by apply eq_None_not_Some. }
  pose proof (geometry_order _ _ geo) as Hg. pose proof geo as [? ? ? ? ? ? ? ?].
  split_and!; [done|done| |].
  2:{ apply cnt_ext. intros k Hk'. f_equal. apply bit_frame; [unfold data_count in Hk'; lia|].
      intros b Hb'. apply Hsame. right. by left. }
  assert (Hcases : forall j g, <[i := mk_file ty nm []]> files !! j = Some g ->
    (j = i /\ g = mk_file ty nm []) \/ (j <> i /\ files !! j = Some g)).
  { intros j g. rewrite lookup_insert_Some. naive_solver. }
  assert (Hown : forall j, j <> i -> blocks_of (<[i := ([], [])]> own) j = blocks_of own j).
  { intros j Hj. unfold blocks_of. by rewrite fn_lookup_insert_ne. }
  assert (Howni : blocks_of (<[i := ([], [])]> own) i = []) by (unfold blocks_of; by rewrite fn_lookup_insert).
  split.
  - unfold v2. rewrite fn_lookup_insert_ne by (unfold inode_block; lia). by rewrite Hv1 by lia.
  - intros j Hj. transitivity (Bitmap.bit (CAFS.inode_bitmap fs) v1 j).
    + apply bit_frame; [done|]. intros b Hb'. unfold v2. apply fn_lookup_insert_ne. lia.
    + rewrite Hbits, Hino by done. destruct (Z.eqb_spec j i) as [->|Hne].
      * by rewrite lookup_insert_eq.
      * by rewrite lookup_insert_ne.
  - intros j g [[-> _]|[_ Hgj]]%Hcases; [done|eauto].
  - intros j g [[-> ->]|[Hne Hgj]]%Hcases.
    + rewrite fn_lookup_insert. unfold meta_of, v2. rewrite fn_lookup_insert.
      rewrite peek_poke by done. by apply init_file_ok.
    + rewrite fn_lookup_insert_ne by done. unfold meta_of. rewrite (Hsame (inode_block fs j)) by eauto 10.
      eapply file_ok_frame; [|by apply Hfile]. intros b Hb'. apply Hsame. left.
      specialize (Harea j g Hgj). eapply Forall_forall in Harea; eauto.
  - intros j g [[-> ->]|[Hne Hgj]]%Hcases; [by rewrite Howni|]. rewrite Hown by done. eauto.
  - intros b Hb'. assert (used fs v2 b = used fs v b) as ->.
    { apply bit_frame; [unfold in_data, data_count in Hb'; lia|]. intros b' Hb''. apply Hsame. right. by left. }
    rewrite (Hused b Hb'). split.
    + intros (j & g & Hgj & Hin). assert (j <> i) by congruence. exists j, g.
      rewrite lookup_insert_ne by done. by rewrite Hown.
    + intros (j & g & [[-> ->]|[Hne Hgj]]%Hcases & Hin); [by rewrite Howni in Hin; apply elem_of_nil in Hin|].
      rewrite Hown in Hin by done. eauto.
  - intros j k g g' b [[-> ->]|[Hj Hgj]]%Hcases [[-> ->]|[Hk' Hgk]]%Hcases; rewrite ?Howni, ?Hown by done;
      try (by intros ?%elem_of_nil); [by intros _ ?%elem_of_nil|eauto].
Qed.
End disk.

(** ** Operations *)
Section ops.
Context {C : Type} {n : Z} `{HL : BlockCacheLaws C n}.
Variable fs : CAFS.t.
Hypothesis geo : geometry n fs.

(** [alloc] of the inode bitmap followed by [CaInode::new]. *)
Lemma new_inode_spec v files own ty name k : disk_ok fs v files own ->
  0 <= k < inode_count fs -> files !! k = None ->
  zlen name <= NAME_LENGTH_LIMIT -> Forall u8 name ->
  spec n (id ← Bitmap.alloc (CAFS.inode_bitmap fs);
          match id with
          | None => throw (Panic PInodes)
          | Some id => '(block_id, offset) ← lift (CAFS.inode_pos_of fs id);
                       CaInode.new id ty block_id offset name
          end) v [] (fun r v' => exists i own', files !! i = None /\ 0 <= i < inode_count fs /\
      (forall j, 0 <= j < i -> is_Some (files !! j)) /\
      own' = <[i := ([], [])]> own /\ r = inode_view fs i (new_file ty name) own' /\
      disk_ok fs v' (<[i := new_file ty name]> files) own' /\ free fs v' = free fs v).
Proof.
  intros Hd Hk Hfree Hl Hu. destruct (name_bytes_ok name Hl Hu) as [Hnl Hnu].
  pose proof (geometry_inode_bitmap _ _ geo) as Hok.
  eapply spec_bind; [apply Bitmap.alloc_correct; [done|intros b _; apply not_elem_of_nil|unfold CACHE_SIZE; simpl; lia]|].
  intros [i|] v1 Hpost.
  - assert (Hp := Hpost). destruct Hp as (Hi & _ & Hfirst & _). fold (inode_count fs) in Hi.
    destruct (inode_block_bounds fs n i geo Hi) as (HB & _).
    eapply spec_bind_lift; [by eapply inode_pos|]. cbv iota beta. unfold CaInode.new.
    eapply spec_bind_lift; [apply assert_ok; lia|]. apply spec_blocks. intros Hblk.
    destruct (disk_create fs geo v v1 files own i ty _ Hd Hpost Hblk Hnl Hnu) as (Hwf & Hnone & Hd' & Hf').
    eapply (spec_bind _ _ _ _ _ (fun _ v' => disk_ok fs v' (<[i := new_file ty name]> files) (<[i := ([], [])]> own) /\
      free fs v' = free fs v)).
    + apply (spec_modify_at Meta.t); [lia|apply not_elem_of_nil|unfold CACHE_SIZE; simpl; lia|done|done|].
      apply spec_ret. split; [exact Hwf|]. split; [exact Hd'|exact Hf'].
    + intros _ v' [Hd'' Hf'']. apply spec_ret. exists i, (<[i := ([], [])]> own).
      split_and!; try done; [lia|lia| |].
      * intros j Hj. specialize (Hfirst j Hj). rewrite (do_inode _ _ _ _ Hd) in Hfirst by lia.
        by apply bool_decide_eq_true in Hfirst.
      * unfold inode_view. by rewrite fn_lookup_insert.
  - destruct Hpost as [_ Hall]. fold (inode_count fs) in Hall. specialize (Hall k Hk).
    rewrite (do_inode _ _ _ _ Hd) in Hall by done. apply bool_decide_eq_true in Hall as [f Hf]. congruence.
Qed.

(** A new file does not change what is cached. *)
Lemma mem_ok_new files own (st : CAFS.state C) i g : mem_ok fs files own st -> files !! i = None ->
  mem_ok fs (<[i := g]> files) (<[i := ([], [])]> own) st.
Proof.
  intros [? Hc ? ?] Hi. split; try done. intros h Hh. destruct (Hc h Hh) as (j & f & Hf & Hheap).
  assert (j <> i) by congruence. exists j, f. rewrite lookup_insert_ne by done. split; [done|].
  rewrite Hheap. unfold inode_view. by rewrite fn_lookup_insert_ne.
Qed.

(** A fresh handle is counted nowhere. *)
Lemma count_fresh files own (st : CAFS.state C) h : mem_ok fs files own st -> h ∈ CAFS.inode_cache st ->
  (h < length (CAFS.heap st))%nat.
Proof. intros Hm Hh. destruct (mo_cached _ _ _ _ Hm h Hh) as (? & ? & _ & E). by apply lookup_lt_Some in E. Qed.

(** What [alloc_inode_meta] does. *)
Record created (st : CAFS.state C) (v : Z -> list Z) (files : gmap Z file) (g : file)
    (h : nat) (st' : CAFS.state C) : Prop := {
  cr_ex : exists i v' own', files !! i = None /\ 0 <= i < inode_count fs /\
    (forall j, 0 <= j < i -> is_Some (files !! j)) /\
    fs_inv (n := n) fs st' v' (<[i := g]> files) own' /\ free fs v' = free fs v /\
    CAFS.heap st' !! h = Some (inode_view fs i g own');
  cr_cache : exists q, CAFS.inode_cache st' = q ++ [h] /\ kept st q;
  cr_refs : CAFS.refs st' = h :: CAFS.refs st;
  cr_fresh : h = length (CAFS.heap st);
  cr_prefix h0 c0 : CAFS.heap st !! h0 = Some c0 -> CAFS.heap st' !! h0 = Some c0
}.

Lemma alloc_inode_meta_spec st v files own ty name k : fs_inv (n := n) fs st v files own ->
  0 <= k < inode_count fs -> files !! k = None -> room st ->
  zlen name <= NAME_LENGTH_LIMIT -> Forall u8 name ->
  runs (CAFS.alloc_inode_meta fs ty name) st (created st v files (new_file ty name)).
Proof.
  intros [Hr Hd Hm] Hk Hfree Hroom Hl Hu.
  destruct (new_inode_spec v files own ty name k Hd Hk Hfree Hl Hu _ Hr)
    as (a & c' & v' & E & R' & _ & i & own' & Hnone & Hi & Hfirst & -> & -> & Hd' & Hf').
  unfold mbind, M_bind in E. unfold CAFS.alloc_inode_meta, runs, mbind, M_bind, CAFS.cached, zoom.
  destruct (Bitmap.alloc _ _) as [[[id|] c1]|] eqn:E1; [|done|done]. unfold lift in *.
  destruct (CAFS.inode_pos_of fs id) as [[block_id offset]|]; [|done].
  cbn [CAFS.cache_manager CAFS.heap CAFS.inode_cache CAFS.refs].
  rewrite E. unfold CAFS.arc_new, CAFS.arc_clone, CAFS.add_inode_cache, mbind, M_bind.
  cbn [CAFS.cache_manager CAFS.heap CAFS.inode_cache CAFS.refs].
  set (h := length (CAFS.heap st)). set (own' := <[i := ([], [])]> own) in *. set (g := new_file ty name) in *.
  set (st1 := CAFS.St c' (CAFS.heap st ++ [inode_view fs i g own']) (CAFS.inode_cache st) (h :: h :: CAFS.refs st)).
  assert (Hroom1 : room st1).
  { destruct Hroom as [?|(x & Hx & Hc)]; [by left|right]. exists x. split; [done|].
    pose proof (count_fresh _ _ _ _ Hm Hx). unfold CAFS.strong_count, st1 in *. cbn [CAFS.inode_cache CAFS.refs] in *.
    rewrite !count_cons, !decide_False by lia. lia. }
  destruct (inode_substitute_spec st1 (mo_len _ _ _ _ Hm) Hroom1) as (q & -> & [K1 K2 K3 K4 K5 K6]).
  assert (Hq : kept st q) by (split; try done; intros x Hx; apply K5; by do 2 right).
  unfold CAFS.push, st1. cbn [CAFS.cache_manager CAFS.heap CAFS.inode_cache CAFS.refs CAFS.remove_one].
  rewrite decide_True by done. eexists h, _. split; [reflexivity|].
  pose proof (mem_ok_new files own st i g Hm Hnone) as Hm'. fold own' in Hm'.
  assert (Hnew : forall x f, x ∈ CAFS.inode_cache st -> CAFS.heap st !! x <> Some (inode_view fs i f own')).
  { intros x f Hx Hheap. destruct (mo_cached _ _ _ _ Hm x Hx) as (j & f' & Hf'' & Hheap').
    rewrite Hheap in Hheap'. unfold inode_view in Hheap'. injection Hheap' as <-. congruence. }
  pose proof (mem_ok_push fs (<[i := g]> files) own' st q i g Hm' Hq (lookup_insert_eq _ _ _) Hnew c') as Hm2.
  split; cbn [CAFS.inode_cache CAFS.refs CAFS.heap]; [|eauto|done|done|by intros; apply lookup_app_l_Some].
  exists i, v', own'. split_and!; try done; try lia.
  unfold h. cbn [CAFS.heap]. by rewrite lookup_app_r, Nat.sub_diag by lia.
Qed.

(** The contents of a file are bytes. *)
Lemma file_u8 c v h files own i f : rep n c v h -> disk_ok fs v files own -> files !! i = Some f ->
  Forall u8 (f_data f).
Proof.
  intros Hr Hd Hf. destruct (do_file _ _ _ _ Hd i f Hf) as [Hok _ _ Hsz Hho].
  pose proof (io_data _ _ _ _ Hok) as Hl. rewrite Hsz in Hl.
  rewrite <- (holds_contents _ _ _ Hl Hho). apply Forall_take, Forall_concat, Forall_fmap.
  pose proof (do_area _ _ _ _ Hd i f Hf) as Ha. apply Forall_app in Ha as [_ Ha].
  eapply Forall_impl; [exact Ha|]. intros b Hb. apply (in_data_bounds fs geo) in Hb.
  destruct (rep_block c v h b Hr ltac:(lia)) as [_ ?]. done.
Qed.

(** A handle of the cache is found. *)
Lemma cached_found (st : CAFS.state C) files own h i f : mem_ok fs files own st -> h ∈ CAFS.inode_cache st ->
  CAFS.heap st !! h = Some (inode_view fs i f own) -> CAFS.find_cached st i = Some h.
Proof.
  intros Hm Hin Hh. destruct (CAFS.find_cached st i) as [h'|] eqn:E.
  - destruct (find_cached_Some _ _ _ _ _ _ Hm E) as (Hin' & f' & _ & Hh').
    f_equal. by eapply (mo_unique _ _ _ _ Hm h' h).
  - by destruct (find_cached_None _ _ _ _ _ _ f Hm E Hin).
Qed.

(** What is cached stays found when more is cached. *)
Lemma found_append (st st' : CAFS.state C) files own h p : mem_ok fs files own st ->
  CAFS.find_cached st p <> None -> CAFS.inode_cache st' = CAFS.inode_cache st ++ [h] ->
  (forall h0 c0, CAFS.heap st !! h0 = Some c0 -> CAFS.heap st' !! h0 = Some c0) ->
  CAFS.find_cached st' p <> None.
Proof.
  intros Hm Hf Hc Hpre. destruct (CAFS.find_cached st p) as [hp|] eqn:E; [|done].
  destruct (find_cached_Some _ _ _ _ _ _ Hm E) as (Hin & f & _ & Hh%Hpre).
  unfold CAFS.find_cached. rewrite Hc. destruct (find_index _ _) as [k|] eqn:Ek.
  - apply find_index_Some in Ek as (x & Hx & _). cbn. by rewrite Hx.
  - apply find_index_None in Ek. eapply Forall_forall in Ek; [|apply elem_of_app; by left].
    rewrite Hh in Ek. cbn in Ek. by rewrite Z.eqb_refl in Ek.
Qed.

(** Caching an inode once more. *)
Lemma add_again st v files own h : fs_inv (n := n) fs st v files own -> h ∈ CAFS.refs st ->
  (length (CAFS.inode_cache st) < INODE_CACHE_SIZE)%nat ->
  (CAFS.arc_clone h ;; CAFS.add_inode_cache h) st =
    Ok (tt, CAFS.St (CAFS.cache_manager st) (CAFS.heap st) (CAFS.inode_cache st ++ [h]) (CAFS.refs st)) /\
  fs_inv (n := n) fs (CAFS.St (CAFS.cache_manager st) (CAFS.heap st) (CAFS.inode_cache st ++ [h]) (CAFS.refs st)) v files own.
Proof.
  intros [Hr Hd [Hl Hc Hu Hrf]] Hh Hlt. split.
  - unfold mbind, M_bind, CAFS.arc_clone, CAFS.add_inode_cache, CAFS.substitute, mbind, M_bind, CAFS.push.
    cbn [CAFS.cache_manager CAFS.heap CAFS.inode_cache CAFS.refs]. rewrite decide_False by lia.
    cbn [CAFS.cache_manager CAFS.heap CAFS.inode_cache CAFS.refs CAFS.remove_one]. by rewrite decide_True by done.
  - assert (Hin : forall x, x ∈ CAFS.inode_cache st ++ [h] -> x ∈ CAFS.inode_cache st).
    { intros x. rewrite elem_of_app, list_elem_of_singleton. intros [?| ->]; auto. }
    split; [done|done|]. split; cbn [CAFS.inode_cache CAFS.heap CAFS.refs]; eauto.
    + rewrite length_app. simpl. lia.
    + intros x Hx. apply elem_of_app. left. auto.
Qed.

Definition entry_size (d : list Z) : Z := zlen (append_entry d 0).

Lemma length_append_entry d i : zlen (append_entry d i) = entry_size d.
Proof. unfold entry_size, append_entry. by rewrite !length_app, !length_encode_number. Qed.

Lemma append_entry_u8 d i : Forall u8 d -> Forall u8 (append_entry d i).
Proof.
  intros Hd. unfold append_entry. apply Forall_app. split.
  - destruct d; [done|]. apply Forall_app. split; [done|]. repeat constructor; unfold u8; lia.
  - eapply Forall_impl; [apply encode_number_nonzero|]. unfold u8. simpl. lia.
Qed.

(** The state when [create] has written the entry of [i] into its parent, whose
    inode it still holds as [hp]. *)
Record linked (st : CAFS.state C) (v : Z -> list Z) (files : gmap Z file) (h : nat) (i : Z) (f : file)
    (p : Z) (fp : file) (hp : nat) (st' : CAFS.state C) : Prop := {
  lk_inv : exists v' own', fs_inv (n := n) fs st' v' (<[p := set_data fp (append_entry (f_data fp) i)]> files) own' /\
    free fs v' = free fs v - need (zlen (f_data fp)) (entry_size (f_data fp)) /\
    CAFS.heap st' !! h = Some (inode_view fs i f own');
  lk_refs : CAFS.refs st' = hp :: CAFS.refs st;
  lk_len : (length (CAFS.inode_cache st') <= S (length (CAFS.inode_cache st)))%nat;
  lk_numbers : numbers_kept st st';
  lk_found h0 : CAFS.find_cached st p = Some h0 -> hp = h0 /\ CAFS.inode_cache st' = CAFS.inode_cache st
}.

(** The middle of [create], whatever follows. *)
Lemma link_steps {A} (K : nat -> M (CAFS.state C) A) (R : outcome (A * CAFS.state C) -> Prop)
    st v files own h i f p fp : fs_inv (n := n) fs st v files own ->
  files !! p = Some fp -> files !! i = Some f -> p <> i ->
  CAFS.heap st !! h = Some (inode_view fs i f own) -> h ∈ CAFS.refs st -> available st p ->
  entry_size (f_data fp) <= L4_MAX -> need (zlen (f_data fp)) (entry_size (f_data fp)) <= free fs v ->
  (forall hp st', linked st v files h i f p fp hp st' -> R (K hp st')) ->
  R ((parent ← CAFS.cainode fs p;
    p ← CAFS.deref parent;
    contents ← CAFS.cached (CaInode.data p);
    let contents := match contents with [] => [] | _ => contents ++ [0] end in
    i ← CAFS.deref h;
    repre ← lift (inode_number_binary (CaInode.inode_number i));
    CAFS.write fs (CaInode.inode_number p) (contents ++ repre) ;;
    K parent) st).
Proof.
  intros Hinv Hp Hi Hne Hh Href Hav Hmax Hneed HR.
  destruct (cainode_spec fs geo st v files own p fp Hinv Hp Hav) as (hp & st2 & E2 & [Hinv2 Hhp Hinp Hr2 Hlen2 _ Hpre Hf2]).
  destruct (file_data_spec fs geo st2 v files own p fp Hinv2 Hp) as (d & st3 & E3 & -> & Hinv3 & Eh & Ec & Er).
  assert (Hfound : CAFS.find_cached st3 p <> None).
  { by erewrite (cached_found st3 files own hp p fp); [|apply Hinv3|rewrite Ec|rewrite Eh]. }
  destruct (write_spec fs geo st3 v files own p fp (append_entry (f_data fp) i)) as (u & st4 & E4 & v4 & own4 & Hinv4 & Hf4 & Hr4 & Hnum & _ & Hc4);
    try done; [by left| |by rewrite length_append_entry| |by rewrite length_append_entry|].
  { apply append_entry_u8. eapply file_u8; [apply Hinv3|apply Hinv3|done]. }
  { rewrite length_append_entry. unfold entry_size, append_entry. rewrite length_app.
    destruct (f_data fp); [size_lia|]. rewrite length_app. size_lia. }
  specialize (Hc4 Hfound). rewrite Ec in Hc4. rewrite Er, Hr2 in Hr4. rewrite length_append_entry in Hf4.
  unfold mbind, M_bind, CAFS.deref. rewrite E2, Hhp. omon. rewrite E3, Eh, (Hpre h _ Hh). omon.
  cbn [inode_view CaInode.inode_number]. rewrite binary_eq. unfold lift. fold (append_entry (f_data fp) i). rewrite E4.
  apply HR. split; [|done|rewrite Hc4; done| |].
  - exists v4, own4. split_and!; try done.
    destruct (Hnum h (inode_view fs i f own)) as (c' & Hc' & Hn); [rewrite Eh; by apply Hpre|].
    destruct (mo_cached _ _ _ _ (fi_mem _ _ _ _ _ Hinv4) h) as (j & g & Hg & Hj).
    { apply (mo_refs _ _ _ _ (fi_mem _ _ _ _ _ Hinv4)). rewrite Hr4. by right. }
    rewrite Hj in Hc'. injection Hc' as <-. cbn in Hn. subst j.
    rewrite lookup_insert_ne in Hg by done. by simplify_eq.
  - intros h0 c0 Hh0%Hpre. rewrite <- Eh in Hh0. by apply Hnum.
  - intros h0 E. rewrite Hc4. by destruct (Hf2 h0 E) as (-> & -> & _).
Qed.

(** The second half of [create]: the inode [i] becomes an entry of its parent, and
    is cached once more. *)
Lemma link_spec st v files own h i f p fp : fs_inv (n := n) fs st v files own ->
  files !! p = Some fp -> files !! i = Some f -> p <> i ->
  CAFS.heap st !! h = Some (inode_view fs i f own) -> h ∈ CAFS.refs st ->
  (length (CAFS.inode_cache st) + 2 <= INODE_CACHE_SIZE)%nat -> entry_size (f_data fp) <= L4_MAX ->
  need (zlen (f_data fp)) (entry_size (f_data fp)) <= free fs v ->
  runs (parent ← CAFS.cainode fs p;
    p ← CAFS.deref parent;
    contents ← CAFS.cached (CaInode.data p);
    let contents := match contents with [] => [] | _ => contents ++ [0] end in
    i ← CAFS.deref h;
    repre ← lift (inode_number_binary (CaInode.inode_number i));
    CAFS.write fs (CaInode.inode_number p) (contents ++ repre) ;;
    CAFS.arc_clone h ;;
    CAFS.add_inode_cache h ;;
    CAFS.arc_drop parent ;;
    mret h) st (fun h' st' => exists v' own', h' = h /\
      fs_inv (n := n) fs st' v' (<[p := set_data fp (append_entry (f_data fp) i)]> files) own' /\
      free fs v' = free fs v - need (zlen (f_data fp)) (entry_size (f_data fp)) /\
      CAFS.heap st' !! h = Some (inode_view fs i f own') /\ CAFS.refs st' = CAFS.refs st /\
      (length (CAFS.inode_cache st') <= length (CAFS.inode_cache st) + 2)%nat /\ numbers_kept st st' /\
      (CAFS.find_cached st p <> None -> CAFS.inode_cache st' = CAFS.inode_cache st ++ [h])).
Proof.
  intros Hinv Hp Hi Hne Hh Href Hlen Hmax Hneed.
  match goal with |- runs _ _ ?P =>
    apply (link_steps (fun parent => CAFS.arc_clone h ;; CAFS.add_inode_cache h ;; CAFS.arc_drop parent ;; mret h)
      (fun o => exists a st', o = Ok (a, st') /\ P a st') st v files own h i f p fp); try done
  end.
  { right. left. lia. }
  intros hp st4 [(v4 & own4 & Hinv4 & Hf4 & Hh4) Hr4 Hlen4 Hnum Hfound].
  destruct (add_again st4 v4 _ own4 h Hinv4) as [Eadd Hinv5]; [rewrite Hr4; by right|lia|].
  destruct (drop_inv fs geo _ _ _ _ hp Hinv5) as (u & st6 & Edrop & Hinv6 & E6).
  exists h, st6. split.
  - unfold mbind, M_bind in *. destruct (CAFS.arc_clone h st4) as [[[] ?]|]; [|done]. rewrite Eadd, Edrop. done.
  - exists v4, own4. subst st6. cbn [CAFS.heap CAFS.refs CAFS.inode_cache CAFS.cache_manager] in *.
    split_and!; try done.
    + rewrite Hr4. cbn [CAFS.remove_one]. by rewrite decide_True.
    + rewrite length_app. simpl. lia.
    + intros Hfp. destruct (CAFS.find_cached st p) as [h0|]; [|done]. by destruct (Hfound h0 eq_refl) as [_ ->].
Qed.

(** Creating a file: an empty file gets the first free inode number, which is
    appended to the contents of the parent directory. *)
Lemma create_spec st v files own p fp name k : fs_inv (n := n) fs st v files own ->
  files !! p = Some fp -> 0 <= k < inode_count fs -> files !! k = None ->
  (length (CAFS.inode_cache st) + 3 <= INODE_CACHE_SIZE)%nat ->
  zlen name <= NAME_LENGTH_LIMIT -> Forall u8 name -> entry_size (f_data fp) <= L4_MAX ->
  need (zlen (f_data fp)) (entry_size (f_data fp)) <= free fs v ->
  runs (CAFS.create fs p name) st (fun h st' => exists i v' own', files !! i = None /\
    0 <= i < inode_count fs /\ (forall j, 0 <= j < i -> is_Some (files !! j)) /\
    fs_inv (n := n) fs st' v'
      (<[p := set_data fp (append_entry (f_data fp) i)]> (<[i := new_file File name]> files)) own' /\
    free fs v' = free fs v - need (zlen (f_data fp)) (entry_size (f_data fp)) /\
    CAFS.heap st' !! h = Some (inode_view fs i (new_file File name) own') /\
    CAFS.refs st' = h :: CAFS.refs st /\
    (length (CAFS.inode_cache st') <= length (CAFS.inode_cache st) + 3)%nat /\
    numbers_kept st st' /\ h = length (CAFS.heap st) /\
    (CAFS.find_cached st p <> None -> CAFS.inode_cache st' = CAFS.inode_cache st ++ [h; h])).
Proof.
  intros Hinv Hp Hk Hfree Hlen Hl Hu Hmax Hneed. unfold CAFS.create.
  eapply runs_bind; [by apply (alloc_inode_meta_spec st v files own File name k); auto; left; lia|].
  intros h st1 [(i & v1 & own1 & Hnone & Hi & Hfirst & Hinv1 & Hf1 & Hh1) (q & Hq & [_ Kl _ _ _ Ks]) Hr1 Hfr Hpre1].
  assert (Hne : p <> i) by congruence.
  assert (Hlen1 : (length (CAFS.inode_cache st1) <= length (CAFS.inode_cache st) + 1)%nat).
  { rewrite Hq, length_app. simpl. lia. }
  eapply runs_conseq.
  - apply (link_spec st1 v1 _ own1 h i (new_file File name) p fp Hinv1); auto.
    + by rewrite lookup_insert_ne.
    + apply lookup_insert_eq.
    + rewrite Hr1. by left.
    + lia.
    + lia.
  - intros h' st' (v' & own' & -> & Hinv' & Hf' & Hh' & Hr' & Hl' & Hn' & Hc'). exists i, v', own'.
    split_and!; auto; try lia; try congruence.
    + intros h0 c0 Hh0%Hpre1. by apply Hn'.
    + intros Hfp. rewrite Ks in Hq by lia. rewrite Hc', Hq, <- app_assoc; [done|].
      eapply (found_append st st1); [apply Hinv|exact Hfp|exact Hq|exact Hpre1].
Qed.

(** Listing a directory: its entries. A file has none. *)
Lemma sub_inodes_spec st v files own p fp nums : fs_inv (n := n) fs st v files own ->
  files !! p = Some fp -> available st p -> f_type fp = Dir -> f_data fp = dir_data nums -> Forall u64 nums ->
  runs (CAFS.sub_inodes fs p) st (fun r st' => r = nums /\ fs_inv (n := n) fs st' v files own /\
    CAFS.refs st' = CAFS.refs st /\ (length (CAFS.inode_cache st') <= S (length (CAFS.inode_cache st)))%nat /\
    (NoDup (CAFS.inode_cache st) -> NoDup (CAFS.inode_cache st'))).
Proof.
  intros Hinv Hp Hav Hty Hdat Hu. unfold CAFS.sub_inodes, CAFS.inode.
  eapply runs_bind; [by apply (cainode_spec fs geo st v files own p fp)|].
  intros hp st2 [Hinv2 Hhp Hinp Hr2 Hlen2 Hnd2 _ _]. eapply runs_deref; [exact Hhp|].
  unfold CaInode.is_file. cbn [inode_view CaInode.type_]. rewrite (bool_decide_false (f_type fp = File)) by (by rewrite Hty).
  fold (inode_view fs p fp own).
  eapply (runs_bind _ _ _ (fun r st' => r = nums /\ fs_inv (n := n) fs st' v files own /\
    CAFS.refs st' = CAFS.refs st2 /\ CAFS.inode_cache st' = CAFS.inode_cache st2)).
  - eapply runs_data; [exact geo|exact Hinv2|done|]. intros st3 Hinv3 Eh Ec Er. rewrite Hdat.
    destruct (decide (nums = [])) as [->|Hne]; [by apply runs_ret|].
    destruct (dir_data nums) eqn:E; [by destruct (Hne (proj1 (dir_data_nil nums) E))|]. rewrite <- E.
    exists nums, st3. unfold lift. by rewrite parse_dir.
  - intros r st3 (-> & Hinv3 & Er & Ec).
    eapply runs_bind; [by apply (drop_inv fs geo st3 v files own hp)|]. intros _ st4 [Hinv4 ->].
    apply runs_ret. cbn [CAFS.refs CAFS.inode_cache]. split_and!; try done; [|rewrite Ec; lia|by rewrite Ec].
    rewrite Er, Hr2. cbn [CAFS.remove_one]. by rewrite decide_True.
Qed.

Lemma sub_inodes_file st v files own p fp : fs_inv (n := n) fs st v files own ->
  files !! p = Some fp -> available st p -> f_type fp = File ->
  runs (CAFS.sub_inodes fs p) st (fun r st' => r = [] /\ fs_inv (n := n) fs st' v files own /\
    CAFS.refs st' = CAFS.refs st /\ (length (CAFS.inode_cache st') <= S (length (CAFS.inode_cache st)))%nat /\
    (NoDup (CAFS.inode_cache st) -> NoDup (CAFS.inode_cache st'))).
Proof.
  intros Hinv Hp Hav Hty. unfold CAFS.sub_inodes, CAFS.inode.
  eapply runs_bind; [by apply (cainode_spec fs geo st v files own p fp)|].
  intros hp st2 [Hinv2 Hhp Hinp Hr2 Hlen2 Hnd2 _ _]. eapply runs_deref; [exact Hhp|].
  unfold CaInode.is_file. cbn [inode_view CaInode.type_]. rewrite (bool_decide_true (f_type fp = File)) by done.
  eapply (runs_bind _ _ _ (fun r st' => r = [] /\ st' = st2)); [by apply runs_ret|]. intros ? ? [-> ->].
  eapply runs_bind; [by apply (drop_inv fs geo st2 v files own hp)|]. intros _ st4 [Hinv4 ->].
  apply runs_ret. cbn [CAFS.refs CAFS.inode_cache]. split_and!; try done.
  rewrite Hr2. cbn [CAFS.remove_one]. by rewrite decide_True.
Qed.

(** Free and total space, in bytes. *)
Lemma df_spec st v files own : fs_inv (n := n) fs st v files own ->
  runs (CAFS.df fs) st (fun r st' => r = (free fs v * BLOCK_SIZE, data_count fs * BLOCK_SIZE) /\
    fs_inv (n := n) fs st' v files own).
Proof.
  intros [Hr Hd Hm]. unfold CAFS.df. pose proof (geometry_order _ _ geo). pose proof geo as [? ? ? ? ? ? ? Hbits].
  pose proof (cnt_bounds (fun i => negb (Bitmap.bit (CAFS.data_bitmap fs) v i)) (Z.to_nat (data_count fs))).
  unfold BLOCK_BITS, BLOCK_SIZE in Hbits.
  eapply runs_bind.
  { eapply runs_cached; [exact Hr|]. apply Bitmap.free_count_correct;
      [by apply geometry_data_bitmap|intros b _; apply not_elem_of_nil|unfold CACHE_SIZE; simpl; lia]. }
  intros r st' (c' & v' & R & [-> ->] & ->). fold (data_count fs). fold (free fs v). unfold free in *.
  eapply runs_lift; [apply mul64_ok; fold (data_count fs); lia|]. fold (data_count fs).
  eapply runs_lift; [apply mul64_ok; unfold BLOCK_SIZE; lia|].
  eapply runs_lift; [apply mul64_ok; unfold BLOCK_SIZE; lia|].
  apply runs_ret. split; [done|]. split; [done|done|by apply mem_ok_cache].
Qed.
End ops.
