(* ===== verification/Mount.v ===== *)
(** [CAFS::init] and [CAFS::open] of fs/src/cafs/mod.rs: formatting a device gives
    a file system with an empty root directory, and opening a device that holds a
    file system finds its files. *)
From S2P Require Import Prelude Device Block Manager Bitmap Layout Index Resize InodeNumber Utf8 Cafs Contents Files Inodes Directory.
From Stdlib Require Import ZArith Lia.
From stdpp Require Import gmap functions sorting list_numbers list.
Local Open Scope Z_scope.

(** The areas [init] lays out on [n] blocks, [k] of them for the inode bitmap. *)
Definition layout (n k : Z) : CAFS.t :=
  let d := n - 1 - k * (BLOCK_BITS + 1) in
  let dbb := d / (BLOCK_BITS + 1) in
  CAFS.mk (Bitmap.mk 1 k) (Bitmap.mk (1 + k * (BLOCK_BITS + 1)) dbb) (1 + k)
    (1 + k * (BLOCK_BITS + 1) + dbb).

Lemma layout_geometry n k : 0 <= k -> 1 + k * (BLOCK_BITS + 1) <= n -> n * BLOCK_BITS < U64 ->
  geometry n (layout n k).
Proof.
  intros Hk Hn Hb. unfold layout, BLOCK_BITS, BLOCK_SIZE in *.
  split; unfold inode_count, data_count, BLOCK_BITS, BLOCK_SIZE;
    cbn [CAFS.inode_bitmap CAFS.data_bitmap CAFS.inode_area_start_block CAFS.data_area_start_block
      Bitmap.start_block_id Bitmap.blocks]; try lia; Z.to_euclidean_division_equations; lia.
Qed.

(** ** A blank disk *)

Lemma zero_word l : Forall (fun b => b = 0) l -> from_le l = 0.
Proof. induction 1 as [|b l -> _ IH]; [done|]. cbn [from_le]. by rewrite IH. Qed.

Lemma zero_words k l : Forall (fun b => b = 0) l -> decode_u64s k l = replicate k 0.
Proof.
  revert l. induction k as [|k IH]; intros l Hl; [done|]. cbn [decode_u64s replicate].
  rewrite zero_word by (by apply Forall_take). by rewrite IH by (by apply Forall_drop).
Qed.

Lemma zero_bit i : 0 <= i < BLOCK_BITS -> Bitmap.block_bit zero_block i = false.
Proof.
  intros Hi. unfold Bitmap.block_bit, peek. cbn [of_bytes BitmapBlock_repr words].
  rewrite zero_words by (apply Forall_take, Forall_drop; unfold zero_block; by apply Forall_replicate).
  rewrite lookup_total_replicate_2; [apply Z.bits_0|].
  assert (i / 64 < 64) by (apply Z.div_lt_upper_bound; unfold BLOCK_BITS, BLOCK_SIZE in *; lia).
  assert (0 <= i / 64) by (apply Z.div_pos; lia). lia.
Qed.

Lemma zero_bitmap m v i : 0 <= i < Bitmap.blocks m * BLOCK_BITS ->
  (forall b, Bitmap.start_block_id m <= b < Bitmap.start_block_id m + Bitmap.blocks m -> v b = zero_block) ->
  Bitmap.bit m v i = false.
Proof.
  intros Hi Hv. unfold Bitmap.bit. destruct (Bitmap.decompose_bounds m i Hi) as (? & _).
  rewrite Hv by lia. apply zero_bit. by apply Z.mod_pos_bound.
Qed.

(** With a super block and zeros elsewhere, there are no files. *)
Lemma blank_disk n fs v own : geometry n fs -> super_ok fs (peek SuperBlock.t 0 (v 0)) ->
  (forall b, 0 < b < n -> v b = zero_block) -> disk_ok fs v ∅ own /\ free fs v = data_count fs.
Proof.
  intros geo Hs Hv. pose proof (geometry_order _ _ geo) as Hg. pose proof geo as [? ? ? ? ? ? ? ?].
  assert (Hdb : forall i, 0 <= i < data_count fs -> Bitmap.bit (CAFS.data_bitmap fs) v i = false).
  { intros i Hi. apply zero_bitmap; [done|]. intros b Hb. apply Hv. lia. }
  split.
  - split; try (by intros; simplify_map_eq).
    + intros i Hi. rewrite zero_bitmap; [done|done|]. intros b Hb. apply Hv. lia.
    + intros b Hb. unfold used. unfold in_data in Hb. rewrite Hdb by lia. split; [done|].
      intros (i & f & Hf & _). by rewrite lookup_empty in Hf.
  - unfold free. rewrite cnt_negb, cnt_none; [lia|]. intros i Hi. apply Hdb. lia.
Qed.

Section clear.
Context {C : Type} {n : Z} `{HL : BlockCacheLaws C n}.

(** The loop that clears the blocks. *)
Lemma clear_spec k : forall a v, 0 <= a -> a + Z.of_nat k <= n ->
  spec n (forM (fun i => modify_at DataBlock i 0 (fun data_block =>
      mret (tt, {| bytes := replicate (length (bytes data_block)) 0 |}))) (seqZ a (Z.of_nat k))) v []
    (fun _ v' => (forall b, a <= b < a + Z.of_nat k -> v' b = zero_block) /\
      forall b, ~ (a <= b < a + Z.of_nat k) -> v' b = v b).
Proof.
  induction k as [|k IH]; intros a v Ha Hn.
  { apply spec_ret. split; [lia|done]. }
  rewrite seqZ_cons by lia. replace (Z.pred (Z.of_nat (S k))) with (Z.of_nat k) by lia.
  unfold forM. cbn [foldM].
  eapply (spec_bind _ _ _ _ _ (fun _ v' => v' a = zero_block /\ forall b, b <> a -> v' b = v b)).
  - apply spec_blocks. intros Hok. destruct (Hok a ltac:(lia)) as [Hl _].
    apply (spec_modify_at DataBlock); [lia|apply not_elem_of_nil|unfold CACHE_SIZE; simpl; lia|done|done|].
    assert (E : replicate (length (bytes (peek DataBlock 0 (v a)))) 0 = zero_block).
    { unfold peek, zero_block. cbn [of_bytes DataBlock_repr bytes size_of]. rewrite length_take, length_drop.
      f_equal. unfold BLOCK_SIZE in *. lia. }
    rewrite E. apply spec_ret. destruct zero_block_ok as [Hz1 Hz2]. split; [by split|].
    split; [|intros b Hb; by apply fn_lookup_insert_ne]. rewrite fn_lookup_insert.
    unfold poke, splice. cbn [to_bytes DataBlock_repr bytes].
    rewrite drop_ge by (unfold BLOCK_SIZE in *; lia). by rewrite app_nil_r.
  - intros [] v1 [Hz Ho]. eapply spec_conseq; [apply (IH (Z.succ a) v1); lia|].
    intros _ v2 [Hz2 Ho2]. split.
    + intros b Hb. destruct (decide (b = a)) as [->|]; [rewrite Ho2 by lia; done|apply Hz2; lia].
    + intros b Hb. rewrite Ho2 by lia. apply Ho. lia.
Qed.
End clear.

(** ** [init] *)
Section format.
Context {C : Type} {n : Z} `{HL : BlockCacheLaws C n}.
Variable k : Z.
Hypothesis Hk : 0 < k.
Hypothesis Hn : 1 + k * (BLOCK_BITS + 1) <= n.
Hypothesis Hbits : n * BLOCK_BITS < U64.

Definition root_dir : file := new_file Dir [47].

(** The super block that is written. *)
Definition super : SuperBlock.t :=
  let d := n - 1 - k * (BLOCK_BITS + 1) in
  SuperBlock.mk SuperBlock.FS_MAGIC n k (k * BLOCK_BITS) (d / (BLOCK_BITS + 1)) (d - d / (BLOCK_BITS + 1)).

Lemma super_layout : super_ok (layout n k) super.
Proof. by split. Qed.

Lemma super_wf : wf super.
Proof.
  unfold super. cbn [wf SuperBlock_laws SuperBlock.magic SuperBlock.total_blocks SuperBlock.inode_bitmap_blocks
    SuperBlock.inode_area_blocks SuperBlock.data_bitmap_blocks SuperBlock.data_area_blocks].
  unfold u64, SuperBlock.FS_MAGIC, BLOCK_BITS, BLOCK_SIZE, U64 in *.
  split_and!; try lia; Z.to_euclidean_division_equations; lia.
Qed.

(** Formatting the blank disk: clearing it and writing the super block. *)
Lemma blank_spec v :
  spec n (forM (fun i => modify_at DataBlock i 0 (fun data_block =>
        mret (tt, {| bytes := replicate (length (bytes data_block)) 0 |}))) (seqZ 0 n)) v []
    (fun _ v' => forall b, 0 <= b < n -> v' b = zero_block).
Proof.
  assert (0 < n) by (unfold BLOCK_BITS, BLOCK_SIZE in *; lia).
  pose proof (clear_spec (Z.to_nat n) 0 v) as Hc. rewrite Z2Nat.id in Hc by lia.
  eapply spec_conseq; [apply Hc; lia|]. intros _ v' [Hz _] b Hb. apply Hz. lia.
Qed.

Lemma super_spec v own : (forall b, 0 <= b < n -> v b = zero_block) ->
  spec n (modify_at SuperBlock.t 0 0 (fun super_block =>
      mret (tt, SuperBlock.initialize n k (k * BLOCK_BITS) ((n - 1 - k * (BLOCK_BITS + 1)) / (BLOCK_BITS + 1))
        (n - 1 - k * (BLOCK_BITS + 1) - (n - 1 - k * (BLOCK_BITS + 1)) / (BLOCK_BITS + 1)) super_block))) v []
    (fun _ v' => disk_ok (layout n k) v' ∅ own /\ free (layout n k) v' = data_count (layout n k)).
Proof.
  intros Hz. assert (Hn0 : 0 < n) by (unfold BLOCK_BITS, BLOCK_SIZE in *; lia).
  apply (spec_modify_at SuperBlock.t); [lia|apply not_elem_of_nil|unfold CACHE_SIZE; simpl; lia|done|done|].
  apply spec_ret. change (SuperBlock.initialize _ _ _ _ _ _) with super. split; [apply super_wf|].
  eapply blank_disk; [apply layout_geometry; auto; lia| |].
  - rewrite fn_lookup_insert, peek_poke; [apply super_layout| |apply super_wf|done|done].
    rewrite Hz by lia. apply zero_block_ok.
  - intros b Hb. rewrite fn_lookup_insert_ne by lia. apply Hz. lia.
Qed.

(** The root directory is created, and everything written to the device. *)
Lemma root_spec c v own : rep n c v [] -> disk_ok (layout n k) v ∅ own ->
  runs (root ← CAFS.alloc_inode_meta (layout n k) Dir [47];
    i ← CAFS.deref root;
    lift (assert_ (CaInode.inode_number i =? 0) PAssert) ;;
    CAFS.arc_drop root ;;
    CAFS.fs_flush ;;
    mret (layout n k)) (CAFS.St c [] [] []) (fun fs st => fs = layout n k /\
    CAFS.refs st = [] /\ length (CAFS.inode_cache st) = 1%nat /\
    exists v' own', fs_inv (n := n) fs st v' {[0 := root_dir]} own' /\ free fs v' = free fs v).
Proof.
  intros R Hd. pose proof (layout_geometry n k ltac:(lia) Hn Hbits) as geo.
  eapply runs_bind.
  { apply (alloc_inode_meta_spec (layout n k) geo _ v ∅ own Dir [47] 0).
    - split; [exact R|done|]. split; cbn [CAFS.inode_cache CAFS.refs]; try (by intros ? ?%elem_of_nil);
        [unfold INODE_CACHE_SIZE; simpl; lia|by intros ? ? ? ? ?%elem_of_nil].
    - unfold inode_count, layout, BLOCK_BITS, BLOCK_SIZE. cbn [CAFS.inode_bitmap Bitmap.blocks]. lia.
    - apply lookup_empty.
    - left. unfold INODE_CACHE_SIZE. simpl. lia.
    - done.
    - repeat constructor; unfold u8; lia. }
  intros h st3 [(i & v3 & own3 & _ & Hi & Hfirst & Hinv3 & Hf3 & Hh3) (q & Hq & [_ Kl _ _ _ _]) Hr3 _ _].
  assert (i = 0) as ->.
  { destruct (decide (i = 0)); [done|]. destruct (Hfirst 0) as [f Hf]; [lia|]. by rewrite lookup_empty in Hf. }
  eapply runs_deref; [exact Hh3|]. eapply runs_lift; [done|].
  eapply runs_bind; [by apply (drop_inv (layout n k) geo st3)|]. intros u3 st4 [[R4 Hd4 Hm4] E4].
  eapply runs_bind; [by eapply runs_cached; [exact R4|apply spec_flush]|].
  intros u5 st5 (c5 & v5 & R5 & -> & ->). apply runs_ret. split_and!; [done| | |].
  - subst st4. cbn [CAFS.refs]. rewrite Hr3. cbn [CAFS.remove_one]. by rewrite decide_True.
  - subst st4. cbn [CAFS.inode_cache] in *. rewrite Hq, length_app. cbn [length] in *. lia.
  - exists v3, own3. split; [|done]. split; [exact R5|exact Hd4|]. apply mem_ok_cache. exact Hm4.
Qed.

(** The result: the root directory, empty, is the only file; all data blocks are
    free; the state is flushed. *)
Lemma format_spec c v : rep n c v [] ->
  runs (CAFS.format n k) (CAFS.St c [] [] []) (fun fs st => fs = layout n k /\
    CAFS.refs st = [] /\ length (CAFS.inode_cache st) = 1%nat /\
    exists v' own, fs_inv (n := n) fs st v' {[0 := root_dir]} own /\ free fs v' = data_count fs).
Proof.
  intros Hr. unfold CAFS.format. set (B := BLOCK_BITS) in *. assert (HB : B = 4096) by done.
  assert (0 < n) by lia.
  eapply runs_lift; [done|]. eapply runs_lift; [apply mul64_ok; cbn [Bitmap.blocks Bitmap.new]; fold B; lia|].
  change (size_of Meta.t) with 512. change BLOCK_SIZE with 512. cbn [Bitmap.blocks Bitmap.new].
  eapply runs_lift; [apply mul64_ok; fold B; lia|]. eapply runs_lift; [apply add64_ok; fold B; lia|].
  eapply runs_lift; [apply sub64_ok; fold B; lia|]. cbv zeta. fold B.
  replace ((k * B * 512 + 512 - 1) / 512) with (k * B) by (Z.to_euclidean_division_equations; lia).
  eapply runs_lift; [apply add64_ok; lia|]. eapply runs_lift; [apply sub64_ok; lia|].
  eapply runs_lift; [apply sub64_ok; lia|].
  replace (n - 1 - (k + k * B)) with (n - 1 - k * (B + 1)) by lia.
  set (d := n - 1 - k * (B + 1)). assert (Hd : 0 <= d / (B + 1) <= d) by (unfold d; Z.to_euclidean_division_equations; lia).
  eapply runs_lift; [apply sub64_ok; lia|]. eapply runs_lift; [apply add64_ok; lia|].
  eapply runs_lift; [apply add64_ok; lia|]. eapply runs_lift; [apply add64_ok; lia|].
  replace (1 + (k + k * B)) with (1 + k * (B + 1)) by lia.
  change (CAFS.mk _ _ _ _) with (layout n k).
  eapply runs_bind; [by eapply runs_cached; [exact Hr|apply blank_spec]|].
  intros u1 st1 (c1 & v1 & R1 & Hz & ->). eapply runs_bind; [eapply runs_cached; [exact R1|by apply (super_spec v1 (fun _ => ([], [])))]|].
  intros u2 st2 (c2 & v2 & R2 & [Hd2 Hf2] & ->).
  eapply runs_conseq; [by eapply (root_spec c2 v2)|].
  intros fs st (-> & Hr' & Hl' & v' & own' & Hinv' & Hf'). split_and!; try done.
  exists v', own'. split; [done|]. congruence.
Qed.

End format.

(** ** [open] *)
Section mount.
Context {C : Type} {n : Z} `{HL : BlockCacheLaws C n}.

(** Opening a device with a file system on it. *)
Lemma mount_spec fs c v files own : geometry n fs -> rep n c v [] -> disk_ok fs v files own ->
  runs CAFS.mount (CAFS.St c [] [] []) (fun fs' st => fs' = fs /\ CAFS.refs st = [] /\
    CAFS.inode_cache st = [] /\ fs_inv (n := n) fs st v files own).
Proof.
  intros geo Hr Hd. destruct (do_super _ _ _ _ Hd) as [Hmg Hib Hia Hdb].
  pose proof (geometry_order _ _ geo) as Hg. pose proof geo as [? ? ? ? ? ? ? ?].
  unfold CAFS.mount. eapply runs_conseq.
  - eapply runs_cached; [exact Hr|].
    apply (spec_read_at SuperBlock.t); [lia|apply not_elem_of_nil|unfold CACHE_SIZE; simpl; lia|done|done|].
    eapply spec_bind_lift; [by apply assert_ok|]. rewrite Hib, Hia, Hdb.
    eapply spec_bind_lift; [apply add64_ok; lia|]. cbv zeta.
    eapply spec_bind_lift; [apply add64_ok; lia|]. eapply spec_bind_lift; [apply add64_ok; lia|].
    eapply spec_bind_lift; [apply add64_ok; lia|].
    apply (spec_ret _ _ _ (fun r v' => r = fs /\ v' = v)). split; [|done].
    destruct fs as [[s1 b1] [s2 b2] ia da]. unfold Bitmap.new. cbn in *. f_equal; [f_equal| |..]; try (f_equal; lia); lia.
  - intros fs' st (c' & v' & R & [-> ->] & ->). split_and!; try done. split; [done|done|].
    split; cbn [CAFS.inode_cache CAFS.refs CAFS.heap]; try (by intros ? ?%elem_of_nil);
      [unfold INODE_CACHE_SIZE; simpl; lia|by intros ? ? ? ? ?%elem_of_nil].
Qed.
End mount.
