(* ===== verification/Paths.v ===== *)
(** What the operations of [VFS] do: the tree of directory entries in memory
    agrees with the root directory on the disk, and paths lead to the files. *)
From S2P Require Import Prelude Device Block Manager Bitmap Layout Index Resize InodeNumber Utf8 Cafs Vfs Contents Files Inodes Directory Mount.
From Stdlib Require Import ZArith Lia.
From stdpp Require Import gmap functions sorting list_numbers list.
Local Open Scope Z_scope.

(** ** Names *)

(** The name under which a file is listed. *)
Definition file_name (f : file) : list Z :=
  from_utf8_lossy (take (default (length (f_name f)) (find_index (fun x => x =? 0) (f_name f))) (f_name f)).

Lemma file_name_view fs i f own : CaInode.name_str (inode_view fs i f own) = file_name f.
Proof. done. Qed.

Lemma find_zero_app l k : 0 ∉ l -> (0 < k)%nat ->
  find_index (fun x => x =? 0) (l ++ replicate k 0) = Some (length l).
Proof.
  intros Hl Hk. induction l as [|x l IH].
  - destruct k; [lia|done].
  - apply not_elem_of_cons in Hl as [Hx Hl]. simpl. rewrite (proj2 (Z.eqb_neq _ _)) by lia. by rewrite IH.
Qed.

(** A file is listed under the name it was created with. *)
Lemma new_file_name ty name : zlen name <= NAME_LENGTH_LIMIT -> 0 ∉ name -> utf8 name = true ->
  file_name (new_file ty name) = name.
Proof.
  intros Hl H0 Hu. unfold file_name, new_file, CaInode.name_bytes, NAME_LENGTH_LIMIT in *. cbn [f_name].
  assert (E : splice 0 name (replicate 200 0) = name ++ replicate (200 - length name) 0).
  { unfold splice. rewrite take_0, drop_replicate, Nat.add_0_l. done. }
  rewrite E, find_zero_app by (done || lia). cbn [default from_option]. unfold id.
  rewrite take_app_length. by apply from_utf8_lossy_valid.
Qed.

(** ** Paths *)

(** The path of a file of the root directory. *)
Definition root_path (name : list Z) : list Z := SLASH :: name.

Lemma parse_root_path name : SLASH ∉ name -> VFS.parse_path (root_path name) = Ok (Path.mk [] name).
Proof.
  intros Hn. unfold VFS.parse_path, root_path. rewrite split_sep.
  by rewrite split_one.
Qed.

(** Paths with directories: [parents] then [name], each after a slash. *)
Definition full_path (parents : list (list Z)) (name : list Z) : list Z :=
  concat ((fun d => SLASH :: d) <$> (parents ++ [name])).

Lemma split_full ds : Forall (fun d => SLASH ∉ d) ds -> ds <> [] ->
  Utf8.split SLASH (concat ((fun d => SLASH :: d) <$> ds)) = [] :: ds.
Proof.
  induction 1 as [|d ds Hd Hds IH]; [done|]. intros _. rewrite fmap_cons. cbn [concat app].
  rewrite split_sep. f_equal. destruct ds as [|d' ds].
  - cbn [fmap list_fmap concat]. rewrite app_nil_r. by apply split_one.
  - specialize (IH ltac:(done)). rewrite fmap_cons in *. cbn [concat app] in *.
    rewrite split_app by done. rewrite split_sep in IH. injection IH as IH. by rewrite IH.
Qed.

Lemma parse_full_path parents name : Forall (fun d => SLASH ∉ d) parents -> SLASH ∉ name ->
  VFS.parse_path (full_path parents name) = Ok (Path.mk parents name).
Proof.
  intros Hp Hn. unfold VFS.parse_path, full_path.
  rewrite split_full; [|by apply Forall_app; auto|by destruct parents]. cbn [drop]. rewrite ?drop_0, last_snoc. omon.
  rewrite length_app. cbn [length]. by rewrite Nat.add_sub, take_app_length.
Qed.

(** Without a slash there is no name. *)
Lemma parse_relative path : SLASH ∉ path -> VFS.parse_path path = Fault (Panic PUnwrap).
Proof. intros Hp. unfold VFS.parse_path. by rewrite split_one. Qed.

(** ** The tree of entries *)

Definition entry_of (i : Z) (f : file) : DirEntry.t := DirEntry.mk (f_type f) i (file_name f) [].

(** The entry of a file listed in the root directory. *)
Definition listed (files : gmap Z file) (i : Z) (d : DirEntry.t) : Prop :=
  exists f, files !! i = Some f /\ f_type f = File /\ d = entry_of i f.

(** The root directory lists the files [nums], and [root] is its entry. *)
Record tree_ok (files : gmap Z file) (nums : list Z) (root : DirEntry.t) : Prop := {
  to_root : exists rf, files !! 0 = Some rf /\ f_type rf = Dir /\ f_data rf = dir_data nums /\
    root = DirEntry.mk Dir 0 (file_name rf) (DirEntry.subdirs root);
  to_nums : Forall u64 nums;
  to_subs : Forall2 (listed files) nums (DirEntry.subdirs root)
}.

(** The root directory on the disk, before its entries are read. *)
Definition flat (files : gmap Z file) (nums : list Z) : Prop :=
  (exists rf, files !! 0 = Some rf /\ f_type rf = Dir /\ f_data rf = dir_data nums) /\ Forall u64 nums /\
  Forall (fun i => exists f, files !! i = Some f /\ f_type f = File) nums.

(** The first listed file with this name. *)
Definition has_name (files : gmap Z file) (name : list Z) (i : Z) : bool :=
  bool_decide ((file_name <$> files !! i) = Some name).
Definition find_name (files : gmap Z file) (nums : list Z) (name : list Z) : option Z :=
  k ← find_index (has_name files name) nums; nums !! k.

Lemma find_subdir files nums subs name : Forall2 (listed files) nums subs ->
  find_index (fun d => bool_decide (DirEntry.name d = name)) subs = find_index (has_name files name) nums.
Proof.
  induction 1 as [|i d nums subs (f & Hf & Hty & ->) Hs IH]; [done|]. cbn [find_index].
  assert (E : bool_decide (DirEntry.name (entry_of i f) = name) = has_name files name i).
  { unfold has_name. rewrite Hf. cbn. apply bool_decide_ext. naive_solver. }
  rewrite E. destruct (has_name files name i); [done|]. by rewrite IH.
Qed.

(** Looking up a name in the root directory. *)
Lemma find_dentry_root files nums root name : tree_ok files nums root ->
  match find_name files nums name with
  | Some i => exists k f, VFS.find_dentry root [name] = inr [k] /\ files !! i = Some f /\
      DirEntry.at_ [k] root = Some (entry_of i f) /\ file_name f = name
  | None => VFS.find_dentry root [name] = inl (NotExist name)
  end.
Proof.
  intros [_ _ Hs]. unfold find_name. cbn [VFS.find_dentry]. rewrite (find_subdir _ _ _ _ Hs).
  destruct (find_index (has_name files name) nums) as [k|] eqn:E; [|done].
  apply find_index_Some in E as (i & Hi & Hn). cbn [mbind option_bind]. rewrite Hi.
  destruct (Forall2_lookup_l _ _ _ _ _ Hs Hi) as (d & Hd & f & Hf & Hty & ->).
  exists k, f. rewrite Hd. unfold has_name in Hn. rewrite Hf in Hn. apply bool_decide_eq_true in Hn.
  cbn [DirEntry.at_ mbind option_bind]. rewrite Hd. split_and!; try done. by injection Hn.
Qed.

(** ** Reading the entries of a directory *)
Section entries.
Context {C : Type} {n : Z} `{HL : BlockCacheLaws C n}.
Variable fs : CAFS.t.
Hypothesis geo : geometry n fs.

(** No variable holds an inode, and none is cached twice. *)
Definition idle (st : CAFS.state C) : Prop := CAFS.refs st = [] /\ NoDup (CAFS.inode_cache st).

Lemma count_nodup h l : NoDup l -> h ∈ l -> CAFS.count h l = 1%nat.
Proof.
  induction 1 as [|x l Hx Hl IH]; [by intros ?%elem_of_nil|]. rewrite elem_of_cons, count_cons.
  intros [-> |Hin].
  - rewrite decide_True by done. destruct (CAFS.count x l) eqn:E; [done|].
    destruct Hx. apply count_elem. lia.
  - rewrite decide_False by congruence. by rewrite IH.
Qed.

Lemma idle_room st : idle st -> room st.
Proof.
  intros [Hr Hnd]. destruct (CAFS.inode_cache st) as [|h q] eqn:E.
  - left. rewrite E. unfold INODE_CACHE_SIZE. simpl. lia.
  - right. exists h. rewrite E. split; [by left|]. unfold CAFS.strong_count. rewrite E, Hr.
    rewrite (count_nodup h (h :: q)) by (done || by left). done.
Qed.

Lemma idle_available st i : idle st -> available st i.
Proof. intros Hi. right. by apply idle_room. Qed.

Lemma new_dentry_spec st v files own i f : fs_inv (n := n) fs st v files own -> files !! i = Some f ->
  available st i ->
  runs (DirEntry.new fs i) st (fun d st' => d = entry_of i f /\ fs_inv (n := n) fs st' v files own /\
    CAFS.refs st' = CAFS.refs st /\ (NoDup (CAFS.inode_cache st) -> NoDup (CAFS.inode_cache st')) /\
    numbers_kept st st' /\ (length (CAFS.inode_cache st') <= S (length (CAFS.inode_cache st)))%nat /\
    (CAFS.find_cached st i <> None -> CAFS.inode_cache st' = CAFS.inode_cache st)).
Proof.
  intros Hinv Hf Hav. unfold DirEntry.new, CAFS.inode.
  eapply runs_bind; [by apply (cainode_spec fs geo st v files own i f)|].
  intros h st2 [Hinv2 Hh _ Hr2 Hlen2 Hnd2 Hpre Hfound]. eapply runs_deref; [exact Hh|].
  eapply runs_bind; [by apply (drop_inv fs geo st2 v files own h)|]. intros _ st4 [Hinv4 ->].
  apply runs_ret. cbn [CAFS.refs CAFS.inode_cache]. split_and!; try done.
  - rewrite Hr2. cbn [CAFS.remove_one]. by rewrite decide_True.
  - intros h0 c0 Hh0%Hpre. eauto.
  - intros Hfc. destruct (CAFS.find_cached st i) as [h0|] eqn:E; [|done]. by destruct (Hfound h0 eq_refl) as (_ & -> & _).
Qed.

(** A file has no entries below it. *)
Lemma read_sub_file fuel st v files own i f : fs_inv (n := n) fs st v files own -> files !! i = Some f ->
  f_type f = File -> idle st ->
  runs (DirEntry.read_sub_dentry fs (S fuel) (entry_of i f)) st (fun d st' => d = entry_of i f /\
    fs_inv (n := n) fs st' v files own /\ idle st').
Proof.
  intros Hinv Hf Hty Hidle. cbn [DirEntry.read_sub_dentry].
  eapply runs_bind; [by apply (sub_inodes_file fs geo st v files own i f); [..|apply idle_available|]|].
  intros r st' (-> & Hinv' & Hr' & _ & Hnd'). apply runs_ret. split_and!; try done.
  destruct Hidle as [Hr Hnd]. split; [congruence|auto].
Qed.

(** The loop over the entries. *)
Lemma read_entries fuel nums : forall root st v files own, fs_inv (n := n) fs st v files own -> idle st ->
  Forall (fun i => exists f, files !! i = Some f /\ f_type f = File) nums ->
  runs (foldM (fun parent_dentry inode_number =>
      dentry ← DirEntry.new fs inode_number;
      dentry ← DirEntry.read_sub_dentry fs (S fuel) dentry;
      mret (DirEntry.push dentry parent_dentry)) root nums) st (fun root' st' =>
    fs_inv (n := n) fs st' v files own /\ idle st' /\ exists subs, Forall2 (listed files) nums subs /\
      root' = DirEntry.mk (DirEntry.inode_type root) (DirEntry.inode_number root) (DirEntry.name root)
        (DirEntry.subdirs root ++ subs)).
Proof.
  induction nums as [|i nums IH]; intros root st v files own Hinv Hidle Hn; cbn [foldM].
  { apply runs_ret. split_and!; try done. exists []. rewrite app_nil_r. split; [done|]. by destruct root. }
  apply Forall_cons in Hn as [(f & Hf & Hty) Hn].
  eapply (runs_bind _ _ _ (fun r st' => fs_inv (n := n) fs st' v files own /\ idle st' /\
    r = DirEntry.push (entry_of i f) root)).
  - eapply runs_bind; [by apply (new_dentry_spec st v files own i f); [..|apply idle_available]|].
    intros d st1 (-> & Hinv1 & Hr1 & Hnd1 & _).
    assert (Hidle1 : idle st1) by (destruct Hidle as [Hr Hnd]; split; [congruence|auto]).
    eapply runs_bind; [by apply (read_sub_file fuel st1 v files own i f)|].
    intros d st2 (-> & Hinv2 & Hidle2). by apply runs_ret.
  - intros r st1 (Hinv1 & Hidle1 & ->). eapply runs_conseq; [by apply IH|].
    intros root' st2 (Hinv2 & Hidle2 & subs & Hs & ->). split_and!; try done.
    exists (entry_of i f :: subs). split; [constructor; [by exists f|done]|].
    unfold DirEntry.push. cbn [DirEntry.inode_type DirEntry.inode_number DirEntry.name DirEntry.subdirs].
    by rewrite <- app_assoc.
Qed.

(** The entries of a flat file system: depth two is enough. *)
Lemma read_root fuel st v files own nums : fs_inv (n := n) fs st v files own -> idle st -> flat files nums ->
  runs (root_dentry ← DirEntry.new fs 0; DirEntry.read_sub_dentry fs (S (S fuel)) root_dentry) st
    (fun root st' => fs_inv (n := n) fs st' v files own /\ idle st' /\ tree_ok files nums root).
Proof.
  intros Hinv Hidle ((rf & Hrf & Hty & Hdat) & Hu & Hn).
  eapply runs_bind; [by apply (new_dentry_spec st v files own 0 rf); [..|apply idle_available]|].
  intros d st1 (-> & Hinv1 & Hr1 & Hnd1 & _).
  assert (Hidle1 : idle st1) by (destruct Hidle as [Hr Hnd]; split; [congruence|auto]).
  cbn [DirEntry.read_sub_dentry].
  eapply runs_bind; [by apply (sub_inodes_spec fs geo st1 v files own 0 rf nums); auto; apply idle_available|].
  intros r st2 (-> & Hinv2 & Hr2 & _ & Hnd2).
  assert (Hidle2 : idle st2) by (destruct Hidle1 as [Hr Hnd]; split; [congruence|auto]).
  eapply runs_conseq; [by apply (read_entries fuel nums (entry_of 0 rf) st2 v files own)|].
  intros root st3 (Hinv3 & Hidle3 & subs & Hs & ->). split_and!; try done.
  cbn [entry_of DirEntry.subdirs app]. split; try done. exists rf. split_and!; try done.
  unfold entry_of. cbn [DirEntry.inode_type DirEntry.inode_number DirEntry.name DirEntry.subdirs app]. by rewrite Hty.
Qed.
End entries.

(** ** The operations on paths *)
Section vfs.
Context {C : Type} {n : Z} `{HL : BlockCacheLaws C n}.
Variable fs : CAFS.t.
Hypothesis geo : geometry n fs.

(** The files on the disk and the entries in memory agree. *)
Record vfs_inv (st : VFS.state C) (v : Z -> list Z) (files : gmap Z file)
    (own : Z -> list Z * list Z) (nums : list Z) : Prop := {
  vi_fs : fs_inv (n := n) fs (VFS.primary_partition st) v files own;
  vi_tree : tree_ok files nums (VFS.dentry_cache st)
}.

Lemma runs_fs {A B} (m : M (CAFS.state C) A) (k : A -> M (VFS.state C) B) st Q P :
  runs m (VFS.primary_partition st) Q ->
  (forall a p, Q a p -> runs (k a) (VFS.St p (VFS.dentry_cache st)) P) -> runs (VFS.on_fs m ≫= k) st P.
Proof.
  intros (a & p & E & HQ) Hk. destruct (Hk a p HQ) as (b & st' & E' & HP). exists b, st'.
  unfold mbind, M_bind, VFS.on_fs, zoom. by rewrite E.
Qed.

Lemma runs_fs_deref {B} h c (k : CaInode.t -> M (VFS.state C) B) st P :
  CAFS.heap (VFS.primary_partition st) !! h = Some c -> runs (k c) st P ->
  runs (VFS.on_fs (CAFS.deref h) ≫= k) st P.
Proof.
  intros Hh (b & st' & E' & HP). exists b, st'. unfold mbind, M_bind, VFS.on_fs, zoom, CAFS.deref. rewrite Hh.
  omon. by destruct st.
Qed.

Lemma runs_lookup {A} dirs (k : Error + list nat -> M (VFS.state C) A) st P :
  runs (k (VFS.find_dentry (VFS.dentry_cache st) dirs)) st P -> runs (VFS.lookup_dentry dirs ≫= k) st P.
Proof. done. Qed.

Lemma runs_dentry {A} pos d (k : DirEntry.t -> M (VFS.state C) A) st P :
  DirEntry.at_ pos (VFS.dentry_cache st) = Some d -> runs (k d) st P -> runs (VFS.dentry_at pos ≫= k) st P.
Proof. intros Hd (a & st' & E & HP). exists a, st'. unfold mbind, M_bind, VFS.dentry_at. by rewrite Hd. Qed.

Lemma runs_push {B} pos d (k : unit -> M (VFS.state C) B) st P :
  runs (k tt) (VFS.St (VFS.primary_partition st)
    (DirEntry.update pos (DirEntry.push d) (VFS.dentry_cache st))) P ->
  runs (VFS.push_dentry pos d ≫= k) st P.
Proof. done. Qed.

(** The length of the inode cache. *)
Definition cached_inodes (st : VFS.state C) : nat := length (CAFS.inode_cache (VFS.primary_partition st)).

(** Reading a path: the contents of the first file with that name, or an error. *)
Lemma read_path_spec st v files own nums name : vfs_inv st v files own nums -> SLASH ∉ name ->
  (forall i, available (VFS.primary_partition st) i) ->
  runs (VFS.read_unstable fs (root_path name)) st (fun r st' => vfs_inv st' v files own nums /\
    CAFS.refs (VFS.primary_partition st') = CAFS.refs (VFS.primary_partition st) /\
    (cached_inodes st' <= S (cached_inodes st))%nat /\
    match find_name files nums name with
    | Some i => exists f, files !! i = Some f /\ r = inr (f_data f)
    | None => r = inl (NotExist name)
    end).
Proof.
  intros [Hinv Htree] Hn Hav. unfold VFS.read_unstable.
  eapply runs_lift; [by apply parse_root_path|]. cbn [Path.parents Path.name app]. apply runs_lookup.
  pose proof (find_dentry_root files nums _ name Htree) as Hfind.
  destruct (find_name files nums name) as [i|].
  - destruct Hfind as (k & f & -> & Hf & Hat & _). eapply runs_dentry; [exact Hat|].
    unfold CAFS.inode. cbn [entry_of DirEntry.inode_number].
    eapply runs_fs; [by apply (cainode_spec fs geo _ v files own i f)|].
    intros h p1 [Hinv1 Hh _ Hr1 Hl1 _ _ _]. eapply runs_fs_deref; [exact Hh|].
    eapply runs_fs; [by apply (file_data_spec fs geo p1 v files own i f)|].
    intros d p2 (-> & Hinv2 & _ & Hc2 & Hr2). cbn [VFS.dentry_cache].
    eapply runs_fs; [by apply (drop_inv fs geo p2 v files own h)|]. intros _ p3 [Hinv3 ->].
    apply runs_ret. split_and!; [by split| |by unfold cached_inodes; cbn; rewrite Hc2|eauto].
    cbn [VFS.primary_partition CAFS.refs]. rewrite Hr2, Hr1. cbn [CAFS.remove_one]. by rewrite decide_True.
  - rewrite Hfind. apply runs_ret. split_and!; [by split|done|lia|done].
Qed.

(** Writing a path that exists. *)
Lemma write_path_spec st v files own nums name i f c : vfs_inv st v files own nums -> SLASH ∉ name ->
  find_name files nums name = Some i -> files !! i = Some f -> i <> 0 ->
  available (VFS.primary_partition st) i -> Forall u8 c -> zlen c <= L4_MAX ->
  cdiv (zlen (f_data f)) 512 <= cdiv (zlen c) 512 -> need (zlen (f_data f)) (zlen c) <= free fs v ->
  runs (VFS.write fs (root_path name) c) st (fun r st' => r = inr tt /\ exists v' own',
    vfs_inv st' v' (<[i := set_data f c]> files) own' nums /\
    free fs v' = free fs v - need (zlen (f_data f)) (zlen c) /\
    (cached_inodes st' <= S (cached_inodes st))%nat).
Proof.
  intros [Hinv Htree] Hn Hfn Hf Hi Hav Hc Hmax Hcd Hneed. unfold VFS.write.
  eapply runs_lift; [by apply parse_root_path|]. cbn [Path.parents Path.name app]. apply runs_lookup.
  pose proof (find_dentry_root files nums _ name Htree) as Hfind. rewrite Hfn in Hfind.
  destruct Hfind as (k & f' & -> & Hf' & Hat & _). simplify_eq. eapply runs_dentry; [exact Hat|].
  cbn [entry_of DirEntry.inode_number].
  eapply runs_fs; [by apply (write_spec fs geo _ v files own i f c)|].
  intros _ p1 (v' & own' & Hinv' & Hfree' & _ & _ & Hl & _). apply runs_ret. split; [done|]. exists v', own'.
  split; [|done]. split; [done|]. cbn [VFS.dentry_cache]. destruct Htree as [(rf & Hrf & Hrest) Hu Hs].
  split; [|done|].
  - exists rf. rewrite lookup_insert_ne by done. done.
  - eapply Forall2_impl; [exact Hs|]. intros j d (g & Hg & Hty & ->).
    destruct (decide (j = i)) as [->|Hne].
    + simplify_eq. exists (set_data f c). by rewrite lookup_insert_eq.
    + exists g. by rewrite lookup_insert_ne.
Qed.

(** The entries after a file was created. *)
Lemma tree_create files nums root rf i g : tree_ok files nums root -> files !! 0 = Some rf ->
  files !! i = None -> f_type g = File -> u64 i ->
  tree_ok (<[0 := set_data rf (append_entry (f_data rf) i)]> (<[i := g]> files)) (nums ++ [i])
    (DirEntry.push (entry_of i g) root).
Proof.
  intros [(rf' & Hrf & Hty & Hdat & Hroot) Hu Hs] Hrf' Hi Hg Hiu. assert (rf' = rf) as -> by congruence. assert (i <> 0) by congruence.
  split.
  - exists (set_data rf (append_entry (f_data rf) i)). rewrite lookup_insert_eq, Hdat, append_entry_dir.
    split_and!; try done. rewrite Hroot. done.
  - apply Forall_app. split; [done|]. by constructor.
  - unfold DirEntry.push. cbn [DirEntry.subdirs]. apply Forall2_app.
    + eapply Forall2_impl; [exact Hs|]. intros j d (f & Hf & Htyf & ->).
      assert (j <> 0) by congruence. assert (j <> i) by congruence.
      exists f. by rewrite !lookup_insert_ne.
    + constructor; [|constructor]. exists g. by rewrite lookup_insert_ne, lookup_insert_eq.
Qed.

(** Creating a file below the entry [d], whatever file that is: the number of the new
    file is appended to its contents, and [d] gets an entry in memory. *)
Lemma create_at_spec st v files own path parents name pos d fp k :
  fs_inv (n := n) fs (VFS.primary_partition st) v files own ->
  VFS.parse_path path = Ok (Path.mk parents name) -> VFS.find_dentry (VFS.dentry_cache st) parents = inr pos ->
  DirEntry.at_ pos (VFS.dentry_cache st) = Some d -> files !! DirEntry.inode_number d = Some fp ->
  0 <= k < inode_count fs -> files !! k = None ->
  (length (CAFS.inode_cache (VFS.primary_partition st)) + 3 <= INODE_CACHE_SIZE)%nat ->
  zlen name <= NAME_LENGTH_LIMIT -> Forall u8 name -> entry_size (f_data fp) <= L4_MAX ->
  need (zlen (f_data fp)) (entry_size (f_data fp)) <= free fs v ->
  runs (VFS.create fs path) st (fun r st' => r = inr tt /\ exists i v' own',
    files !! i = None /\ 0 <= i < inode_count fs /\ (forall j, 0 <= j < i -> is_Some (files !! j)) /\
    fs_inv (n := n) fs (VFS.primary_partition st') v' (<[DirEntry.inode_number d := set_data fp (append_entry (f_data fp) i)]>
      (<[i := new_file File name]> files)) own' /\
    VFS.dentry_cache st' = DirEntry.update pos (DirEntry.push (entry_of i (new_file File name))) (VFS.dentry_cache st) /\
    free fs v' = free fs v - need (zlen (f_data fp)) (entry_size (f_data fp)) /\
    CAFS.refs (VFS.primary_partition st') = CAFS.refs (VFS.primary_partition st) /\
    (cached_inodes st' <= cached_inodes st + 3)%nat).
Proof.
  intros Hinv Hpath Hfind Hat Hfp Hk Hfree Hlen Hl Hu Hmax Hneed. unfold VFS.create.
  eapply runs_lift; [exact Hpath|]. cbn [Path.parents Path.name]. apply runs_lookup. rewrite Hfind.
  eapply runs_dentry; [exact Hat|]. set (p := DirEntry.inode_number d) in *.
  eapply runs_fs; [by apply (create_spec fs geo _ v files own p fp name k)|].
  intros h p1 (i & v1 & own1 & Hnone & Hi & Hfirst & Hinv1 & Hf1 & Hh1 & Hr1 & Hl1 & _).
  eapply runs_fs_deref; [exact Hh1|]. cbn [inode_view CaInode.inode_number].
  set (files1 := <[p := _]> _) in *. assert (Hip : p <> i) by congruence.
  assert (Hfi : files1 !! i = Some (new_file File name)).
  { unfold files1. by rewrite lookup_insert_ne, lookup_insert_eq. }
  assert (Hin : h ∈ CAFS.inode_cache p1) by (apply (mo_refs _ _ _ _ (fi_mem _ _ _ _ _ Hinv1)); rewrite Hr1; by left).
  assert (Hfc : CAFS.find_cached p1 i <> None) by (by erewrite cached_found; [..|exact Hh1]; [|apply Hinv1|done]).
  eapply runs_fs; [by apply (new_dentry_spec fs geo _ v1 files1 own1 i (new_file File name)); [..|left]|].
  intros e p2 (-> & Hinv2 & Hr2 & _ & _ & _ & Hc2).
  apply runs_push. cbn [VFS.primary_partition VFS.dentry_cache].
  eapply runs_fs; [by apply (drop_inv fs geo p2 v1 files1 own1 h)|]. intros _ p3 [Hinv3 ->].
  apply runs_ret. split; [done|]. exists i, v1, own1. cbn [VFS.primary_partition VFS.dentry_cache CAFS.refs].
  split_and!; try done; try lia.
  - rewrite Hr2. cbn [VFS.primary_partition]. rewrite Hr1. cbn [CAFS.remove_one]. by rewrite decide_True.
  - unfold cached_inodes. cbn. by rewrite Hc2.
Qed.

(** Creating a file in the root directory. *)
Lemma create_path_spec st v files own nums rf name k : vfs_inv st v files own nums -> SLASH ∉ name ->
  files !! 0 = Some rf -> 0 <= k < inode_count fs -> files !! k = None ->
  (length (CAFS.inode_cache (VFS.primary_partition st)) + 3 <= INODE_CACHE_SIZE)%nat ->
  zlen name <= NAME_LENGTH_LIMIT -> Forall u8 name -> entry_size (f_data rf) <= L4_MAX ->
  need (zlen (f_data rf)) (entry_size (f_data rf)) <= free fs v ->
  runs (VFS.create fs (root_path name)) st (fun r st' => r = inr tt /\ exists i v' own',
    files !! i = None /\ (forall j, 0 <= j < i -> is_Some (files !! j)) /\
    vfs_inv st' v' (<[0 := set_data rf (append_entry (f_data rf) i)]> (<[i := new_file File name]> files)) own'
      (nums ++ [i]) /\
    free fs v' = free fs v - need (zlen (f_data rf)) (entry_size (f_data rf)) /\
    CAFS.refs (VFS.primary_partition st') = CAFS.refs (VFS.primary_partition st) /\
    (cached_inodes st' <= cached_inodes st + 3)%nat).
Proof.
  intros [Hinv Htree] Hn Hrf Hk Hfree Hlen Hl Hu Hmax Hneed.
  assert (E0 : DirEntry.inode_number (VFS.dentry_cache st) = 0).
  { destruct Htree as [(? & _ & _ & _ & ->) _ _]. done. }
  eapply runs_conseq.
  - apply (create_at_spec st v files own (root_path name) [] name [] (VFS.dentry_cache st) rf k); try done.
    + by apply parse_root_path.
    + by rewrite E0.
  - intros r st' (-> & i & v' & own' & Hnone & Hi & Hfirst & Hinv' & Hd & Hf' & Hr' & Hl'). rewrite E0 in Hinv'.
    split; [done|]. exists i, v', own'. split_and!; try done. split; [done|]. rewrite Hd.
    apply tree_create; try done. pose proof (geometry_order _ _ geo). unfold u64. lia.
Qed.
End vfs.
