(* ===== verification/Errors.v ===== *)
(** How the operations of [CAFS] fail when something is exhausted: the free blocks of the
    disk, or the inode cache. *)
From S2P Require Import Prelude Device Block Manager Bitmap Layout Index Resize InodeNumber Utf8 Cafs Contents Files Inodes Directory.
From Stdlib Require Import ZArith Lia.
From stdpp Require Import gmap functions sorting list_numbers list.
Local Open Scope Z_scope.

Section errors.
Context {C : Type} {n : Z} `{HL : BlockCacheLaws C n}.
Variable fs : CAFS.t.
Hypothesis geo : geometry n fs.

(** ** A full disk *)

Lemma resize_meta_full v h m index data new_size : clear_of fs h -> inode_ok v m index data ->
  Meta.size m < new_size <= L4_MAX -> free fs v < need (Meta.size m) new_size ->
  faults n (CAFS.resize_meta fs new_size m) v h (Panic PData).
Proof.
  intros Hh Hm Hs Hf. pose proof (io_size _ _ _ _ Hm) as Hs0. unfold CAFS.resize_meta.
  destruct (index_blocks_shape (Meta.size m) Hs0) as (info & Hi & Hsh).
  destruct (index_blocks_shape new_size ltac:(lia)) as (info' & Hi' & Hsh').
  unfold need in Hf. rewrite (index_need_ok _ _ Hi), (index_need_ok _ _ Hi') in Hf.
  assert (Hc : cdiv (Meta.size m) 512 <= cdiv new_size 512) by size_lia.
  pose proof (shape_mono (Meta.size m) new_size _ _ ltac:(lia) ltac:(lia) Hc Hsh Hsh') as Hmono.
  eapply faults_bind_lift; [done|]. eapply faults_bind_lift; [done|]. apply faults_bind.
  rewrite (proj2 (Z.ltb_lt _ _)) by lia.
  eapply faults_bind_lift; [apply data_blocks_ok; lia|]. eapply faults_bind_lift; [apply data_blocks_ok; lia|].
  eapply faults_bind_lift; [apply sub64_ok; lia|].
  destruct (Z.le_gt_cases (cdiv new_size 512 - cdiv (Meta.size m) 512) (free fs v)) as [Hle|Hgt].
  - eapply faults_spec_bind; [apply (alloc_datas_spec fs geo); [done|lia]|]. intros nd v1 [Hnd A1].
    eapply faults_bind_lift; [apply (index_block_count_ok new_size); [lia|done]|].
    eapply faults_bind_lift; [apply (index_block_count_ok (Meta.size m)); [lia|done]|].
    eapply faults_bind_lift; [apply sub64_ok; lia|].
    apply faults_bind, (alloc_datas_full fs geo); [done|]. rewrite (al_free _ _ _ _ A1). lia.
  - apply faults_bind, (alloc_datas_full fs geo); [done|lia].
Qed.

(** Nothing the caller holds is in the way while the inode's block is held. *)
Lemma clear_inode i l : 0 <= i < inode_count fs -> clear_of fs [(inode_block fs i, l)].
Proof.
  intros Hi. destruct (inode_block_bounds fs n i geo Hi) as (_ & Hnd & Hnb & _).
  split; [unfold CACHE_SIZE; simpl; lia|]. intros b Hb. simpl. rewrite list_elem_of_singleton. intros ->. tauto.
Qed.

(** A fault of the closure of [write] is a fault of [write]. *)
Lemma write_fault st v files own i f c e : fs_inv (n := n) fs st v files own -> files !! i = Some f ->
  available st i ->
  faults n (CAFS.resize_meta fs (zlen c) (meta_of fs v i)) v [(inode_block fs i, Wr)] e ->
  CAFS.write fs i c st = Fault e.
Proof.
  intros Hinv Hf Hav Hfault. unfold CAFS.write.
  destruct (cainode_spec fs geo st v files own i f Hinv Hf Hav) as (h & st1 & E & [[Hr Hd Hm] _ _ _ _ _ _ _]).
  pose proof (do_num _ _ _ _ Hd i f Hf) as Hi. destruct (inode_block_bounds fs n i geo Hi) as (Hb & _).
  assert (Hw : faults n (modify_at Meta.t (inode_block fs i) 0 (CAFS.resize_meta fs (zlen c))) v [] e).
  { apply (faults_modify_at Meta.t); [lia|apply not_elem_of_nil|unfold CACHE_SIZE; simpl; lia|done|done|done]. }
  unfold mbind, M_bind. rewrite E. rewrite (inode_pos fs geo i Hi). unfold lift, CAFS.cached, zoom.
  by rewrite (Hw _ Hr).
Qed.

(** Not enough free blocks. *)
Lemma write_full st v files own i f c : fs_inv (n := n) fs st v files own -> files !! i = Some f ->
  available st i -> zlen (f_data f) < zlen c <= L4_MAX -> free fs v < need (zlen (f_data f)) (zlen c) ->
  CAFS.write fs i c st = Fault (Panic PData).
Proof.
  intros Hinv Hf Hav Hs Hfree. destruct (do_file _ _ _ _ (fi_disk _ _ _ _ _ Hinv) i f Hf) as [Hok _ _ Hsz _].
  pose proof (do_num _ _ _ _ (fi_disk _ _ _ _ _ Hinv) i f Hf) as Hi.
  eapply write_fault; eauto. rewrite <- Hsz in *. eapply resize_meta_full; eauto. by apply clear_inode.
Qed.

(** ** A full inode cache *)

(** [create] caches a new inode twice, so it can never be evicted. *)
Definition pinned (st : CAFS.state C) (hp : nat) : Prop :=
  forall h, h ∈ CAFS.inode_cache st -> h = hp \/ (2 <= CAFS.count h (CAFS.inode_cache st))%nat.

(** With 31 inodes cached and all of them but the parent's pinned, [create] panics:
    the first push fills the cache, and the second finds nothing to evict. *)
Lemma create_exhausted st v files own p fp hp name k : fs_inv (n := n) fs st v files own ->
  files !! p = Some fp -> 0 <= k < inode_count fs -> files !! k = None ->
  length (CAFS.inode_cache st) = 31%nat -> CAFS.find_cached st p = Some hp -> pinned st hp ->
  zlen name <= NAME_LENGTH_LIMIT -> Forall u8 name -> entry_size (f_data fp) <= L4_MAX ->
  need (zlen (f_data fp)) (entry_size (f_data fp)) <= free fs v ->
  CAFS.create fs p name st = Fault (Panic PInodeCache).
Proof.
  intros Hinv Hp Hk Hfree Hlen Hfp Hpin Hl Hu Hmax Hneed. unfold CAFS.create.
  destruct (alloc_inode_meta_spec fs geo st v files own File name k Hinv Hk Hfree) as
    (h & st1 & E1 & [(i & v1 & own1 & Hnone & Hi & Hfirst & Hinv1 & Hf1 & Hh1) (q & Hq & [_ _ _ _ _ Ks]) Hr1 Hfr Hpre1]);
    [left; unfold INODE_CACHE_SIZE; lia|done|done|].
  rewrite Ks in Hq by (unfold INODE_CACHE_SIZE; lia).
  assert (Hfp1 : CAFS.find_cached st1 p = Some hp).
  { destruct (find_cached_Some fs st files own hp p (fi_mem _ _ _ _ _ Hinv) Hfp) as (Hin & f0 & Hf0 & Hheap).
    destruct (mo_cached _ _ _ _ (fi_mem _ _ _ _ _ Hinv1) hp) as (j & g & Hg & Hj).
    { rewrite Hq. apply elem_of_app. by left. }
    assert (j = p) as -> by (rewrite (Hpre1 _ _ Hheap) in Hj; by injection Hj).
    eapply (cached_found fs); [apply Hinv1| |exact Hj]. rewrite Hq. apply elem_of_app. by left. }
  unfold mbind at 1, M_bind at 1. rewrite E1.
  apply (link_steps fs geo (fun parent => CAFS.arc_clone h ;; CAFS.add_inode_cache h ;; CAFS.arc_drop parent ;; mret h)
    (fun o => o = Fault (Panic PInodeCache)) st1 v1 _ own1 h i (new_file File name) p fp Hinv1); try done.
  - rewrite lookup_insert_ne by congruence. done.
  - apply lookup_insert_eq.
  - congruence.
  - rewrite Hr1. by left.
  - left. by rewrite Hfp1.
  - by rewrite Hf1.
  - intros hp' st4 [_ Hr4 _ _ Hfound]. destruct (Hfound hp Hfp1) as [-> Hc4]. rewrite Hq in Hc4. rewrite Hr1 in Hr4.
    unfold mbind, M_bind, CAFS.arc_clone, CAFS.add_inode_cache, mbind, M_bind.
    rewrite substitute_full; [done|..]; cbn [CAFS.inode_cache CAFS.refs].
    + rewrite Hc4, length_app. unfold INODE_CACHE_SIZE. simpl. lia.
    + intros x. rewrite Hc4, elem_of_app, list_elem_of_singleton. unfold CAFS.strong_count.
      cbn [CAFS.inode_cache CAFS.refs]. rewrite Hr4, count_app, !count_cons. intros Hx.
      assert (Hx' : x = h \/ x = hp \/ (2 <= CAFS.count x (CAFS.inode_cache st))%nat).
      { destruct Hx as [Hx| ->]; [destruct (Hpin x Hx); auto|auto]. }
      destruct Hx' as [-> |[-> |?]]; [rewrite !(decide_True (P := h = h)) by done; lia| |lia].
      rewrite (decide_True (P := hp = hp)) by done.
      destruct (find_cached_Some fs st files own hp p (fi_mem _ _ _ _ _ Hinv) Hfp) as (Hin & _).
      apply count_elem in Hin. lia.
Qed.

(** [pinned] after a successful [create]. *)
Lemma pinned_create st st' hp h : pinned st hp -> CAFS.inode_cache st' = CAFS.inode_cache st ++ [h; h] ->
  pinned st' hp.
Proof.
  intros Hpin Hc x. rewrite Hc, elem_of_app, count_app, !count_cons. intros [Hx|Hx].
  - destruct (Hpin x Hx); [by left|right; lia].
  - assert (x = h) as -> by set_solver. right. rewrite !decide_True by done. lia.
Qed.
End errors.
