(* ===== verification/Shrink.v ===== *)
(** [CAFS::write] when the file gives blocks back (fs/src/cafs/mod.rs, the second branch of
    the closure of [write]).

    [Meta::shrink] returns the numbers of blocks of the disk, and [write] hands them to
    [dealloc] of the data bitmap, whose bits are counted from the start of the data area.
    This file says exactly what that does: which bits are cleared, when it panics, and what
    the disk holds afterwards. *)
From S2P Require Import Prelude Device Block Manager Bitmap Layout Index Resize InodeNumber Utf8 Cafs Contents Files Inodes Directory Errors.
From Stdlib Require Import ZArith Lia.
From stdpp Require Import gmap functions sorting list_numbers list.
Local Open Scope Z_scope.

(** The blocks that a file of [new_size] bytes keeps of its index blocks, which [shrink]
    sorts, and of its data blocks; and those that it gives back, in order. *)
Definition kept_index (new_size : Z) (index : list Z) : list Z := take (Z.to_nat (index_need new_size)) (merge_sort Z.le index).
Definition kept_data (new_size : Z) (data : list Z) : list Z := take (Z.to_nat (cdiv new_size 512)) data.
Definition given_back (new_size : Z) (index data : list Z) : list Z :=
  reverse (drop (Z.to_nat (index_need new_size)) (merge_sort Z.le index)) ++
  reverse (drop (Z.to_nat (cdiv new_size 512)) data).

(** The file keeps or gives back each of its blocks. *)
Lemma given_back_perm new_size index data :
  index ++ data ≡ₚ (kept_index new_size index ++ kept_data new_size data) ++ given_back new_size index data.
Proof.
  unfold kept_index, kept_data, given_back. rewrite !reverse_Permutation.
  set (k := Z.to_nat (index_need new_size)). set (j := Z.to_nat (cdiv new_size 512)).
  transitivity (merge_sort Z.le index ++ data); [by rewrite merge_sort_Permutation|].
  rewrite <- (take_drop k (merge_sort Z.le index)), <- (take_drop j data) at 1. solve_Permutation.
Qed.

Section shrink.
Context {C : Type} {n : Z} `{HL : BlockCacheLaws C n}.
Variable fs : CAFS.t.
Hypothesis geo : geometry n fs.
Abbreviation bit v j := (Bitmap.bit (CAFS.data_bitmap fs) v j).

(** ** Clearing bits *)

(** The bits [ids] of the data bitmap are cleared, and nothing else is changed. *)
Definition cleared (ids : list Z) (v v' : Z -> list Z) : Prop :=
  (forall j, 0 <= j < data_count fs -> bit v' j = bit v j && negb (bool_decide (j ∈ ids))) /\
  (forall b, (~ in_data_bitmap fs b) -> v' b = v b).

Lemma cleared_nil v : cleared [] v v.
Proof. split; [|done]. intros j _. by rewrite bool_decide_false, andb_true_r by apply not_elem_of_nil. Qed.

Lemma cleared_app ids ids' v v1 v' : cleared ids v v1 -> cleared ids' v1 v' -> cleared (ids ++ ids') v v'.
Proof.
  intros [B1 O1] [B2 O2]. split; [|intros b Hb; by rewrite O2, O1].
  intros j Hj. rewrite B2, B1, <- andb_assoc, <- negb_orb, <- bool_decide_or by done. do 2 f_equal.
  apply bool_decide_ext. by rewrite elem_of_app.
Qed.

Lemma dealloc_one b v h : clear_of fs h -> 0 <= b < data_count fs -> bit v b = true ->
  spec n (Bitmap.dealloc (CAFS.data_bitmap fs) b) v h (fun _ v' => cleared [b] v v').
Proof.
  intros Hh Hb Hbit. eapply spec_conseq.
  - apply Bitmap.dealloc_correct; try done; [by apply geometry_data_bitmap|by apply unheld_data_bitmap|destruct Hh; lia].
  - intros _ v' [Hw Ho]. split.
    + intros j Hj. rewrite Hw by lia. destruct (decide (j = b)) as [->|Hne].
      * by rewrite bool_decide_true, andb_false_r by set_solver.
      * by rewrite bool_decide_false, andb_true_r by set_solver.
    + intros x Hx. apply Ho. intros ->. apply Hx. unfold in_data_bitmap.
      destruct (Bitmap.decompose_bounds _ b Hb) as (? & _). lia.
Qed.

Lemma deallocs_ok ids : forall v h, clear_of fs h -> NoDup ids -> Forall (fun b => 0 <= b < data_count fs) ids ->
  Forall (fun b => bit v b = true) ids ->
  spec n (forM (fun id => Bitmap.dealloc (CAFS.data_bitmap fs) id) ids) v h (fun _ v' => cleared ids v v').
Proof.
  induction ids as [|b ids IH]; intros v h Hh Hnd Hr Hbit; unfold forM; cbn [foldM]; [apply spec_ret, cleared_nil|].
  apply NoDup_cons in Hnd as [Hni Hnd]. apply Forall_cons in Hr as [Hb Hr], Hbit as [Hbb Hbit].
  eapply spec_bind; [by apply dealloc_one|]. intros [] v1 Hc.
  eapply spec_conseq; [apply (IH v1 h); try done|intros u v' Hu; by apply (cleared_app [b] _ v v1)].
  apply Forall_forall. intros x Hx. rewrite (proj1 Hc) by (by eapply Forall_forall in Hr).
  rewrite bool_decide_false by set_solver. eapply Forall_forall in Hbit; [|exact Hx]. by rewrite Hbit.
Qed.

(** One of the bits is already clear. *)
Lemma deallocs_fault ids : forall v h, clear_of fs h -> NoDup ids -> Forall (fun b => 0 <= b < data_count fs) ids ->
  ~ Forall (fun b => bit v b = true) ids ->
  faults n (forM (fun id => Bitmap.dealloc (CAFS.data_bitmap fs) id) ids) v h (Panic PAssert).
Proof.
  induction ids as [|b ids IH]; intros v h Hh Hnd Hr Hbit; [by destruct Hbit|]. unfold forM. cbn [foldM].
  apply NoDup_cons in Hnd as [Hni Hnd]. apply Forall_cons in Hr as [Hb Hr]. destruct (bit v b) eqn:Hbb.
  - eapply faults_spec_bind; [by apply dealloc_one|]. intros [] v1 Hc. apply (IH v1 h); try done. intros Hall.
    apply Hbit. constructor; [done|]. apply Forall_forall. intros x Hx. eapply Forall_forall in Hall; [|exact Hx].
    rewrite (proj1 Hc) in Hall by (by eapply Forall_forall in Hr). by apply andb_prop in Hall as [? _].
  - apply faults_bind, Bitmap.dealloc_clear; try done; [by apply geometry_data_bitmap|by apply unheld_data_bitmap|destruct Hh; lia].
Qed.

(** ** The closure of [write] *)

(** The inode [m] with its blocks becomes [m'], which keeps some of them. *)
Record shrunk (v : Z -> list Z) (m : Meta.t) (index data : list Z) (new_size : Z) (m' : Meta.t) (v' : Z -> list Z) : Prop := {
  sh_ok : inode_ok v' m' (kept_index new_size index) (kept_data new_size data);
  sh_size : Meta.size m' = new_size;
  sh_type : Meta.type_ m' = Meta.type_ m;
  sh_name : Meta.name m' = Meta.name m;
  sh_bits j : 0 <= j < data_count fs -> bit v' j = bit v j && negb (bool_decide (j ∈ given_back new_size index data));
  sh_only b : (~ in_data_bitmap fs b) -> b ∉ kept_index new_size index -> v' b = v b
}.

Section inode.
Context (v : Z -> list Z) (h : list (Z * lock)) (m : Meta.t) (index data : list Z) (new_size : Z).
Hypothesis Hh : clear_of fs h.
Hypothesis Hm : inode_ok v m index data.
Hypothesis Ho : Forall (in_data fs) (index ++ data).
Hypothesis Hs : 0 <= new_size.
Hypothesis Hc : cdiv new_size 512 < cdiv (Meta.size m) 512.
Abbreviation back := (given_back new_size index data).

Lemma back_nodup : NoDup back.
Proof.
  pose proof (io_own _ _ _ _ Hm) as Hn. rewrite (given_back_perm new_size) in Hn. by apply NoDup_app in Hn as (_ & _ & ?).
Qed.

(** What [shrink] itself does. *)
Lemma shrink_split : spec n (Meta.shrink m new_size) v h (fun '((ii, di), m') v' =>
  ii ++ di = back /\ inode_ok v' m' (kept_index new_size index) (kept_data new_size data) /\ Meta.size m' = new_size /\
  Meta.type_ m' = Meta.type_ m /\ Meta.name m' = Meta.name m /\ only (kept_index new_size index) v v').
Proof.
  pose proof (geometry_order _ _ geo) as Hg. pose proof (io_size _ _ _ _ Hm) as Hs0.
  eapply spec_conseq.
  - apply (shrink_exact m index data); [lia|done|size_lia| |apply Hh].
    apply (owned_writable fs geo); [done|]. by apply Forall_app in Ho as [? _].
  - intros [[ii di] m'] v' (index' & data' & Hi & Hd & Hok & Es & Et & En & Hon).
    destruct (inode_index _ _ _ _ Hok) as (info & Ei & _ & Li). rewrite Es in Ei.
    pose proof (io_data _ _ _ _ Hok) as Ld. rewrite Es in Ld.
    assert (Ki : kept_index new_size index = index').
    { unfold kept_index. rewrite (index_need_ok _ _ Ei), <- Li, Hi, Nat2Z.id. apply take_app_length. }
    assert (Kd : kept_data new_size data = data').
    { unfold kept_data. rewrite <- Ld, Hd, Nat2Z.id. apply take_app_length. }
    rewrite Ki, Kd. split; [|done]. unfold given_back.
    rewrite (index_need_ok _ _ Ei), <- Li, Hi, <- Ld, Hd, !Nat2Z.id, !drop_app_length. by rewrite !reverse_involutive.
Qed.

Hypothesis Hb : Forall (fun b => b < data_count fs) back.

Lemma back_range : Forall (fun b => 0 <= b < data_count fs) back.
Proof.
  pose proof (geometry_order _ _ geo) as Hg. apply Forall_forall. intros b Hin. split; [|by eapply Forall_forall in Hb].
  assert (Hi : b ∈ index ++ data) by (rewrite (given_back_perm new_size); apply elem_of_app; by right).
  pose proof (proj1 (Forall_forall _ _) Ho b Hi) as Hd. unfold in_data in Hd. lia.
Qed.

Lemma only_bits v' : only (kept_index new_size index) v v' -> forall j, 0 <= j < data_count fs -> bit v' j = bit v j.
Proof.
  intros Hon j Hj. apply bit_frame; [done|]. intros b Hbm. apply Hon. intros Hin.
  assert (Hi : b ∈ index ++ data) by (rewrite (given_back_perm new_size); apply elem_of_app; left; apply elem_of_app; by left).
  pose proof (proj1 (Forall_forall _ _) Ho b Hi) as Hd. by apply (in_data_not_bitmap fs geo) in Hd.
Qed.

Lemma back_bits v' : only (kept_index new_size index) v v' ->
  Forall (fun b => bit v' b = true) back <-> Forall (fun b => bit v b = true) back.
Proof.
  intros Hon. pose proof back_range as Hr. rewrite Forall_forall in Hr. rewrite !Forall_forall.
  split; intros Hall b Hin; [rewrite <- (only_bits v' Hon)|rewrite (only_bits v' Hon)]; auto.
Qed.

Lemma shrink_info : exists i1 i2, Meta.index_blocks (Meta.size m) = Ok i1 /\ Meta.index_blocks new_size = Ok i2.
Proof.
  pose proof (io_size _ _ _ _ Hm) as Hs0. destruct (index_blocks_shape (Meta.size m) Hs0) as (i1 & E1 & _).
  destruct (index_blocks_shape new_size) as (i2 & E2 & _); [size_lia|]. eauto.
Qed.

(** All the bits looked at are set. *)
Lemma resize_shrink_ok : Forall (fun b => bit v b = true) back ->
  spec n (CAFS.resize_meta fs new_size m) v h (fun '(blocks, m') v' =>
    blocks = kept_data new_size data /\ shrunk v m index data new_size m' v').
Proof.
  intros Hset. unfold CAFS.resize_meta. destruct shrink_info as (i1 & i2 & E1 & E2).
  eapply spec_bind_lift; [done|]. eapply spec_bind_lift; [done|].
  rewrite (proj2 (Z.ltb_ge (Meta.size m) new_size)), (proj2 (Z.ltb_lt new_size _)) by size_lia.
  eapply (spec_bind _ _ _ _ _ (fun m' v' => shrunk v m index data new_size m' v')).
  - eapply spec_bind; [apply shrink_split|]. intros [[ii di] m'] v1 (Hii & Hok & Es & Et & En & Hon).
    pose proof back_nodup as Hnd. pose proof back_range as Hr. pose proof (proj2 (back_bits v1 Hon) Hset) as Hs1.
    rewrite <- Hii in Hnd, Hr, Hs1. apply NoDup_app in Hnd as (N1 & Nd & N2). apply Forall_app in Hr as [R1 R2], Hs1 as [S1 S2].
    eapply spec_bind; [by apply deallocs_ok|]. intros [] v2 Hc2.
    eapply spec_bind; [apply deallocs_ok; try done|].
    { apply Forall_forall. intros x Hx. rewrite (proj1 Hc2) by (by eapply Forall_forall in R2).
      rewrite bool_decide_false by (intros Hx1; by apply (Nd x)). eapply Forall_forall in S2; [|exact Hx]. by rewrite S2. }
    intros [] v3 Hc3. pose proof (cleared_app _ _ _ _ _ Hc2 Hc3) as Hc4. cbn [fst snd] in Hc4. rewrite Hii in Hc4.
    destruct Hc4 as [Hbits Hout]. apply spec_ret.
    split; try done.
    + eapply inode_ok_frame; [|exact Hok]. intros b Hin. apply Hout, (in_data_not_bitmap fs geo).
      eapply Forall_forall; [exact Ho|]. rewrite (given_back_perm new_size), !elem_of_app. auto.
    + intros j Hj. rewrite Hbits by done. by rewrite (only_bits v1 Hon).
    + intros b Hnb Hk. rewrite Hout by done. by apply Hon.
  - intros m' v' Hsh. eapply spec_bind.
    { apply (blocks_spec m' (kept_index new_size index) (kept_data new_size data)); [apply Hsh| |apply Hh].
      apply writable_readable, (owned_writable fs geo); [done|]. rewrite (given_back_perm new_size) in Ho.
      by apply Forall_app in Ho as [[? _]%Forall_app _]. }
    intros [ix bl] v2 [-> [= _ ->]]. by apply spec_ret.
Qed.

(** One of them is clear. *)
Lemma resize_shrink_fault : ~ Forall (fun b => bit v b = true) back ->
  faults n (CAFS.resize_meta fs new_size m) v h (Panic PAssert).
Proof.
  intros Hset. unfold CAFS.resize_meta. destruct shrink_info as (i1 & i2 & E1 & E2).
  eapply faults_bind_lift; [done|]. eapply faults_bind_lift; [done|]. apply faults_bind.
  rewrite (proj2 (Z.ltb_ge (Meta.size m) new_size)), (proj2 (Z.ltb_lt new_size _)) by size_lia.
  eapply faults_spec_bind; [apply shrink_split|]. intros [[ii di] m'] v1 (Hii & _ & _ & _ & _ & Hon).
  pose proof back_nodup as Hnd. pose proof back_range as Hr.
  assert (Hs1 : ~ Forall (fun b => bit v1 b = true) (ii ++ di)) by (rewrite Hii; by intros ?%(back_bits v1 Hon)).
  rewrite <- Hii in Hnd, Hr. apply NoDup_app in Hnd as (N1 & Nd & N2). apply Forall_app in Hr as [R1 R2].
  destruct (decide (Forall (fun b => bit v1 b = true) ii)) as [S1|S1].
  - eapply faults_spec_bind; [by apply deallocs_ok|]. intros [] v2 Hc2. apply faults_bind, deallocs_fault; try done.
    intros S2. apply Hs1, Forall_app. split; [done|]. apply Forall_forall. intros x Hx. eapply Forall_forall in S2; [|exact Hx].
    rewrite (proj1 Hc2) in S2 by (by eapply Forall_forall in R2). by apply andb_prop in S2 as [? _].
  - by apply faults_bind, deallocs_fault.
Qed.
End inode.

(** ** [write] *)
Section write.
Context (st : CAFS.state C) (v : Z -> list Z) (files : gmap Z file) (own : Z -> list Z * list Z).
Context (i : Z) (f : file) (c : list Z).
Hypothesis Hinv : fs_inv (n := n) fs st v files own.
Hypothesis Hf : files !! i = Some f.
Hypothesis Hav : available st i.
Hypothesis Hu : Forall u8 c.
Hypothesis Hless : cdiv (zlen c) 512 < cdiv (zlen (f_data f)) 512.
Abbreviation back := (given_back (zlen c) (own i).1 (own i).2).
Hypothesis Hb : Forall (fun b => b < data_count fs) back.

(** The disk afterwards: the file has its new contents in the blocks it keeps, the other
    files are untouched, and the data bitmap has lost the bits with the numbers of the
    blocks given back. *)
Record after_shrink (v' : Z -> list Z) : Prop := {
  as_file : file_ok v' (meta_of fs v' i) (set_data f c) (kept_index (zlen c) (own i).1) (kept_data (zlen c) (own i).2);
  as_other j g : j <> i -> files !! j = Some g -> file_ok v' (meta_of fs v' j) g (own j).1 (own j).2;
  as_bits j : 0 <= j < data_count fs -> bit v' j = bit v j && negb (bool_decide (j ∈ back))
}.

Lemma kept_blocks b : b ∈ kept_index (zlen c) (own i).1 ++ kept_data (zlen c) (own i).2 -> b ∈ blocks_of own i /\ in_data fs b.
Proof.
  intros Hin. assert (Hi : b ∈ blocks_of own i) by (unfold blocks_of; rewrite (given_back_perm (zlen c)); apply elem_of_app; by left).
  split; [done|]. pose proof (do_area _ _ _ _ (fi_disk _ _ _ _ _ Hinv) i f Hf) as Ha. by eapply Forall_forall in Ha.
Qed.

Lemma inode_clear : clear_of fs [(inode_block fs i, Wr)].
Proof. apply (clear_inode fs geo), (do_num _ _ _ _ (fi_disk _ _ _ _ _ Hinv) i f Hf). Qed.

Lemma write_shrink_disk : Forall (fun b => bit v b = true) back ->
  spec n (blocks ← modify_at Meta.t (inode_block fs i) 0 (CAFS.resize_meta fs (zlen c));
          CAFS.write_blocks blocks c ;; mret blocks) v [] (fun blocks v' => after_shrink v').
Proof.
  intros Hset. pose proof (fi_disk _ _ _ _ _ Hinv) as Hd. apply spec_blocks. intros Hok.
  pose proof (do_num _ _ _ _ Hd i f Hf) as Hi. destruct (inode_block_bounds fs n i geo Hi) as (Hib & Hnd & Hnb & _).
  pose proof (Hok _ (conj (Z.lt_le_incl _ _ (proj1 Hib)) (proj2 Hib))) as Hblk.
  destruct (do_file _ _ _ _ Hd i f Hf) as [Hino Hty Hnm Hsz _]. pose proof (do_area _ _ _ _ Hd i f Hf) as Harea.
  set (ki := kept_index (zlen c) (own i).1) in *. set (kd := kept_data (zlen c) (own i).2) in *.
  assert (Hkept : Forall (in_data fs) (ki ++ kd)) by (apply Forall_forall; intros b Hin; by apply kept_blocks).
  eapply (spec_bind _ _ _ _ _ (fun blocks v' => exists m' v1, blocks = kd /\
    shrunk v (meta_of fs v i) (own i).1 (own i).2 (zlen c) m' v1 /\ wf m' /\ v' = <[inode_block fs i := poke 0 m' (v (inode_block fs i))]> v1)).
  { apply (spec_modify_at Meta.t); [lia|apply not_elem_of_nil|unfold CACHE_SIZE; simpl; lia|done|done|].
    fold (meta_of fs v i). eapply spec_conseq.
    - apply (resize_shrink_ok v _ _ (own i).1 (own i).2); try done; [apply inode_clear|lia|by rewrite Hsz].
    - intros [blocks m'] v1 [-> Hsh]. assert (Hwf : wf m').
      { eapply (inode_wf fs n v1 (meta_of fs v i)); [done|apply Hsh|done|by apply peek_wf|apply Hsh|apply Hsh]. }
      split; [done|]. by exists m', v1. }
  intros blocks v2 (m' & v1 & -> & Hsh & Hwf & ->).
  pose proof (io_own _ _ _ _ (sh_ok _ _ _ _ _ _ _ Hsh)) as Hn. fold ki kd in Hn. apply NoDup_app in Hn as (_ & Hdis & Hn).
  eapply spec_bind.
  { apply write_blocks_spec; [done| |unfold CACHE_SIZE; simpl; lia|done].
    apply (owned_writable fs geo); [apply clear_nil|]. by apply Forall_app in Hkept as [_ ?]. }
  intros _ v3 [Hho Hon]. apply spec_ret.
  assert (Hdata : forall b, in_data fs b -> b <> inode_block fs i /\ ~ in_data_bitmap fs b).
  { intros b Hbd. split; [by intros ->|by apply (in_data_not_bitmap fs geo)]. }
  assert (Hout : forall b, b <> inode_block fs i -> (~ in_data_bitmap fs b) -> b ∉ ki ++ kd -> v3 b = v b).
  { intros b H1 H2 H3. apply not_elem_of_app in H3 as [? ?]. rewrite Hon, fn_lookup_insert_ne by done. by apply Hsh. }
  assert (Hnode : v3 (inode_block fs i) = poke 0 m' (v (inode_block fs i))).
  { rewrite Hon, fn_lookup_insert; [done|]. intros Hin. by destruct (kept_blocks (inode_block fs i)) as [_ ?]; [apply elem_of_app; by right|]. }
  destruct Hsh as [Ok1 Es Et En Hbits Hsonly]. split.
  - assert (Em : meta_of fs v3 i = m') by (unfold meta_of; rewrite Hnode; by apply peek_poke).
    rewrite Em. split; cbn [set_data f_type f_name f_data]; [|by rewrite Et|by rewrite En|done|done].
    eapply inode_ok_frame; [|exact Ok1]. intros b Hin. rewrite Hon by (by apply Hdis).
    apply fn_lookup_insert_ne. destruct (kept_blocks b) as [_ Hbd]; [apply elem_of_app; by left|]. by intros <-.
  - intros j g Hj Hg. pose proof (do_file _ _ _ _ Hd j g Hg) as Hgo. pose proof (do_num _ _ _ _ Hd j g Hg) as Hjn.
    destruct (inode_block_bounds fs n j geo Hjn) as (_ & Hjd & Hjb & _).
    assert (Em : meta_of fs v3 j = meta_of fs v j).
    { unfold meta_of. rewrite Hout; [done|unfold inode_block; lia|done|]. intros Hin. by destruct (kept_blocks _ Hin). }
    rewrite Em. eapply file_ok_frame; [|exact Hgo]. intros b Hin.
    pose proof (do_area _ _ _ _ Hd j g Hg) as Ha. eapply Forall_forall in Ha; [|exact Hin].
    destruct (Hdata b Ha). apply Hout; try done. intros Hk. destruct (kept_blocks b Hk) as [Hbi _].
    apply Hj. symmetry. by eapply (do_disj _ _ _ _ Hd i j f g b).
  - intros j Hj. rewrite <- Hbits by done. apply bit_frame; [done|]. intros b Hbm.
    rewrite Hon; [apply fn_lookup_insert_ne; by intros <-|]. intros Hin.
    destruct (kept_blocks b) as [_ Hbd]; [apply elem_of_app; by right|]. by apply (in_data_not_bitmap fs geo) in Hbd.
Qed.

Lemma write_shrink_ok : Forall (fun b => bit v b = true) back ->
  runs (CAFS.write fs i c) st (fun _ st' => exists v', rep n (CAFS.cache_manager st') v' [] /\ after_shrink v').
Proof.
  intros Hset. unfold CAFS.write.
  eapply runs_bind; [by apply (cainode_spec fs geo st v files own i f)|]. intros h st1 [[Hr Hd Hm] Hh Hin Hrefs Hlen _ Hpre Hfound].
  pose proof (do_num _ _ _ _ Hd i f Hf) as Hi. eapply runs_lift; [by apply (inode_pos fs geo)|]. cbv iota beta.
  eapply runs_cached_seq; [done|by apply write_shrink_disk|].
  intros blocks c' v' Hr' Has. exists tt. eexists. split.
  { unfold mbind, M_bind, CAFS.deref. cbn [CAFS.heap]. rewrite Hh. reflexivity. }
  cbn [CAFS.cache_manager]. by exists v'.
Qed.

Lemma write_shrink_fault : ~ Forall (fun b => bit v b = true) back -> CAFS.write fs i c st = Fault (Panic PAssert).
Proof.
  intros Hset. pose proof (fi_disk _ _ _ _ _ Hinv) as Hd. destruct (do_file _ _ _ _ Hd i f Hf) as [Hino _ _ Hsz _].
  apply (write_fault fs geo st v files own i f c); try done.
  apply (resize_shrink_fault v _ _ (own i).1 (own i).2); try done; [apply inode_clear|by eapply do_area|lia|by rewrite Hsz].
Qed.
End write.
End shrink.
