(* ===== verification/FileSystem.v ===== *)
(** The properties of the file system, stated on [CAFS] over the block cache of any
    block device: what a client of fs/src/cafs/mod.rs can rely on. *)
From S2P Require Import Prelude Device Block Manager Bitmap Layout Index Resize InodeNumber Utf8 Cafs Contents Files Inodes Directory Mount Errors Shrink.
From Stdlib Require Import ZArith Lia.
From stdpp Require Import gmap functions sorting list_numbers list.
Local Open Scope Z_scope.

(** The file system [fs] in state [st], on a device of [n] blocks, holds [files] and
    has [fr] free data blocks. *)
Definition fs_ok {D} `{BlockDeviceLaws D} (n : Z) (fs : CAFS.t) (st : CAFS.state (CacheManager.t D))
    (files : gmap Z file) (fr : Z) : Prop :=
  geometry n fs /\ exists v own, fs_inv (n := n) fs st v files own /\ free fs v = fr.

Section client.
Context {D : Type} `{HD : BlockDeviceLaws D}.
Implicit Types st : CAFS.state (CacheManager.t D).

Lemma init_ok dev n k v : dev_rep dev n v -> 0 < k -> 1 + k * (BLOCK_BITS + 1) <= n -> n * BLOCK_BITS < U64 ->
  exists st, CAFS.init dev n k = Ok (layout n k, st) /\
    fs_ok n (layout n k) st {[0 := root_dir]} (data_count (layout n k)) /\ CAFS.refs st = [] /\
    length (CAFS.inode_cache st) = 1%nat.
Proof.
  intros Hdev Hk Hn Hb. assert (Hr : rep n (CacheManager.new dev) v []) by (by apply CacheManager.new_crep).
  destruct (format_spec (n := n) k Hk Hn Hb (CacheManager.new dev) v Hr)
    as (fs & st & E & -> & Hrf & Hl & v' & own & Hinv & Hf).
  exists st. split_and!; try done. split; [apply layout_geometry; lia|]. eauto.
Qed.

Lemma write_ok n fs st files fr i f c : fs_ok n fs st files fr -> files !! i = Some f -> available st i ->
  Forall u8 c -> zlen c <= L4_MAX -> cdiv (zlen (f_data f)) 512 <= cdiv (zlen c) 512 ->
  need (zlen (f_data f)) (zlen c) <= fr ->
  exists st', CAFS.write fs i c st = Ok (tt, st') /\
    fs_ok n fs st' (<[i := set_data f c]> files) (fr - need (zlen (f_data f)) (zlen c)) /\
    CAFS.refs st' = CAFS.refs st /\
    (length (CAFS.inode_cache st') <= S (length (CAFS.inode_cache st)))%nat /\ numbers_kept st st'.
Proof.
  intros [geo (v & own & Hinv & <-)] Hf Hav Hu Hmax Hcd Hneed.
  destruct (write_spec fs geo st v files own i f c) as ([] & st' & E & v' & own' & Hinv' & Hfree & Hr & Hnk & Hl & _); try done.
  exists st'. split_and!; try done. split; [done|]. eauto.
Qed.

Lemma create_ok n fs st files fr p fp name k : fs_ok n fs st files fr -> files !! p = Some fp ->
  0 <= k < inode_count fs -> files !! k = None ->
  (length (CAFS.inode_cache st) + 3 <= INODE_CACHE_SIZE)%nat ->
  zlen name <= NAME_LENGTH_LIMIT -> Forall u8 name -> entry_size (f_data fp) <= L4_MAX ->
  need (zlen (f_data fp)) (entry_size (f_data fp)) <= fr ->
  exists i h st' inode, CAFS.create fs p name st = Ok (h, st') /\ files !! i = None /\
    0 <= i < inode_count fs /\ (forall j, 0 <= j < i -> is_Some (files !! j)) /\
    fs_ok n fs st' (<[p := set_data fp (append_entry (f_data fp) i)]> (<[i := new_file File name]> files))
      (fr - need (zlen (f_data fp)) (entry_size (f_data fp))) /\
    CAFS.heap st' !! h = Some inode /\ CaInode.inode_number inode = i /\
    CAFS.refs st' = h :: CAFS.refs st /\
    (length (CAFS.inode_cache st') <= length (CAFS.inode_cache st) + 3)%nat.
Proof.
  intros [geo (v & own & Hinv & <-)] Hp Hk Hnone Hlen Hl Hu Hmax Hneed.
  destruct (create_spec fs geo st v files own p fp name k) as
    (h & st' & E & i & v' & own' & Hi & Hin & Hfirst & Hinv' & Hf' & Hh' & Hr' & Hl' & _); try done.
  eexists i, h, st', _. split_and!; try done; try lia. split; [done|]. eauto.
Qed.

(** Reading a file: find its inode, then take its contents. *)
Lemma read_ok n fs st files fr i f : fs_ok n fs st files fr -> files !! i = Some f -> available st i ->
  exists h inode st1 st2, CAFS.inode fs i st = Ok (h, st1) /\ CAFS.heap st1 !! h = Some inode /\
    CAFS.cached (CaInode.data inode) st1 = Ok (f_data f, st2) /\ fs_ok n fs st2 files fr /\
    CaInode.type_ inode = f_type f /\ CaInode.name inode = f_name f.
Proof.
  intros [geo (v & own & Hinv & Hfree)] Hf Hav.
  destruct (cainode_spec fs geo st v files own i f Hinv Hf Hav) as (h & st1 & E1 & [Hinv1 Hh _ _ _ _ _ _]).
  destruct (file_data_spec fs geo st1 v files own i f Hinv1 Hf) as (d & st2 & E2 & -> & Hinv2 & _).
  eexists h, _, st1, st2. split_and!; try done. split; [done|]. eauto.
Qed.

Lemma flush_ok n fs st files fr : fs_ok n fs st files fr ->
  exists st' v own, CAFS.fs_flush st = Ok (tt, st') /\ fs_ok n fs st' files fr /\
    dev_rep (CacheManager.block_device (CAFS.cache_manager st')) n v /\ disk_ok fs v files own /\ free fs v = fr.
Proof.
  intros [geo (v & own & [Hr Hd Hm] & Hfree)].
  destruct (CacheManager.flush_crep n (CAFS.cache_manager st) v Hr) as (c' & E & Hr' & Hdev & _).
  eexists _, v, own. split_and!; [|split; [done|]| | |]; try done.
  - unfold CAFS.fs_flush, CAFS.cached, zoom. change flush with (CacheManager.flush (D := D)). rewrite E. done.
  - exists v, own. split; [|done]. split; [done|done|]. by apply mem_ok_cache.
  - done.
Qed.

(** Opening a device that holds a file system. *)
Lemma open_ok n fs dev v files own : geometry n fs -> dev_rep dev n v -> disk_ok fs v files own ->
  exists st, CAFS.open dev = Ok (fs, st) /\ fs_ok n fs st files (free fs v) /\ CAFS.refs st = [] /\
    CAFS.inode_cache st = [].
Proof.
  intros geo Hdev Hd. assert (Hr : rep n (CacheManager.new dev) v []) by (by apply CacheManager.new_crep).
  destruct (mount_spec fs _ v files own geo Hr Hd) as (fs' & st & E & -> & Hrf & Hc & Hinv).
  exists st. split_and!; try done. split; [done|]. eauto.
Qed.
End client.

(** ** Filling the inode cache *)
Section exhaustion.
Context {D : Type} `{HD : BlockDeviceLaws D}.
Variables (n : Z) (fs : CAFS.t).
Hypothesis geo : geometry n fs.
Implicit Types st : CAFS.state (CacheManager.t D).

Lemma index_need_direct s : 0 <= s <= DIRECT_MAX -> index_need s = 0.
Proof.
  intros Hs. destruct (index_blocks_shape s) as (info & E & Hsh); [unfold_sizes; lia|].
  rewrite (index_need_ok _ _ E). unfold index_count. destruct Hsh; simpl; size_lia.
Qed.

(** A client that creates files in the root directory and keeps none of them open. *)
Definition create_files (names : list (list Z)) : M (CAFS.state (CacheManager.t D)) unit :=
  forM (fun name => h ← CAFS.create fs 0 name; CAFS.arc_drop h) names.

(** After [j] files. *)
Record crowded st (j : Z) : Prop := {
  cw_ex : exists v files own rf hp, fs_inv (n := n) fs st v files own /\ files !! 0 = Some rf /\
    zlen (f_data rf) = Z.max 0 (11 * j - 1) /\ CAFS.find_cached st 0 = Some hp /\ pinned st hp /\
    (forall i, is_Some (files !! i) -> 0 <= i <= j) /\ (j = 0 -> 0 < free fs v) /\ 0 <= free fs v;
  cw_len : Z.of_nat (length (CAFS.inode_cache st)) = 2 * j + 1;
  cw_refs : CAFS.refs st = []
}.

Lemma entry_size_eq d : entry_size d = if decide (d = []) then 10 else zlen d + 11.
Proof.
  unfold entry_size, append_entry. destruct d as [|x d]; simpl; [done|].
  rewrite !length_app, length_encode_number. simpl. lia.
Qed.

Lemma crowded_sizes j d fr : 0 <= j <= 16 -> zlen d = Z.max 0 (11 * j - 1) -> (j = 0 -> 0 < fr) -> 0 <= fr ->
  entry_size d = 11 * j + 10 /\ entry_size d <= L4_MAX /\ need (zlen d) (entry_size d) <= fr /\
  (0 < j -> need (zlen d) (entry_size d) = 0).
Proof.
  intros Hj Hd H0 Hf.
  assert (E : entry_size d = 11 * j + 10).
  { rewrite entry_size_eq. case_decide as Hdec; [subst d; simpl in Hd; lia|].
    destruct d; [done|]. cbn [length] in *. lia. }
  rewrite E. unfold need. rewrite !index_need_direct by (unfold_sizes; lia).
  split_and!; unfold_sizes; unfold cdiv; Z.to_euclidean_division_equations; lia.
Qed.

(** One more file. *)
Lemma crowded_create st j name : crowded st j -> 0 <= j <= 14 -> 16 < inode_count fs ->
  zlen name <= NAME_LENGTH_LIMIT -> Forall u8 name ->
  exists st', (h ← CAFS.create fs 0 name; CAFS.arc_drop h) st = Ok (tt, st') /\ crowded st' (j + 1).
Proof.
  intros [(v & files & own & rf & hp & Hinv & Hrf & Hsz & Hfp & Hpin & Hdom & Hf0 & Hf) Hlen Hrefs] Hj Hic Hl Hu.
  destruct (crowded_sizes j (f_data rf) (free fs v)) as (Es & Hmax & Hneed & Hz); [lia|done..|].
  assert (Hnone : forall k, j < k -> files !! k = None).
  { intros k Hk. apply eq_None_not_Some. intros Hs. apply Hdom in Hs. lia. }
  destruct (create_spec fs geo st v files own 0 rf name (j + 1)) as
    (h & st' & E & i & v' & own' & Hi & Hin & Hfirst & Hinv' & Hf' & Hh' & Hr' & _ & Hnk & Hfr & Hc'); try done;
    [lia|apply Hnone; lia|unfold INODE_CACHE_SIZE; lia|].
  specialize (Hc' ltac:(by rewrite Hfp)).
  destruct (drop_inv fs geo st' v' _ own' h Hinv') as (u & st2 & E2 & Hinv2 & Est2).
  exists st2. split; [unfold mbind, M_bind; rewrite E; by destruct u|]. rewrite Hr', Hrefs in Est2. cbn [CAFS.remove_one] in Est2.
  rewrite decide_True in Est2 by done. subst st2.
  destruct (find_cached_Some fs st files own hp 0 (fi_mem _ _ _ _ _ Hinv) Hfp) as (Hhp & f0 & Hf0' & Hheap).
  split; cbn [CAFS.inode_cache CAFS.refs]; [|rewrite Hc', length_app; simpl; lia|done].
  assert (Hi0 : i <> 0) by congruence.
  eexists v', _, own', (set_data rf (append_entry (f_data rf) i)), hp. split_and!; try done.
  - apply lookup_insert_eq.
  - cbn [set_data f_data]. rewrite length_append_entry. lia.
  - destruct (Hnk hp _ Hheap) as (c' & Hhc & Hnum).
    destruct (mo_cached _ _ _ _ (fi_mem _ _ _ _ _ Hinv') hp) as (q & g & Hg & Hq).
    { rewrite Hc'. apply elem_of_app. by left. }
    rewrite Hq in Hhc. injection Hhc as <-. cbn in Hnum. subst q.
    eapply (cached_found fs); [apply Hinv2| |exact Hq]. cbn [CAFS.inode_cache]. rewrite Hc'. apply elem_of_app. by left.
  - eapply (pinned_create fs geo st); [exact Hpin|exact Hc'].
  - intros x [g Hg]. rewrite lookup_insert_Some, lookup_insert_Some in Hg.
    assert (i <= j + 1). { apply Z.nlt_ge. intros Hgt. destruct (Hfirst (j + 1)) as [g' Hg']; [lia|]. by rewrite Hnone in Hg' by lia. }
    destruct Hg as [[<- _]|[_ [[<- _]|[_ Hg]]]]; [lia|lia|]. assert (0 <= x <= j) by (apply Hdom; eauto). lia.
  - lia.
  - rewrite Hf'. destruct (decide (j = 0)); [lia|]. rewrite Hz by lia. lia.
Qed.

Lemma crowded_files names : forall st j, crowded st j -> 0 <= j -> j + zlen names <= 15 -> 16 < inode_count fs ->
  Forall (fun name => zlen name <= NAME_LENGTH_LIMIT /\ Forall u8 name) names ->
  exists st', create_files names st = Ok (tt, st') /\ crowded st' (j + zlen names).
Proof.
  induction names as [|name names IH]; intros st j Hc Hj Hl Hic Hn.
  { exists st. split; [done|]. simpl. by rewrite Z.add_0_r. }
  apply Forall_cons in Hn as [[Hnl Hnu] Hn]. cbn [length] in Hl.
  destruct (crowded_create st j name) as (st1 & E1 & Hc1); try done; [lia|].
  destruct (IH st1 (j + 1)) as (st2 & E2 & Hc2); try done; [lia|lia|].
  exists st2. split.
  - unfold create_files, forM in *. cbn [foldM]. unfold mbind at 1, M_bind at 1. rewrite E1. exact E2.
  - replace (j + zlen (name :: names)) with (j + 1 + zlen names) by (cbn [length]; lia). done.
Qed.

(** The sixteenth. *)
Lemma crowded_last st name : crowded st 15 -> 16 < inode_count fs -> zlen name <= NAME_LENGTH_LIMIT -> Forall u8 name ->
  create_files [name] st = Fault (Panic PInodeCache).
Proof.
  intros [(v & files & own & rf & hp & Hinv & Hrf & Hsz & Hfp & Hpin & Hdom & Hf0 & Hf) Hlen Hrefs] Hic Hl Hu.
  destruct (crowded_sizes 15 (f_data rf) (free fs v)) as (Es & Hmax & Hneed & Hz); [lia|done..|].
  unfold create_files, forM, mbind, M_bind. cbn [foldM]. unfold mbind, M_bind.
  rewrite (create_exhausted fs geo st v files own 0 rf hp name 16); try done; [|lia].
  apply eq_None_not_Some. intros Hs. apply Hdom in Hs. lia.
Qed.
End exhaustion.

(** Storing bytes takes blocks. *)
Lemma index_need_pos s : 0 <= s <= L4_MAX -> 0 <= index_need s.
Proof.
  intros Hs. destruct (index_blocks_shape s Hs) as (info & E & Hsh). rewrite (index_need_ok _ _ E).
  destruct (shape_bounds s info Hs Hsh) as (?&?&?&?&_). unfold index_count. lia.
Qed.

Lemma need_pos s : 0 <= s <= L4_MAX -> 0 <= need 0 s.
Proof.
  intros Hs. pose proof (index_need_pos s Hs). unfold need. rewrite (index_need_direct 0) by (unfold_sizes; lia).
  change (cdiv 0 512) with 0. assert (0 <= cdiv s 512) by (unfold cdiv; apply Z.div_pos; lia). lia.
Qed.

(** ** What a client can rely on *)

(** A disk for the witnesses: 16390 blocks, one of them for the inode bitmap, so
    three for the data bitmap and 12288 data blocks. *)
Lemma fresh_disk : exists st, CAFS.init (Disk.new 16390) 16390 1 = Ok (layout 16390 1, st) /\
  fs_ok 16390 (layout 16390 1) st {[0 := root_dir]} 12288 /\ CAFS.refs st = [] /\
  length (CAFS.inode_cache st) = 1%nat.
Proof.
  destruct (init_ok (Disk.new 16390) 16390 1 (fun _ => zero_block)) as (st & E & Hok & Hr & Hl);
    [apply Disk.new_rep; lia|unfold BLOCK_BITS, BLOCK_SIZE, U64; lia..|].
  assert (Ec : data_count (layout 16390 1) = 12288) by reflexivity. rewrite Ec in Hok.
  exists st. split_and!; assumption.
Qed.

Lemma one_cached {C} (st : CAFS.state C) i : length (CAFS.inode_cache st) = 1%nat -> available st i.
Proof. intros Hl. right. left. rewrite Hl. unfold INODE_CACHE_SIZE. lia. Qed.

(** C1: [CAFS::write] replaces the contents of a file that does not give blocks back:
    it returns, the file then has exactly the new contents, every other file, all
    names and types are as before, and the free blocks are fewer by exactly what the
    file needs in addition (data and index blocks). *)
Theorem cafs_write {D} `{BlockDeviceLaws D} n fs (st : CAFS.state (CacheManager.t D)) files fr i f c :
  fs_ok n fs st files fr -> files !! i = Some f -> available st i -> Forall u8 c -> zlen c <= L4_MAX ->
  cdiv (zlen (f_data f)) 512 <= cdiv (zlen c) 512 -> need (zlen (f_data f)) (zlen c) <= fr ->
  exists st', CAFS.write fs i c st = Ok (tt, st') /\
    fs_ok n fs st' (<[i := set_data f c]> files) (fr - need (zlen (f_data f)) (zlen c)).
Proof.
  intros Hok Hf Hav Hu Hmax Hcd Hneed. destruct (write_ok n fs st files fr i f c) as (st' & E & Hok' & _); eauto.
Qed.

Lemma cafs_write_witness : exists st st', CAFS.init (Disk.new 16390) 16390 1 = Ok (layout 16390 1, st) /\
  CAFS.write (layout 16390 1) 0 [7; 0; 9] st = Ok (tt, st') /\
  fs_ok 16390 (layout 16390 1) st' (<[0 := set_data root_dir [7; 0; 9]]> {[0 := root_dir]}) 12287.
Proof.
  destruct fresh_disk as (st & E & Hok & Hr & Hl).
  destruct (cafs_write 16390 (layout 16390 1) st {[0 := root_dir]} 12288 0 root_dir [7; 0; 9])
    as (st' & E' & Hok').
  - exact Hok.
  - reflexivity.
  - by apply one_cached.
  - zeval.
  - zeval.
  - zeval.
  - zeval.
  - exists st, st'. split_and!; [exact E|exact E'|exact Hok'].
Defined.

(** C3: [CAFS::create] returns, gives an empty file the lowest free inode number, and
    appends the encoded number (after a zero byte, if the directory is not empty) to
    the contents of the parent; nothing else changes. *)
Theorem cafs_create {D} `{BlockDeviceLaws D} n fs (st : CAFS.state (CacheManager.t D)) files fr p fp name k :
  fs_ok n fs st files fr -> files !! p = Some fp -> 0 <= k < inode_count fs -> files !! k = None ->
  (length (CAFS.inode_cache st) + 3 <= INODE_CACHE_SIZE)%nat ->
  zlen name <= NAME_LENGTH_LIMIT -> Forall u8 name -> entry_size (f_data fp) <= L4_MAX ->
  need (zlen (f_data fp)) (entry_size (f_data fp)) <= fr ->
  exists i h st' inode, CAFS.create fs p name st = Ok (h, st') /\ files !! i = None /\
    0 <= i < inode_count fs /\ (forall j, 0 <= j < i -> is_Some (files !! j)) /\
    fs_ok n fs st' (<[p := set_data fp (append_entry (f_data fp) i)]> (<[i := new_file File name]> files))
      (fr - need (zlen (f_data fp)) (entry_size (f_data fp))) /\
    CAFS.heap st' !! h = Some inode /\ CaInode.inode_number inode = i.
Proof.
  intros. destruct (create_ok n fs st files fr p fp name k) as
    (i & h & st' & inode & ? & ? & ? & ? & ? & ? & ? & _); try assumption.
  exists i, h, st', inode. split_and!; assumption || lia.
Qed.

Lemma cafs_create_witness : exists st i h st', CAFS.init (Disk.new 16390) 16390 1 = Ok (layout 16390 1, st) /\
  CAFS.create (layout 16390 1) 0 [97] st = Ok (h, st') /\ i = 1.
Proof.
  destruct fresh_disk as (st & E & Hok & Hr & Hl).
  destruct (cafs_create 16390 (layout 16390 1) st {[0 := root_dir]} 12288 0 root_dir [97] 1)
    as (i & h & st' & inode & E' & Hnone & Hi & Hfirst & _).
  - exact Hok.
  - reflexivity.
  - zeval.
  - reflexivity.
  - rewrite Hl. unfold INODE_CACHE_SIZE. lia.
  - zeval.
  - zeval.
  - zeval.
  - zeval.
  - exists st, i, h, st'. split_and!; [exact E|exact E'|].
    assert (~ (1 < i)) by (intros Hlt; destruct (Hfirst 1) as [f Hf]; [lia|discriminate Hf]).
    assert (i <> 0) by (intros ->; discriminate Hnone). lia.
Defined.

(** C2: [CAFS::inode] finds the inode of every file, and [CaInode::data] then returns
    exactly the contents of the file; both leave the file system as it is. *)
Theorem cafs_read {D} `{BlockDeviceLaws D} n fs (st : CAFS.state (CacheManager.t D)) files fr i f :
  fs_ok n fs st files fr -> files !! i = Some f -> available st i ->
  exists h inode st1 st2, CAFS.inode fs i st = Ok (h, st1) /\ CAFS.heap st1 !! h = Some inode /\
    CAFS.cached (CaInode.data inode) st1 = Ok (f_data f, st2) /\ fs_ok n fs st2 files fr /\
    CaInode.type_ inode = f_type f /\ CaInode.name inode = f_name f.
Proof. apply read_ok. Qed.

Lemma cafs_read_witness : exists st h inode st1 st2,
  CAFS.init (Disk.new 16390) 16390 1 = Ok (layout 16390 1, st) /\
  CAFS.inode (layout 16390 1) 0 st = Ok (h, st1) /\ CAFS.cached (CaInode.data inode) st1 = Ok ([], st2).
Proof.
  destruct fresh_disk as (st & E & Hok & Hr & Hl).
  destruct (cafs_read 16390 (layout 16390 1) st {[0 := root_dir]} 12288 0 root_dir)
    as (h & inode & st1 & st2 & E1 & _ & E2 & _); [exact Hok|reflexivity|by apply one_cached|].
  exists st, h, inode, st1, st2. split_and!; [exact E|exact E1|exact E2].
Defined.

(** C5: [CAFS::init] on any device with room for the areas returns, and the result is a
    file system whose only file is the empty root directory and whose data blocks
    are all free. *)
Theorem cafs_init {D} `{BlockDeviceLaws D} (dev : D) n k v :
  dev_rep dev n v -> 0 < k -> 1 + k * (BLOCK_BITS + 1) <= n -> n * BLOCK_BITS < U64 ->
  exists st, CAFS.init dev n k = Ok (layout n k, st) /\
    fs_ok n (layout n k) st {[0 := root_dir]} (data_count (layout n k)).
Proof. intros. destruct (init_ok dev n k v) as (st & ? & ? & _); try assumption. by exists st. Qed.

Lemma cafs_init_witness : exists st, CAFS.init (Disk.new 16390) 16390 1 = Ok (layout 16390 1, st) /\
  fs_ok 16390 (layout 16390 1) st {[0 := root_dir]} (data_count (layout 16390 1)).
Proof.
  apply (cafs_init (Disk.new 16390) 16390 1 (fun _ => zero_block)); [apply Disk.new_rep; lia|zeval..].
Defined.

(** C4: Nothing is lost by unmounting: after [flush], opening the device again gives a
    file system with the same areas, the same files with the same contents, and the
    same free space. *)
Theorem cafs_remount {D} `{BlockDeviceLaws D} n fs (st : CAFS.state (CacheManager.t D)) files fr :
  fs_ok n fs st files fr ->
  exists st' st'', CAFS.fs_flush st = Ok (tt, st') /\
    CAFS.open (CacheManager.block_device (CAFS.cache_manager st')) = Ok (fs, st'') /\
    fs_ok n fs st'' files fr.
Proof.
  intros Hok. assert (Hg := Hok). destruct Hg as [geo _].
  destruct (flush_ok n fs st files fr Hok) as (st' & v & own & E & _ & Hdev & Hd & <-).
  destruct (open_ok n fs _ v files own geo Hdev Hd) as (st'' & E' & Hok' & _). by exists st', st''.
Qed.

Lemma cafs_remount_witness : exists st st' st'',
  CAFS.init (Disk.new 16390) 16390 1 = Ok (layout 16390 1, st) /\ CAFS.fs_flush st = Ok (tt, st') /\
  CAFS.open (CacheManager.block_device (CAFS.cache_manager st')) = Ok (layout 16390 1, st'').
Proof.
  destruct fresh_disk as (st & E & Hok & Hr & Hl).
  destruct (cafs_remount 16390 (layout 16390 1) st {[0 := root_dir]} 12288) as (st' & st'' & E1 & E2 & _); [exact Hok|].
  exists st, st', st''. split_and!; [exact E|exact E1|exact E2].
Defined.

(** [CAFS::sub_inodes] of a directory returns the inode numbers of its entries, in
    the order they were created. *)
Theorem cafs_sub_inodes {D} `{BlockDeviceLaws D} n fs (st : CAFS.state (CacheManager.t D)) files fr p fp nums :
  fs_ok n fs st files fr -> files !! p = Some fp -> available st p -> f_type fp = Dir ->
  f_data fp = dir_data nums -> Forall u64 nums ->
  exists st', CAFS.sub_inodes fs p st = Ok (nums, st') /\ fs_ok n fs st' files fr.
Proof.
  intros [geo (v & own & Hinv & <-)] Hp Hav Hty Hdat Hu.
  destruct (sub_inodes_spec fs geo st v files own p fp nums) as (r & st' & E & -> & Hinv' & _); try assumption.
  exists st'. split; [exact E|]. split; [done|]. eauto.
Qed.

Lemma cafs_sub_inodes_witness : exists st st' st'', CAFS.init (Disk.new 16390) 16390 1 = Ok (layout 16390 1, st) /\
  CAFS.write (layout 16390 1) 0 (dir_data [300; 7]) st = Ok (tt, st') /\
  CAFS.sub_inodes (layout 16390 1) 0 st' = Ok ([300; 7], st'').
Proof.
  destruct fresh_disk as (st & E & Hok & Hr & Hl).
  destruct (write_ok 16390 (layout 16390 1) st {[0 := root_dir]} 12288 0 root_dir (dir_data [300; 7]))
    as (st' & E1 & Hok1 & _ & Hl1 & _); [exact Hok|reflexivity|by apply one_cached|apply dir_data_u8|zeval..|].
  destruct (cafs_sub_inodes 16390 (layout 16390 1) st' (<[0 := set_data root_dir (dir_data [300; 7])]> {[0 := root_dir]})
    12287 0 (set_data root_dir (dir_data [300; 7])) [300; 7])
    as (st'' & E2 & _); [exact Hok1|reflexivity| |reflexivity|reflexivity| |].
  - right. left. rewrite Hl in Hl1. unfold INODE_CACHE_SIZE. lia.
  - repeat constructor; zeval.
  - exists st, st', st''. split_and!; [exact E|exact E1|exact E2].
Defined.

(** [CAFS::df] returns the free and the total space of the data area in bytes. *)
Theorem cafs_df {D} `{BlockDeviceLaws D} n fs (st : CAFS.state (CacheManager.t D)) files fr :
  fs_ok n fs st files fr ->
  exists st', CAFS.df fs st = Ok ((fr * BLOCK_SIZE, data_count fs * BLOCK_SIZE), st') /\ fs_ok n fs st' files fr.
Proof.
  intros [geo (v & own & Hinv & <-)].
  destruct (df_spec fs geo st v files own Hinv) as (r & st' & E & -> & Hinv').
  exists st'. split; [exact E|]. split; [done|]. eauto.
Qed.

Lemma cafs_df_witness : exists st st', CAFS.init (Disk.new 16390) 16390 1 = Ok (layout 16390 1, st) /\
  CAFS.df (layout 16390 1) st = Ok ((6291456, 6291456), st').
Proof.
  destruct fresh_disk as (st & E & Hok & Hr & Hl).
  destruct (cafs_df 16390 (layout 16390 1) st {[0 := root_dir]} 12288) as (st' & E1 & _); [exact Hok|].
  exists st, st'. split; [exact E|exact E1].
Defined.

(** C23: A write that needs more blocks than are free panics with "run out of data
    block", whether the data blocks or the index blocks run out. *)
Theorem cafs_write_full {D} `{BlockDeviceLaws D} n fs (st : CAFS.state (CacheManager.t D)) files fr i f c :
  fs_ok n fs st files fr -> files !! i = Some f -> available st i ->
  zlen (f_data f) < zlen c <= L4_MAX -> fr < need (zlen (f_data f)) (zlen c) ->
  CAFS.write fs i c st = Fault (Panic PData).
Proof. intros [geo (v & own & Hinv & <-)] Hf Hav Hs Hneed. by eapply (write_full fs geo st v files own i f c). Qed.

Lemma cafs_write_full_witness : exists st, CAFS.init (Disk.new 8000) 8000 1 = Ok (layout 8000 1, st) /\
  CAFS.write (layout 8000 1) 0 [1] st = Fault (Panic PData).
Proof.
  destruct (init_ok (Disk.new 8000) 8000 1 (fun _ => zero_block)) as (st & E & Hok & Hr & Hl);
    [apply Disk.new_rep; lia|unfold BLOCK_BITS, BLOCK_SIZE, U64; lia..|].
  exists st. split; [exact E|].
  apply (cafs_write_full 8000 (layout 8000 1) st {[0 := root_dir]} (data_count (layout 8000 1)) 0 root_dir [1]);
    [exact Hok|reflexivity|by apply one_cached|zeval..].
Defined.

(** An inode of one block, 4101, on the fresh disk. *)
Definition one_block : Meta.t := Meta.mk 512 (4101 :: replicate 35 0) 0 0 (replicate 200 0).

Lemma one_block_ok v : inode_ok v one_block [] [4101].
Proof.
  split; [split; [done|by repeat constructor|by left]|zeval|done| |apply NoDup_singleton|].
  - intros info E. vm_compute in E. by simplify_eq.
  - repeat constructor; zeval.
Qed.


Definition full_block : list Z := replicate 512 255.




(** A disk with two files of one byte: the root in block 4101, and file 1 in block
    4101 + 4101, where the data area starts at block 4101. *)
Module TwoFiles.
Definition fs : CAFS.t := layout 16390 1.
Definition file_1 : file := set_data (new_file File [97]) [9].
Definition files : gmap Z file := {[0 := set_data root_dir [7]; 1 := file_1]}.
Definition own (i : Z) : list Z * list Z := if i =? 0 then ([], [4101]) else ([], [8202]).
Definition meta (f : file) (block : Z) : Meta.t := Meta.mk 1 (block :: replicate 35 0) 0 (InodeType_u64 (f_type f)) (f_name f).
Definition v (b : Z) : list Z :=
  if b =? 0 then poke 0 (super (n := 16390) 1) zero_block else if b =? 1 then 3 :: replicate 511 0
  else if b =? 2 then poke 0 (meta (set_data root_dir [7]) 4101) zero_block
  else if b =? 3 then poke 0 (meta file_1 8202) zero_block
  else if b =? 4098 then 1 :: replicate 511 0 else if b =? 4099 then 32 :: replicate 511 0
  else if b =? 4101 then 7 :: replicate 511 0 else if b =? 8202 then 9 :: replicate 511 0 else zero_block.
Definition disk : Disk.t := Disk.mk 16390 (v <$> seqZ 0 16390).
Definition st : CAFS.state (CacheManager.t Disk.t) := CAFS.St (CacheManager.new disk) [] [] [].






End TwoFiles.


(** C25: On a fresh file system fifteen files can be created, and creating the sixteenth
    panics with "Run out of InodeCache!", even though no file is kept open: [create]
    puts every new inode into the cache twice, so none of them can be evicted. *)
Theorem cafs_sixteenth_create {D} `{BlockDeviceLaws D} (dev : D) n k v names name :
  dev_rep dev n v -> 0 < k -> 1 + k * (BLOCK_BITS + 1) <= n -> n * BLOCK_BITS < U64 -> 0 < data_count (layout n k) ->
  length names = 15%nat ->
  Forall (fun name => zlen name <= NAME_LENGTH_LIMIT /\ Forall u8 name) (name :: names) ->
  exists st st', CAFS.init dev n k = Ok (layout n k, st) /\
    create_files (layout n k) names st = Ok (tt, st') /\
    create_files (layout n k) [name] st' = Fault (Panic PInodeCache).
Proof.
  intros Hdev Hk Hn Hb Hdc Hlen [[Hl Hu] Hns]%Forall_cons.
  destruct (init_ok dev n k v Hdev Hk Hn Hb) as (st & E & [geo (w & own & Hinv & Hfree)] & Hr & Hc).
  assert (Hcw : crowded n (layout n k) st 0).
  { destruct (CAFS.inode_cache st) as [|hp [|]] eqn:Ecache; try discriminate Hc.
    assert (Hin : hp ∈ CAFS.inode_cache st) by (rewrite Ecache; by left).
    destruct (mo_cached _ _ _ _ (fi_mem _ _ _ _ _ Hinv) hp Hin) as (i & f & Hf & Hh).
    apply lookup_singleton_Some in Hf as [<- <-].
    split; [|by rewrite Ecache|exact Hr]. exists w, {[0 := root_dir]}, own, root_dir, hp. split_and!; try done; try lia.
    - by eapply cached_found; [apply Hinv| |].
    - intros h Hh'. rewrite Ecache in Hh'. apply list_elem_of_singleton in Hh' as ->. by left.
    - intros i [g Hg]. apply lookup_singleton_Some in Hg as [<- _]. lia. }
  assert (Hic : 16 < inode_count (layout n k)).
  { unfold inode_count, layout. cbn [CAFS.inode_bitmap Bitmap.blocks]. unfold BLOCK_BITS, BLOCK_SIZE. lia. }
  destruct (crowded_files n (layout n k) geo names st 0 Hcw) as (st' & E' & Hcw'); try assumption; [lia|lia|].
  rewrite Hlen in Hcw'. exists st, st'. split_and!; [exact E|exact E'|]. by apply (crowded_last n (layout n k) geo).
Qed.

Lemma cafs_sixteenth_create_witness : exists st st', CAFS.init (Disk.new 16390) 16390 1 = Ok (layout 16390 1, st) /\
  create_files (layout 16390 1) (replicate 15 [97]) st = Ok (tt, st') /\
  create_files (layout 16390 1) [[98]] st' = Fault (Panic PInodeCache).
Proof.
  apply (cafs_sixteenth_create (Disk.new 16390) 16390 1 (fun _ => zero_block)); [apply Disk.new_rep; lia|zeval..|reflexivity|].
  constructor; [split; zeval|]. apply Forall_replicate. split; zeval.
Defined.
