(* ===== verification/Namespace.v ===== *)
(** The contract of the virtual file system of fs/src/vfs: a list of names with their
    contents, in the order of creation, and the proof that [VFS] implements it. *)
From S2P Require Import Prelude Device Block Manager Bitmap Layout Index Resize InodeNumber Utf8 Cafs Vfs Contents Files Inodes Directory Mount Paths Errors FileSystem.
From Stdlib Require Import ZArith Lia.
From stdpp Require Import gmap functions sorting list_numbers list.
Local Open Scope Z_scope.

(** The virtual file system in state [st] holds [files], the root directory lists
    [nums], and [fr] data blocks are free. *)
Definition vfs_ok {D} `{BlockDeviceLaws D} (n : Z) (fs : CAFS.t) (st : VFS.state (CacheManager.t D))
    (files : gmap Z file) (nums : list Z) (fr : Z) : Prop :=
  geometry n fs /\ exists v own, vfs_inv (n := n) fs st v files own nums /\ free fs v = fr.

Section client.
Context {D : Type} `{HD : BlockDeviceLaws D}.

(** Mounting a device that holds a flat file system. *)
Lemma vfs_new_ok n fs (dev : D) v files own nums fuel : geometry n fs -> dev_rep dev n v ->
  disk_ok fs v files own -> flat files nums ->
  exists st, VFS.new (S (S fuel)) dev = Ok (fs, st) /\ vfs_ok n fs st files nums (free fs v) /\
    idle (VFS.primary_partition st).
Proof.
  intros geo Hdev Hd Hflat.
  destruct (open_ok n fs dev v files own geo Hdev Hd) as (st & E & [_ (v' & own' & Hinv & Hf)] & Hr & Hc).
  assert (Hidle : idle st) by (split; [exact Hr|]; rewrite Hc; apply NoDup_nil_2).
  destruct (read_root fs geo fuel st v' files own' nums Hinv Hidle Hflat) as (root & st' & E' & Hinv' & Hidle' & Htree).
  exists (VFS.St st' root). split_and!; [|split; [exact geo|]|exact Hidle'].
  - unfold VFS.new. rewrite E. cbn [mbind outcome_bind]. rewrite E'. reflexivity.
  - exists v', own'. split; [|exact Hf]. split; [exact Hinv'|exact Htree].
Qed.

Lemma vfs_read_ok n fs (st : VFS.state (CacheManager.t D)) files nums fr name :
  vfs_ok n fs st files nums fr -> SLASH ∉ name -> (forall i, available (VFS.primary_partition st) i) ->
  exists r st', VFS.read_unstable fs (root_path name) st = Ok (r, st') /\ vfs_ok n fs st' files nums fr /\
    (cached_inodes st' <= S (cached_inodes st))%nat /\
    match find_name files nums name with
    | Some i => exists f, files !! i = Some f /\ r = inr (f_data f)
    | None => r = inl (NotExist name)
    end.
Proof.
  intros [geo (v & own & Hinv & <-)] Hn Hav.
  destruct (read_path_spec fs geo st v files own nums name Hinv Hn Hav) as (r & st' & E & Hinv' & _ & Hl & Hres).
  exists r, st'. split_and!; [exact E| |exact Hl|exact Hres]. split; [exact geo|]. eauto.
Qed.

(** The names [ls_root] lists. *)
Lemma ls_root_ok n fs (st : VFS.state (CacheManager.t D)) files nums fr : vfs_ok n fs st files nums fr ->
  exists rf names, files !! 0 = Some rf /\ VFS.ls_root st = Ok (file_name rf :: names, st) /\
    Forall2 (fun i name => (file_name <$> files !! i) = Some name) nums names.
Proof.
  intros [geo (v & own & [Hinv [(rf & Hrf & _ & _ & Hroot) _ Hs]] & _)].
  exists rf, (DirEntry.name <$> DirEntry.subdirs (VFS.dentry_cache st)). split; [exact Hrf|]. split.
  - unfold VFS.ls_root. rewrite Hroot at 1. reflexivity.
  - apply Forall2_fmap_r. eapply Forall2_impl; [exact Hs|]. intros i d (f & Hf & _ & ->). by rewrite Hf.
Qed.
End client.


(** ** The abstract name space *)
Module Names.

(** Names with their contents. *)
Abbreviation t := (list (list Z * list Z)).

(** The contents of the first entry with this name. *)
Fixpoint read (name : list Z) (l : t) : option (list Z) :=
  match l with
  | [] => None
  | (x, c) :: l => if decide (x = name) then Some c else read name l
  end.

(** Replace the contents of the first entry with this name. *)
Fixpoint write (name c : list Z) (l : t) : t :=
  match l with
  | [] => []
  | (x, d) :: l => if decide (x = name) then (x, c) :: l else (x, d) :: write name c l
  end.

Definition create (name : list Z) (l : t) : t := l ++ [(name, [])].

(** The bytes of a root directory with [k] entries. *)
Definition dir_size (k : nat) : Z := match k with O => 0 | S k => 11 * Z.of_nat k + 10 end.

Lemma read_write name c l : read name l <> None -> read name (write name c l) = Some c.
Proof.
  induction l as [|[x d] l IH]; [done|]. cbn [read write]. destruct (decide (x = name)) as [->|Hne]; cbn [read].
  - by rewrite decide_True.
  - rewrite decide_False by done. auto.
Qed.

Lemma read_write_ne name name' c l : name' <> name -> read name' (write name c l) = read name' l.
Proof.
  intros Hne. induction l as [|[x d] l IH]; [done|]. cbn [read write].
  destruct (decide (x = name)) as [->|]; cbn [read].
  - by rewrite !decide_False by congruence.
  - by rewrite IH.
Qed.

Lemma read_create name l : read name l = None -> read name (create name l) = Some [].
Proof.
  induction l as [|[x d] l IH]; cbn [read create app]; [by rewrite decide_True|]. case_decide; [done|apply IH].
Qed.
Lemma read_create_ne name name' l : name' <> name -> read name' (create name l) = read name' l.
Proof.
  intros Hne. induction l as [|[x d] l IH]; cbn [read create app]; [by rewrite decide_False|]. case_decide; [done|apply IH].
Qed.
End Names.

(** The entries of the files [nums]. *)
Definition entries (files : gmap Z file) (nums : list Z) : Names.t :=
  omap (fun i => (fun f => (file_name f, f_data f)) <$> files !! i) nums.

Lemma entries_cons files i nums f : files !! i = Some f ->
  entries files (i :: nums) = (file_name f, f_data f) :: entries files nums.
Proof. intros Hf. unfold entries. cbn [omap list_omap]. by rewrite Hf. Qed.

Lemma entries_length files nums : Forall (fun i => is_Some (files !! i)) nums ->
  length (entries files nums) = length nums.
Proof. induction 1 as [|i nums [f Hf] _ IH]; [done|]. rewrite (entries_cons _ _ _ f) by done. simpl. by rewrite IH. Qed.

Lemma entries_ext files files' nums : Forall (fun i => files !! i = files' !! i) nums ->
  entries files nums = entries files' nums.
Proof. induction 1 as [|i nums E _ IH]; [done|]. unfold entries in *. cbn [omap list_omap]. by rewrite E, IH. Qed.

Lemma find_name_cons files i nums f name : files !! i = Some f ->
  find_name files (i :: nums) name = if decide (file_name f = name) then Some i else find_name files nums name.
Proof.
  intros Hf. unfold find_name. cbn [find_index]. unfold has_name at 1. rewrite Hf. cbn [fmap option_fmap option_map].
  case_decide as E.
  - by rewrite bool_decide_true by congruence.
  - rewrite bool_decide_false by congruence. by destruct (find_index _ nums).
Qed.

(** Looking up a name in the files and in the entries. *)
Lemma read_entries_spec files nums name : Forall (fun i => is_Some (files !! i)) nums ->
  Names.read name (entries files nums) = i ← find_name files nums name; f_data <$> files !! i.
Proof.
  induction 1 as [|i nums [f Hf] _ IH]; [done|]. rewrite (entries_cons _ _ _ f), (find_name_cons _ _ _ f) by done.
  cbn [Names.read]. case_decide; [|done]. cbn [mbind option_bind]. by rewrite Hf.
Qed.

Lemma write_entries files nums name c i f : Forall (fun i => is_Some (files !! i)) nums -> NoDup nums ->
  find_name files nums name = Some i -> files !! i = Some f ->
  entries (<[i := set_data f c]> files) nums = Names.write name c (entries files nums).
Proof.
  intros Hs Hnd Hn Hf. induction Hs as [|j nums [g Hg] Hs IH]; [done|].
  apply NoDup_cons in Hnd as [Hj Hnd]. rewrite (find_name_cons _ _ _ g) in Hn by done.
  rewrite (entries_cons files j nums g) by done. cbn [Names.write]. case_decide as E.
  - injection Hn as ->. assert (g = f) as -> by congruence. rewrite (entries_cons _ _ _ (set_data f c)) by apply lookup_insert_eq.
    f_equal. apply entries_ext, Forall_forall. intros k Hk. rewrite lookup_insert_ne; [done|]. by intros ->.
  - assert (i <> j). { intros ->. apply Hj. unfold find_name in Hn. destruct (find_index _ nums); [|done].
      by eapply list_elem_of_lookup_2. }
    rewrite (entries_cons _ _ _ g) by (by rewrite lookup_insert_ne). f_equal. auto.
Qed.

(** ** The simulation *)

(** The root directory of the mounted file system lists exactly the entries [l]; there
    are no other files, and [fr] data blocks are free. *)
Definition names_ok {D} `{BlockDeviceLaws D} (n : Z) (fs : CAFS.t) (st : VFS.state (CacheManager.t D))
    (l : Names.t) (fr : Z) : Prop :=
  exists files nums, vfs_ok n fs st files nums fr /\ NoDup nums /\ entries files nums = l /\
    (forall i, is_Some (files !! i) -> i = 0 \/ i ∈ nums).

Section simulation.
Context {D : Type} `{HD : BlockDeviceLaws D}.
Implicit Types st : VFS.state (CacheManager.t D).

Lemma tree_files files nums root : tree_ok files nums root -> Forall (fun i => is_Some (files !! i)) nums.
Proof. intros [_ _ Hs]. induction Hs as [|i d nums ds (f & Hf & _) _ IH]; constructor; eauto. Qed.

Lemma find_name_elem files nums name i : find_name files nums name = Some i -> i ∈ nums.
Proof. unfold find_name. destruct (find_index _ nums); [|done]. apply list_elem_of_lookup_2. Qed.

Lemma tree_nonzero files nums root : tree_ok files nums root -> 0 ∉ nums.
Proof.
  intros [(rf & Hrf & Hty & _) _ Hs] Hin. apply list_elem_of_lookup in Hin as [k Hk].
  destruct (Forall2_lookup_l _ _ _ _ _ Hs Hk) as (d & _ & f & Hf & Htf & _). congruence.
Qed.

Lemma length_dir_data nums : zlen (dir_data nums) = Names.dir_size (length nums).
Proof.
  unfold dir_data. induction nums as [|i nums IH]; [done|]. destruct nums as [|j nums].
  - cbn [fmap list_fmap join_on]. by rewrite length_encode_number.
  - rewrite fmap_cons. cbn [join_on fmap list_fmap] in *. rewrite !length_app, length_encode_number. cbn [length Names.dir_size] in *. lia.
Qed.

(** Among more numbers than there are files, one is free. *)
Lemma free_number (files : gmap Z file) nums k : (forall i, is_Some (files !! i) -> i = 0 \/ i ∈ nums) ->
  Z.of_nat (length nums) + 1 < k -> exists i, 0 <= i < k /\ files !! i = None.
Proof.
  intros Hdom Hk. destruct (decide (Exists (fun i => files !! i = None) (seqZ 0 k))) as [He|He].
  - apply Exists_exists in He as (i & Hi%elem_of_seqZ & Hn). exists i. split; [lia|done].
  - exfalso. assert (Hsub : seqZ 0 k ⊆+ 0 :: nums).
    { apply NoDup_submseteq; [apply NoDup_seqZ|]. intros i Hi. rewrite elem_of_cons. apply Hdom.
      apply not_eq_None_Some. intros Hn. apply He, Exists_exists. eauto. }
    apply submseteq_length in Hsub. rewrite length_seqZ in Hsub. simpl in Hsub. lia.
Qed.

(** Reading. *)
Lemma names_read n fs st l fr name : names_ok n fs st l fr -> SLASH ∉ name ->
  (forall i, available (VFS.primary_partition st) i) ->
  exists st', VFS.read_unstable fs (root_path name) st =
      Ok (match Names.read name l with Some c => inr c | None => inl (NotExist name) end, st') /\
    names_ok n fs st' l fr /\ (cached_inodes st' <= S (cached_inodes st))%nat.
Proof.
  intros (files & nums & Hok & Hnd & <- & Hdom) Hn Hav. assert (Hok' := Hok).
  destruct Hok' as [_ (v & own & [_ Htree] & _)]. rewrite (read_entries_spec _ _ _ (tree_files _ _ _ Htree)).
  destruct (vfs_read_ok n fs st files nums fr name Hok Hn Hav) as (r & st' & E & Hok' & Hl & Hres).
  exists st'. split_and!; [|by exists files, nums|exact Hl]. rewrite E.
  destruct (find_name files nums name) as [i|]; cbn [mbind option_bind].
  - destruct Hres as (f & -> & ->). done.
  - by rewrite Hres.
Qed.

(** Writing. *)
Lemma names_write n fs st l fr name old c : names_ok n fs st l fr -> SLASH ∉ name ->
  Names.read name l = Some old -> (forall i, available (VFS.primary_partition st) i) ->
  Forall u8 c -> zlen c <= L4_MAX -> cdiv (zlen old) 512 <= cdiv (zlen c) 512 -> need (zlen old) (zlen c) <= fr ->
  exists st', VFS.write fs (root_path name) c st = Ok (inr tt, st') /\
    names_ok n fs st' (Names.write name c l) (fr - need (zlen old) (zlen c)) /\
    (cached_inodes st' <= S (cached_inodes st))%nat.
Proof.
  intros (files & nums & [geo (v & own & Hinv & <-)] & Hnd & <- & Hdom) Hn Hold Hav Hu Hmax Hcd Hneed.
  pose proof (tree_files _ _ _ (vi_tree _ _ _ _ _ _ Hinv)) as Hs.
  rewrite (read_entries_spec _ _ _ Hs) in Hold. destruct (find_name files nums name) as [i|] eqn:Efn; [|done].
  cbn [mbind option_bind] in Hold. destruct (files !! i) as [f|] eqn:Hf; [|done]. injection Hold as <-.
  assert (Hi : i <> 0). { intros ->. eapply tree_nonzero; [apply Hinv|]. by eapply find_name_elem. }
  destruct (write_path_spec fs geo st v files own nums name i f c) as
    (r & st' & E & -> & v' & own' & Hinv' & Hfree & Hl); try done.
  exists st'. split_and!; [exact E| |exact Hl]. exists (<[i := set_data f c]> files), nums. split_and!; [|done| |].
  - split; [exact geo|]. eauto.
  - by apply write_entries.
  - intros j. rewrite lookup_insert_is_Some. intros [<- |[_ Hj]]; [|auto]. right. by eapply find_name_elem.
Qed.

(** A name that is not there. *)
Lemma names_write_missing n fs st l fr name c : names_ok n fs st l fr -> SLASH ∉ name ->
  Names.read name l = None -> VFS.write fs (root_path name) c st = Ok (inl (NotExist name), st).
Proof.
  intros (files & nums & [geo (v & own & [Hinv Htree] & <-)] & Hnd & <- & Hdom) Hn Hold.
  rewrite (read_entries_spec _ _ _ (tree_files _ _ _ Htree)) in Hold.
  pose proof (find_dentry_root files nums _ name Htree) as Hfind.
  destruct (find_name files nums name) as [i|] eqn:Efn.
  - destruct Hfind as (k & f & _ & Hf & _). cbn [mbind option_bind] in Hold. by rewrite Hf in Hold.
  - unfold VFS.write, VFS.lookup_dentry, mbind, M_bind, lift. rewrite parse_root_path by done.
    omon. cbn [Path.parents Path.name app]. by rewrite Hfind.
Qed.

(** Creating. *)
Lemma names_create n fs st l fr name : names_ok n fs st l fr -> SLASH ∉ name -> 0 ∉ name -> utf8 name = true ->
  Forall u8 name -> zlen name <= NAME_LENGTH_LIMIT -> Z.of_nat (length l) + 1 < inode_count fs ->
  (cached_inodes st + 3 <= INODE_CACHE_SIZE)%nat -> Names.dir_size (S (length l)) <= L4_MAX ->
  need (Names.dir_size (length l)) (Names.dir_size (S (length l))) <= fr ->
  exists st', VFS.create fs (root_path name) st = Ok (inr tt, st') /\
    names_ok n fs st' (Names.create name l) (fr - need (Names.dir_size (length l)) (Names.dir_size (S (length l)))) /\
    (cached_inodes st' <= cached_inodes st + 3)%nat.
Proof.
  intros (files & nums & [geo (v & own & Hinv & <-)] & Hnd & <- & Hdom) Hn H0 Hutf Hu Hlen Hic Hcache Hmax Hneed.
  pose proof (vi_tree _ _ _ _ _ _ Hinv) as Htree. pose proof (tree_files _ _ _ Htree) as Hs.
  rewrite entries_length in * by exact Hs. destruct (to_root _ _ _ Htree) as (rf & Hrf & _ & Hdat & _).
  destruct (free_number files nums (inode_count fs) Hdom Hic) as (k & Hk & Hfree).
  assert (Es : entry_size (f_data rf) = Names.dir_size (S (length nums))).
  { rewrite <- (length_append_entry _ 0), Hdat, append_entry_dir, length_dir_data, length_app. cbn [length]. by rewrite Nat.add_1_r. }
  assert (El : zlen (f_data rf) = Names.dir_size (length nums)) by (by rewrite Hdat, length_dir_data).
  destruct (create_path_spec fs geo st v files own nums rf name k) as
    (r & st' & E & -> & i & v' & own' & Hnone & _ & Hinv' & Hf' & _ & Hl'); try done; [by rewrite Es|by rewrite Es, El|].
  exists st'. split_and!; [exact E| |exact Hl']. assert (Hi0 : i <> 0) by congruence.
  assert (Hin : i ∉ nums). { intros Hin. rewrite Forall_forall in Hs. destruct (Hs i Hin) as [f Hf]. congruence. }
  eexists _, (nums ++ [i]). split_and!.
  - split; [exact geo|]. exists v', own'. split; [exact Hinv'|]. by rewrite Hf', El, Es.
  - apply NoDup_app. split_and!; [done| |apply NoDup_singleton]. intros x Hx ->%list_elem_of_singleton. done.
  - unfold Names.create, entries. rewrite omap_app. f_equal.
    + apply entries_ext, Forall_forall. intros j Hj. rewrite !lookup_insert_ne; [done|by intros ->|].
      intros <-. by eapply tree_nonzero.
    + cbn [omap list_omap]. rewrite lookup_insert_ne, lookup_insert_eq by done. cbn [fmap option_fmap option_map].
      by rewrite new_file_name.
  - intros j Hj. rewrite !lookup_insert_is_Some in Hj. rewrite elem_of_app, list_elem_of_singleton.
    destruct Hj as [<- |[_ [<- |[_ Hj]]]]; [auto|auto|]. destruct (Hdom j Hj); auto.
Qed.
End simulation.

(** ** What a client can rely on *)

(** The states for the witnesses: a fresh disk, mounted, without files and with one
    empty file "a". *)
Lemma fresh_names : exists st : VFS.state (CacheManager.t Disk.t),
  names_ok 16390 (layout 16390 1) st [] 12288 /\ cached_inodes st = 1%nat.
Proof.
  destruct fresh_disk as (st & _ & [geo (v & own & Hinv & Hf)] & _ & Hl).
  exists (VFS.St st (DirEntry.mk Dir 0 (file_name root_dir) [])). split; [|exact Hl].
  exists {[0 := root_dir]}, []. split_and!; [|constructor|reflexivity|].
  - split; [exact geo|]. exists v, own. split; [|exact Hf]. split; [exact Hinv|].
    split; [exists root_dir; split_and!; reflexivity|constructor..].
  - intros i [f Hi]. apply lookup_singleton_Some in Hi as [<- _]. by left.
Qed.

Lemma one_name : exists st : VFS.state (CacheManager.t Disk.t),
  names_ok 16390 (layout 16390 1) st [([97], [])] 12287 /\ (cached_inodes st <= 4)%nat.
Proof.
  destruct fresh_names as (st & Hok & Hl).
  destruct (names_create 16390 (layout 16390 1) st [] 12288 [97] Hok) as (st' & _ & Hok' & Hl').
  - apply (bool_decide_unpack _). vm_compute. exact I.
  - apply (bool_decide_unpack _). vm_compute. exact I.
  - vm_compute. reflexivity.
  - zeval.
  - zeval.
  - zeval.
  - rewrite Hl. unfold INODE_CACHE_SIZE. lia.
  - zeval.
  - zeval.
  - exists st'. split; [exact Hok'|lia].
Qed.

Lemma few_available {C} (st : VFS.state C) : (cached_inodes st < INODE_CACHE_SIZE)%nat ->
  forall i, available (VFS.primary_partition st) i.
Proof. intros Hl i. right. by left. Qed.

(** [VFS::read_unstable] of a file of the root directory returns the contents of the
    first entry with that name, and [NotExist] when there is none; the name space and
    the free space stay the same. *)
Theorem vfs_read {D} `{BlockDeviceLaws D} n fs (st : VFS.state (CacheManager.t D)) l fr name :
  names_ok n fs st l fr -> SLASH ∉ name -> (forall i, available (VFS.primary_partition st) i) ->
  exists st', VFS.read_unstable fs (root_path name) st =
      Ok (match Names.read name l with Some c => inr c | None => inl (NotExist name) end, st') /\
    names_ok n fs st' l fr.
Proof. intros Hok Hn Hav. destruct (names_read n fs st l fr name Hok Hn Hav) as (st' & ? & ? & _). by exists st'. Qed.

Lemma vfs_read_witness : exists st st' st'' : VFS.state (CacheManager.t Disk.t),
  VFS.read_unstable (layout 16390 1) (root_path [97]) st = Ok (inr [], st') /\
  VFS.read_unstable (layout 16390 1) (root_path [98]) st = Ok (inl (NotExist [98]), st'').
Proof.
  destruct one_name as (st & Hok & Hl).
  assert (Hav : forall i, available (VFS.primary_partition st) i) by (apply few_available; unfold INODE_CACHE_SIZE; lia).
  destruct (vfs_read 16390 (layout 16390 1) st [([97], [])] 12287 [97]) as (st' & E & _);
    [exact Hok|apply (bool_decide_unpack _); vm_compute; exact I|exact Hav|].
  destruct (vfs_read 16390 (layout 16390 1) st [([97], [])] 12287 [98]) as (st'' & E' & _);
    [exact Hok|apply (bool_decide_unpack _); vm_compute; exact I|exact Hav|].
  exists st, st', st''. split; [exact E|exact E'].
Defined.

(** [VFS::write] to a file of the root directory that does not give blocks back
    replaces the contents of the first entry with that name and of no other; to a name
    that is not there it changes nothing and returns [NotExist]. *)
Theorem vfs_write {D} `{BlockDeviceLaws D} n fs (st : VFS.state (CacheManager.t D)) l fr name c :
  names_ok n fs st l fr -> SLASH ∉ name -> (forall i, available (VFS.primary_partition st) i) ->
  match Names.read name l with
  | None => VFS.write fs (root_path name) c st = Ok (inl (NotExist name), st)
  | Some old => Forall u8 c -> zlen c <= L4_MAX -> cdiv (zlen old) 512 <= cdiv (zlen c) 512 ->
      need (zlen old) (zlen c) <= fr ->
      exists st', VFS.write fs (root_path name) c st = Ok (inr tt, st') /\
        names_ok n fs st' (Names.write name c l) (fr - need (zlen old) (zlen c))
  end.
Proof.
  intros Hok Hn Hav. destruct (Names.read name l) as [old|] eqn:Er.
  - intros. destruct (names_write n fs st l fr name old c) as (st' & ? & ? & _); try assumption. by exists st'.
  - by apply (names_write_missing n fs st l fr).
Qed.

Lemma vfs_write_witness : exists st st' : VFS.state (CacheManager.t Disk.t),
  VFS.write (layout 16390 1) (root_path [97]) [1; 2; 3] st = Ok (inr tt, st') /\
  names_ok 16390 (layout 16390 1) st' [([97], [1; 2; 3])] 12286.
Proof.
  destruct one_name as (st & Hok & Hl).
  destruct (vfs_write 16390 (layout 16390 1) st [([97], [])] 12287 [97] [1; 2; 3]) as (st' & E & Hok').
  - exact Hok.
  - apply (bool_decide_unpack _). vm_compute. exact I.
  - apply few_available. unfold INODE_CACHE_SIZE. lia.
  - zeval.
  - zeval.
  - zeval.
  - zeval.
  - exists st, st'. split; [exact E|exact Hok'].
Defined.

(** [VFS::create] in the root directory appends an empty file with exactly the given
    name to the name space (even when the name is already there), provided an inode,
    room in the inode cache and space for the directory entry are left. *)
Theorem vfs_create {D} `{BlockDeviceLaws D} n fs (st : VFS.state (CacheManager.t D)) l fr name :
  names_ok n fs st l fr -> SLASH ∉ name -> 0 ∉ name -> utf8 name = true ->
  Forall u8 name -> zlen name <= NAME_LENGTH_LIMIT -> Z.of_nat (length l) + 1 < inode_count fs ->
  (cached_inodes st + 3 <= INODE_CACHE_SIZE)%nat -> Names.dir_size (S (length l)) <= L4_MAX ->
  need (Names.dir_size (length l)) (Names.dir_size (S (length l))) <= fr ->
  exists st', VFS.create fs (root_path name) st = Ok (inr tt, st') /\
    names_ok n fs st' (Names.create name l) (fr - need (Names.dir_size (length l)) (Names.dir_size (S (length l)))).
Proof. intros. destruct (names_create n fs st l fr name) as (st' & ? & ? & _); try assumption. by exists st'. Qed.

Lemma vfs_create_witness : exists st st' : VFS.state (CacheManager.t Disk.t),
  VFS.create (layout 16390 1) (root_path [97]) st = Ok (inr tt, st') /\
  names_ok 16390 (layout 16390 1) st' [([97], [])] 12287.
Proof.
  destruct fresh_names as (st & Hok & Hl).
  destruct (vfs_create 16390 (layout 16390 1) st [] 12288 [97]) as (st' & E & Hok').
  - exact Hok.
  - apply (bool_decide_unpack _). vm_compute. exact I.
  - apply (bool_decide_unpack _). vm_compute. exact I.
  - vm_compute. reflexivity.
  - zeval.
  - zeval.
  - zeval.
  - rewrite Hl. unfold INODE_CACHE_SIZE. lia.
  - zeval.
  - zeval.
  - exists st, st'. split; [exact E|exact Hok'].
Defined.

(** What is written can be read: after creating a file with a new name and writing
    to it, reading its path returns what was written, and every other path reads as
    before. *)
Theorem vfs_create_write_read {D} `{BlockDeviceLaws D} n fs (st : VFS.state (CacheManager.t D)) l fr name c :
  names_ok n fs st l fr -> Names.read name l = None -> SLASH ∉ name -> 0 ∉ name -> utf8 name = true ->
  Forall u8 name -> zlen name <= NAME_LENGTH_LIMIT -> Z.of_nat (length l) + 1 < inode_count fs ->
  (cached_inodes st + 6 <= INODE_CACHE_SIZE)%nat -> Names.dir_size (S (length l)) <= L4_MAX ->
  Forall u8 c -> zlen c <= L4_MAX ->
  need (Names.dir_size (length l)) (Names.dir_size (S (length l))) + need 0 (zlen c) <= fr ->
  exists st1 st2, VFS.create fs (root_path name) st = Ok (inr tt, st1) /\
    VFS.write fs (root_path name) c st1 = Ok (inr tt, st2) /\
    forall name', SLASH ∉ name' -> exists st3, VFS.read_unstable fs (root_path name') st2 =
      Ok (if decide (name' = name) then inr c
          else match Names.read name' l with Some d => inr d | None => inl (NotExist name') end, st3).
Proof.
  intros Hok Hnew Hn Hzero Hutf Hu Hlen Hic Hcache Hmax Hcu Hcm Hneed.
  pose proof (need_pos (zlen c) ltac:(lia)) as Hpos.
  destruct (names_create n fs st l fr name) as (st1 & E1 & Hok1 & Hl1); try assumption; [lia|lia|].
  assert (Hr : Names.read name (Names.create name l) = Some []) by (by apply Names.read_create).
  destruct (names_write n fs st1 _ _ name [] c Hok1 Hn Hr) as (st2 & E2 & Hok2 & Hl2); try assumption.
  - apply few_available. lia.
  - change (cdiv (zlen []) 512) with 0. unfold cdiv. apply Z.div_pos; lia.
  - change (zlen []) with 0. lia.
  - exists st1, st2. split_and!; [exact E1|exact E2|]. intros name' Hn'.
    destruct (names_read n fs st2 _ _ name' Hok2 Hn') as (st3 & E3 & _); [apply few_available; lia|].
    exists st3. rewrite E3. case_decide as Heq.
    + subst name'. rewrite Names.read_write by (by rewrite Hr). done.
    + rewrite Names.read_write_ne by done. by rewrite Names.read_create_ne.
Qed.

Lemma vfs_create_write_read_witness : exists st st1 st2 st3 : VFS.state (CacheManager.t Disk.t),
  VFS.create (layout 16390 1) (root_path [97]) st = Ok (inr tt, st1) /\
  VFS.write (layout 16390 1) (root_path [97]) [5] st1 = Ok (inr tt, st2) /\
  VFS.read_unstable (layout 16390 1) (root_path [97]) st2 = Ok (inr [5], st3).
Proof.
  destruct fresh_names as (st & Hok & Hl).
  destruct (vfs_create_write_read 16390 (layout 16390 1) st [] 12288 [97] [5]) as (st1 & st2 & E1 & E2 & Hread).
  - exact Hok.
  - reflexivity.
  - apply (bool_decide_unpack _). vm_compute. exact I.
  - apply (bool_decide_unpack _). vm_compute. exact I.
  - vm_compute. reflexivity.
  - zeval.
  - zeval.
  - zeval.
  - rewrite Hl. unfold INODE_CACHE_SIZE. lia.
  - zeval.
  - zeval.
  - zeval.
  - zeval.
  - destruct (Hread [97]) as [st3 E3]; [apply (bool_decide_unpack _); vm_compute; exact I|].
    exists st, st1, st2, st3. split_and!; [exact E1|exact E2|exact E3].
Defined.

(** [VFS::ls_root] lists the name of the root directory and then the names of its
    files, in the order of their creation, and changes nothing. *)
Theorem vfs_ls_root {D} `{BlockDeviceLaws D} n fs (st : VFS.state (CacheManager.t D)) l fr :
  names_ok n fs st l fr ->
  VFS.ls_root st = Ok (DirEntry.name (VFS.dentry_cache st) :: (fst <$> l), st).
Proof.
  intros (files & nums & [geo (v & own & [_ [_ _ Hs]] & _)] & _ & <- & _). unfold VFS.ls_root. do 3 f_equal.
  induction Hs as [|i d nums ds (f & Hf & _ & ->) _ IH]; [done|].
  rewrite (entries_cons _ _ _ f) by done. cbn [fmap list_fmap] in *. by rewrite IH.
Qed.

Lemma vfs_ls_root_witness : exists st : VFS.state (CacheManager.t Disk.t),
  VFS.ls_root st = Ok ([DirEntry.name (VFS.dentry_cache st); [97]], st).
Proof.
  destruct one_name as (st & Hok & Hl). exists st. exact (vfs_ls_root 16390 (layout 16390 1) st [([97], [])] 12287 Hok).
Defined.
