(* ===== verification/Tree.v ===== *)
(** Directory trees: the name space of the virtual file system with directories
    inside directories, its relation to the entries of fs/src/vfs/dir_entry.rs and
    to the files on the disk, and what reading the entries, looking up a path and
    changing one entry do to it. *)
From S2P Require Import Prelude Device Block Manager Bitmap Layout Index Resize InodeNumber Utf8 Cafs Vfs Contents Files Inodes Directory Mount Paths.
From Stdlib Require Import ZArith Lia.
From stdpp Require Import gmap functions sorting list_numbers list.
Local Open Scope Z_scope.

(** ** The abstract name space *)
Module Node.

(** A file with its contents, or a directory with its entries in order. *)
Inductive t := Reg (name data : list Z) | Folder (name : list Z) (entries : list t).

Definition name (t : t) : list Z := match t with Reg x _ | Folder x _ => x end.
Definition entries (t : t) : list Node.t := match t with Reg _ _ => [] | Folder _ ns => ns end.

Definition named (x : list Z) (t : t) : bool := bool_decide (name t = x).

(** Follow a path, taking the first entry with each name: the node it leads to, or
    the first name that is not there. *)
Fixpoint walk (t : t) (path : list (list Z)) : list Z + Node.t :=
  match path with
  | [] => inr t
  | x :: path =>
      match find_index (named x) (entries t) ≫= fun k => entries t !! k with
      | None => inl x
      | Some t => walk t path
      end
  end.

(** Change the node a path leads to. *)
Fixpoint update (path : list (list Z)) (f : t -> t) (t : t) : Node.t :=
  match path with
  | [] => f t
  | x :: path =>
      match t with
      | Reg _ _ => t
      | Folder y ns =>
          match find_index (named x) ns with
          | None => t
          | Some k => Folder y (alter (update path f) k ns)
          end
      end
  end.

Definition set (c : list Z) (t : t) : Node.t := match t with Reg x _ => Reg x c | Folder _ _ => t end.
Definition add (new : t) (t : Node.t) : Node.t :=
  match t with Reg _ _ => t | Folder x ns => Folder x (ns ++ [new]) end.

(** The number of nodes, and the length of the longest path. *)
Fixpoint size (t : t) : nat :=
  match t with Reg _ _ => 1 | Folder _ ns => S (sum_list (size <$> ns)) end.
Fixpoint height (t : t) : nat :=
  match t with Reg _ _ => 1 | Folder _ ns => S (max_list (height <$> ns)) end.

(** Induction with a hypothesis for every entry. *)
Lemma tree_ind (P : t -> Prop) : (forall x c, P (Reg x c)) ->
  (forall x ns, Forall P ns -> P (Folder x ns)) -> forall t, P t.
Proof.
  intros HR HF. fix IH 1. intros [x c|x ns]; [apply HR|]. apply HF.
  induction ns as [|n ns IHns]; constructor; [apply IH|exact IHns].
Qed.

(** *** Paths after a change *)

Lemma walk_app t p q : walk t (p ++ q) = match walk t p with inl x => inl x | inr t' => walk t' q end.
Proof.
  revert t. induction p as [|x p IH]; intros t; [done|]. cbn [walk app].
  destruct (_ ≫= _); [apply IH|done].
Qed.

Lemma find_named_alter x k f ns : (forall t, name (f t) = name t) ->
  find_index (named x) (alter f k ns) = find_index (named x) ns.
Proof.
  intros Hf. revert k. induction ns as [|n ns IH]; intros [|k]; [done..| |].
  - cbn [alter list_alter find_index]. unfold named at 1 3. by rewrite Hf.
  - change (alter f (S k) (n :: ns)) with (n :: alter f k ns). cbn [find_index]. by rewrite IH.
Qed.

Lemma name_update path f t : (forall t, name (f t) = name t) -> name (update path f t) = name t.
Proof.
  intros Hf. destruct path as [|x path]; [apply Hf|]. destruct t as [y c|y ns]; [done|]. cbn [update].
  by destruct (find_index _ _).
Qed.

(** The changed node is where it was. *)
Lemma walk_update path f t t' : (forall t, name (f t) = name t) -> walk t path = inr t' ->
  walk (update path f t) path = inr (f t').
Proof.
  intros Hf. revert t. induction path as [|x path IH]; intros t Hw.
  { cbn in *. by injection Hw as ->. }
  cbn [walk] in Hw. destruct t as [y c|y ns]; [done|]. cbn [entries update] in *.
  destruct (find_index (named x) ns) as [k|] eqn:E; [|done]. cbn [mbind option_bind] in Hw.
  destruct (ns !! k) as [n|] eqn:Hk; [|done]. cbn [walk entries].
  rewrite find_named_alter by (intros; by apply name_update). rewrite E. cbn [mbind option_bind].
  rewrite list_lookup_alter_eq, Hk. cbn [fmap option_fmap option_map]. by apply IH.
Qed.

(** New contents do not change the height. *)
Lemma height_update_set path c t : height (update path (set c) t) = height t.
Proof.
  revert t. induction path as [|x path IH]; intros [y d|y ns]; [done..|]. cbn [update].
  destruct (find_index _ ns) as [k|]; [|done]. cbn [height]. do 2 f_equal.
  clear -IH. revert k. induction ns as [|n ns IHns]; intros [|k]; [done..| |].
  - change (alter (update path (set c)) 0%nat (n :: ns)) with (update path (set c) n :: ns). by rewrite !fmap_cons, IH.
  - change (alter (update path (set c)) (S k) (n :: ns)) with (n :: alter (update path (set c)) k ns). by rewrite !fmap_cons, IHns.
Qed.

(** Adding an entry to a directory. *)
Lemma find_named_app x ns n : find_index (named x) (ns ++ [n]) =
  match find_index (named x) ns with
  | Some k => Some k
  | None => if named x n then Some (length ns) else None
  end.
Proof.
  induction ns as [|m ns IH]; cbn [app find_index length].
  - by destruct (named x n).
  - destruct (named x m); [done|]. rewrite IH. destruct (find_index _ ns); [done|]. by destruct (named x n).
Qed.

Lemma walk_add_new x ns new : find_index (named (name new)) ns = None ->
  walk (add new (Folder x ns)) [name new] = inr new.
Proof.
  intros E. cbn [add walk entries]. rewrite find_named_app, E. unfold named. rewrite bool_decide_true by done.
  cbn [mbind option_bind]. by rewrite lookup_app_r, Nat.sub_diag by lia.
Qed.

(** A missing last name. *)
Lemma walk_missing parents t x ns y : walk t parents = inr (Folder x ns) -> walk t (parents ++ [y]) = inl y ->
  find_index (named y) ns = None.
Proof.
  intros Hw. rewrite walk_app, Hw. cbn [walk entries]. destruct (find_index _ ns) as [k|] eqn:E; [|done].
  apply find_index_Some in E as (n & Hn & _). cbn [mbind option_bind]. by rewrite Hn.
Qed.
End Node.

(** ** Entries *)
Module Entry.
Import DirEntry.

Lemma entry_ind (P : t -> Prop) : (forall ty i x ds, Forall P ds -> P (mk ty i x ds)) -> forall d, P d.
Proof.
  intros H. fix IH 1. intros [ty i x ds]. apply H.
  induction ds as [|d ds IHds]; constructor; [apply IH|exact IHds].
Qed.

(** The inode numbers of an entry and of everything below it. *)
Fixpoint numbers (d : t) : list Z := inode_number d :: concat (numbers <$> subdirs d).

Lemma elem_of_numbers j ds : j ∈ concat (numbers <$> ds) <-> exists k e, ds !! k = Some e /\ j ∈ numbers e.
Proof.
  induction ds as [|d ds IH].
  { split; [by intros ?%elem_of_nil|]. by intros (k & e & Hk & _). }
  rewrite fmap_cons. cbn [concat]. rewrite elem_of_app, IH. split.
  - intros [Hj|(k & e & Hk & Hj)]; [by exists 0%nat, d|by exists (S k), e].
  - intros ([|k] & e & Hk & Hj); [injection Hk as ->; by left|right; by exists k, e].
Qed.

Lemma numbers_at pos d d' : at_ pos d = Some d' -> numbers d' ⊆ numbers d.
Proof.
  revert d. induction pos as [|k pos IH]; intros d Hd; [by injection Hd as ->|].
  cbn [at_] in Hd. destruct (subdirs d !! k) as [e|] eqn:E; [|done]. cbn [mbind option_bind] in Hd.
  destruct d as [ty i x ds]. cbn [subdirs] in E. intros j Hj%(IH e Hd). cbn [numbers subdirs]. right.
  apply elem_of_numbers. eauto.
Qed.

Lemma number_update pos f d : (forall d, inode_number (f d) = inode_number d) ->
  inode_number (update pos f d) = inode_number d.
Proof. intros Hf. by destruct pos; [apply Hf|]. Qed.

Lemma numbers_fmap_alter f (k : nat) (ds : list t) : (forall d, inode_number (f d) = inode_number d) ->
  inode_number <$> alter f k ds = inode_number <$> ds.
Proof.
  intros Hf. revert k. induction ds as [|d ds IH]; intros [|k]; [done..| |].
  - change (alter f 0%nat (d :: ds)) with (f d :: ds). by rewrite !fmap_cons, Hf.
  - change (alter f (S k) (d :: ds)) with (d :: alter f k ds). by rewrite !fmap_cons, IH.
Qed.

Lemma update_id pos d : update pos id d = d.
Proof.
  revert d. induction pos as [|k pos IH]; intros [ty i x ds]; [done|]. cbn [update inode_type inode_number name subdirs].
  f_equal. rewrite <- (list_alter_id id ds k) at 2 by done. apply list_alter_ext; [|done]. intros e _. apply IH.
Qed.

(** What a change at a position adds. *)
Lemma numbers_update pos f d d' l : at_ pos d = Some d' -> numbers (f d') ≡ₚ l ++ numbers d' ->
  numbers (update pos f d) ≡ₚ l ++ numbers d.
Proof.
  intros Hd Hf. revert d Hd. induction pos as [|k pos IH]; intros d Hd.
  { injection Hd as ->. exact Hf. }
  cbn [at_] in Hd. destruct d as [ty i x ds]. cbn [subdirs] in Hd.
  destruct (ds !! k) as [e|] eqn:E; [|done]. cbn [mbind option_bind] in Hd.
  cbn [update numbers subdirs inode_number inode_type name]. rewrite <- Permutation_middle. f_equiv.
  specialize (IH e Hd). clear Hd Hf. revert k E. induction ds as [|d ds IHds]; intros k E; [done|].
  destruct k as [|k].
  - injection E as ->. change (alter (update pos f) 0%nat (e :: ds)) with (update pos f e :: ds).
    rewrite !fmap_cons. cbn [concat]. by rewrite IH, app_assoc.
  - change (alter (update pos f) (S k) (d :: ds)) with (d :: alter (update pos f) k ds).
    rewrite !fmap_cons. cbn [concat]. rewrite (IHds k E), !app_assoc. f_equiv. apply Permutation_app_comm.
Qed.

(** The entries that [DirEntry::new] makes: nothing is below them yet. *)
Definition bare (d : t) : t := mk (inode_type d) (inode_number d) (name d) [].

(** The entry [d] stands for the node [t]: the files on the disk have its names, types
    and contents, and a directory lists the numbers of its entries. *)
Inductive denotes (files : gmap Z file) : t -> Node.t -> Prop :=
  | denotes_file i f : files !! i = Some f -> f_type f = File ->
      denotes files (mk File i (file_name f) []) (Node.Reg (file_name f) (f_data f))
  | denotes_dir i f ds ns : files !! i = Some f -> f_type f = Dir ->
      f_data f = dir_data (inode_number <$> ds) -> Forall u64 (inode_number <$> ds) ->
      Forall2 (denotes files) ds ns ->
      denotes files (mk Dir i (file_name f) ds) (Node.Folder (file_name f) ns).

Section denotes.
Context (files : gmap Z file).

Lemma denotes_name d t : denotes files d t -> name d = Node.name t.
Proof. by destruct 1. Qed.

(** The file of an entry. *)
Lemma denotes_entry d t : denotes files d t ->
  exists f, files !! inode_number d = Some f /\ bare d = entry_of (inode_number d) f.
Proof. destruct 1 as [i f Hf Hty|i f ds ns Hf Hty _ _ _]; exists f; split; try done; unfold bare, entry_of; cbn; by rewrite Hty. Qed.

Lemma denotes_size d t : denotes files d t -> length (numbers d) = Node.size t.
Proof.
  revert t. induction d as [ty i x ds IH] using entry_ind. intros t Hd.
  inversion Hd as [i' f Hf Hty|i' f ds' ns Hf Hty Hdat Hu Hs]; subst; [done|].
  cbn [numbers subdirs length Node.size]. f_equal. clear Hd Hdat Hu.
  induction Hs as [|d n ds ns Hdn Hs IHs]; [done|]. apply Forall_cons in IH as [IHd IH].
  rewrite !fmap_cons. cbn [concat sum_list]. rewrite length_app. f_equal; [by apply IHd|auto].
Qed.

Lemma denotes_find x ds ns : Forall2 (denotes files) ds ns ->
  find_index (fun d => bool_decide (name d = x)) ds = find_index (Node.named x) ns.
Proof.
  induction 1 as [|d n ds ns Hd Hs IH]; [done|]. cbn [find_index]. unfold Node.named at 1.
  by rewrite (denotes_name _ _ Hd), IH.
Qed.

(** Every number is the number of a file. *)
Lemma denotes_files d t j : denotes files d t -> j ∈ numbers d -> is_Some (files !! j).
Proof.
  revert t. induction d as [ty i x ds IH] using entry_ind. intros t Hd Hj. cbn [numbers subdirs inode_number] in Hj.
  apply elem_of_cons in Hj as [-> |Hj]; [destruct (denotes_entry _ _ Hd) as (f & Hf & _); eauto|].
  inversion Hd as [i' f Hf Hty|i' f ds' ns Hf Hty Hdat Hu Hs]; subst; [by apply elem_of_nil in Hj|].
  apply elem_of_numbers in Hj as (k & e & He & Hj). destruct (Forall2_lookup_l _ _ _ _ _ Hs He) as (n & _ & Hen).
  eapply Forall_lookup_1 in IH; [|exact He]. eauto.
Qed.

(** Looking up a path in the entries is following it in the tree. *)
Lemma find_walk d t path : denotes files d t ->
  match Node.walk t path with
  | inl x => VFS.find_dentry d path = inl (NotExist x)
  | inr t' => exists pos d', VFS.find_dentry d path = inr pos /\ at_ pos d = Some d' /\ denotes files d' t'
  end.
Proof.
  revert d t. induction path as [|x path IH]; intros d t Hd.
  { cbn. exists [], d. done. }
  cbn [Node.walk VFS.find_dentry].
  inversion Hd as [i f Hf Hty|i f ds ns Hf Hty Hdat Hu Hs]; subst; [done|].
  cbn [Node.entries subdirs]. rewrite (denotes_find _ _ _ Hs).
  destruct (find_index (Node.named x) ns) as [k|]; [|done]. cbn [mbind option_bind].
  destruct (ns !! k) as [n|] eqn:Hn.
  - destruct (Forall2_lookup_r _ _ _ _ _ Hs Hn) as (e & He & Hen). rewrite He. specialize (IH e n Hen).
    destruct (Node.walk n path) as [y|t']; [by rewrite IH|].
    destruct IH as (pos & d' & -> & Hat & Hd'). exists (k :: pos), d'. split_and!; [done| |done].
    cbn [at_ subdirs]. by rewrite He.
  - assert (ds !! k = None) as ->; [|done]. apply lookup_ge_None. apply lookup_ge_None in Hn.
    by rewrite (Forall2_length _ _ _ Hs).
Qed.
End denotes.

(** Only the files of the tree matter. *)
Lemma denotes_frame files files' d t : (forall j, j ∈ numbers d -> files' !! j = files !! j) ->
  denotes files d t -> denotes files' d t.
Proof.
  revert t. induction d as [ty i x ds IH] using entry_ind. intros t Hj Hd.
  assert (Hi : files' !! i = files !! i) by (apply Hj; by left).
  inversion Hd as [i' f Hf Hty|i' f ds' ns Hf Hty Hdat Hu Hs]; subst; [by constructor; rewrite ?Hi|].
  econstructor; rewrite ?Hi; try done. clear Hd Hdat Hu Hi.
  assert (Hj' : forall j, j ∈ concat (numbers <$> ds) -> files' !! j = files !! j) by (intros; apply Hj; by right).
  clear Hj. induction Hs as [|d n ds ns Hdn Hs IHs]; constructor; apply Forall_cons in IH as [IHd IH];
    rewrite fmap_cons in Hj'; cbn [concat] in Hj'.
  - apply IHd; [|done]. intros j Hj. apply Hj', elem_of_app. by left.
  - apply IHs; [done|]. intros j Hj. apply Hj', elem_of_app. by right.
Qed.

(** The numbers of two entries of one directory are different. *)
Lemma numbers_disjoint ds k k' e e' j : NoDup (concat (numbers <$> ds)) ->
  ds !! k = Some e -> ds !! k' = Some e' -> j ∈ numbers e -> j ∈ numbers e' -> k = k'.
Proof.
  revert k k'. induction ds as [|d ds IH]; intros k k' Hnd Hk Hk' Hj Hj'; [done|].
  rewrite fmap_cons in Hnd. cbn [concat] in Hnd. apply NoDup_app in Hnd as (_ & Hdis & Hnd).
  destruct k as [|k], k' as [|k']; [done| | |f_equal; eauto].
  - injection Hk as ->. destruct (Hdis j Hj). apply elem_of_numbers. eauto.
  - injection Hk' as ->. destruct (Hdis j Hj'). apply elem_of_numbers. eauto.
Qed.

Lemma NoDup_numbers ds k e : NoDup (concat (numbers <$> ds)) -> ds !! k = Some e -> NoDup (numbers e).
Proof.
  revert k. induction ds as [|d ds IH]; intros k Hnd Hk; [done|].
  rewrite fmap_cons in Hnd. cbn [concat] in Hnd. apply NoDup_app in Hnd as (Hd & _ & Hnd).
  destruct k as [|k]; [by injection Hk as ->|eauto].
Qed.

Lemma NoDup_at pos d d' : at_ pos d = Some d' -> NoDup (numbers d) -> NoDup (numbers d').
Proof.
  revert d. induction pos as [|k pos IH]; intros d Hd Hnd; [by injection Hd as <-|].
  cbn [at_] in Hd. destruct d as [ty i x ds]. cbn [subdirs] in Hd.
  destruct (ds !! k) as [e|] eqn:E; [|done]. cbn [mbind option_bind] in Hd.
  cbn [numbers subdirs] in Hnd. apply NoDup_cons in Hnd as [_ Hnd]. eauto using NoDup_numbers.
Qed.

(** Changing the entry a path leads to and its file changes that node of the tree. *)
Lemma denotes_update files files' d t path pos d' t' g h : denotes files d t -> NoDup (numbers d) ->
  Node.walk t path = inr t' -> VFS.find_dentry d path = inr pos -> at_ pos d = Some d' ->
  (forall e, inode_number (g e) = inode_number e) -> denotes files' (g d') (h t') ->
  (forall j, j ∈ numbers d -> j ∉ numbers d' -> files' !! j = files !! j) ->
  denotes files' (update pos g d) (Node.update path h t).
Proof.
  intros Hd Hnd Hw Hfind Hat Hg Hnew. revert d t pos Hd Hnd Hw Hfind Hat.
  induction path as [|x path IH]; intros d t pos Hd Hnd Hw Hfind Hat Hframe.
  { cbn in *. injection Hfind as <-. injection Hat as ->. by injection Hw as ->. }
  cbn [Node.walk VFS.find_dentry] in *.
  inversion Hd as [i f Hf Hty|i f ds ns Hf Hty Hdat Hu Hs]; subst; [done|]. cbn [Node.entries subdirs] in *.
  rewrite (denotes_find _ _ _ _ Hs) in Hfind. cbn [Node.update].
  destruct (find_index (Node.named x) ns) as [k|]; [|done]. cbn [mbind option_bind] in Hw.
  destruct (ns !! k) as [n|] eqn:Hn; [|done].
  destruct (Forall2_lookup_r _ _ _ _ _ Hs Hn) as (e & He & Hen). rewrite He in Hfind.
  destruct (VFS.find_dentry e path) as [|pos'] eqn:Ef; [done|]. injection Hfind as <-.
  cbn [at_ subdirs] in Hat. rewrite He in Hat. cbn [mbind option_bind] in Hat.
  cbn [numbers subdirs inode_number] in Hnd, Hframe. apply NoDup_cons in Hnd as [Hi Hnd].
  assert (Hsub := numbers_at _ _ _ Hat).
  cbn [update inode_type inode_number name subdirs]. econstructor; try done.
  - rewrite Hframe; [done|by left|]. intros Hin%Hsub. apply Hi, elem_of_numbers. eauto.
  - by rewrite numbers_fmap_alter by (intros; by apply number_update).
  - by rewrite numbers_fmap_alter by (intros; by apply number_update).
  - apply Forall2_same_length_lookup_2; [by rewrite !length_alter, (Forall2_length _ _ _ Hs)|].
    intros k' e0 n0 He0 Hn0. destruct (decide (k' = k)) as [->|Hne].
    + rewrite list_lookup_alter_eq, He in He0. rewrite list_lookup_alter_eq, Hn in Hn0.
      injection He0 as <-. injection Hn0 as <-. eapply IH; eauto using NoDup_numbers.
      intros j Hj Hj'. apply Hframe; [|done]. right. apply elem_of_numbers. eauto.
    + rewrite list_lookup_alter_ne in He0 by done. rewrite list_lookup_alter_ne in Hn0 by done.
      eapply denotes_frame; [|by eapply (Forall2_lookup_lr _ _ _ _ _ _ Hs)].
      intros j Hj. apply Hframe; [right; apply elem_of_numbers; eauto|].
      intros Hin%Hsub. apply Hne. by eapply numbers_disjoint.
Qed.

(** *** What a path reads as *)

(** The contents of the file whose entry a path leads to. *)
Definition view (files : gmap Z file) (root : t) (path : list (list Z)) : Error + list Z :=
  match VFS.find_dentry root path with
  | inl e => inl e
  | inr pos => match at_ pos root ≫= fun d => files !! inode_number d with
               | Some f => inr (f_data f)
               | None => inl (NotExist [])
               end
  end.

Definition named (x : list Z) (d : t) : bool := bool_decide (name d = x).

Lemma find_alter x k f (ds : list t) : (forall d, name (f d) = name d) ->
  find_index (named x) (alter f k ds) = find_index (named x) ds.
Proof.
  intros Hf. revert k. induction ds as [|d ds IH]; intros [|k]; [done..| |].
  - cbn [alter list_alter find_index]. unfold named at 1 3. by rewrite Hf.
  - change (alter f (S k) (d :: ds)) with (d :: alter f k ds). cbn [find_index]. by rewrite IH.
Qed.

Lemma find_snoc x ds e : find_index (named x) (ds ++ [e]) =
  match find_index (named x) ds with Some k => Some k | None => if named x e then Some (length ds) else None end.
Proof.
  induction ds as [|d ds IH]; cbn [app find_index length]; [by destruct (named x e)|].
  destruct (named x d); [done|]. rewrite IH. destruct (find_index _ ds); [done|]. by destruct (named x e).
Qed.

Lemma find_same x y k ds : find_index (named x) ds = Some k -> find_index (named y) ds = Some k -> x = y.
Proof.
  intros (a & Ha & Na)%find_index_Some (b & Hb & Nb)%find_index_Some.
  unfold named in *. apply bool_decide_eq_true in Na. apply bool_decide_eq_true in Nb. congruence.
Qed.

Lemma name_update_push pos e d : name (update pos (push e) d) = name d.
Proof. by destruct pos. Qed.

(** A new entry at the end of a directory: only paths through it lead elsewhere. *)
Lemma find_push e parents : forall root pos other, VFS.find_dentry root parents = inr pos ->
  (~ (parents ++ [name e]) `prefix_of` other) ->
  VFS.find_dentry (update pos (push e) root) other = VFS.find_dentry root other.
Proof.
  induction parents as [|x parents IH]; intros root pos [|y other] Hfind Hp; cbn [VFS.find_dentry] in *; try done.
  - injection Hfind as <-. cbn [update push subdirs]. change (fun d => bool_decide (name d = y)) with (named y).
    rewrite find_snoc. destruct (find_index (named y) (subdirs root)) as [k|] eqn:E.
    + apply find_index_Some in E as (d & Hd & _). by rewrite lookup_app_l by (by eapply lookup_lt_Some).
    + unfold named. rewrite bool_decide_false; [done|]. intros <-. apply Hp. by apply prefix_cons, prefix_nil.
  - change (fun d => bool_decide (name d = x)) with (named x) in Hfind. change (fun d => bool_decide (name d = y)) with (named y).
    destruct (find_index (named x) (subdirs root)) as [k|] eqn:Ex; [|done].
    destruct (subdirs root !! k) as [next|] eqn:Hk; [|done]. destruct (VFS.find_dentry next parents) as [|pos'] eqn:Ef; [done|].
    injection Hfind as <-. cbn [update subdirs]. rewrite find_alter by (intros; apply name_update_push).
    destruct (find_index (named y) (subdirs root)) as [j|] eqn:Ey; [|done]. destruct (decide (k = j)) as [->|Hne].
    + rewrite list_lookup_alter_eq, Hk. cbn [fmap option_fmap option_map]. rewrite (IH next pos' other); [done|done|].
      pose proof (find_same _ _ _ _ Ex Ey) as <-. intros Hpre. apply Hp. cbn [app]. by apply prefix_cons.
    + by rewrite list_lookup_alter_ne.
Qed.

(** The numbers of the entries stay the same. *)
Lemma at_push e q : forall pos root d, at_ q root = Some d ->
  exists d', at_ q (update pos (push e) root) = Some d' /\ inode_number d' = inode_number d.
Proof.
  induction q as [|k q IH]; intros [|j pos] root d Hd; cbn [at_] in *.
  - injection Hd as <-. by eexists.
  - injection Hd as <-. by eexists.
  - destruct (subdirs root !! k) as [next|] eqn:Hk; [|done]. cbn [update push subdirs].
    rewrite lookup_app_l, Hk by (by eapply lookup_lt_Some). eauto.
  - destruct (subdirs root !! k) as [next|] eqn:Hk; [|done]. cbn [mbind option_bind update subdirs] in *.
    destruct (decide (j = k)) as [->|Hne].
    + rewrite list_lookup_alter_eq, Hk. cbn [fmap option_fmap option_map mbind option_bind]. by apply IH.
    + rewrite list_lookup_alter_ne, Hk by done. eauto.
Qed.

(** A position that was found is in the tree. *)
Lemma find_at path : forall root q, VFS.find_dentry root path = inr q -> is_Some (at_ q root).
Proof.
  induction path as [|y path IH]; intros root q Eq; cbn [VFS.find_dentry] in Eq; [injection Eq as <-; by eexists|].
  destruct (find_index _ (subdirs root)) as [k|]; [|done]. destruct (subdirs root !! k) as [next|] eqn:Hk; [|done].
  destruct (VFS.find_dentry next path) as [|q'] eqn:E'; [done|]. injection Eq as <-. cbn [at_]. rewrite Hk. by apply IH.
Qed.

(** Different paths lead to different entries, which have different numbers. *)
Lemma find_inj a : forall root b q, VFS.find_dentry root a = inr q -> VFS.find_dentry root b = inr q -> a = b.
Proof.
  induction a as [|x a IH]; intros root [|y b] q Ha Hb; cbn [VFS.find_dentry] in *; [done| | |].
  - injection Ha as <-. repeat case_match; simplify_eq.
  - injection Hb as <-. repeat case_match; simplify_eq.
  - change (fun d => bool_decide (name d = x)) with (named x) in Ha. change (fun d => bool_decide (name d = y)) with (named y) in Hb.
    destruct (find_index (named x) (subdirs root)) as [k|] eqn:Ex; [|done]. destruct (find_index (named y) (subdirs root)) as [j|] eqn:Ey; [|done].
    destruct (subdirs root !! k) as [next|] eqn:Hk; [|done]. destruct (subdirs root !! j) as [next'|] eqn:Hj; [|done].
    destruct (VFS.find_dentry next a) as [|q1] eqn:E1; [done|]. destruct (VFS.find_dentry next' b) as [|q2] eqn:E2; [done|].
    injection Ha as <-. injection Hb as -> ->. rewrite Hk in Hj. injection Hj as <-.
    pose proof (find_same _ _ _ _ Ex Ey) as ->. f_equal. by eapply IH.
Qed.

Lemma number_inj q : forall root q' d d', NoDup (numbers root) -> at_ q root = Some d -> at_ q' root = Some d' ->
  inode_number d = inode_number d' -> q = q'.
Proof.
  assert (Hbelow : forall root k q d, NoDup (numbers root) -> at_ (k :: q) root = Some d -> inode_number d <> inode_number root).
  { intros root k q0 d Hnd Hd E. cbn [at_] in Hd. destruct (subdirs root !! k) as [next|] eqn:Hk; [|done].
    destruct root as [ty i x ds]. cbn [numbers subdirs inode_number] in *. apply NoDup_cons in Hnd as [Hi _]. apply Hi, elem_of_numbers.
    exists k, next. split; [done|]. apply (numbers_at q0 next d Hd). rewrite <- E. destruct d. by left. }
  induction q as [|k q IH]; intros root [|j q'] d d' Hnd Hd Hd' E; [done| | |].
  - injection Hd as <-. by destruct (Hbelow root j q' d' Hnd Hd').
  - injection Hd' as <-. by destruct (Hbelow root k q d Hnd Hd).
  - cbn [at_] in Hd, Hd'. destruct (subdirs root !! k) as [e|] eqn:Hk; [|done]. destruct (subdirs root !! j) as [e'|] eqn:Hj; [|done].
    cbn [mbind option_bind] in Hd, Hd'. destruct root as [ty i x ds]. cbn [numbers subdirs] in *. apply NoDup_cons in Hnd as [_ Hnd].
    assert (Hown : forall d q e, at_ q e = Some d -> inode_number d ∈ numbers e).
    { intros d0 q0 e0 H0. apply (numbers_at q0 e0 d0 H0). destruct d0. by left. }
    assert (k = j) as ->.
    { eapply (numbers_disjoint ds k j e e' (inode_number d)); try done; [by eapply Hown|rewrite E; by eapply Hown]. }
    rewrite Hk in Hj. injection Hj as <-. f_equal. by eapply IH; [eapply NoDup_numbers| | |].
Qed.

(** Writing the file of one entry. *)
Lemma view_set files root path pos d i f c other : NoDup (numbers root) -> VFS.find_dentry root path = inr pos ->
  at_ pos root = Some d -> inode_number d = i -> files !! i = Some f ->
  view (<[i := set_data f c]> files) root other = if decide (other = path) then inr c else view files root other.
Proof.
  intros Hnd Hfind Hat <- Hf. unfold view. case_decide as Ho; [subst other|].
  - rewrite Hfind, Hat. cbn [mbind option_bind]. by rewrite lookup_insert_eq.
  - destruct (VFS.find_dentry root other) as [e|q] eqn:Eq; [done|]. destruct (at_ q root) as [d'|] eqn:Ed; [|done].
    cbn [mbind option_bind]. rewrite lookup_insert_ne; [done|]. intros E. apply Ho. eapply find_inj; [exact Eq|].
    rewrite Hfind. f_equal. by eapply number_inj.
Qed.

(** Adding an entry [e] for a new file to the directory with number [p]. *)
Lemma view_add files root parents pos d fp e g c other : NoDup (numbers root) -> VFS.find_dentry root parents = inr pos ->
  at_ pos root = Some d -> files !! inode_number d = Some fp -> files !! inode_number e = None ->
  (forall j, j ∈ numbers root -> is_Some (files !! j)) -> (~ (parents ++ [name e]) `prefix_of` other) ->
  view (<[inode_number d := set_data fp c]> (<[inode_number e := g]> files)) (update pos (push e) root) other =
    if decide (other = parents) then inr c else view files root other.
Proof.
  intros Hnd Hfind Hat Hf Hnew Hall Hp. unfold view. rewrite (find_push e parents root pos other Hfind Hp).
  case_decide as Ho; [subst other|].
  - rewrite Hfind. destruct (at_push e pos pos root d Hat) as (d' & -> & E). cbn [mbind option_bind]. by rewrite E, lookup_insert_eq.
  - destruct (VFS.find_dentry root other) as [x|q] eqn:Eq; [done|]. destruct (at_ q root) as [dq|] eqn:Ed.
    + destruct (at_push e q pos root dq Ed) as (d' & -> & E). cbn [mbind option_bind]. rewrite E.
      rewrite !lookup_insert_ne; [done|..].
      * intros E'. destruct (Hall (inode_number dq)) as [h Hh]; [|congruence]. apply (numbers_at q root dq Ed). destruct dq. by left.
      * intros E'. apply Ho. eapply find_inj; [exact Eq|]. rewrite Hfind. f_equal. by eapply number_inj.
    + destruct (find_at other root q Eq) as [dq E]. congruence.
Qed.
End Entry.

(** ** Reading the entries of a disk *)
Section entries.
Context {C : Type} {n : Z} `{HL : BlockCacheLaws C n}.
Variable fs : CAFS.t.
Hypothesis geo : geometry n fs.
Import Entry.

(** [DirEntry::read_sub_dentry] reads the whole tree below an entry and returns, with
    fuel for its height. *)
Lemma read_tree d : forall t fuel st v files own, denotes files d t -> (Node.height t <= fuel)%nat ->
  fs_inv (n := n) fs st v files own -> idle st ->
  runs (DirEntry.read_sub_dentry fs fuel (bare d)) st (fun d' st' =>
    d' = d /\ fs_inv (n := n) fs st' v files own /\ idle st').
Proof.
  induction d as [ty i x ds IH] using entry_ind. intros t fuel st v files own Hd Hfuel Hinv Hidle.
  inversion Hd as [i' f Hf Hty|i' f ds' ns Hf Hty Hdat Hu Hs]; subst; cbn [Node.height] in Hfuel;
    destruct fuel as [|fuel]; [lia| |lia|].
  { change (bare _) with (DirEntry.mk File i (file_name f) []). rewrite <- Hty. by apply (read_sub_file fs geo). }
  cbn [DirEntry.read_sub_dentry bare DirEntry.inode_number DirEntry.inode_type DirEntry.name].
  eapply runs_bind; [by apply (sub_inodes_spec fs geo st v files own i f (DirEntry.inode_number <$> ds)); auto; apply idle_available|].
  intros r st2 (-> & Hinv2 & Hr2 & _ & Hnd2).
  assert (Hidle2 : idle st2) by (destruct Hidle as [Hr Hnd]; split; [congruence|auto]).
  clear Hdat Hu Hd Hidle Hinv Hnd2 Hr2. change (bare _) with (DirEntry.mk Dir i (file_name f) []).
  match goal with |- runs (foldM ?F _ _) _ _ =>
    enough (Hgen : forall pre, runs (foldM F (DirEntry.mk Dir i (file_name f) pre) (DirEntry.inode_number <$> ds)) st2
      (fun d st' => d = DirEntry.mk Dir i (file_name f) (pre ++ ds) /\ fs_inv (n := n) fs st' v files own /\ idle st'))
      by exact (Hgen [])
  end.
  revert st2 Hinv2 Hidle2. induction Hs as [|d e ds ns Hde Hs IHs]; intros st2 Hinv2 Hidle2 pre.
  { apply runs_ret. by rewrite app_nil_r. }
  apply Forall_cons in IH as [IHd IH]. rewrite fmap_cons. cbn [foldM]. cbn [fmap list_fmap max_list] in Hfuel.
  destruct (denotes_entry _ _ _ Hde) as (fd & Hfd & Hb).
  eapply (runs_bind _ _ _ (fun r st' => fs_inv (n := n) fs st' v files own /\ idle st' /\
    r = DirEntry.mk Dir i (file_name f) (pre ++ [d]))).
  - eapply runs_bind; [by apply (new_dentry_spec fs geo st2 v files own (DirEntry.inode_number d) fd); [..|apply idle_available]|].
    intros d0 st3 (-> & Hinv3 & Hr3 & Hnd3 & _). rewrite <- Hb.
    assert (Hidle3 : idle st3) by (destruct Hidle2 as [Hr Hnd]; split; [congruence|auto]).
    eapply runs_bind; [by apply (IHd e fuel st3 v files own); [|unfold id in *; lia|..]|].
    intros d0 st4 (-> & Hinv4 & Hidle4). by apply runs_ret.
  - intros r st3 (Hinv3 & Hidle3 & ->). eapply runs_conseq; [apply (IHs IH ltac:(lia) st3 Hinv3 Hidle3 (pre ++ [d]))|].
    intros d0 st4. by rewrite <- app_assoc.
Qed.

(** The entries of the whole file system. *)
Lemma read_root_tree root t fuel st v files own : denotes files root t -> DirEntry.inode_number root = 0 ->
  (Node.height t <= fuel)%nat -> fs_inv (n := n) fs st v files own -> idle st ->
  runs (root_dentry ← DirEntry.new fs 0; DirEntry.read_sub_dentry fs fuel root_dentry) st (fun d st' =>
    d = root /\ fs_inv (n := n) fs st' v files own /\ idle st').
Proof.
  intros Hd H0 Hfuel Hinv Hidle. destruct (denotes_entry _ _ _ Hd) as (f & Hf & Hb). rewrite H0 in *.
  eapply runs_bind; [by apply (new_dentry_spec fs geo st v files own 0 f); [..|apply idle_available]|].
  intros d st1 (-> & Hinv1 & Hr1 & Hnd1 & _). rewrite <- Hb.
  apply (read_tree root t); try done. destruct Hidle as [Hr Hnd]; split; [congruence|auto].
Qed.

(** A directory whose first entry leads back into the set [S], from every directory of
    [S]: reading the entries below never ends. *)
Lemma read_cycle (S : Z -> Prop) files fuel : (forall i, S i -> exists f j nums, files !! i = Some f /\
    f_type f = Dir /\ f_data f = dir_data (j :: nums) /\ Forall u64 (j :: nums) /\ S j) ->
  forall i f st v own, S i -> files !! i = Some f -> fs_inv (n := n) fs st v files own -> idle st ->
  DirEntry.read_sub_dentry fs fuel (entry_of i f) st = Fault Diverge.
Proof.
  intros HS. induction fuel as [|fuel IH]; intros i f st v own Hi Hf Hinv Hidle; [done|].
  destruct (HS i Hi) as (f' & j & nums & Hf' & Hty & Hdat & Hu & Hj). assert (f' = f) as -> by congruence.
  destruct (HS j Hj) as (fj & _ & _ & Hfj & _).
  destruct (sub_inodes_spec fs geo st v files own i f (j :: nums)) as (r & st2 & E2 & -> & Hinv2 & Hr2 & _ & Hnd2);
    auto; [by apply idle_available|].
  assert (Hidle2 : idle st2) by (destruct Hidle as [Hr Hnd]; split; [congruence|auto]).
  destruct (new_dentry_spec fs geo st2 v files own j fj) as (d & st3 & E3 & -> & Hinv3 & Hr3 & Hnd3 & _);
    auto; [by apply idle_available|].
  assert (Hidle3 : idle st3) by (destruct Hidle2 as [Hr Hnd]; split; [congruence|auto]).
  cbn [DirEntry.read_sub_dentry entry_of DirEntry.inode_number]. unfold mbind at 1, M_bind at 1. rewrite E2.
  cbn [foldM]. unfold mbind, M_bind. rewrite E3. by rewrite (IH j fj st3 v own).
Qed.
End entries.
