(* ===== verification/Hierarchy.v ===== *)
(** The contract of the virtual file system of fs/src/vfs on directory trees: paths
    of any depth, over any block device. *)
From S2P Require Import Prelude Device Block Manager Bitmap Layout Index Resize InodeNumber Utf8 Cafs Vfs Contents Files Inodes Directory Mount Paths Errors FileSystem Namespace Tree.
From Stdlib Require Import ZArith Lia.
From stdpp Require Import gmap functions sorting list_numbers list.
Local Open Scope Z_scope.

(** ** The simulation relation *)

(** The entry [root] of the root directory stands for the tree [t], in which no inode
    occurs twice, and [fi] inodes are free. *)
Record holds_tree (fs : CAFS.t) (files : gmap Z file) (root : DirEntry.t) (t : Node.t) (fi : Z) : Prop := {
  tf_root : DirEntry.inode_number root = 0;
  tf_tree : Entry.denotes files root t;
  tf_once : NoDup (Entry.numbers root);
  tf_free : Z.of_nat (size files) + fi = inode_count fs
}.

(** The mounted file system holds [files], which its entries arrange in the tree [t], with
    [fr] free data blocks and [fi] free inodes. *)
Definition vfs_files {D} `{BlockDeviceLaws D} (n : Z) (fs : CAFS.t) (st : VFS.state (CacheManager.t D))
    (files : gmap Z file) (t : Node.t) (fr fi : Z) : Prop :=
  fs_ok n fs (VFS.primary_partition st) files fr /\ holds_tree fs files (VFS.dentry_cache st) t fi.

(** The mounted file system holds the tree [t]. *)
Definition vfs_tree {D} `{BlockDeviceLaws D} (n : Z) (fs : CAFS.t) (st : VFS.state (CacheManager.t D))
    (t : Node.t) (fr fi : Z) : Prop :=
  exists files, vfs_files n fs st files t fr fi.

(** The device holds the tree [t]. *)
Definition disk_tree {D} `{BlockDeviceLaws D} (n : Z) (fs : CAFS.t) (dev : D) (t : Node.t) (fr fi : Z) : Prop :=
  geometry n fs /\ exists v files own root, dev_rep dev n v /\ disk_ok fs v files own /\
    holds_tree fs files root t fi /\ free fs v = fr.

(** What reading the node at a path returns: the contents of a file, the list of inode
    numbers of a directory, or the name that is missing. *)
Definition read_result (w : list Z + Node.t) (r : Error + list Z) : Prop :=
  match w with
  | inl x => r = inl (NotExist x)
  | inr (Node.Reg _ c) => r = inr c
  | inr (Node.Folder _ ns) => exists nums, length nums = length ns /\ r = inr (dir_data nums)
  end.

(** The names of a path: no slashes. *)
Definition plain (path : list (list Z)) : Prop := Forall (fun d => SLASH ∉ d) path.

(** Fewer files than numbers: one is free. *)
Lemma free_inode (files : gmap Z file) k : Z.of_nat (size files) < k -> exists i, 0 <= i < k /\ files !! i = None.
Proof.
  intros Hk. destruct (decide (Exists (fun i => files !! i = None) (seqZ 0 k))) as [He|He].
  - apply Exists_exists in He as (i & Hi%elem_of_seqZ & Hn). exists i. split; [lia|done].
  - exfalso. assert (Hsub : seqZ 0 k ⊆+ elements (dom files)).
    { apply NoDup_submseteq; [apply NoDup_seqZ|]. intros i Hi. apply elem_of_elements, elem_of_dom.
      apply not_eq_None_Some. intros Hn. apply He, Exists_exists. eauto. }
    apply submseteq_length in Hsub. rewrite length_seqZ in Hsub.
    change (length (elements (dom files))) with (size (dom files)) in Hsub. rewrite size_dom in Hsub. lia.
Qed.

Section simulation.
Context {D : Type} `{HD : BlockDeviceLaws D}.
Implicit Types st : VFS.state (CacheManager.t D).
Variables (n : Z) (fs : CAFS.t).

Lemma parse_plain parents name : plain (parents ++ [name]) ->
  VFS.parse_path (full_path parents name) = Ok (Path.mk parents name).
Proof. intros [Hp Hn]%Forall_app. apply Forall_cons in Hn as [Hn _]. by apply parse_full_path. Qed.

(** Mounting. *)
Lemma tree_mount (dev : D) t fr fi fuel : disk_tree n fs dev t fr fi -> (Node.height t <= fuel)%nat ->
  exists st, VFS.new fuel dev = Ok (fs, st) /\ vfs_tree n fs st t fr fi /\ idle (VFS.primary_partition st) /\
    (cached_inodes st <= INODE_CACHE_SIZE)%nat.
Proof.
  intros [geo (v & files & own & root & Hdev & Hd & [H0 Ht Hnd Hfi] & <-)] Hfuel.
  destruct (open_ok n fs dev v files own geo Hdev Hd) as (st & E & [_ (v' & own' & Hinv & Hf)] & Hr & Hc).
  assert (Hidle : idle st) by (split; [exact Hr|]; rewrite Hc; apply NoDup_nil_2).
  destruct (read_root_tree fs geo root t fuel st v' files own' Ht H0 Hfuel Hinv Hidle)
    as (d & st' & E' & -> & Hinv' & Hidle').
  exists (VFS.St st' root). split_and!; [| |exact Hidle'|apply (mo_len _ _ _ _ (fi_mem _ _ _ _ _ Hinv'))].
  - unfold VFS.new. rewrite E. cbn [mbind outcome_bind]. rewrite E'. done.
  - exists files. split; [|done]. split; [exact geo|]. exists v', own'. done.
Qed.

(** Reading gives what the entries and the files say. *)
Lemma files_read st files fr parents name : fs_ok n fs (VFS.primary_partition st) files fr -> plain (parents ++ [name]) ->
  (forall j, j ∈ Entry.numbers (VFS.dentry_cache st) -> is_Some (files !! j)) ->
  (forall i, available (VFS.primary_partition st) i) ->
  exists st', VFS.read_unstable fs (full_path parents name) st =
      Ok (Entry.view files (VFS.dentry_cache st) (parents ++ [name]), st') /\
    VFS.dentry_cache st' = VFS.dentry_cache st /\ fs_ok n fs (VFS.primary_partition st') files fr /\
    (cached_inodes st' <= S (cached_inodes st))%nat.
Proof.
  intros [geo (v & own & Hinv & Hfr)] Hp Hall Hav.
  enough (R : runs (VFS.read_unstable fs (full_path parents name)) st (fun r st' =>
    r = Entry.view files (VFS.dentry_cache st) (parents ++ [name]) /\
    VFS.dentry_cache st' = VFS.dentry_cache st /\ fs_ok n fs (VFS.primary_partition st') files fr /\
    (cached_inodes st' <= S (cached_inodes st))%nat)).
  { destruct R as (r & st' & E & -> & Hrest). eauto. }
  unfold VFS.read_unstable. eapply runs_lift; [by apply parse_plain|]. cbn [Path.parents Path.name].
  apply runs_lookup. unfold Entry.view. destruct (VFS.find_dentry (VFS.dentry_cache st) (parents ++ [name])) as [e|pos] eqn:Hfind.
  { apply runs_ret. split_and!; [done|done| |lia]. split; [exact geo|eauto]. }
  destruct (Entry.find_at _ _ _ Hfind) as [d Hat]. rewrite Hat. eapply runs_dentry; [exact Hat|].
  destruct (Hall (DirEntry.inode_number d)) as [f Hf]; [apply (Entry.numbers_at _ _ _ Hat); destruct d; by left|].
  cbn [mbind option_bind]. rewrite Hf. unfold CAFS.inode.
  eapply runs_fs; [by apply (cainode_spec fs geo _ v files own (DirEntry.inode_number d) f)|].
  intros h p1 [Hinv1 Hh _ Hr1 Hl1 _ _ _]. eapply runs_fs_deref; [exact Hh|].
  eapply runs_fs; [by apply (file_data_spec fs geo p1 v files own (DirEntry.inode_number d) f)|].
  intros c p2 (-> & Hinv2 & _ & Hc2 & Hr2). cbn [VFS.dentry_cache].
  eapply runs_fs; [by apply (drop_inv fs geo p2 v files own h)|]. intros _ p3 [Hinv3 ->].
  apply runs_ret. split_and!; [done|done| |by unfold cached_inodes; cbn; rewrite Hc2].
  split; [exact geo|eauto].
Qed.

(** In a tree that is what the walk gives. *)
Lemma view_walk files root t path : Entry.denotes files root t -> read_result (Node.walk t path) (Entry.view files root path).
Proof.
  intros Ht. pose proof (Entry.find_walk files _ _ path Ht) as Hfind. unfold Entry.view.
  destruct (Node.walk t path) as [x|t']; [by rewrite Hfind|]. destruct Hfind as (pos & d & -> & -> & Hd). cbn [mbind option_bind].
  destruct Hd as [i g Hg _|i g ds ns Hg _ Hdat _ Hs]; cbn [DirEntry.inode_number read_result] in *; rewrite Hg; [done|].
  exists (DirEntry.inode_number <$> ds). rewrite length_fmap, Hdat. split; [by eapply Forall2_length|done].
Qed.

Lemma tree_numbers files root t fi : holds_tree fs files root t fi -> forall j, j ∈ Entry.numbers root -> is_Some (files !! j).
Proof. intros [_ Ht _ _] j. by apply (Entry.denotes_files files root t). Qed.

Lemma read_entry st files t fr fi parents name : vfs_files n fs st files t fr fi -> plain (parents ++ [name]) ->
  (forall i, available (VFS.primary_partition st) i) ->
  exists st', VFS.read_unstable fs (full_path parents name) st =
      Ok (Entry.view files (VFS.dentry_cache st) (parents ++ [name]), st') /\
    vfs_files n fs st' files t fr fi /\ (cached_inodes st' <= S (cached_inodes st))%nat.
Proof.
  intros [Hok Htf] Hp Hav. destruct (files_read st files fr parents name Hok Hp (tree_numbers _ _ _ _ Htf) Hav)
    as (st' & E & Hdc & Hok' & Hl). exists st'. split; [exact E|]. split; [|exact Hl]. split; [exact Hok'|by rewrite Hdc].
Qed.

Lemma tree_read st t fr fi parents name : vfs_tree n fs st t fr fi -> plain (parents ++ [name]) ->
  (forall i, available (VFS.primary_partition st) i) ->
  exists r st', VFS.read_unstable fs (full_path parents name) st = Ok (r, st') /\
    read_result (Node.walk t (parents ++ [name])) r /\ vfs_tree n fs st' t fr fi /\
    (cached_inodes st' <= S (cached_inodes st))%nat.
Proof.
  intros (files & Hfs) Hp Hav. destruct (read_entry st files t fr fi parents name Hfs Hp Hav) as (st' & E & Hok' & Hl).
  eexists _, st'. split_and!; [exact E| |by exists files|exact Hl]. by apply view_walk, Hfs.
Qed.

(** The entries after a file got new contents. *)
Lemma holds_tree_set files root t fi path x old i f c : holds_tree fs files root t fi ->
  Node.walk t path = inr (Node.Reg x old) -> (exists pos d, VFS.find_dentry root path = inr pos /\
    DirEntry.at_ pos root = Some d /\ d = DirEntry.mk File i (file_name f) []) -> x = file_name f ->
  files !! i = Some f -> f_type f = File ->
  holds_tree fs (<[i := set_data f c]> files) root (Node.update path (Node.set c) t) fi.
Proof.
  intros [H0 Ht Hnd Hfi] Hw (pos & d & Hfind & Hat & ->) -> Hf Hty. split; [done| |done|].
  - rewrite <- (Entry.update_id pos root).
    eapply Entry.denotes_update; [exact Ht|exact Hnd|exact Hw|exact Hfind|exact Hat|done| |].
    + apply (Entry.denotes_file _ i (set_data f c)); [apply lookup_insert_eq|done].
    + intros j _ Hj. apply lookup_insert_ne. intros <-. apply Hj. by left.
  - rewrite map_size_insert_Some by eauto. done.
Qed.

(** Writing the file of an entry, whatever it is. *)
Lemma write_entry st files fr parents name pos d f c : fs_ok n fs (VFS.primary_partition st) files fr -> plain (parents ++ [name]) ->
  VFS.find_dentry (VFS.dentry_cache st) (parents ++ [name]) = inr pos -> DirEntry.at_ pos (VFS.dentry_cache st) = Some d ->
  files !! DirEntry.inode_number d = Some f -> (forall i, available (VFS.primary_partition st) i) ->
  Forall u8 c -> zlen c <= L4_MAX -> cdiv (zlen (f_data f)) 512 <= cdiv (zlen c) 512 -> need (zlen (f_data f)) (zlen c) <= fr ->
  exists st', VFS.write fs (full_path parents name) c st = Ok (inr tt, st') /\ VFS.dentry_cache st' = VFS.dentry_cache st /\
    fs_ok n fs (VFS.primary_partition st') (<[DirEntry.inode_number d := set_data f c]> files) (fr - need (zlen (f_data f)) (zlen c)) /\
    (cached_inodes st' <= S (cached_inodes st))%nat.
Proof.
  intros Hok Hp Hpos Hat Hf Hav Hu Hmax Hcd Hneed.
  destruct (write_ok n fs _ files fr _ f c Hok Hf (Hav _)) as (p & E & Hok' & _ & Hl & _); try done.
  exists (VFS.St p (VFS.dentry_cache st)). split_and!; [|done|exact Hok'|exact Hl].
  unfold VFS.write, mbind, M_bind, lift. rewrite parse_plain by done. omon. cbn [Path.parents Path.name].
  unfold VFS.lookup_dentry, VFS.dentry_at. rewrite Hpos. rewrite Hat. omon. unfold VFS.on_fs, zoom. by rewrite E.
Qed.

(** No room for a file that grows. *)
Lemma write_entry_full st files fr parents name pos d f c : fs_ok n fs (VFS.primary_partition st) files fr -> plain (parents ++ [name]) ->
  VFS.find_dentry (VFS.dentry_cache st) (parents ++ [name]) = inr pos -> DirEntry.at_ pos (VFS.dentry_cache st) = Some d ->
  files !! DirEntry.inode_number d = Some f -> (forall i, available (VFS.primary_partition st) i) ->
  zlen (f_data f) < zlen c <= L4_MAX -> fr < need (zlen (f_data f)) (zlen c) ->
  VFS.write fs (full_path parents name) c st = Fault (Panic PData).
Proof.
  intros [geo (v & own & Hinv & <-)] Hp Hpos Hat Hf Hav Hs Hneed.
  unfold VFS.write, mbind, M_bind, lift. rewrite parse_plain by done. omon. cbn [Path.parents Path.name].
  unfold VFS.lookup_dentry, VFS.dentry_at. rewrite Hpos. rewrite Hat. omon. unfold VFS.on_fs, zoom.
  by rewrite (write_full fs geo _ v files own (DirEntry.inode_number d) f c).
Qed.

(** Writing a file. *)
Lemma tree_write st t fr fi parents name x old c : vfs_tree n fs st t fr fi -> plain (parents ++ [name]) ->
  Node.walk t (parents ++ [name]) = inr (Node.Reg x old) ->
  (forall i, available (VFS.primary_partition st) i) ->
  Forall u8 c -> zlen c <= L4_MAX -> cdiv (zlen old) 512 <= cdiv (zlen c) 512 -> need (zlen old) (zlen c) <= fr ->
  exists st', VFS.write fs (full_path parents name) c st = Ok (inr tt, st') /\
    vfs_tree n fs st' (Node.update (parents ++ [name]) (Node.set c) t) (fr - need (zlen old) (zlen c)) fi /\
    (cached_inodes st' <= S (cached_inodes st))%nat.
Proof.
  intros (files & Hok & Htf) Hp Hw Hav Hu Hmax Hcd Hneed.
  pose proof (Entry.find_walk files _ _ (parents ++ [name]) (tf_tree _ _ _ _ _ Htf)) as Hfind. rewrite Hw in Hfind.
  destruct Hfind as (pos & d & Hpos & Hat & Hd). inversion Hd as [i f Hf Hty|]; subst.
  destruct (write_entry st files fr parents name pos _ f c Hok Hp Hpos Hat Hf Hav) as (st' & E & Hdc & Hok' & Hl); try done.
  exists st'. split_and!; [exact E| |exact Hl]. eexists. split; [exact Hok'|]. rewrite Hdc. eapply holds_tree_set; eauto.
Qed.

(** A new number in the tree. *)
Lemma denotes_fresh files root t i : Entry.denotes files root t -> files !! i = None -> i ∉ Entry.numbers root.
Proof. intros Ht Hi Hin. destruct (Entry.denotes_files _ _ _ _ Ht Hin) as [f Hf]. congruence. Qed.

(** The entries after a file was created in the directory [p]. *)
Lemma holds_tree_add files root t fi parents pos ds ns p fp i name : holds_tree fs files root t fi ->
  Node.walk t parents = inr (Node.Folder (file_name fp) ns) -> VFS.find_dentry root parents = inr pos ->
  DirEntry.at_ pos root = Some (DirEntry.mk Dir p (file_name fp) ds) -> files !! p = Some fp -> f_type fp = Dir ->
  f_data fp = dir_data (DirEntry.inode_number <$> ds) -> Forall u64 (DirEntry.inode_number <$> ds) ->
  Forall2 (Entry.denotes files) ds ns -> files !! i = None -> u64 i -> file_name (new_file File name) = name ->
  holds_tree fs (<[p := set_data fp (append_entry (f_data fp) i)]> (<[i := new_file File name]> files))
    (DirEntry.update pos (DirEntry.push (entry_of i (new_file File name))) root)
    (Node.update parents (Node.add (Node.Reg name [])) t) (fi - 1).
Proof.
  intros [H0 Ht Hnd Hfi] Hw Hfind Hat Hp Hty Hdat Hu Hs Hnone Hi64 Hname. assert (Hpi : p <> i) by congruence.
  pose proof (Entry.NoDup_at _ _ _ Hat Hnd) as Hnd'. cbn [Entry.numbers DirEntry.subdirs DirEntry.inode_number] in Hnd'.
  apply NoDup_cons in Hnd' as [Hps _]. pose proof (denotes_fresh _ _ _ _ Ht Hnone) as Hir.
  assert (Hsub := Entry.numbers_at _ _ _ Hat). set (g := new_file File name) in *.
  set (files' := <[p := _]> _).
  assert (Hi' : files' !! i = Some g) by (unfold files'; by rewrite lookup_insert_ne, lookup_insert_eq).
  assert (Hsame : forall j, j ∈ Entry.numbers root -> j <> p -> files' !! j = files !! j).
  { intros j Hj Hjp. unfold files'. rewrite !lookup_insert_ne; [done|by intros ->|done]. }
  split.
  - by rewrite Entry.number_update.
  - eapply Entry.denotes_update; [exact Ht|exact Hnd|exact Hw|exact Hfind|exact Hat|done| |].
    + unfold DirEntry.push. cbn [DirEntry.inode_type DirEntry.inode_number DirEntry.name DirEntry.subdirs Node.add].
      apply (Entry.denotes_dir files' p (set_data fp (append_entry (f_data fp) i)));
        [apply lookup_insert_eq|done|by rewrite fmap_app, Hdat, append_entry_dir| |].
      * rewrite fmap_app. apply Forall_app. split; [done|]. by constructor.
      * apply Forall2_app; [|constructor; [|constructor]].
        -- apply Forall2_same_length_lookup_2; [by eapply Forall2_length|]. intros k e m He Hm.
           eapply Entry.denotes_frame; [|by eapply (Forall2_lookup_lr _ _ _ _ _ _ Hs)]. intros j Hj.
           assert (Hjn : j ∈ concat (Entry.numbers <$> ds)) by (apply Entry.elem_of_numbers; eauto).
           apply Hsame; [apply Hsub; by right|by intros ->].
        -- unfold entry_of. rewrite Hname. rewrite <- Hname. by apply (Entry.denotes_file files' i g).
    + intros j Hj Hjd. apply Hsame; [done|]. intros ->. apply Hjd. by left.
  - rewrite (Entry.numbers_update pos _ root _ [i] Hat).
    + apply NoDup_cons. done.
    + cbn [DirEntry.push Entry.numbers DirEntry.inode_number DirEntry.subdirs]. rewrite fmap_app, concat_app.
      cbn [fmap list_fmap concat entry_of DirEntry.subdirs DirEntry.inode_number Entry.numbers app].
      by rewrite (Permutation_cons_append (p :: _) i).
  - unfold files'. rewrite map_size_insert_Some by (rewrite lookup_insert_ne by done; eauto).
    rewrite map_size_insert_None by done. lia.
Qed.

(** Creating a file in a directory. *)
Lemma files_create st files t fr fi parents x ns name : vfs_files n fs st files t fr fi -> plain (parents ++ [name]) ->
  Node.walk t parents = inr (Node.Folder x ns) -> 0 ∉ name -> utf8 name = true -> Forall u8 name ->
  zlen name <= NAME_LENGTH_LIMIT -> 0 < fi -> (cached_inodes st + 3 <= INODE_CACHE_SIZE)%nat ->
  Names.dir_size (S (length ns)) <= L4_MAX ->
  need (Names.dir_size (length ns)) (Names.dir_size (S (length ns))) <= fr ->
  exists st' i pos d fp, VFS.create fs (full_path parents name) st = Ok (inr tt, st') /\
    VFS.find_dentry (VFS.dentry_cache st) parents = inr pos /\ DirEntry.at_ pos (VFS.dentry_cache st) = Some d /\
    files !! DirEntry.inode_number d = Some fp /\ files !! i = None /\
    VFS.dentry_cache st' = DirEntry.update pos (DirEntry.push (DirEntry.mk File i name [])) (VFS.dentry_cache st) /\
    vfs_files n fs st' (<[DirEntry.inode_number d := set_data fp (append_entry (f_data fp) i)]> (<[i := new_file File name]> files))
      (Node.update parents (Node.add (Node.Reg name [])) t)
      (fr - need (Names.dir_size (length ns)) (Names.dir_size (S (length ns)))) (fi - 1) /\
    (cached_inodes st' <= cached_inodes st + 3)%nat.
Proof.
  intros [[geo (v & own & Hinv & <-)] Htf] Hp Hw H0 Hutf Hu Hl Hfi Hc Hmax Hneed.
  pose proof (Entry.find_walk files _ _ parents (tf_tree _ _ _ _ _ Htf)) as Hfind. rewrite Hw in Hfind.
  destruct Hfind as (pos & d & Hpos & Hat & Hd). inversion Hd as [|p fp ds ns' Hfp Hty Hdat Hu64 Hs]; subst.
  assert (El : zlen (f_data fp) = Names.dir_size (length ns)).
  { rewrite Hdat, length_dir_data, length_fmap. by rewrite (Forall2_length _ _ _ Hs). }
  assert (Es : entry_size (f_data fp) = Names.dir_size (S (length ns))).
  { rewrite <- (length_append_entry _ 0), Hdat, append_entry_dir, length_dir_data, length_app, length_fmap.
    cbn [length]. by rewrite Nat.add_1_r, (Forall2_length _ _ _ Hs). }
  destruct (free_inode files (inode_count fs)) as (k & Hk & Hfree); [pose proof (tf_free _ _ _ _ _ Htf); lia|].
  destruct (create_at_spec fs geo st v files own (full_path parents name) parents name pos
      (DirEntry.mk Dir p (file_name fp) ds) fp k) as
    (r & st' & E & -> & i & v' & own' & Hnone & Hi & _ & Hinv' & Hdc & Hf' & _ & Hl'); try done;
    [by apply parse_plain|by rewrite Es|by rewrite Es, El|].
  assert (Hname : file_name (new_file File name) = name) by (by apply new_file_name).
  assert (He : entry_of i (new_file File name) = DirEntry.mk File i name []) by (unfold entry_of; by rewrite Hname).
  rewrite He in Hdc.
  exists st', i, pos, (DirEntry.mk Dir p (file_name fp) ds), fp. split_and!; try done.
  split; [split; [exact geo|]; exists v', own'; split; [exact Hinv'|congruence]|].
  rewrite Hdc, <- He. eapply holds_tree_add; eauto.
  pose proof (geometry_order _ _ geo). unfold u64. lia.
Qed.

Lemma tree_create_file st t fr fi parents x ns name : vfs_tree n fs st t fr fi -> plain (parents ++ [name]) ->
  Node.walk t parents = inr (Node.Folder x ns) -> 0 ∉ name -> utf8 name = true -> Forall u8 name ->
  zlen name <= NAME_LENGTH_LIMIT -> 0 < fi -> (cached_inodes st + 3 <= INODE_CACHE_SIZE)%nat ->
  Names.dir_size (S (length ns)) <= L4_MAX ->
  need (Names.dir_size (length ns)) (Names.dir_size (S (length ns))) <= fr ->
  exists st', VFS.create fs (full_path parents name) st = Ok (inr tt, st') /\
    vfs_tree n fs st' (Node.update parents (Node.add (Node.Reg name [])) t)
      (fr - need (Names.dir_size (length ns)) (Names.dir_size (S (length ns)))) (fi - 1) /\
    (cached_inodes st' <= cached_inodes st + 3)%nat.
Proof.
  intros (files & Hfs) Hp Hw H0 Hutf Hu Hl Hfi Hc Hmax Hneed.
  destruct (files_create st files t fr fi parents x ns name) as (st' & i & pos & d & fp & E & _ & _ & _ & _ & _ & Hfs' & Hl'); try done.
  exists st'. split_and!; [exact E|by eexists|exact Hl'].
Qed.

(** Creating a file below a regular file: accepted, and the number of the new file is
    appended to the contents of the regular file. *)
Lemma tree_create_below st t fr fi parents x c name : vfs_tree n fs st t fr fi -> plain (parents ++ [name]) ->
  Node.walk t parents = inr (Node.Reg x c) -> Forall u8 name -> zlen name <= NAME_LENGTH_LIMIT -> 0 < fi ->
  (cached_inodes st + 3 <= INODE_CACHE_SIZE)%nat -> entry_size c <= L4_MAX -> need (zlen c) (entry_size c) <= fr ->
  exists i st' files root, VFS.create fs (full_path parents name) st = Ok (inr tt, st') /\
    fs_ok n fs (VFS.primary_partition st') files (fr - need (zlen c) (entry_size c)) /\
    holds_tree fs files root (Node.update parents (Node.set (append_entry c i)) t) (fi - 1).
Proof.
  intros (files & [geo (v & own & Hinv & <-)] & Htf) Hp Hw Hu Hl Hfi Hc Hmax Hneed.
  pose proof (Entry.find_walk files _ _ parents (tf_tree _ _ _ _ _ Htf)) as Hfind. rewrite Hw in Hfind.
  destruct Hfind as (pos & d & Hpos & Hat & Hd). inversion Hd as [p fp Hfp Hty|]; subst.
  destruct (free_inode files (inode_count fs)) as (k & Hk & Hfree); [pose proof (tf_free _ _ _ _ _ Htf); lia|].
  destruct (create_at_spec fs geo st v files own (full_path parents name) parents name pos
      (DirEntry.mk File p (file_name fp) []) fp k) as
    (r & st' & E & -> & i & v' & own' & Hnone & Hi & _ & Hinv' & Hdc & Hf' & _ & Hl'); try done; [by apply parse_plain|].
  exists i, st'. eexists _, (VFS.dentry_cache st). split_and!; [exact E|split; [exact geo|]; by exists v', own'|].
  cbn [DirEntry.inode_number]. eapply holds_tree_set; eauto.
  - destruct Htf as [H0 Ht Hnd Hn]. split; [done| |done|].
    + eapply Entry.denotes_frame; [|exact Ht]. intros j Hj. apply lookup_insert_ne. intros <-.
      exact (denotes_fresh files _ t i Ht Hnone Hj).
    + rewrite map_size_insert_None by done. lia.
  - rewrite lookup_insert_ne; [done|congruence].
Qed.

(** A parent that is not there: nothing happens. *)
Lemma tree_missing_parent st t fr fi parents name x : vfs_tree n fs st t fr fi -> plain (parents ++ [name]) ->
  Node.walk t parents = inl x -> VFS.create fs (full_path parents name) st = Ok (inl (NotExist x), st).
Proof.
  intros (files & _ & Htf) Hp Hw.
  pose proof (Entry.find_walk files _ _ parents (tf_tree _ _ _ _ _ Htf)) as Hfind. rewrite Hw in Hfind.
  unfold VFS.create, mbind, M_bind, lift. rewrite parse_plain by done. omon. cbn [Path.parents].
  unfold VFS.lookup_dentry. by rewrite Hfind.
Qed.

Lemma tree_missing_write st t fr fi parents name x c : vfs_tree n fs st t fr fi -> plain (parents ++ [name]) ->
  Node.walk t (parents ++ [name]) = inl x -> VFS.write fs (full_path parents name) c st = Ok (inl (NotExist x), st).
Proof.
  intros (files & _ & Htf) Hp Hw.
  pose proof (Entry.find_walk files _ _ (parents ++ [name]) (tf_tree _ _ _ _ _ Htf)) as Hfind. rewrite Hw in Hfind.
  unfold VFS.write, mbind, M_bind, lift. rewrite parse_plain by done. omon. cbn [Path.parents Path.name].
  unfold VFS.lookup_dentry. by rewrite Hfind.
Qed.

(** Writing everything back leaves the tree on the device. *)
Lemma tree_flush (st : CAFS.state (CacheManager.t D)) files root t fr fi : fs_ok n fs st files fr ->
  holds_tree fs files root t fi ->
  exists p, CAFS.fs_flush st = Ok (tt, p) /\
    disk_tree n fs (CacheManager.block_device (CAFS.cache_manager p)) t fr fi.
Proof.
  intros Hok Htf. destruct (flush_ok n fs st files fr Hok) as (st' & v & own & E & [geo _] & Hdev & Hd & Hf).
  exists st'. split; [exact E|]. split; [exact geo|]. by exists v, files, own, root.
Qed.
End simulation.

(** ** A disk with a directory *)

(** The tree "/" with the empty directory "d", on a small disk: the root directory of a
    formatted disk gets the number of a new inode of type [Dir]. *)
Definition d_tree : Node.t := Node.Folder [47] [Node.Folder [100] []].

Definition d_files : gmap Z file :=
  <[0 := set_data root_dir (dir_data [1])]> (<[1 := new_file Dir [100]]> {[0 := root_dir]}).
Definition d_root : DirEntry.t := DirEntry.mk Dir 0 [47] [DirEntry.mk Dir 1 [100] []].

Lemma d_holds : holds_tree (layout 16390 1) d_files d_root d_tree 4094.
Proof.
  split.
  - reflexivity.
  - apply (Entry.denotes_dir _ 0 (set_data root_dir (dir_data [1]))); try reflexivity.
    + repeat constructor; zeval.
    + constructor; [|constructor]. apply (Entry.denotes_dir _ 1 (new_file Dir [100])); try reflexivity; constructor.
  - apply (bool_decide_unpack _). vm_compute. exact Logic.I.
  - reflexivity.
Qed.

Lemma d_state : exists st : CAFS.state (CacheManager.t Disk.t), fs_ok 16390 (layout 16390 1) st d_files 12287 /\
  (length (CAFS.inode_cache st) <= 3)%nat.
Proof.
  destruct fresh_disk as (st & _ & [geo (v & own & Hinv & Hf)] & Hr & Hl). set (fs := layout 16390 1) in *.
  destruct (alloc_inode_meta_spec fs geo st v {[0 := root_dir]} own Dir [100] 1 Hinv) as
    (h & st1 & _ & [(i & v1 & own1 & Hnone & Hi & Hfirst & Hinv1 & Hf1 & _) (q & Hq & [_ Kl _ _ _ _]) _ _ _]).
  - zeval.
  - reflexivity.
  - left. rewrite Hl. unfold INODE_CACHE_SIZE. lia.
  - zeval.
  - zeval.
  - assert (i = 1) as ->.
    { destruct (decide (i = 0)) as [->|]; [done|]. destruct (decide (i = 1)) as [|]; [done|].
      destruct (Hfirst 1 ltac:(lia)) as [f Hf'%lookup_singleton_Some]. lia. }
    assert (Hok : fs_ok 16390 fs st1 (<[1 := new_file Dir [100]]> {[0 := root_dir]}) 12288).
    { split; [exact geo|]. exists v1, own1. split; [exact Hinv1|congruence]. }
    assert (Hl1 : (length (CAFS.inode_cache st1) <= 2)%nat) by (rewrite Hq, length_app; cbn [length]; lia).
    destruct (write_ok 16390 fs st1 _ 12288 0 root_dir (dir_data [1]) Hok) as (st2 & _ & Hok2 & _ & Hl2 & _).
    + reflexivity.
    + right. left. unfold INODE_CACHE_SIZE. lia.
    + zeval.
    + zeval.
    + zeval.
    + zeval.
    + exists st2. split; [exact Hok2|lia].
Qed.

Lemma d_disk : exists dev : Disk.t, disk_tree 16390 (layout 16390 1) dev d_tree 12287 4094.
Proof.
  destruct d_state as (st & Hok & _).
  destruct (tree_flush 16390 _ st _ _ d_tree _ 4094 Hok d_holds) as (p & _ & Hdisk). eauto.
Qed.

Lemma d_vfs : exists st : VFS.state (CacheManager.t Disk.t), vfs_tree 16390 (layout 16390 1) st d_tree 12287 4094 /\
  (cached_inodes st <= 3)%nat.
Proof.
  destruct d_state as (st & Hok & Hl). exists (VFS.St st d_root). split; [|exact Hl].
  exists d_files. split; [exact Hok|exact d_holds].
Qed.

(** With the empty file "/d/a" in it. *)
Definition da_tree : Node.t := Node.Folder [47] [Node.Folder [100] [Node.Reg [97] []]].

Lemma da_vfs : exists st : VFS.state (CacheManager.t Disk.t), vfs_tree 16390 (layout 16390 1) st da_tree 12286 4093 /\
  (cached_inodes st <= 6)%nat.
Proof.
  destruct d_vfs as (st & Hok & Hl).
  destruct (tree_create_file 16390 (layout 16390 1) st d_tree 12287 4094 [[100]] [100] [] [97] Hok) as (st' & _ & Hok' & Hl').
  - apply (bool_decide_unpack _). vm_compute. exact Logic.I.
  - reflexivity.
  - apply (bool_decide_unpack _). vm_compute. exact Logic.I.
  - vm_compute. reflexivity.
  - zeval.
  - zeval.
  - lia.
  - unfold INODE_CACHE_SIZE. lia.
  - zeval.
  - zeval.
  - exists st'. split; [exact Hok'|lia].
Qed.

(** ** What a client can rely on *)

(** C26: Mounting a device that holds any tree of directories and files ([VFS::new]): with
    fuel for its height the recursion of [read_sub_dentry] returns, and the entries in
    memory stand for exactly that tree. *)
Theorem vfs_mount_tree {D} `{BlockDeviceLaws D} n fs (dev : D) t fr fi fuel :
  disk_tree n fs dev t fr fi -> (Node.height t <= fuel)%nat ->
  exists st, VFS.new fuel dev = Ok (fs, st) /\ vfs_tree n fs st t fr fi.
Proof. intros Hd Hf. destruct (tree_mount n fs dev t fr fi fuel Hd Hf) as (st & ? & ? & _). by exists st. Qed.

Lemma vfs_mount_tree_witness : exists (dev : Disk.t) st, VFS.new 2 dev = Ok (layout 16390 1, st) /\
  vfs_tree 16390 (layout 16390 1) st d_tree 12287 4094.
Proof.
  destruct d_disk as (dev & Hd). exists dev.
  apply (vfs_mount_tree 16390 (layout 16390 1) dev d_tree 12287 4094 2 Hd). vm_compute. lia.
Defined.

(** C8: [VFS::read_unstable] of a path of any depth: the contents of the file the path
    leads to when each name is the first entry with that name; for a directory the
    separated inode numbers of its entries; and [NotExist] with the first name that is
    not there. The tree stays the same. *)
Theorem vfs_read_tree {D} `{BlockDeviceLaws D} n fs (st : VFS.state (CacheManager.t D)) t fr fi parents name :
  vfs_tree n fs st t fr fi -> plain (parents ++ [name]) -> (forall i, available (VFS.primary_partition st) i) ->
  exists r st', VFS.read_unstable fs (full_path parents name) st = Ok (r, st') /\
    read_result (Node.walk t (parents ++ [name])) r /\ vfs_tree n fs st' t fr fi.
Proof.
  intros Hok Hp Hav. destruct (tree_read n fs st t fr fi parents name Hok Hp Hav) as (r & st' & ? & ? & ? & _).
  by exists r, st'.
Qed.

Lemma vfs_read_tree_witness : exists st st' st'' : VFS.state (CacheManager.t Disk.t),
  VFS.read_unstable (layout 16390 1) (full_path [[100]] [97]) st = Ok (inr [], st') /\
  VFS.read_unstable (layout 16390 1) (full_path [[98]] [97]) st = Ok (inl (NotExist [98]), st'').
Proof.
  destruct da_vfs as (st & Hok & Hl).
  assert (Hav : forall i, available (VFS.primary_partition st) i) by (apply few_available; unfold INODE_CACHE_SIZE; lia).
  destruct (vfs_read_tree 16390 (layout 16390 1) st da_tree 12286 4093 [[100]] [97] Hok) as (r & st' & E & -> & _);
    [apply (bool_decide_unpack _); vm_compute; exact Logic.I|exact Hav|].
  destruct (vfs_read_tree 16390 (layout 16390 1) st da_tree 12286 4093 [[98]] [97] Hok) as (r & st'' & E' & -> & _);
    [apply (bool_decide_unpack _); vm_compute; exact Logic.I|exact Hav|].
  exists st, st', st''. split; [exact E|exact E'].
Defined.

(** The bytes that a node takes on the disk: those of a file, or the numbers of the
    entries of a directory. *)
Definition node_size (t : Node.t) : Z :=
  match t with Node.Reg _ c => zlen c | Node.Folder _ ns => Names.dir_size (length ns) end.

(** C9: [VFS::write] to a path of any depth, when the node there does not give blocks
    back. A path with a name that is not there changes nothing and returns [NotExist] with
    that name. When the node grows by more blocks than are free, the write panics.
    Otherwise it returns; the path then reads as the new contents, and every other path
    reads exactly as before. Written to a file, the tree is the old one with the
    new contents, and the blocks the file needed are no longer free. Nothing checks that the node is
    a file: written to the path of a directory, the contents replace the list of its
    entries. (What a write does that gives blocks back is C24.) *)
Theorem vfs_write_tree {D} `{BlockDeviceLaws D} n fs (st : VFS.state (CacheManager.t D)) t fr fi parents name c :
  let path := parents ++ [name] in
  vfs_tree n fs st t fr fi -> plain path -> (forall i, available (VFS.primary_partition st) i) ->
  Forall u8 c -> zlen c <= L4_MAX ->
  match Node.walk t path with
  | inl x => VFS.write fs (full_path parents name) c st = Ok (inl (NotExist x), st)
  | inr node =>
      let old := node_size node in
      (old < zlen c -> fr < need old (zlen c) -> VFS.write fs (full_path parents name) c st = Fault (Panic PData)) /\
      (cdiv old 512 <= cdiv (zlen c) 512 -> need old (zlen c) <= fr ->
        exists st', VFS.write fs (full_path parents name) c st = Ok (inr tt, st') /\
          (cached_inodes st' <= S (cached_inodes st))%nat /\
          ((forall i, available (VFS.primary_partition st') i) ->
            (exists st2, VFS.read_unstable fs (full_path parents name) st' = Ok (inr c, st2)) /\
            forall parents' name', plain (parents' ++ [name']) -> parents' ++ [name'] <> path ->
              exists r st1 st2, VFS.read_unstable fs (full_path parents' name') st = Ok (r, st1) /\
                VFS.read_unstable fs (full_path parents' name') st' = Ok (r, st2)) /\
          match node with
          | Node.Reg _ _ => vfs_tree n fs st' (Node.update path (Node.set c) t) (fr - need old (zlen c)) fi
          | Node.Folder _ _ => VFS.dentry_cache st' = VFS.dentry_cache st
          end)
  end.
Proof.
  intros path (files & Hok & Htf) Hp Hav Hu Hmax.
  pose proof (Entry.find_walk files _ _ path (tf_tree _ _ _ _ _ Htf)) as Hfind.
  destruct (Node.walk t path) as [x|node] eqn:Hw; [eapply tree_missing_write; [by exists files|done|exact Hw]|].
  destruct Hfind as (pos & d & Hpos & Hat & Hd). destruct (Entry.denotes_entry _ _ _ Hd) as (f & Hf & _).
  assert (Hsz : zlen (f_data f) = node_size node).
  { destruct Hd as [i g Hg _|i g ds ns Hg _ Hdat _ Hs]; cbn [DirEntry.inode_number node_size] in *; simplify_eq; [done|].
    rewrite Hdat, length_dir_data, length_fmap. by rewrite (Forall2_length _ _ _ Hs). }
  cbv zeta. rewrite <- Hsz. split; [intros ? Hneed; by eapply (write_entry_full n fs st files fr)|].
  intros Hcd Hneed.
  destruct (write_entry n fs st files fr parents name pos d f c Hok Hp Hpos Hat Hf Hav) as (st' & E & Hdc & Hok' & Hl); try done.
  exists st'. split; [exact E|]. split; [exact Hl|].
  assert (Hview : forall other, Entry.view (<[DirEntry.inode_number d := set_data f c]> files) (VFS.dentry_cache st') other =
    if decide (other = path) then inr c else Entry.view files (VFS.dentry_cache st) other).
  { intros other. rewrite Hdc. eapply Entry.view_set; try done. apply Htf. }
  assert (Hall : forall j, j ∈ Entry.numbers (VFS.dentry_cache st') ->
    is_Some ((<[DirEntry.inode_number d := set_data f c]> files) !! j)).
  { intros j Hj. rewrite Hdc in Hj. apply lookup_insert_is_Some'. right. by eapply tree_numbers. }
  split.
  - intros Hav'. split.
    + destruct (files_read n fs st' _ _ parents name Hok' Hp Hall Hav') as (st2 & E2 & _). rewrite Hview, decide_True in E2 by done. eauto.
    + intros parents' name' Hp' Hne.
      destruct (files_read n fs st' _ _ parents' name' Hok' Hp' Hall Hav') as (st2 & E2 & _). rewrite Hview, decide_False in E2 by done.
      destruct (files_read n fs st files fr parents' name' Hok Hp' (tree_numbers _ _ _ _ _ Htf) Hav) as (st1 & E1 & _). eauto.
  - destruct node as [x old|x ns]; [|exact Hdc]. eexists. split; [exact Hok'|]. rewrite Hdc.
    inversion Hd as [i g Hg Hty|]; subst. cbn [DirEntry.inode_number] in *. simplify_eq. eapply holds_tree_set; eauto.
Qed.

(** Writing to "/d/a", and to the directory "/d". *)
Lemma vfs_write_tree_witness : exists (st st1 st2 st3 : VFS.state (CacheManager.t Disk.t)),
  VFS.write (layout 16390 1) (full_path [[100]] [97]) [5] st = Ok (inr tt, st1) /\
  vfs_tree 16390 (layout 16390 1) st1 (Node.Folder [47] [Node.Folder [100] [Node.Reg [97] [5]]]) 12285 4093 /\
  VFS.write (layout 16390 1) (full_path [] [100]) [6] st = Ok (inr tt, st2) /\
  VFS.read_unstable (layout 16390 1) (full_path [] [100]) st2 = Ok (inr [6], st3).
Proof.
  destruct da_vfs as (st & Hok & Hl). exists st.
  assert (Hav : forall i, available (VFS.primary_partition st) i) by (apply few_available; unfold INODE_CACHE_SIZE; lia).
  destruct (vfs_write_tree 16390 (layout 16390 1) st da_tree 12286 4093 [[100]] [97] [5] Hok) as [_ H1];
    [apply (bool_decide_unpack _); vm_compute; exact Logic.I|exact Hav|zeval..|].
  destruct (vfs_write_tree 16390 (layout 16390 1) st da_tree 12286 4093 [] [100] [6] Hok) as [_ H2];
    [apply (bool_decide_unpack _); vm_compute; exact Logic.I|exact Hav|zeval..|].
  destruct H1 as (st1 & E1 & _ & _ & T1); [zeval..|]. destruct H2 as (st2 & E2 & Hl2 & R2 & _); [zeval..|].
  destruct R2 as [(st3 & E3) _]; [apply few_available; unfold INODE_CACHE_SIZE; lia|].
  exists st1, st2, st3. split_and!; [exact E1|exact T1|exact E2|exact E3].
Defined.

(** C10: [VFS::create] in a directory at any depth: the directory gets a new, empty file
    as its last entry and every other node stays the same; a parent that is not there
    changes nothing and returns [NotExist] with the first missing name. *)
Theorem vfs_create_tree {D} `{BlockDeviceLaws D} n fs (st : VFS.state (CacheManager.t D)) t fr fi parents name :
  vfs_tree n fs st t fr fi -> plain (parents ++ [name]) -> 0 ∉ name -> utf8 name = true -> Forall u8 name ->
  zlen name <= NAME_LENGTH_LIMIT -> 0 < fi -> (cached_inodes st + 3 <= INODE_CACHE_SIZE)%nat ->
  match Node.walk t parents with
  | inl x => VFS.create fs (full_path parents name) st = Ok (inl (NotExist x), st)
  | inr (Node.Folder _ ns) => Names.dir_size (S (length ns)) <= L4_MAX ->
      need (Names.dir_size (length ns)) (Names.dir_size (S (length ns))) <= fr ->
      exists st', VFS.create fs (full_path parents name) st = Ok (inr tt, st') /\
        vfs_tree n fs st' (Node.update parents (Node.add (Node.Reg name [])) t)
          (fr - need (Names.dir_size (length ns)) (Names.dir_size (S (length ns)))) (fi - 1)
  | inr (Node.Reg _ _) => True
  end.
Proof.
  intros Hok Hp Hz Hutf Hu Hl Hfi Hc. destruct (Node.walk t parents) as [x|[x old|x ns]] eqn:Hw; [|done|].
  - by eapply tree_missing_parent.
  - intros Hmax Hneed. destruct (tree_create_file n fs st t fr fi parents x ns name) as (st' & ? & ? & _); try done. by exists st'.
Qed.

Lemma vfs_create_tree_witness : exists st st' : VFS.state (CacheManager.t Disk.t),
  VFS.create (layout 16390 1) (full_path [[100]] [97]) st = Ok (inr tt, st') /\
  vfs_tree 16390 (layout 16390 1) st' da_tree 12286 4093.
Proof.
  destruct d_vfs as (st & Hok & Hl). exists st.
  apply (vfs_create_tree 16390 (layout 16390 1) st d_tree 12287 4094 [[100]] [97] Hok).
  - apply (bool_decide_unpack _). vm_compute. exact Logic.I.
  - apply (bool_decide_unpack _). vm_compute. exact Logic.I.
  - vm_compute. reflexivity.
  - zeval.
  - zeval.
  - lia.
  - unfold INODE_CACHE_SIZE. lia.
  - zeval.
  - zeval.
Defined.

(** C6: What is written can be read, at any depth, and nothing else changes. A file with a
    new name is created in a directory and written. Its path then reads as what was
    written; the path of the directory, which read as some contents before, reads as these
    with the number of the new file appended; and every other path that does not
    pass through the new file reads exactly as before: the same contents, of files and
    directories, or the same missing name. *)
Theorem vfs_tree_roundtrip {D} `{BlockDeviceLaws D} n fs (st : VFS.state (CacheManager.t D)) t fr fi parents x ns name c :
  vfs_tree n fs st t fr fi -> plain (parents ++ [name]) -> Node.walk t parents = inr (Node.Folder x ns) ->
  Node.walk t (parents ++ [name]) = inl name -> 0 ∉ name -> utf8 name = true -> Forall u8 name ->
  zlen name <= NAME_LENGTH_LIMIT -> 0 < fi -> (cached_inodes st + 6 <= INODE_CACHE_SIZE)%nat ->
  Names.dir_size (S (length ns)) <= L4_MAX -> Forall u8 c -> zlen c <= L4_MAX ->
  need (Names.dir_size (length ns)) (Names.dir_size (S (length ns))) + need 0 (zlen c) <= fr ->
  exists i st1 st2, VFS.create fs (full_path parents name) st = Ok (inr tt, st1) /\
    VFS.write fs (full_path parents name) c st1 = Ok (inr tt, st2) /\
    (exists st3, VFS.read_unstable fs (full_path parents name) st2 = Ok (inr c, st3)) /\
    forall parents' name', plain (parents' ++ [name']) -> (~ (parents ++ [name]) `prefix_of` (parents' ++ [name'])) ->
      exists r st' st3, VFS.read_unstable fs (full_path parents' name') st = Ok (r, st') /\
        if decide (parents' ++ [name'] = parents)
        then exists old, r = inr old /\ VFS.read_unstable fs (full_path parents' name') st2 = Ok (inr (append_entry old i), st3)
        else VFS.read_unstable fs (full_path parents' name') st2 = Ok (r, st3).
Proof.
  intros (files & Hfs) Hp Hw Hnew Hz Hutf Hu Hl Hfi Hc Hmax Hcu Hcm Hneed.
  pose proof (need_pos (zlen c) ltac:(lia)) as Hpos0.
  destruct (files_create n fs st files t fr fi parents x ns name) as
    (st1 & i & pos & d & fp & E1 & Hpos & Hat & Hfp & Hnone & Hdc & [Hok1 Htf1] & Hl1); try done; [lia|lia|].
  set (e := DirEntry.mk File i name []) in *. set (files1 := <[DirEntry.inode_number d := _]> _) in *.
  assert (Hw1 : Node.walk (Node.update parents (Node.add (Node.Reg name [])) t) (parents ++ [name]) = inr (Node.Reg name [])).
  { rewrite Node.walk_app, (Node.walk_update _ _ _ (Node.Folder x ns)) by (done || by intros []).
    apply (Node.walk_add_new x ns (Node.Reg name [])). by eapply Node.walk_missing. }
  pose proof (Entry.find_walk files1 _ _ (parents ++ [name]) (tf_tree _ _ _ _ _ Htf1)) as Hfind. rewrite Hw1 in Hfind.
  destruct Hfind as (q & dn & Hq & Hatn & Hdn).
  assert (Hg : exists g, files1 !! DirEntry.inode_number dn = Some g /\ f_data g = []).
  { inversion Hdn as [j g Hg Hty|]; subst. by exists g. }
  destruct Hg as (g & Hg & Hg0).
  destruct (write_entry n fs st1 files1 _ parents name q dn g c Hok1 Hp Hq Hatn Hg) as (st2 & E2 & Hdc2 & Hok2 & Hl2);
    rewrite ?Hg0; try done;
    [apply few_available; lia|change (cdiv (zlen []) 512) with 0; unfold cdiv; apply Z.div_pos; lia|change (zlen []) with 0; lia|].
  set (files2 := <[DirEntry.inode_number dn := _]> files1) in *.
  assert (Hv1 : forall other, Entry.view files2 (VFS.dentry_cache st2) other =
    if decide (other = parents ++ [name]) then inr c else Entry.view files1 (VFS.dentry_cache st1) other).
  { intros other. rewrite Hdc2. eapply Entry.view_set; try done. apply Htf1. }
  assert (Hv2 : forall other, (~ (parents ++ [name]) `prefix_of` other) -> Entry.view files1 (VFS.dentry_cache st1) other =
    if decide (other = parents) then inr (append_entry (f_data fp) i) else Entry.view files (VFS.dentry_cache st) other).
  { intros other Hn. rewrite Hdc. apply (Entry.view_add files _ parents pos d fp e); try done; [apply Hfs|].
    by eapply tree_numbers, Hfs. }
  assert (Hall : forall j, j ∈ Entry.numbers (VFS.dentry_cache st2) -> is_Some (files2 !! j)).
  { intros j Hj. rewrite Hdc2 in Hj. apply lookup_insert_is_Some'. right. by eapply tree_numbers. }
  assert (Hav : forall i, available (VFS.primary_partition st) i) by (apply few_available; lia).
  assert (Hav2 : forall i, available (VFS.primary_partition st2) i) by (apply few_available; lia).
  exists i, st1, st2. split; [exact E1|]. split; [exact E2|]. split.
  - destruct (files_read n fs st2 _ _ parents name Hok2 Hp Hall Hav2) as (st3 & E3 & _). rewrite Hv1, decide_True in E3 by done. eauto.
  - intros parents' name' Hp' Hn.
    destruct (files_read n fs st2 _ _ parents' name' Hok2 Hp' Hall Hav2) as (st3 & E3 & _).
    rewrite Hv1, decide_False in E3 by (intros E; apply Hn; by rewrite E). rewrite Hv2 in E3 by done.
    destruct (read_entry n fs st files t fr fi parents' name' Hfs Hp' Hav) as (st' & E' & _).
    eexists _, st', st3. split; [exact E'|]. case_decide as Hd; [|exact E3].
    exists (f_data fp). split; [|exact E3]. rewrite Hd. unfold Entry.view. rewrite Hpos, Hat. cbn [mbind option_bind]. by rewrite Hfp.
Qed.

(** Creating "/d/a" changes what "/d" reads as. *)
Lemma vfs_tree_roundtrip_witness : exists i (st st0 st1 st2 st3 st4 : VFS.state (CacheManager.t Disk.t)),
  VFS.create (layout 16390 1) (full_path [[100]] [97]) st = Ok (inr tt, st1) /\
  VFS.write (layout 16390 1) (full_path [[100]] [97]) [5] st1 = Ok (inr tt, st2) /\
  VFS.read_unstable (layout 16390 1) (full_path [[100]] [97]) st2 = Ok (inr [5], st3) /\
  exists old, VFS.read_unstable (layout 16390 1) (full_path [] [100]) st = Ok (inr old, st0) /\
    VFS.read_unstable (layout 16390 1) (full_path [] [100]) st2 = Ok (inr (append_entry old i), st4).
Proof.
  destruct d_vfs as (st & Hok & Hl).
  destruct (vfs_tree_roundtrip 16390 (layout 16390 1) st d_tree 12287 4094 [[100]] [100] [] [97] [5] Hok) as
    (i & st1 & st2 & E1 & E2 & (st3 & E3) & Ho).
  - apply (bool_decide_unpack _). vm_compute. exact Logic.I.
  - reflexivity.
  - reflexivity.
  - apply (bool_decide_unpack _). vm_compute. exact Logic.I.
  - vm_compute. reflexivity.
  - zeval.
  - zeval.
  - lia.
  - unfold INODE_CACHE_SIZE. lia.
  - zeval.
  - zeval.
  - zeval.
  - zeval.
  - destruct (Ho [] [100]) as (r & st0 & st4 & E0 & H4); [apply (bool_decide_unpack _); vm_compute; exact Logic.I..|].
    rewrite decide_True in H4 by reflexivity. destruct H4 as (old & -> & E4).
    exists i, st, st0, st1, st2, st3, st4. split_and!; [exact E1|exact E2|exact E3|]. exists old. split; [exact E0|exact E4].
Defined.

(** C38: [VFS::create] below a regular file does not fail: it returns [Ok], and the number
    of the new file is appended to the contents of the regular file after a zero byte,
    so a later mount reads it with the changed contents and does not find the new file. *)
Theorem vfs_create_below_file {D} `{BlockDeviceLaws D} n fs (st : VFS.state (CacheManager.t D)) t fr fi
    parents parent x c name :
  vfs_tree n fs st t fr fi -> plain ((parents ++ [parent]) ++ [name]) ->
  Node.walk t (parents ++ [parent]) = inr (Node.Reg x c) ->
  Forall u8 name -> zlen name <= NAME_LENGTH_LIMIT -> 0 < fi -> (cached_inodes st + 3 <= INODE_CACHE_SIZE)%nat ->
  entry_size c <= L4_MAX -> need (zlen c) (entry_size c) <= fr ->
  exists st1 p st2 i, VFS.create fs (full_path (parents ++ [parent]) name) st = Ok (inr tt, st1) /\
    CAFS.fs_flush (VFS.primary_partition st1) = Ok (tt, p) /\
    VFS.new (Node.height t) (CacheManager.block_device (CAFS.cache_manager p)) = Ok (fs, st2) /\
    (exists st3, VFS.read_unstable fs (full_path parents parent) st2 = Ok (inr (append_entry c i), st3)) /\
    (exists st3, VFS.read_unstable fs (full_path (parents ++ [parent]) name) st2 = Ok (inl (NotExist name), st3)).
Proof.
  intros Hok Hp Hw Hu Hl Hfi Hc Hmax Hneed.
  destruct (tree_create_below n fs st t fr fi (parents ++ [parent]) x c name) as (i & st1 & files & root & E1 & Hok1 & Ht1); try done.
  destruct (tree_flush n fs _ files root _ _ _ Hok1 Ht1) as (p & E2 & Hdisk).
  assert (Hset : forall t, Node.name (Node.set (append_entry c i) t) = Node.name t) by (by intros []).
  destruct (tree_mount n fs _ _ _ _ (Node.height t) Hdisk) as (st2 & E3 & Hok2 & Hidle & _).
  { by rewrite Node.height_update_set. }
  pose proof (Node.walk_update _ _ _ _ Hset Hw) as Hw'. cbn [Node.set] in Hw'.
  assert (Hp' : plain (parents ++ [parent])) by (by apply Forall_app in Hp as [? _]).
  exists st1, p, st2, i. split_and!; [exact E1|exact E2|exact E3|..].
  - destruct (tree_read n fs st2 _ _ _ parents parent Hok2 Hp') as (r & st3 & E4 & Hr & _);
      [intros; by apply idle_available|]. rewrite Hw' in Hr. cbn in Hr. subst r. eauto.
  - destruct (tree_read n fs st2 _ _ _ (parents ++ [parent]) name Hok2 Hp) as (r & st3 & E4 & Hr & _);
      [intros; by apply idle_available|]. rewrite Node.walk_app, Hw' in Hr. cbn in Hr. subst r. eauto.
Qed.

Lemma vfs_create_below_file_witness : exists (st st1 st2 : VFS.state (CacheManager.t Disk.t)) p,
  VFS.create (layout 16390 1) (full_path [[100]; [97]] [120]) st = Ok (inr tt, st1) /\
  CAFS.fs_flush (VFS.primary_partition st1) = Ok (tt, p) /\
  VFS.new 3 (CacheManager.block_device (CAFS.cache_manager p)) = Ok (layout 16390 1, st2) /\
  exists st3, VFS.read_unstable (layout 16390 1) (full_path [[100]; [97]] [120]) st2 = Ok (inl (NotExist [120]), st3).
Proof.
  destruct da_vfs as (st & Hok & Hl).
  destruct (vfs_create_below_file 16390 (layout 16390 1) st da_tree 12286 4093 [[100]] [97] [97] [] [120] Hok)
    as (st1 & p & st2 & i & E1 & E2 & E3 & _ & E4).
  - apply (bool_decide_unpack _). vm_compute. exact Logic.I.
  - reflexivity.
  - zeval.
  - zeval.
  - lia.
  - unfold INODE_CACHE_SIZE. lia.
  - zeval.
  - zeval.
  - exists st, st1, st2, p. split_and!; [exact E1|exact E2|exact E3|exact E4].
Defined.

(** C39: A directory that contains itself is not detected: when the root directory is in a
    set of directories each of which has a member of the set as its first entry,
    [VFS::new] recurses without end, whatever the fuel. *)
Theorem vfs_mount_cycle {D} `{BlockDeviceLaws D} n fs (dev : D) v files own (S : Z -> Prop) fuel :
  geometry n fs -> dev_rep dev n v -> disk_ok fs v files own -> S 0 ->
  (forall i, S i -> exists f j nums, files !! i = Some f /\ f_type f = Dir /\ f_data f = dir_data (j :: nums) /\
    Forall u64 (j :: nums) /\ S j) ->
  VFS.new fuel dev = Fault Diverge.
Proof.
  intros geo Hdev Hd HS0 HS.
  destruct (open_ok n fs dev v files own geo Hdev Hd) as (st & E & [_ (v' & own' & Hinv & Hf)] & Hr & Hc).
  assert (Hidle : idle st) by (split; [exact Hr|]; rewrite Hc; apply NoDup_nil_2).
  destruct (HS 0 HS0) as (f & _ & _ & Hf0 & _).
  destruct (new_dentry_spec fs geo st v' files own' 0 f) as (d & st1 & E1 & -> & Hinv1 & Hr1 & Hnd1 & _);
    auto; [by apply idle_available|].
  assert (Hidle1 : idle st1) by (destruct Hidle as [Hr' Hnd]; split; [congruence|auto]).
  unfold VFS.new. rewrite E. cbn [mbind outcome_bind]. unfold mbind, M_bind, outcome_bind. rewrite E1.
  by rewrite (read_cycle fs geo S files fuel HS 0 f st1 v' own').
Qed.

(** The root directory lists itself. *)
Lemma vfs_mount_cycle_witness : exists dev : Disk.t, VFS.new 100 dev = Fault Diverge.
Proof.
  destruct fresh_disk as (st & _ & Hok & Hr & Hl). set (fs := layout 16390 1) in *.
  destruct (write_ok 16390 fs st _ 12288 0 root_dir (dir_data [0]) Hok) as (st2 & _ & Hok2 & _).
  - reflexivity.
  - right. left. rewrite Hl. unfold INODE_CACHE_SIZE. lia.
  - zeval.
  - zeval.
  - zeval.
  - zeval.
  - destruct (flush_ok 16390 fs st2 _ _ Hok2) as (p & v & own & _ & [geo _] & Hdev & Hd & _).
    exists (CacheManager.block_device (CAFS.cache_manager p)).
    apply (vfs_mount_cycle 16390 fs _ v _ own (fun i => i = 0) 100 geo Hdev Hd eq_refl).
    intros i ->. exists (set_data root_dir (dir_data [0])), 0, []. split_and!; try reflexivity.
    constructor; [unfold u64, U64; lia|constructor].
Defined.
