(* ===== verification/Image.v ===== *)
(** The properties of the image builder of fs/src/main.rs, and of mounting what it wrote. *)
From S2P Require Import Prelude Device Block Manager Bitmap Layout Index Resize InodeNumber Utf8 Cafs Vfs Contents Files Inodes Directory Mount Paths Errors FileSystem Namespace Machine.
From Stdlib Require Import ZArith Lia.
From stdpp Require Import gmap functions sorting list_numbers list.
Local Open Scope Z_scope.

(** ** [create_img] *)
Section image.
Variables (size : Z) (file : list Z).
Hypothesis Hsize : 23 <= size <= 1000000000.
Hypothesis Hu8 : Forall u8 file.
Hypothesis Hmax : zlen file <= L4_MAX.

Definition total : Z := 2048 * size.
Definition img_fs : CAFS.t := layout total 10.
Hypothesis Hspace : 2 + need 0 (zlen file) <= data_count img_fs.

(** The files of the image. *)
Definition img_files : gmap Z Files.file :=
  <[2 := set_data (new_file File Img.hello) file]>
  (<[1 := set_data (new_file File Img.test_txt) Img.test_file]>
  {[0 := set_data root_dir (dir_data [1; 2])]}).

(** Adding one file to the image. *)
Lemma add_file_ok st files fr rf i name c : fs_ok total img_fs st files fr -> files !! 0 = Some rf ->
  files !! i = None -> 0 < i < inode_count img_fs -> (forall j, 0 <= j < i -> is_Some (files !! j)) ->
  (length (CAFS.inode_cache st) + 4 <= INODE_CACHE_SIZE)%nat ->
  zlen name <= NAME_LENGTH_LIMIT -> Forall u8 name -> entry_size (f_data rf) <= L4_MAX ->
  Forall u8 c -> zlen c <= L4_MAX ->
  need (zlen (f_data rf)) (entry_size (f_data rf)) + need 0 (zlen c) <= fr -> 0 <= need 0 (zlen c) ->
  exists h st', Img.add_file img_fs name c st = Ok (h, st') /\
    fs_ok total img_fs st' (<[i := set_data (new_file File name) c]>
      (<[0 := set_data rf (append_entry (f_data rf) i)]> (<[i := new_file File name]> files)))
      (fr - need (zlen (f_data rf)) (entry_size (f_data rf)) - need 0 (zlen c)) /\
    (length (CAFS.inode_cache st') <= length (CAFS.inode_cache st) + 4)%nat.
Proof.
  intros Hok Hrf Hnone Hi Hall Hlen Hl Hu Hm Hcu Hcm Hneed Hpos.
  destruct (create_ok total img_fs st files fr 0 rf name i) as
    (i' & h & st1 & inode & E & Hn' & Hi' & Hfirst & Hok1 & Hh & Hnum & Hr1 & Hl1); try assumption; [lia|lia|lia|].
  assert (i' = i) as ->.
  { destruct (Z.lt_trichotomy i' i) as [Hlt|[?|Hgt]]; [|done|].
    - destruct (Hall i') as [f Hf]; [lia|]. congruence.
    - destruct (Hfirst i) as [f Hf]; [lia|]. congruence. }
  destruct (write_ok total img_fs st1 _ _ i (new_file File name) c Hok1) as (st2 & E2 & Hok2 & _ & Hl2 & _); try assumption.
  - rewrite lookup_insert_ne by lia. apply lookup_insert_eq.
  - right. left. lia.
  - cbn [new_file f_data length]. change (cdiv (Z.of_nat 0) 512) with 0. unfold cdiv. apply Z.div_pos; lia.
  - cbn [new_file f_data length]. change (Z.of_nat 0) with 0. lia.
  - exists h, st2. split_and!; [|exact Hok2|lia].
    unfold Img.add_file, mbind, M_bind. rewrite E. unfold CAFS.deref. rewrite Hh. omon. by rewrite Hnum, E2.
Qed.

Lemma img_geometry : geometry total img_fs /\ 1 + 10 * (BLOCK_BITS + 1) <= total /\ total * BLOCK_BITS < U64.
Proof.
  assert (1 + 10 * (BLOCK_BITS + 1) <= total /\ total * BLOCK_BITS < U64) as [? ?].
  { unfold total, BLOCK_BITS, BLOCK_SIZE, U64. lia. }
  split_and!; try assumption. apply layout_geometry; [lia|assumption..].
Qed.

(** The root directory after one and after two files. *)
Definition rf1 : Files.file := set_data root_dir (dir_data [1]).
Definition F1 : Files.file := set_data (new_file File Img.test_txt) Img.test_file.

Lemma need_values : need (zlen (f_data root_dir)) (entry_size (f_data root_dir)) = 1 /\
  need 0 (zlen Img.test_file) = 1 /\ need (zlen (f_data rf1)) (entry_size (f_data rf1)) = 0.
Proof. split_and!; vm_compute; reflexivity. Qed.

(** The first file. *)
Lemma img_first st : fs_ok total img_fs st {[0 := root_dir]} (data_count img_fs) ->
  length (CAFS.inode_cache st) = 1%nat ->
  exists h st', Img.add_file img_fs Img.test_txt Img.test_file st = Ok (h, st') /\
    fs_ok total img_fs st' (<[1 := F1]> {[0 := rf1]}) (data_count img_fs - 2) /\
    (length (CAFS.inode_cache st') <= 5)%nat.
Proof.
  intros Hok Hl. destruct need_values as (N1 & N2 & _). pose proof (need_pos (zlen file) ltac:(lia)) as Hnp.
  destruct (add_file_ok st {[0 := root_dir]} (data_count img_fs) root_dir 1 Img.test_txt Img.test_file)
    as (h1 & st1 & E1 & Hok1 & Hl1).
  - exact Hok.
  - reflexivity.
  - reflexivity.
  - change (inode_count img_fs) with 40960. lia.
  - intros j Hj. assert (j = 0) as -> by lia. by eexists.
  - rewrite Hl. unfold INODE_CACHE_SIZE. lia.
  - zeval.
  - zeval.
  - zeval.
  - zeval.
  - zeval.
  - rewrite N1, N2. lia.
  - rewrite N2. lia.
  - exists h1, st1. split_and!; [exact E1| |lia]. rewrite N1, N2 in Hok1.
    replace (data_count img_fs - 1 - 1) with (data_count img_fs - 2) in Hok1 by lia.
    replace (<[1 := F1]> {[0 := rf1]} : gmap Z Files.file) with
      (<[1 := F1]> (<[0 := rf1]> (<[1 := new_file File Img.test_txt]> {[0 := root_dir]})) : gmap Z Files.file).
    { exact Hok1. }
    apply map_eq. intros j. rewrite !lookup_insert, !lookup_singleton. by repeat case_decide.
Qed.

(** The second file. *)
Lemma img_second st : fs_ok total img_fs st (<[1 := F1]> {[0 := rf1]}) (data_count img_fs - 2) ->
  (length (CAFS.inode_cache st) <= 5)%nat ->
  exists h st', Img.add_file img_fs Img.hello file st = Ok (h, st') /\
    fs_ok total img_fs st' img_files (data_count img_fs - 2 - need 0 (zlen file)).
Proof.
  intros Hok Hl. destruct need_values as (_ & _ & N3). pose proof (need_pos (zlen file) ltac:(lia)) as Hnp.
  destruct (add_file_ok st (<[1 := F1]> {[0 := rf1]}) (data_count img_fs - 2) rf1 2 Img.hello file)
    as (h1 & st1 & E1 & Hok1 & Hl1).
  - exact Hok.
  - reflexivity.
  - reflexivity.
  - change (inode_count img_fs) with 40960. lia.
  - intros j Hj. assert (j = 0 \/ j = 1) as [-> | ->] by lia; by eexists.
  - unfold INODE_CACHE_SIZE. lia.
  - zeval.
  - zeval.
  - zeval.
  - exact Hu8.
  - exact Hmax.
  - rewrite N3. lia.
  - exact Hnp.
  - exists h1, st1. split; [exact E1|]. rewrite N3, Z.sub_0_r in Hok1.
    assert (Ed : set_data rf1 (append_entry (f_data rf1) 2) = set_data root_dir (dir_data [1; 2])).
    { unfold rf1. cbn [f_data set_data f_type f_name]. by rewrite append_entry_dir. }
    rewrite Ed in Hok1. replace img_files with
      (<[2 := set_data (new_file File Img.hello) file]> (<[0 := set_data root_dir (dir_data [1; 2])]>
        (<[2 := new_file File Img.hello]> (<[1 := F1]> {[0 := rf1]}))) : gmap Z Files.file); [exact Hok1|].
    unfold img_files. fold F1. apply map_eq. intros j.
    rewrite !lookup_insert, !lookup_singleton. repeat case_decide; (done || lia).
Qed.

(** The whole run: the disk it leaves holds exactly the files of the image. *)
Lemma create_img_disk : exists d v own, Img.create_img size (Some file) = Ok (Disk.data d) /\ Disk.rep d total v /\
  disk_ok img_fs v img_files own.
Proof.
  destruct img_geometry as (geo & Hn & Hb). unfold Img.create_img.
  rewrite mul64_ok by (unfold U64; lia). cbn [mbind outcome_bind].
  replace ((2 * size * 2 ^ 10) mod U64) with total by (unfold total, U64; rewrite Z.mod_small; lia).
  destruct (init_ok (Disk.new total) total 10 (fun _ => zero_block)) as (st & -> & Hok & Hr & Hl);
    [apply Disk.new_rep; unfold total; lia|lia|exact Hn|exact Hb|]. fold img_fs in *. cbv zeta. cbn [mbind outcome_bind].
  destruct (img_first st Hok Hl) as (h1 & st1 & E1 & Hok1 & Hl1).
  destruct (img_second st1 Hok1 Hl1) as (h2 & st2 & E2 & Hok2).
  destruct (flush_ok total img_fs st2 img_files _ Hok2) as (st3 & v & own & E3 & _ & Hdev & Hd & _).
  exists (CacheManager.block_device (CAFS.cache_manager st3)), v, own. split_and!; [|exact Hdev|exact Hd].
  unfold mbind, M_bind, outcome_bind. rewrite E1. cbn [unwrap lift]. unfold lift. rewrite E2, E3. reflexivity.
Qed.
End image.

(** The image lists its two files in the root directory. *)
Lemma img_flat file : flat (img_files file) [1; 2].
Proof.
  split_and!.
  - exists (set_data root_dir (dir_data [1; 2])). by split_and!.
  - repeat constructor; zeval.
  - repeat constructor; by eexists.
Qed.

Lemma img_find file :
  find_name (img_files file) [1; 2] Img.test_txt = Some 1 /\ find_name (img_files file) [1; 2] Img.hello = Some 2.
Proof.
  assert (N1 : file_name F1 = Img.test_txt) by (vm_compute; reflexivity).
  assert (N2 : forall c, file_name (set_data (new_file File Img.hello) c) = Img.hello) by (intros; vm_compute; reflexivity).
  assert (L1 : img_files file !! 1 = Some F1) by reflexivity.
  assert (L2 : img_files file !! 2 = Some (set_data (new_file File Img.hello) file)) by reflexivity.
  unfold find_name. cbn [find_index]. unfold has_name. rewrite L1, L2. cbn [fmap option_fmap option_map].
  rewrite N1, N2. split.
  - rewrite bool_decide_true by done. done.
  - rewrite bool_decide_false by done. rewrite bool_decide_true by done. done.
Qed.

(** The names [ls_root] lists. *)
Lemma img_ls {D} `{BlockDeviceLaws D} n fs (st : VFS.state (CacheManager.t D)) file fr :
  vfs_ok n fs st (img_files file) [1; 2] fr -> VFS.ls_root st = Ok ([SLASH] :: [Img.test_txt; Img.hello], st).
Proof.
  intros Hok. destruct (ls_root_ok n fs st _ _ fr Hok) as (rf & names & Hrf & E & Hn). rewrite E.
  assert (N0 : file_name (set_data root_dir (dir_data [1; 2])) = [SLASH]) by (vm_compute; reflexivity).
  assert (N1 : file_name F1 = Img.test_txt) by (vm_compute; reflexivity).
  assert (N2 : file_name (set_data (new_file File Img.hello) file) = Img.hello) by (vm_compute; reflexivity).
  assert (L0 : img_files file !! 0 = Some (set_data root_dir (dir_data [1; 2]))) by reflexivity.
  assert (L1 : img_files file !! 1 = Some F1) by reflexivity.
  assert (L2 : img_files file !! 2 = Some (set_data (new_file File Img.hello) file)) by reflexivity.
  rewrite L0 in Hrf. injection Hrf as <-. rewrite N0. do 3 f_equal.
  apply Forall2_cons_inv_l in Hn as (x & l & Hx & Hn & ->). apply Forall2_cons_inv_l in Hn as (y & l' & Hy & Hn & ->).
  apply Forall2_nil_inv_l in Hn as ->. rewrite L1 in Hx. rewrite L2 in Hy. cbn [fmap option_fmap option_map] in *.
  rewrite N1 in Hx. rewrite N2 in Hy. by injection Hx as <-; injection Hy as <-.
Qed.

(** The blocks of a disk. *)
Lemma disk_blocks d n v : Disk.rep d n v -> zlen (Disk.data d) = n.
Proof. by intros (_ & ? & _). Qed.
Lemma disk_all_ok d n v : Disk.rep d n v -> Forall block_ok (Disk.data d).
Proof.
  intros (_ & Hl & H). apply Forall_lookup_2. intros i b Hb. apply lookup_lt_Some in Hb as Hi.
  destruct (H (Z.of_nat i)) as [E Hok]; [lia|]. rewrite Nat2Z.id, Hb in E. by injection E as ->.
Qed.

(** The image holds both files. *)
Lemma img_contents size file :
  23 <= size <= 1000000000 -> Forall u8 file -> zlen file <= L4_MAX ->
  2 + need 0 (zlen file) <= data_count (img_fs size) ->
  exists img fs st, Img.create_img size (Some file) = Ok img /\ (zlen img = 2048 * size /\ Forall block_ok img) /\
    VFS.new 2 (Disk.mk (2048 * size) img) = Ok (fs, st) /\
    VFS.ls_root st = Ok ([SLASH] :: [Img.test_txt; Img.hello], st) /\
    (exists st', VFS.read_unstable fs (root_path Img.test_txt) st = Ok (inr Img.test_file, st')) /\
    (exists st', VFS.read_unstable fs (root_path Img.hello) st = Ok (inr file, st')).
Proof.
  intros Hs Hu Hm Hsp. destruct (create_img_disk size file Hs Hu Hm Hsp) as (d & v & own & E & Hrep & Hd).
  destruct (img_geometry size file Hs) as (geo & _).
  assert (Hdisk : Disk.mk (2048 * size) (Disk.data d) = d).
  { destruct d as [t l]. destruct Hrep as [Ht _]. cbn in Ht. unfold total in Ht. by rewrite <- Ht. }
  assert (Hdev : dev_rep d (total size) v) by exact Hrep.
  destruct (vfs_new_ok (total size) (img_fs size) d v _ own [1; 2] 0 geo Hdev Hd (img_flat file)) as (st & Enew & Hok & Hidle).
  destruct (img_find file) as [F1' F2'].
  exists (Disk.data d), (img_fs size), st. rewrite Hdisk. split_and!; [exact E|exact (disk_blocks d _ v Hrep)|exact (disk_all_ok d _ v Hrep)|exact Enew|..].
  - by apply (img_ls (total size) (img_fs size) st file _ Hok).
  - destruct (vfs_read_ok _ _ st _ _ _ Img.test_txt Hok) as (r & st' & Er & _ & _ & Hres);
      [apply (bool_decide_unpack _); by vm_compute|intros; by apply idle_available|].
    rewrite F1' in Hres. destruct Hres as (f & Hf & ->). exists st'. rewrite Er. do 3 f_equal. by injection Hf as <-.
  - destruct (vfs_read_ok _ _ st _ _ _ Img.hello Hok) as (r & st' & Er & _ & _ & Hres);
      [apply (bool_decide_unpack _); by vm_compute|intros; by apply idle_available|].
    rewrite F2' in Hres. destruct Hres as (f & Hf & ->). exists st'. rewrite Er. do 3 f_equal. by injection Hf as <-.
Qed.

(** ** What a client can rely on *)

(** C7: The image builder and the kernel's reader agree: for every size in megabytes
    from 23 on and every file that fits, [create_img] succeeds, and mounting the
    disk it wrote gives back "Test File" under /test.txt and the file under /hello. *)
Theorem create_img_readable size file :
  23 <= size <= 1000000000 -> Forall u8 file -> zlen file <= L4_MAX ->
  2 + need 0 (zlen file) <= data_count (img_fs size) ->
  exists img fs st, Img.create_img size (Some file) = Ok img /\
    VFS.new 2 (Disk.mk (2048 * size) img) = Ok (fs, st) /\
    (exists st', VFS.read_unstable fs (root_path Img.test_txt) st = Ok (inr Img.test_file, st')) /\
    (exists st', VFS.read_unstable fs (root_path Img.hello) st = Ok (inr file, st')).
Proof.
  intros Hs Hu Hm Hsp. destruct (img_contents size file Hs Hu Hm Hsp) as (img & fs & st & E & _ & En & _ & E1 & E2).
  by exists img, fs, st.
Qed.

Lemma create_img_readable_witness : exists img fs st, Img.create_img 50 (Some [104; 105]) = Ok img /\
  VFS.new 2 (Disk.mk (2048 * 50) img) = Ok (fs, st) /\
  (exists st', VFS.read_unstable fs (root_path Img.test_txt) st = Ok (inr Img.test_file, st')) /\
  (exists st', VFS.read_unstable fs (root_path Img.hello) st = Ok (inr [104; 105], st')).
Proof. apply (create_img_readable 50 [104; 105]); zeval. Defined.

(** Mounting a device with a flat file system ([VFS::new]): it returns, with an entry
    for every file of the root directory; a tree of depth two needs fuel two. *)
Theorem vfs_mount {D} `{BlockDeviceLaws D} n fs (dev : D) v files own nums fuel :
  geometry n fs -> dev_rep dev n v -> disk_ok fs v files own -> flat files nums ->
  exists st, VFS.new (S (S fuel)) dev = Ok (fs, st) /\ vfs_ok n fs st files nums (free fs v).
Proof. intros. destruct (vfs_new_ok n fs dev v files own nums fuel) as (st & ? & ? & _); try assumption. by exists st. Qed.

Lemma vfs_mount_witness : exists img fs st, Img.create_img 50 (Some []) = Ok img /\
  VFS.new 2 (Disk.mk (2048 * 50) img) = Ok (fs, st).
Proof.
  destruct (create_img_disk 50 []) as (d & v & own & E & Hrep & Hd); [zeval..|].
  destruct (vfs_mount (total 50) (img_fs 50) d v (img_files []) own [1; 2] 0) as (st & Enew & _).
  - apply (img_geometry 50 []). zeval.
  - exact Hrep.
  - exact Hd.
  - apply img_flat.
  - exists (Disk.data d), (img_fs 50), st. split; [exact E|]. destruct d as [t l]. destruct Hrep as [Ht _].
    cbn [Disk.total_blocks] in Ht. subst t. exact Enew.
Defined.

(** C34: the program of the image builder. Without an argument it builds an image of 50 MB,
    with one argument that is a decimal number, of that many; when rootfs/hello is there
    and fits, it ends with status 0 and cafs.bin holds the image, which mounts and gives
    the file back as /hello. With more arguments it ends with status 64 and writes
    nothing, and an argument that is not a number of 64 bits makes it panic. *)
Theorem img_main (program : list Z) (size : Z) file :
  23 <= size <= 1000000000 -> Forall u8 file -> zlen file <= L4_MAX -> 2 + need 0 (zlen file) <= data_count (img_fs size) ->
  (exists img fs st st', Img.main [program; decimal size] (Some file) true = Ok (Img.Ending 0 (Some img)) /\
    VFS.new 2 (Disk.mk (2048 * size) img) = Ok (fs, st) /\
    VFS.read_unstable fs (root_path Img.hello) st = Ok (inr file, st')) /\
  Img.main [program] (Some file) true = Img.main [program; decimal 50] (Some file) true /\
  Img.main [program; decimal size] (Some file) false = Ok (Img.Ending 1 None) /\
  (forall a b args f w, Img.main (program :: a :: b :: args) f w = Ok (Img.Ending 64 None)) /\
  (forall a f w, from_str_radix 10 a = None -> Img.main [program; a] f w = Fault (Panic PExpect)).
Proof.
  intros Hs Hu Hm Hsp. destruct (img_contents size file Hs Hu Hm Hsp) as (img & fs & st & E & _ & Enew & _ & _ & (st' & Er)).
  assert (Ed : forall n f w, u64 n -> Img.main [program; decimal n] f w = Img.build n f w).
  { intros n f w Hn. unfold Img.main. change (2 <? zlen [program; decimal n]) with false.
    change (zlen [program; decimal n] =? 2) with true. cbn [lookup list_lookup unwrap]. omon.
    unfold decimal. rewrite from_str_radix_digits by (done || lia). cbn [unwrap]. omon. reflexivity. }
  split_and!.
  - exists img, fs, st, st'. rewrite Ed by (unfold u64, U64; lia). unfold Img.build. rewrite E. done.
  - rewrite Ed by (unfold u64, U64; lia). unfold Img.main. change (2 <? zlen [program]) with false.
    change (zlen [program] =? 2) with false. cbn iota. reflexivity.
  - rewrite Ed by (unfold u64, U64; lia). unfold Img.build. rewrite E. done.
  - intros a b args f w. unfold Img.main. rewrite (proj2 (Z.ltb_lt _ _)); [done|]. cbn [length]. lia.
  - intros a f w Ha. unfold Img.main. cbn [length lookup list_lookup unwrap]. change (2 <? zlen [program; a]) with false.
    change (zlen [program; a] =? 2) with true. cbn iota. omon. by rewrite Ha.
Qed.

Lemma img_main_witness : exists img fs st st', Img.main [[99]; decimal 50] (Some [104; 105]) true = Ok (Img.Ending 0 (Some img)) /\
  VFS.new 2 (Disk.mk (2048 * 50) img) = Ok (fs, st) /\
  VFS.read_unstable fs (root_path Img.hello) st = Ok (inr [104; 105], st').
Proof. apply (img_main [99] 50 [104; 105]); zeval. Defined.
