(* ===== verification/Components.v ===== *)
(** What the parts of the file system promise each other, stated on the block cache of
    any block device: the cache itself, the bitmaps, the inode records with their index
    blocks, the encodings on the disk, and paths. *)
From S2P Require Import Prelude Device Block Manager Bitmap Layout Index Resize InodeNumber Utf8 Cafs Vfs Contents Files Inodes Directory Mount Paths Errors FileSystem.
From Stdlib Require Import ZArith Lia.
From stdpp Require Import gmap functions sorting list_numbers list.
Local Open Scope Z_scope.

(** A cache for the witnesses: an empty one, on a disk of zeros. *)
Definition fresh_cache : CacheManager.t Disk.t := CacheManager.new (Disk.new 16390).
Definition zeros (_ : Z) : list Z := zero_block.

Lemma fresh_crep : CacheManager.crep 16390 fresh_cache zeros [].
Proof. apply CacheManager.new_crep, Disk.new_rep. lia. Qed.

(** A whole block as a value. *)
Lemma peek_data blk : block_ok blk -> bytes (peek DataBlock 0 blk) = blk.
Proof.
  intros [Hl _]. unfold peek. cbn [of_bytes DataBlock_repr size_of bytes].
  change (Z.to_nat 0) with 0%nat. rewrite drop_0, take_ge; [done|]. unfold BLOCK_SIZE in *. lia.
Qed.
Lemma poke_data blk x : block_ok blk -> block_ok x -> poke 0 {| bytes := x |} blk = x.
Proof.
  intros [Hl _] [Hx _]. unfold poke, splice. cbn [to_bytes DataBlock_repr bytes].
  change (Z.to_nat 0) with 0%nat. rewrite take_0, app_nil_l, Nat.add_0_l, drop_ge, app_nil_r; [done|]. unfold BLOCK_SIZE in *. lia.
Qed.

(** ** The block cache *)

(** C29: Read your writes: after a block was replaced through the cache, every block reads
    as it should, whatever was evicted on the way, and the cache stays within its bound. *)
Theorem cache_read_your_writes {D} `{BlockDeviceLaws D} n (c : CacheManager.t D) v b blk :
  CacheManager.crep n c v [] -> 0 <= b < n -> block_ok blk ->
  exists c1, modify_at DataBlock b 0 (fun _ => mret (tt, {| bytes := blk |})) c = Ok (tt, c1) /\
    forall b', 0 <= b' < n -> exists c2, read_at DataBlock b' 0 (fun x => mret (bytes x)) c1 =
        Ok (if decide (b' = b) then blk else v b', c2) /\ (length (CacheManager.queue c2) <= CACHE_SIZE)%nat.
Proof.
  intros Hc Hb Hblk. assert (Hr : rep n c v []) by exact Hc.
  assert (Hm : spec n (modify_at DataBlock b 0 (fun _ => mret (tt, {| bytes := blk |}))) v []
    (fun _ v' => forall b', v' b' = if decide (b' = b) then blk else v b')).
  { apply spec_blocks. intros Hv. apply (spec_modify_at DataBlock); [done|by apply not_elem_of_nil|unfold CACHE_SIZE; simpl; lia|done|done|].
    apply spec_ret. split; [exact Hblk|]. intros b'. rewrite poke_data by auto.
    case_decide as E; [subst; apply fn_lookup_insert|by apply fn_lookup_insert_ne]. }
  destruct (Hm c Hr) as ([] & c1 & v1 & E1 & R1 & _ & Hv1). exists c1. split; [exact E1|]. intros b' Hb'.
  assert (Hrd : spec n (read_at DataBlock b' 0 (fun x => mret (bytes x))) v1 [] (fun r _ => r = v1 b')).
  { apply spec_blocks. intros Hv. apply (spec_read_at DataBlock); [done|by apply not_elem_of_nil|unfold CACHE_SIZE; simpl; lia|done|done|].
    apply spec_ret. by rewrite peek_data by auto. }
  destruct (Hrd c1 R1) as (r & c2 & v2 & E2 & [_ (dv & Hinv & _)] & _ & ->). rewrite Hv1 in E2.
  exists c2. split; [exact E2|]. apply Hinv.
Qed.

Lemma cache_read_your_writes_witness : exists c1,
  modify_at DataBlock 7 0 (fun _ => mret (tt, {| bytes := full_block |})) fresh_cache = Ok (tt, c1) /\
  (exists c2, read_at DataBlock 7 0 (fun x => mret (bytes x)) c1 = Ok (full_block, c2)) /\
  (exists c2, read_at DataBlock 8 0 (fun x => mret (bytes x)) c1 = Ok (zero_block, c2)).
Proof.
  destruct (cache_read_your_writes 16390 fresh_cache zeros 7 full_block) as (c1 & E & Hr).
  - exact fresh_crep.
  - zeval.
  - split; [reflexivity|]. apply Forall_replicate. zeval.
  - exists c1. split_and!; [exact E|..].
    + destruct (Hr 7) as (c2 & E2 & _); [zeval|]. exists c2. exact E2.
    + destruct (Hr 8) as (c2 & E2 & _); [zeval|]. exists c2. exact E2.
Defined.

(** [CacheManager::flush], when no block is in use, returns and leaves the device with
    exactly the contents the cache showed; nothing cached is marked modified any more. *)
Theorem cache_flush {D} `{BlockDeviceLaws D} n (c : CacheManager.t D) v : CacheManager.crep n c v [] ->
  exists c', CacheManager.flush c = Ok (tt, c') /\ CacheManager.crep n c' v [] /\
    dev_rep (CacheManager.block_device c') n v /\
    Forall (fun x => Cache.modified x.2 = false) (CacheManager.queue c').
Proof. apply CacheManager.flush_crep. Qed.

Lemma cache_flush_witness : exists c', CacheManager.flush fresh_cache = Ok (tt, c') /\
  dev_rep (CacheManager.block_device c') 16390 zeros.
Proof.
  destruct (cache_flush 16390 fresh_cache zeros fresh_crep) as (c' & E & _ & Hd & _). exists c'. split; [exact E|exact Hd].
Defined.

(** When 32 blocks are in use, they are the ones in the queue. *)
Lemma all_held {D} `{BlockDeviceLaws D} n (c : CacheManager.t D) v h : CacheManager.crep n c v h ->
  NoDup h.*1 -> length h = CACHE_SIZE ->
  length (CacheManager.queue c) = CACHE_SIZE /\ (CacheManager.queue c).*1 ≡ₚ h.*1.
Proof.
  intros [<- (dv & Hinv & _)] Hnd Hl.
  assert (Hsub : (CacheManager.held c).*1 ⊆+ (CacheManager.queue c).*1).
  { apply NoDup_submseteq; [done|]. intros b Hb. apply CacheManager.entry_is_Some. by apply (CacheManager.inv_held _ _ _ Hinv). }
  pose proof (submseteq_length _ _ Hsub) as Hlen. rewrite !length_fmap in Hlen.
  pose proof (CacheManager.inv_len _ _ _ Hinv) as Hle. split; [lia|].
  symmetry. apply submseteq_length_Permutation; [done|]. rewrite !length_fmap. lia.
Qed.

(** A cache whose 32 blocks are all in use cannot give out another one: [get] panics
    with "Run out of BlockCache!". A block that is being written cannot be locked again
    by the same thread: it deadlocks. *)
Theorem cache_exhausted {D} `{BlockDeviceLaws D} {A} n (c : CacheManager.t D) v h b (k : Cache.t -> M (CacheManager.t D) A) :
  CacheManager.crep n c v h -> 
  (NoDup h.*1 -> length h = CACHE_SIZE -> b ∉ h.*1 -> with_read b k c = Fault (Panic PBlockCache)) /\
  ((b, Wr) ∈ h -> with_read b k c = Fault Deadlock).
Proof.
  intros Hc. split.
  - intros Hnd Hl Hb. destruct (all_held n c v h Hc Hnd Hl) as [Hq Hp]. destruct Hc as [<- _].
    cbn. unfold CacheManager.with_read, mbind, M_bind, CacheManager.get.
    assert (E : CacheManager.entry b (CacheManager.queue c) = None) by (apply CacheManager.entry_None; by rewrite Hp).
    rewrite E. unfold CacheManager.substitute. rewrite decide_True by done.
    rewrite (proj2 (find_index_None _ _)); [done|]. apply Forall_forall. intros [b' c'] Hin.
    apply bool_decide_eq_false_2. rewrite CacheManager.strong_count_1. cbn. intros Hn. apply Hn. rewrite <- Hp.
    apply list_elem_of_fmap. by exists (b', c').
  - intros Hw. destruct Hc as [<- (dv & Hinv & _)]. cbn. unfold CacheManager.with_read, mbind, M_bind, CacheManager.get.
    destruct (CacheManager.inv_held _ _ _ Hinv b) as [c' E]; [apply list_elem_of_fmap; by exists (b, Wr)|].
    rewrite E. unfold CacheManager.read_guard. by rewrite bool_decide_eq_true_2.
Qed.

(** Any number of blocks up to 32 can be in use. *)
Lemma hold_many k : (k <= 32)%nat -> exists c : CacheManager.t Disk.t,
  CacheManager.crep 16390 c zeros ((fun i => (i, Rd)) <$> reverse (seqZ 0 (Z.of_nat k))).
Proof.
  induction k as [|k IH]; intros Hk; [exists fresh_cache; exact fresh_crep|].
  destruct IH as [c Hc]; [lia|]. rewrite seqZ_S, reverse_app. cbn [reverse rev_append app fmap list_fmap].
  destruct (CacheManager.get_spec 16390 (0 + Z.of_nat k) c zeros _ Hc) as (c' & _ & Hc' & _ & He); [lia| |].
  - rewrite length_fmap, length_reverse, length_seqZ. unfold CACHE_SIZE. lia.
  - eexists. by apply CacheManager.crep_hold.
Qed.

Lemma cache_exhausted_witness : exists c : CacheManager.t Disk.t,
  with_read (A := unit) 100 (fun _ => mret tt) c = Fault (Panic PBlockCache).
Proof.
  destruct (hold_many 32 ltac:(lia)) as [c Hc]. exists c.
  apply (cache_exhausted 16390 c zeros _ 100 (fun _ => mret tt) Hc).
  - apply (bool_decide_unpack _). vm_compute. exact I.
  - reflexivity.
  - apply (bool_decide_unpack _). vm_compute. exact I.
Defined.

(** ** Bitmaps *)

(** [Bitmap::alloc] returns the lowest clear bit and sets exactly that one, touching
    no other block; it returns nothing, and changes nothing, only when all bits are set. *)
Theorem bitmap_alloc {D} `{BlockDeviceLaws D} n (c : CacheManager.t D) v h self :
  CacheManager.crep n c v h -> Bitmap.ok n self -> Bitmap.unheld self h -> (length h < CACHE_SIZE)%nat ->
  exists r c' v', Bitmap.alloc self c = Ok (r, c') /\ CacheManager.crep n c' v' h /\
  match r with
  | Some i => 0 <= i < Bitmap.blocks self * BLOCK_BITS /\ Bitmap.bit self v i = false /\
      (forall j, 0 <= j < i -> Bitmap.bit self v j = true) /\
      (forall j, 0 <= j < Bitmap.blocks self * BLOCK_BITS -> Bitmap.bit self v' j = (j =? i) || Bitmap.bit self v j) /\
      (forall b, b <> Bitmap.start_block_id self + i / BLOCK_BITS -> v' b = v b)
  | None => (forall b, v' b = v b) /\
      forall j, 0 <= j < Bitmap.blocks self * BLOCK_BITS -> Bitmap.bit self v j = true
  end.
Proof.
  intros Hc Hok Hun Hl. assert (Hr : rep n c v h) by exact Hc.
  destruct (Bitmap.alloc_correct self v h Hok Hun Hl c Hr) as (r & c' & v' & E & R & _ & Hp). by exists r, c', v'.
Qed.

Definition small_bitmap : Bitmap.t := Bitmap.new 1 2.

Lemma small_bitmap_ok : Bitmap.ok 16390 small_bitmap.
Proof. split; zeval. Qed.

Lemma no_unheld self : Bitmap.unheld self [].
Proof. intros b _. apply not_elem_of_nil. Qed.

Lemma bitmap_alloc_witness : exists r c', Bitmap.alloc small_bitmap fresh_cache = Ok (r, c') /\ r <> None.
Proof.
  destruct (bitmap_alloc 16390 fresh_cache zeros [] small_bitmap) as (r & c' & v' & E & _ & Hr).
  - exact fresh_crep.
  - exact small_bitmap_ok.
  - apply no_unheld.
  - unfold CACHE_SIZE. simpl. lia.
  - exists r, c'. split; [exact E|]. intros ->. destruct Hr as [_ Hr]. specialize (Hr 0). vm_compute in Hr.
    discriminate Hr. split; [discriminate|reflexivity].
Defined.

(** [Bitmap::dealloc] clears exactly the given bit, touching no other block, when the
    bit is set; when it is clear, the assertion fails. *)
Theorem bitmap_dealloc {D} `{BlockDeviceLaws D} n (c : CacheManager.t D) v h self i :
  CacheManager.crep n c v h -> Bitmap.ok n self -> Bitmap.unheld self h -> (length h < CACHE_SIZE)%nat ->
  0 <= i < Bitmap.blocks self * BLOCK_BITS ->
  if Bitmap.bit self v i then
    exists c' v', Bitmap.dealloc self i c = Ok (tt, c') /\ CacheManager.crep n c' v' h /\
      (forall j, 0 <= j -> Bitmap.bit self v' j = if decide (j = i) then false else Bitmap.bit self v j) /\
      (forall b, b <> Bitmap.start_block_id self + i / BLOCK_BITS -> v' b = v b)
  else Bitmap.dealloc self i c = Fault (Panic PAssert).
Proof.
  intros Hc Hok Hun Hl Hi. assert (Hr : rep n c v h) by exact Hc. destruct (Bitmap.bit self v i) eqn:Eb.
  - destruct (Bitmap.dealloc_correct self v h i Hok Hun Hl Hi Eb c Hr) as ([] & c' & v' & E & R & _ & [Hp Hq]).
    exists c', v'. by split_and!.
  - exact (Bitmap.dealloc_clear self v h i Hok Hun Hl Hi Eb c Hr).
Qed.

Lemma bitmap_dealloc_witness : Bitmap.dealloc small_bitmap 4100 fresh_cache = Fault (Panic PAssert).
Proof.
  apply (bitmap_dealloc 16390 fresh_cache zeros [] small_bitmap 4100).
  - exact fresh_crep.
  - exact small_bitmap_ok.
  - apply no_unheld.
  - unfold CACHE_SIZE. simpl. lia.
  - zeval.
Defined.

(** C30: [Bitmap::free_count] returns the number of clear bits and changes nothing. *)
Theorem bitmap_free_count {D} `{BlockDeviceLaws D} n (c : CacheManager.t D) v h self :
  CacheManager.crep n c v h -> Bitmap.ok n self -> Bitmap.unheld self h -> (length h < CACHE_SIZE)%nat ->
  exists c', CacheManager.crep n c' v h /\ Bitmap.free_count self c =
    Ok (zlen (filter (fun i => Bitmap.bit self v i = false) (seqZ 0 (Bitmap.blocks self * BLOCK_BITS))), c').
Proof.
  intros Hc Hok Hun Hl. assert (Hr : rep n c v h) by exact Hc.
  destruct (Bitmap.free_count_correct self v h Hok Hun Hl c Hr) as (r & c' & v' & E & R & _ & -> & ->).
  exists c'. split; [exact R|]. rewrite E. do 2 f_equal. rewrite cnt_filter.
  rewrite Z2Nat.id by (pose proof (Bitmap.ok_blocks _ _ Hok); unfold BLOCK_BITS, BLOCK_SIZE; lia).
  do 2 f_equal. apply list_filter_iff. intros i. by rewrite negb_true_iff.
Qed.

Lemma bitmap_free_count_witness : exists c', Bitmap.free_count small_bitmap fresh_cache = Ok (8192, c').
Proof.
  destruct (bitmap_free_count 16390 fresh_cache zeros [] small_bitmap) as (c' & _ & E).
  - exact fresh_crep.
  - exact small_bitmap_ok.
  - apply no_unheld.
  - unfold CACHE_SIZE. simpl. lia.
  - exists c'. rewrite E. apply (f_equal (fun x => Ok (x, c'))). vm_compute. reflexivity.
Defined.

(** ** Inode records and their index blocks *)

(** C28: For every file size up to the maximum, [Meta::index_blocks] returns the smallest
    index tree: no index blocks up to 36 blocks of data, otherwise one root of the least
    level that suffices, and on each level below just enough blocks of 63 entries. *)
Theorem index_blocks_minimal s : 0 <= s <= L4_MAX ->
  exists info, Meta.index_blocks s = Ok info /\ level_shape s info.
Proof. apply index_blocks_shape. Qed.

Lemma index_blocks_minimal_witness : exists info, Meta.index_blocks 10000000 = Ok info /\
  info = LevelInfo.mk 0 1 5 310 36.
Proof.
  destruct (index_blocks_minimal 10000000) as (info & E & _); [zeval|]. exists info. split; [exact E|].
  vm_compute in E. by injection E as <-.
Defined.

(** Finding the blocks of a file: [Meta::blocks] returns its index blocks (sorted) and
    its data blocks in file order, and [Meta::get_block_id] returns the block at a
    position, or nothing beyond the end. Neither changes anything. *)
Theorem meta_lookup {D} `{BlockDeviceLaws D} n (c : CacheManager.t D) v h m index data i :
  CacheManager.crep n c v h -> inode_ok v m index data -> readable (n := n) h index ->
  (length h + 3 < CACHE_SIZE)%nat -> 0 <= i ->
  (exists c', Meta.blocks m c = Ok ((merge_sort Z.le index, data), c') /\ CacheManager.crep n c' v h) /\
  (exists c', Meta.get_block_id m i c = Ok (data !! Z.to_nat i, c') /\ CacheManager.crep n c' v h).
Proof.
  intros Hc [Hm Hs Hd _ _ _] Hrd Hl Hi. assert (Hr : rep n c v h) by exact Hc. split.
  - destruct (blocks_spec m index data v h Hm Hrd Hl c Hr) as (r & c' & v' & E & R & _ & -> & ->). by exists c'.
  - destruct (get_block_id_spec m index data v h i Hm Hrd Hl Hs Hd Hi c Hr) as (r & c' & v' & E & R & _ & -> & ->). by exists c'.
Qed.

Lemma meta_lookup_witness :
  (exists c', Meta.blocks one_block fresh_cache = Ok (([], [4101]), c')) /\
  (exists c', Meta.get_block_id one_block 0 fresh_cache = Ok (Some 4101, c')).
Proof.
  destruct (meta_lookup 16390 fresh_cache zeros [] one_block [] [4101] 0) as [(c1 & E1 & _) (c2 & E2 & _)].
  - exact fresh_crep.
  - apply one_block_ok.
  - constructor.
  - unfold CACHE_SIZE. simpl. lia.
  - zeval.
  - split; [exists c1; exact E1|exists c2; exact E2].
Defined.

(** C27: [Meta::extend] with fresh blocks appends the new data blocks to the file and
    rebuilds its index over the old and the new index blocks; only index blocks of the
    file are written, and its type and name stay. *)
Theorem meta_extend {D} `{BlockDeviceLaws D} n (c : CacheManager.t D) v h m index data new_size info new_data new_index :
  CacheManager.crep n c v h -> n <= U64 -> inode_ok v m index data -> Meta.size m <= new_size <= L4_MAX ->
  Meta.index_blocks new_size = Ok info ->
  zlen (data ++ new_data) = cdiv new_size 512 -> zlen (index ++ new_index) = index_count info ->
  NoDup ((index ++ new_index) ++ (data ++ new_data)) -> writable (n := n) h (index ++ new_index) ->
  Forall (fun x => 0 < x < U64) new_data -> (length h + 3 < CACHE_SIZE)%nat ->
  exists m' c' v', Meta.extend m new_size info new_data new_index c = Ok (m', c') /\ CacheManager.crep n c' v' h /\
    inode_ok v' m' (index ++ new_index) (data ++ new_data) /\ Meta.size m' = new_size /\
    Meta.type_ m' = Meta.type_ m /\ Meta.name m' = Meta.name m /\
    forall b, b ∉ index ++ new_index -> v' b = v b.
Proof.
  intros Hc. assert (Hr : rep n c v h) by exact Hc. intros.
  destruct (extend_spec (n := n) m index data new_size info new_data new_index v h) with (st := c)
    as (m' & c' & v' & E & R & _ & Hp); try assumption. by exists m', c', v'.
Qed.

Lemma meta_extend_witness : exists m' c',
  Meta.extend one_block 1000 (LevelInfo.mk 0 0 0 0 2) [4200] [] fresh_cache = Ok (m', c') /\ Meta.size m' = 1000.
Proof.
  destruct (meta_extend 16390 fresh_cache zeros [] one_block [] [4101] 1000 (LevelInfo.mk 0 0 0 0 2) [4200] [])
    as (m' & c' & v' & E & _ & _ & Hs & _).
  - exact fresh_crep.
  - zeval.
  - apply one_block_ok.
  - zeval.
  - reflexivity.
  - reflexivity.
  - reflexivity.
  - apply (bool_decide_unpack _). vm_compute. exact I.
  - constructor.
  - repeat constructor; zeval.
  - unfold CACHE_SIZE. simpl. lia.
  - exists m', c'. split; [exact E|exact Hs].
Defined.

(** [Meta::shrink] keeps the first data blocks of the file with an index over them,
    and returns exactly the index and data blocks that are no longer used. *)
Theorem meta_shrink {D} `{BlockDeviceLaws D} n (c : CacheManager.t D) v h m index data new_size :
  CacheManager.crep n c v h -> n <= U64 -> inode_ok v m index data -> 0 <= new_size <= Meta.size m ->
  writable (n := n) h index -> (length h + 3 < CACHE_SIZE)%nat ->
  exists index_ids data_ids m' c' v' index' data',
    Meta.shrink m new_size c = Ok (((index_ids, data_ids), m'), c') /\ CacheManager.crep n c' v' h /\
    index ≡ₚ index' ++ index_ids /\ data = data' ++ reverse data_ids /\
    inode_ok v' m' index' data' /\ Meta.size m' = new_size /\
    Meta.type_ m' = Meta.type_ m /\ Meta.name m' = Meta.name m /\
    forall b, b ∉ index' -> v' b = v b.
Proof.
  intros Hc. assert (Hr : rep n c v h) by exact Hc. intros.
  destruct (shrink_spec (n := n) m index data new_size v h) with (st := c)
    as ([[iids dids] m'] & c' & v' & E & R & _ & index' & data' & Hp); try assumption.
  by exists iids, dids, m', c', v', index', data'.
Qed.

Lemma meta_shrink_witness : exists m' c',
  Meta.shrink one_block 0 fresh_cache = Ok ((([], [4101]), m'), c') /\ Meta.size m' = 0.
Proof.
  destruct (meta_shrink 16390 fresh_cache zeros [] one_block [] [4101] 0)
    as (iids & dids & m' & c' & v' & index' & data' & E & _ & Hi & Hd & Hm & Hs & _).
  - exact fresh_crep.
  - zeval.
  - apply one_block_ok.
  - zeval.
  - constructor.
  - unfold CACHE_SIZE. simpl. lia.
  - exists m', c'. split; [|exact Hs]. apply Permutation_nil_l in Hi. symmetry in Hi.
    apply app_nil in Hi as [_ ->]. assert (data' = []) as ->.
    { pose proof (io_data _ _ _ _ Hm) as Hl. rewrite Hs in Hl. destruct data'; [reflexivity|discriminate Hl]. }
    rewrite app_nil_l in Hd. assert (dids = [4101]) as ->; [|exact E].
    rewrite <- (reverse_involutive dids), <- Hd. reflexivity.
Defined.

(** [Meta::clear_size] returns all the blocks of the file, which owns none afterwards
    and has size zero; its type and name stay, and nothing is written. *)
Theorem meta_clear_size {D} `{BlockDeviceLaws D} n (c : CacheManager.t D) v h m index data ty :
  CacheManager.crep n c v h -> inode_ok v m index data -> InodeType_of (Meta.type_ m) = Ok ty ->
  writable (n := n) h index -> length (Meta.direct m) = 36%nat -> (length h + 3 < CACHE_SIZE)%nat ->
  exists ids m' c', Meta.clear_size m c = Ok ((ids, m'), c') /\ CacheManager.crep n c' v h /\
    ids ≡ₚ index ++ data /\ inode_ok v m' [] [] /\ Meta.size m' = 0 /\
    Meta.type_ m' = Meta.type_ m /\ Meta.name m' = Meta.name m.
Proof.
  intros Hc. assert (Hr : rep n c v h) by exact Hc. intros.
  destruct (clear_size_spec (n := n) m index data v h ty) with (st := c)
    as ([ids m'] & c' & v' & E & R & _ & -> & Hp); try assumption. by exists ids, m', c'.
Qed.

Lemma meta_clear_size_witness : exists m' c', Meta.clear_size one_block fresh_cache = Ok (([4101], m'), c') /\ Meta.size m' = 0.
Proof.
  destruct (meta_clear_size 16390 fresh_cache zeros [] one_block [] [4101] File) as (ids & m' & c' & E & _ & Hp & _ & Hs & _).
  - exact fresh_crep.
  - apply one_block_ok.
  - reflexivity.
  - constructor.
  - reflexivity.
  - unfold CACHE_SIZE. simpl. lia.
  - exists m', c'. split; [|exact Hs]. apply Permutation_singleton_r in Hp as ->. exact E.
Defined.

(** ** Encodings *)

(** The records on the disk survive storing and loading: an inode record, an index
    block and a super block read back as they were stored, and the block stays a block. *)
Theorem records_roundtrip blk : block_ok blk ->
  (forall m, wf m -> peek Meta.t 0 (poke 0 m blk) = m /\ block_ok (poke 0 m blk)) /\
  (forall x, wf x -> peek IndirectBlock.t 0 (poke 0 x blk) = x /\ block_ok (poke 0 x blk)) /\
  (forall s, wf s -> peek SuperBlock.t 0 (poke 0 s blk) = s /\ block_ok (poke 0 s blk)).
Proof. intros Hb. split_and!; intros y Hy; (split; [by apply peek_poke|by apply poke_ok]). Qed.

Lemma records_roundtrip_witness :
  peek Meta.t 0 (poke 0 one_block zero_block) = one_block /\ block_ok (poke 0 one_block zero_block).
Proof.
  apply (records_roundtrip zero_block zero_block_ok). cbn [wf Meta_laws]. unfold one_block, u64.
  cbn [Meta.size Meta.direct Meta.indirect Meta.type_ Meta.name]. split_and!; try reflexivity; try zeval.
Defined.

(** [inode_number_binary] encodes every 64-bit inode number into ten bytes without a
    zero byte, so that zero separates directory entries, and [inode_number_from] decodes
    them to the number. *)
Theorem inode_number_roundtrip x : u64 x ->
  exists arr, inode_number_binary x = Ok arr /\ length arr = 10%nat /\ Forall (fun b => 0 < b < 256) arr /\
    inode_number_from arr = x.
Proof.
  intros Hx. exists (encode_number x). rewrite binary_eq, length_encode_number.
  split_and!; [done|done|apply encode_number_nonzero|by apply number_roundtrip].
Qed.

Lemma inode_number_roundtrip_witness : exists arr, inode_number_binary 65537 = Ok arr /\ inode_number_from arr = 65537.
Proof. destruct (inode_number_roundtrip 65537) as (arr & E & _ & _ & Er); [split; zeval|]. exists arr. split; [exact E|exact Er]. Defined.

(** [parse_path] splits an absolute path into its directories and its name, and panics
    on a path without a slash. *)
Theorem parse_path_correct parents name path : Forall (fun d => SLASH ∉ d) parents -> SLASH ∉ name -> SLASH ∉ path ->
  VFS.parse_path (full_path parents name) = Ok (Path.mk parents name) /\
  VFS.parse_path path = Fault (Panic PUnwrap).
Proof. intros Hp Hn Hr. split; [by apply parse_full_path|by apply parse_relative]. Qed.

Lemma parse_path_correct_witness :
  VFS.parse_path [47; 97; 47; 98; 99] = Ok (Path.mk [[97]] [98; 99]) /\ VFS.parse_path [98] = Fault (Panic PUnwrap).
Proof.
  apply (parse_path_correct [[97]] [98; 99] [98]).
  - apply (bool_decide_unpack _). vm_compute. exact I.
  - apply (bool_decide_unpack _). vm_compute. exact I.
  - apply (bool_decide_unpack _). vm_compute. exact I.
Defined.
