(* ===== verification/Frame.v ===== *)
(** The physical memory of the kernel: the frame allocator of
    kernel/src/memory/frame.rs and the DMA buffers of kernel/src/drivers/provider.rs
    on top of it. *)
From S2P Require Import Prelude.
From Stdlib Require Import ZArith Lia.
From stdpp Require Import gmap functions sorting list_numbers list.
Local Open Scope Z_scope.

(** ** Frames *)

(** Physical addresses have 52 bits and frames 4096 bytes. *)
Definition PAGE_SIZE : Z := Z.shiftl 1 12.
Definition FRAMES : Z := 2 ^ 40.

(** What the code uses of [PhysFrame], [PhysAddr] and [VirtAddr] of the x86_64 crate;
    addresses are their [u64] values. *)
Class PhysFrame (F : Type) := {
  phys_new : Z -> outcome Z;
  virt_new : Z -> outcome Z;
  frame_add : F -> Z -> outcome F;
  frame_sub : F -> Z -> outcome F;
  frame_eqb : F -> F -> bool;
  frame_ltb : F -> F -> bool;
  start_address : F -> Z;
  containing_address : Z -> outcome F
}.

(** Addresses whose upper bits repeat bit 47, as [VirtAddr::new] demands. *)
Definition canonical_address (a : Z) : Prop := 0 <= a < 2 ^ 47 \/ U64 - 2 ^ 47 <= a < U64.

(** Its documented behaviour: frames are numbered, they are compared by their number,
    and arithmetic within the physical address space does not fail. *)
Class PhysFrameLaws (F : Type) `{PhysFrame F} := {
  phys_new_ok a : 0 <= a < FRAMES * PAGE_SIZE -> phys_new a = Ok a;
  phys_new_high a : FRAMES * PAGE_SIZE <= a -> exists p, phys_new a = Fault (Panic p);
  virt_new_ok a : canonical_address a -> virt_new a = Ok a;
  number : F -> Z;
  number_inj f g : number f = number g -> f = g;
  frame_add_ok f k : 0 <= number f -> 0 <= k -> number f + k < FRAMES ->
    exists g, frame_add f k = Ok g /\ number g = number f + k;
  frame_sub_ok f k : number f < FRAMES -> 0 <= k <= number f ->
    exists g, frame_sub f k = Ok g /\ number g = number f - k;
  frame_eqb_eq f g : frame_eqb f g = (number f =? number g);
  frame_ltb_eq f g : frame_ltb f g = (number f <? number g);
  start_address_eq f : start_address f = number f * PAGE_SIZE;
  containing_address_eq a : 0 <= a < FRAMES * PAGE_SIZE ->
    exists f, containing_address a = Ok f /\ number f = a / PAGE_SIZE
}.

(** Frames as their numbers. *)
#[export] Instance Z_frame : PhysFrame Z := {|
  phys_new a := if a <? FRAMES * PAGE_SIZE then Ok a else Fault (Panic PExpect);
  virt_new a := if (a <? 2 ^ 47) || (U64 - 2 ^ 47 <=? a) then Ok a else Fault (Panic PExpect);
  frame_add f k := if f + k <? FRAMES then Ok (f + k) else Fault (Panic POverflow);
  frame_sub f k := if k <=? f then Ok (f - k) else Fault (Panic POverflow);
  frame_eqb := Z.eqb;
  frame_ltb := Z.ltb;
  start_address f := f * PAGE_SIZE;
  containing_address a := if a <? FRAMES * PAGE_SIZE then Ok (a / PAGE_SIZE) else Fault (Panic POverflow)
|}.

#[export] Program Instance Z_frame_laws : PhysFrameLaws Z := {| number f := f |}.
Next Obligation. intros a [? Ha]. cbn [phys_new Z_frame]. by rewrite (proj2 (Z.ltb_lt _ _)). Qed.
Next Obligation. intros a Ha. cbn [phys_new Z_frame]. rewrite (proj2 (Z.ltb_ge _ _)) by done. by eexists. Qed.
Next Obligation.
  intros a [[? Ha]|[Ha ?]]; cbn [virt_new Z_frame]; [by rewrite (proj2 (Z.ltb_lt _ _))|].
  rewrite (proj2 (Z.leb_le _ _)) by done. by rewrite orb_true_r.
Qed.
Next Obligation. done. Qed.
Next Obligation. intros f k ? ? Hk. exists (f + k). cbn. by rewrite (proj2 (Z.ltb_lt _ _)). Qed.
Next Obligation. intros f k ? [? Hk]. exists (f - k). cbn. by rewrite (proj2 (Z.leb_le _ _)). Qed.
Next Obligation. done. Qed.
Next Obligation. done. Qed.
Next Obligation. done. Qed.
Next Obligation. intros a [? Ha]. exists (a / PAGE_SIZE). cbn [containing_address Z_frame]. by rewrite (proj2 (Z.ltb_lt _ _)). Qed.

(** ** [MemoryRange] and [FrameAllocator] *)
Module MemoryRange.
Record t (F : Type) := mk { start : F; pages : Z }.
Arguments mk {F}.
Arguments start {F}.
Arguments pages {F}.

Definition end_frame {F} `{PhysFrame F} (self : t F) : outcome F :=
  x ← frame_add (start self) (pages self); frame_sub x 1.
End MemoryRange.

(** [as i32] and [as usize]. *)
Definition as_i32 (x : Z) : Z := (x + 2 ^ 31) mod 2 ^ 32 - 2 ^ 31.
Definition as_usize (x : Z) : Z := x mod U64.

Module FrameAllocator.
Section allocator.
Context {F : Type} `{PhysFrame F}.
Abbreviation range := (MemoryRange.t F).

Record t := mk { segments : list range }.

Definition new (vec : list range) : t := mk vec.

Definition allocate : M t (option F) := fun self =>
  match segments self with
  | [] => Ok (None, self)
  | seg :: rest =>
      let addr := MemoryRange.start seg in
      if MemoryRange.pages seg =? 1 then Ok (Some addr, mk rest)
      else
        start ← frame_add (MemoryRange.start seg) 1;
        pages ← sub64 (MemoryRange.pages seg) 1;
        Ok (Some addr, mk (MemoryRange.mk start pages :: rest))
  end.

(** [Frame]: a frame that is given back when it is dropped. *)
Record Frame := mk_frame { phys_frame : F }.

Definition allocate_frame : M t (option Frame) :=
  phys_frame ← allocate; mret (mk_frame <$> phys_frame).

Definition alloc_range (pages : Z) : M t (option F) := fun self =>
  match find_index (fun seg => pages <=? MemoryRange.pages seg) (segments self) with
  | None => Ok (None, self)
  | Some id =>
      seg ← unwrap (segments self !! id) PIndex;
      let addr := MemoryRange.start seg in
      if MemoryRange.pages seg =? pages then Ok (Some addr, mk (delete id (segments self)))
      else
        start ← frame_add (MemoryRange.start seg) pages;
        rest ← sub64 (MemoryRange.pages seg) pages;
        Ok (Some addr, mk (<[id := MemoryRange.mk start rest]> (segments self)))
  end.

(** What the loop of [deallocate] found. *)
Definition not : Z := 0.
Definition left : Z := 1.
Definition right : Z := 2.

(** The loop: the segments with the one it changed, [ok] and [index]. *)
Fixpoint scan (addr : F) (i : Z) (segs : list range) : outcome (list range * (Z * Z)) :=
  match segs with
  | [] => Ok ([], (not, -1))
  | segment :: rest =>
      e ← MemoryRange.end_frame segment;
      e1 ← frame_add e 1;
      if frame_ltb e1 addr then
        '(rest, r) ← scan addr (i + 1) rest; Ok (segment :: rest, r)
      else if frame_eqb e1 addr then
        pages ← add64 (MemoryRange.pages segment) 1;
        Ok (MemoryRange.mk (MemoryRange.start segment) pages :: rest, (right, as_i32 i))
      else
        a1 ← frame_add addr 1;
        if frame_eqb (MemoryRange.start segment) a1 then
          pages ← add64 (MemoryRange.pages segment) 1;
          Ok (MemoryRange.mk addr pages :: rest, (left, as_i32 i))
        else if frame_ltb a1 (MemoryRange.start segment) then Ok (segment :: rest, (not, as_i32 i))
        else '(rest, r) ← scan addr (i + 1) rest; Ok (segment :: rest, r)
  end.

(** The segment at [lo] absorbs the next one, when they touch. *)
Definition merge (lo hi : Z) (segs : list range) : outcome (list range) :=
  a ← unwrap (segs !! Z.to_nat (as_usize lo)) PIndex;
  e ← MemoryRange.end_frame a;
  e1 ← frame_add e 1;
  b ← unwrap (segs !! Z.to_nat (as_usize hi)) PIndex;
  if frame_eqb e1 (MemoryRange.start b) then
    pages ← add64 (MemoryRange.pages a) (MemoryRange.pages b);
    Ok (delete (Z.to_nat (as_usize hi))
      (<[Z.to_nat (as_usize lo) := MemoryRange.mk (MemoryRange.start a) pages]> segs))
  else Ok segs.

(** [Vec::insert] *)
Definition vec_insert (i : Z) (x : range) (segs : list range) : outcome (list range) :=
  assert_ (i <=? zlen segs) PIndex ;;
  Ok (take (Z.to_nat i) segs ++ x :: drop (Z.to_nat i) segs).

Definition deallocate (addr : F) : M t unit := fun self =>
  if zlen (segments self) =? 0 then Ok (tt, mk (segments self ++ [MemoryRange.mk addr 1]))
  else
    '(segs, (ok, index)) ← scan addr 0 (segments self);
    if (ok =? not) && negb (index =? -1) then
      segs ← vec_insert (as_usize index) (MemoryRange.mk addr 1) segs; Ok (tt, mk segs)
    else if (ok =? not) && (index =? -1) then Ok (tt, mk (segs ++ [MemoryRange.mk addr 1]))
    else
      segs ← (if (ok =? left) && negb (index =? 0) then merge (index - 1) index segs else Ok segs);
      segs ← (if ok =? right then
                last ← sub64 (zlen segs) 1;
                if negb (as_usize index =? last) then merge index (index + 1) segs else Ok segs
              else Ok segs);
      Ok (tt, mk segs).
End allocator.
Arguments t F : clear implicits.
Arguments Frame F : clear implicits.
End FrameAllocator.

(** ** The allocator of the kernel, kernel/src/memory/mod.rs *)
Module Memory.
Section memory.
Context {F : Type} `{PhysFrame F}.

Record t := mk {
  FRAME : option (FrameAllocator.t F);
  PHYSICAL_MEMORY_OFFSET : Z;
  KERNEL_P4_TABLE : Z
}.

(** A run of the frame allocator behind its lock. *)
Definition with_frame {A} (m : M (FrameAllocator.t F) A) : M t A := fun st =>
  fa ← unwrap (FRAME st) PUnwrap;
  '(a, fa) ← m fa;
  Ok (a, mk (Some fa) (PHYSICAL_MEMORY_OFFSET st) (KERNEL_P4_TABLE st)).

Definition init_frame (vec : list (MemoryRange.t F)) : M t unit := fun st =>
  Ok (tt, mk (Some (FrameAllocator.new vec)) (PHYSICAL_MEMORY_OFFSET st) (KERNEL_P4_TABLE st)).
Definition alloc : M t (option F) := with_frame FrameAllocator.allocate.
Definition alloc_range (pages : Z) : M t (option F) := with_frame (FrameAllocator.alloc_range pages).
Definition dealloc (addr : F) : M t unit := with_frame (FrameAllocator.deallocate addr).

(** [Drop for Frame] *)
Definition drop_frame (self : FrameAllocator.Frame F) : M t unit := dealloc (FrameAllocator.phys_frame self).

(** [init]: the memory map comes from the firmware, [cr3] from the processor. *)
Section init.
Context {MemoryDescriptor : Type} (conventional : MemoryDescriptor -> bool) (phys_start page_count : MemoryDescriptor -> Z).

Definition range_of (x : MemoryDescriptor) : outcome (MemoryRange.t F) :=
  a ← phys_new (phys_start x);
  start ← containing_address a;
  Ok (MemoryRange.mk start (page_count x)).

Fixpoint ranges (descriptors : list MemoryDescriptor) : outcome (list (MemoryRange.t F)) :=
  match descriptors with
  | [] => Ok []
  | x :: descriptors =>
      if conventional x then
        r ← range_of x; rs ← ranges descriptors; Ok (r :: rs)
      else ranges descriptors
  end.

Definition init (offset cr3 : Z) (descriptors : list MemoryDescriptor) : M t unit := fun st =>
  vec ← ranges descriptors;
  init_frame vec (mk (FRAME st) offset cr3).
End init.

Definition to_virt_addr (phys : Z) : M t Z := fun st =>
  a ← add64 phys (PHYSICAL_MEMORY_OFFSET st); v ← virt_new a; Ok (v, st).
Definition to_phys_addr (virt : Z) : M t Z := fun st =>
  a ← sub64 virt (PHYSICAL_MEMORY_OFFSET st); p ← phys_new a; Ok (p, st).
End memory.
Arguments t F : clear implicits.
End Memory.

(** ** The DMA buffers of the drivers, kernel/src/drivers/provider.rs *)
Module Provider.
Section provider.
Context {F : Type} `{PhysFrame F}.

Definition virtio_dma_alloc (pages : Z) : M (Memory.t F) Z :=
  r ← Memory.alloc_range pages;
  paddr ← lift (unwrap r PUnwrap);
  lift (phys_new (start_address paddr)).

Fixpoint dealloc_from (frame : F) (ids : list Z) : M (Memory.t F) unit :=
  match ids with
  | [] => mret tt
  | i :: ids => f ← lift (frame_add frame i); Memory.dealloc f ;; dealloc_from frame ids
  end.

Definition virtio_dma_dealloc (paddr pages : Z) : M (Memory.t F) unit :=
  frame ← lift (containing_address paddr);
  dealloc_from frame (seqZ 0 pages).

Definition pages_of (size : Z) : outcome Z :=
  a ← add64 size PAGE_SIZE; b ← sub64 a 1; Ok (b / PAGE_SIZE).

Definition alloc_dma (size : Z) : M (Memory.t F) (Z * Z) :=
  pages ← lift (pages_of size);
  paddr ← virtio_dma_alloc pages;
  vaddr ← Memory.to_virt_addr paddr;
  mret (vaddr, paddr).

Definition dealloc_dma (vaddr size : Z) : M (Memory.t F) unit :=
  paddr ← Memory.to_phys_addr vaddr;
  pages ← lift (pages_of size);
  virtio_dma_dealloc paddr pages.
End provider.
End Provider.

(** The run of the unit test [case_1] of frame.rs. *)
Module Case1.
Import FrameAllocator.
Definition r (start pages : Z) : MemoryRange.t Z := MemoryRange.mk start pages.
Definition fa : FrameAllocator.t Z := new [r 1 10; r 200 1; r 203 218; r 500 101; r 602 1; r 1000 31].

Example case_1 :
  (allocate ;; deallocate 11 ;; deallocate 1 ;; deallocate 0 ;; allocate ;; allocate ;; deallocate 0 ;;
   allocate ;; deallocate 199) fa = Ok (tt, mk [r 2 10; r 199 2; r 203 218; r 500 101; r 602 1; r 1000 31]).
Proof. vm_compute. reflexivity. Qed.

Example case_1_rest :
  (deallocate 201 ;; deallocate 202 ;; deallocate 450 ;; deallocate 601 ;; deallocate 2000)
    (mk [r 2 10; r 200 1; r 203 218; r 500 101; r 602 1; r 1000 31]) =
  Ok (tt, mk [r 2 10; r 200 221; r 450 1; r 500 103; r 1000 31; r 2000 1]).
Proof. vm_compute. reflexivity. Qed.
End Case1.

(** ** What the segments mean *)
Section meaning.
Context {F : Type} `{PhysFrameLaws F}.
Abbreviation range := (MemoryRange.t F).
Implicit Types (s : range) (segs pre post : list range).

(** The first frame of a segment, and the first one after it. *)
Definition lo s : Z := number (MemoryRange.start s).
Definition hi s : Z := lo s + MemoryRange.pages s.

(** The frame numbers that can be allocated. *)
Definition frees segs (x : Z) : Prop := Exists (fun s => lo s <= x < hi s) segs.

(** The segments are not empty, in order, and do not even touch each other; all of
    them are above frame [from]. *)
Fixpoint sorted_from (from : Z) segs : Prop :=
  match segs with
  | [] => True
  | s :: segs => from < lo s /\ 1 <= MemoryRange.pages s /\ hi s < FRAMES /\ sorted_from (hi s) segs
  end.

Definition fa_ok (fa : FrameAllocator.t F) : Prop :=
  sorted_from (-1) (FrameAllocator.segments fa) /\ zlen (FrameAllocator.segments fa) < 2 ^ 31.
Definition fa_free (fa : FrameAllocator.t F) (x : Z) : Prop := frees (FrameAllocator.segments fa) x.

(** Where the segments [pre] end. *)
Fixpoint end_of (from : Z) pre : Z := match pre with [] => from | s :: pre => end_of (hi s) pre end.

Lemma sorted_app pre post : forall from,
  sorted_from from (pre ++ post) <-> sorted_from from pre /\ sorted_from (end_of from pre) post.
Proof. induction pre as [|s pre IH]; intros from; cbn [app sorted_from end_of]; [tauto|]. rewrite IH. tauto. Qed.

Lemma sorted_weaken segs from from' : from' <= from -> sorted_from from segs -> sorted_from from' segs.
Proof. destruct segs; cbn [sorted_from]; [done|]. intros. intuition lia. Qed.

Lemma frees_app pre post x : frees (pre ++ post) x <-> frees pre x \/ frees post x.
Proof. apply Exists_app. Qed.
Lemma frees_cons s segs x : frees (s :: segs) x <-> lo s <= x < hi s \/ frees segs x.
Proof. apply Exists_cons. Qed.
Lemma frees_nil x : frees [] x <-> False.
Proof. apply Exists_nil. Qed.

Lemma frees_above segs : forall from x, sorted_from from segs -> frees segs x -> from < x.
Proof.
  induction segs as [|s segs IH]; intros from x; [by rewrite frees_nil|]. rewrite frees_cons. cbn [sorted_from].
  intros (? & ? & ? & Hs) [?|Hx]; [lia|]. pose proof (IH _ _ Hs Hx). unfold hi in *. lia.
Qed.

Lemma end_of_mono pre : forall from, sorted_from from pre -> from <= end_of from pre.
Proof.
  induction pre as [|s pre IH]; intros from; cbn [sorted_from end_of]; [lia|]. intros (? & ? & ? & Hs).
  pose proof (IH _ Hs). unfold hi in *. lia.
Qed.

Lemma frees_below pre : forall from x, sorted_from from pre -> frees pre x -> x < end_of from pre.
Proof.
  induction pre as [|s pre IH]; intros from x; [by rewrite frees_nil|]. rewrite frees_cons. cbn [sorted_from end_of].
  intros (? & ? & ? & Hs) [?|Hx]; [|by eauto]. pose proof (end_of_mono _ _ Hs). lia.
Qed.

Lemma end_of_bound pre : forall from, from < FRAMES -> sorted_from from pre -> end_of from pre < FRAMES.
Proof. induction pre as [|s pre IH]; intros from Hf; cbn [sorted_from end_of]; [done|]. intros (? & ? & ? & Hs). by apply IH. Qed.
End meaning.

(** ** Allocation *)
Section allocation.
Context {F : Type} `{HF : PhysFrameLaws F}.
Abbreviation range := (MemoryRange.t F).
Implicit Types (s : range) (segs pre post : list range) (fa : FrameAllocator.t F).

Lemma allocate_ok fa : fa_ok fa -> exists r fa', FrameAllocator.allocate fa = Ok (r, fa') /\ fa_ok fa' /\
  match r with
  | None => forall x, ~ fa_free fa x
  | Some f => fa_free fa (number f) /\ (forall x, fa_free fa x -> number f <= x) /\
      forall x, fa_free fa' x <-> fa_free fa x /\ x <> number f
  end.
Proof.
  destruct fa as [[|s segs]]; intros [Hs Hl]; unfold FrameAllocator.allocate; cbn [FrameAllocator.segments] in *.
  { eexists None, _. split_and!; [done|done|]. intros x. unfold fa_free. cbn. intros Hx. by apply frees_nil in Hx. }
  cbn [sorted_from] in Hs. destruct Hs as (Hlo & Hp & Hhi & Hs). cbn [length] in Hl. unfold hi, lo in *.
  assert (Hmin : forall x, frees (s :: segs) x -> number (MemoryRange.start s) <= x).
  { intros x. rewrite frees_cons. unfold hi, lo. intros [?|Hx]; [lia|]. pose proof (frees_above _ _ _ Hs Hx). lia. }
  destruct (Z.eqb_spec (MemoryRange.pages s) 1) as [E1|E1].
  - eexists (Some _), _. split_and!; [done|split; cbn; [eapply sorted_weaken; [|exact Hs]; lia|lia]|..]; unfold fa_free; cbn.
    + rewrite frees_cons. unfold hi, lo. left. lia.
    + exact Hmin.
    + intros x. rewrite frees_cons. unfold hi, lo. split; [|intuition lia].
      intros Hx. pose proof (frees_above _ _ _ Hs Hx). split; [auto|lia].
  - destruct (frame_add_ok (MemoryRange.start s) 1) as (g & Eg & Ng); [lia..|].
    rewrite Eg. cbn [mbind outcome_bind]. rewrite sub64_ok by lia. cbn [mbind outcome_bind].
    eexists (Some _), _. split_and!; [done|split; [|cbn; lia]|..]; unfold fa_free; cbn [FrameAllocator.segments sorted_from].
    + unfold hi, lo. cbn [MemoryRange.start MemoryRange.pages]. rewrite Ng. split_and!; try lia.
      eapply sorted_weaken; [|exact Hs]. lia.
    + rewrite frees_cons. unfold hi, lo. left. lia.
    + exact Hmin.
    + intros x. rewrite !frees_cons. unfold hi, lo. cbn [MemoryRange.start MemoryRange.pages]. rewrite Ng.
      split; [|intuition lia]. intros [Hx|Hx]; [lia|]. pose proof (frees_above _ _ _ Hs Hx). split; [auto|lia].
Qed.

(** Consecutive free frames lie in one segment. *)
Lemma run_in_segment segs : forall from y k, sorted_from from segs -> 1 <= k ->
  (forall x, y <= x < y + k -> frees segs x) -> exists i s, segs !! i = Some s /\ lo s <= y /\ y + k <= hi s.
Proof.
  induction segs as [|s segs IH]; intros from y k Hs Hk Hrun.
  { destruct (proj1 (frees_nil y)). apply Hrun. lia. }
  cbn [sorted_from] in Hs. destruct Hs as (Hlo & Hp & Hhi & Hs).
  destruct (proj1 (frees_cons s segs y) (Hrun y ltac:(lia))) as [Hy|Hy].
  - exists 0%nat, s. split_and!; [done|lia|]. destruct (Z.le_gt_cases (y + k) (hi s)) as [?|Hgt]; [done|].
    assert (Hend : frees (s :: segs) (hi s)) by (apply Hrun; lia).
    apply frees_cons in Hend as [?|Hx]; [lia|].
    pose proof (frees_above _ _ _ Hs Hx). lia.
  - pose proof (frees_above _ _ _ Hs Hy). destruct (IH (hi s) y k Hs Hk) as (i & s' & Hi & Hb).
    + intros x Hx. destruct (proj1 (frees_cons s segs x) (Hrun x Hx)); [lia|done].
    + exists (S i), s'. done.
Qed.

Lemma elem_frees segs i s x : segs !! i = Some s -> lo s <= x < hi s -> frees segs x.
Proof. intros Hi Hx. apply Exists_exists. exists s. split; [by eapply list_elem_of_lookup_2|done]. Qed.

(** In order: a segment further on starts higher. *)
Lemma segs_lt segs : forall from i j s t, sorted_from from segs -> segs !! i = Some s -> segs !! j = Some t ->
  (i < j)%nat -> hi s < lo t.
Proof.
  induction segs as [|u segs IH]; intros from i j s t Hs Hi Hj Hij; [done|].
  cbn [sorted_from] in Hs. destruct Hs as (Hlo & Hp & Hhi & Hs). destruct j as [|j]; [lia|]. destruct i as [|i].
  - injection Hi as <-. assert (Hb : forall from k t, sorted_from from segs -> segs !! k = Some t -> from < lo t).
    { clear. induction segs as [|v segs IH]; intros from k t Hs Hk; [done|]. cbn [sorted_from] in Hs.
      destruct Hs as (? & ? & ? & Hs). destruct k; [by injection Hk as <-|].
      pose proof (IH _ _ _ Hs Hk). unfold hi in *. lia. }
    by eapply Hb.
  - eapply (IH _ i j); eauto. lia.
Qed.

(** Replacing one segment by a part of it. *)
Lemma replace_segment pre s post from k g : sorted_from from (pre ++ s :: post) -> 1 <= k <= MemoryRange.pages s ->
  number g = lo s + k -> let rest := if MemoryRange.pages s =? k then [] else [MemoryRange.mk g (MemoryRange.pages s - k)] in
  sorted_from from (pre ++ rest ++ post) /\
  forall x, frees (pre ++ rest ++ post) x <-> frees (pre ++ s :: post) x /\ ~ (lo s <= x < lo s + k).
Proof.
  intros Hs Hk Hg rest. assert (Hs0 := Hs). apply sorted_app in Hs as [Hpre Hs]. cbn [sorted_from] in Hs.
  destruct Hs as (Hlo & Hp & Hhi & Hs).
  assert (Hout : forall x, frees pre x \/ frees post x -> ~ lo s <= x < lo s + k).
  { intros x [Hx|Hx]; [pose proof (frees_below _ _ _ Hpre Hx)|pose proof (frees_above _ _ _ Hs Hx)]; unfold hi in *; lia. }
  unfold rest. destruct (Z.eqb_spec (MemoryRange.pages s) k) as [E|E]; split.
  - apply sorted_app. split; [done|]. eapply sorted_weaken; [|exact Hs]. unfold hi. lia.
  - intros x. specialize (Hout x). rewrite app_nil_l, !frees_app, frees_cons. unfold hi in *. intuition lia.
  - apply sorted_app. split; [done|]. cbn [app sorted_from]. unfold hi, lo in *. cbn [MemoryRange.start MemoryRange.pages].
    rewrite Hg. split_and!; try lia. eapply sorted_weaken; [|exact Hs]. lia.
  - intros x. specialize (Hout x). rewrite !frees_app, !frees_cons, frees_nil. unfold hi, lo in *.
    cbn [MemoryRange.start MemoryRange.pages]. rewrite Hg. intuition lia.
Qed.

Lemma alloc_range_ok fa k : fa_ok fa -> 1 <= k -> exists r fa', FrameAllocator.alloc_range k fa = Ok (r, fa') /\
  fa_ok fa' /\ zlen (FrameAllocator.segments fa') <= zlen (FrameAllocator.segments fa) /\
  match r with
  | None => fa' = fa /\ forall y, ~ forall x, y <= x < y + k -> fa_free fa x
  | Some f => (forall x, number f <= x < number f + k -> fa_free fa x) /\
      (forall y, (forall x, y <= x < y + k -> fa_free fa x) -> number f <= y) /\
      forall x, fa_free fa' x <-> fa_free fa x /\ ~ number f <= x < number f + k
  end.
Proof.
  destruct fa as [segs]. intros [Hs Hl] Hk. unfold FrameAllocator.alloc_range, fa_free in *. cbn [FrameAllocator.segments] in *.
  destruct (find_index _ segs) as [id|] eqn:Ef.
  2:{ eexists None, _. split_and!; [done|by split|done|done|]. intros y Hrun. apply find_index_None in Ef.
      destruct (run_in_segment segs _ y k Hs Hk Hrun) as (i & s & Hi & ? & ?). rewrite Forall_lookup in Ef.
      pose proof (Ef i s Hi) as Hp. apply Z.leb_gt in Hp. unfold hi in *. lia. }
  apply find_index_Some in Ef as HSome. destruct HSome as (s & Hid & Hp%Z.leb_le). rewrite Hid. cbn [unwrap mbind outcome_bind].
  assert (Hseg : segs = take id segs ++ s :: drop (S id) segs) by (symmetry; by apply take_drop_middle).
  assert (Hid' : (id < length segs)%nat) by (by eapply lookup_lt_Some).
  assert (Hfirst : forall y, (forall x, y <= x < y + k -> frees segs x) -> lo s <= y).
  { intros y Hrun. destruct (run_in_segment segs _ y k Hs Hk Hrun) as (j & t & Hj & ? & ?).
    destruct (decide (j < id)%nat) as [Hlt|Hge].
    - pose proof (find_index_first _ _ _ _ _ Ef Hlt Hj) as Hf. apply Z.leb_gt in Hf. unfold hi in *. lia.
    - destruct (decide (j = id)) as [->|]; [simplify_eq; lia|]. pose proof (segs_lt segs _ id j s t Hs Hid Hj ltac:(lia)).
      unfold hi in *. lia. }
  assert (Hall : forall x, lo s <= x < lo s + k -> frees segs x).
  { intros x Hx. eapply elem_frees; [exact Hid|]. unfold hi. lia. }
  assert (Hb : 0 <= lo s /\ hi s < FRAMES).
  { rewrite Hseg in Hs. apply sorted_app in Hs as [Hpre Hs2]. cbn [sorted_from] in Hs2.
    pose proof (end_of_mono _ _ Hpre). lia. }
  destruct (frame_add_ok (MemoryRange.start s) k) as (g & Eg & Ng); [unfold hi, lo in *; lia..|].
  rewrite Hseg in Hs. destruct (replace_segment _ s _ _ k g Hs ltac:(lia) Ng) as [Hs' Hfr].
  rewrite <- Hseg in Hfr. destruct (Z.eqb_spec (MemoryRange.pages s) k) as [E|E].
  - eexists (Some _), _. split_and!; [done| |cbn; rewrite length_delete by eauto; lia|exact Hall|exact Hfirst|].
    + split; cbn [FrameAllocator.segments]; [by rewrite delete_take_drop|rewrite length_delete by eauto; lia].
    + cbn [FrameAllocator.segments]. by rewrite delete_take_drop.
  - rewrite Eg. cbn [mbind outcome_bind]. rewrite sub64_ok by lia. cbn [mbind outcome_bind].
    eexists (Some _), _. split_and!; [done| |cbn; by rewrite length_insert|exact Hall|exact Hfirst|].
    + split; cbn [FrameAllocator.segments]; [by rewrite insert_take_drop|by rewrite length_insert].
    + cbn [FrameAllocator.segments]. by rewrite insert_take_drop.
Qed.
End allocation.

(** ** Deallocation *)
Section deallocation.
Context {F : Type} `{HF : PhysFrameLaws F}.
Abbreviation range := (MemoryRange.t F).
Implicit Types (s : range) (segs pre post : list range) (fa : FrameAllocator.t F).

Lemma as_i32_small x : 0 <= x < 2 ^ 31 -> as_i32 x = x.
Proof. intros Hx. unfold as_i32. rewrite Z.mod_small; lia. Qed.
Lemma as_usize_small x : 0 <= x < 2 ^ 31 -> as_usize x = x.
Proof. intros Hx. unfold as_usize, U64. rewrite Z.mod_small; lia. Qed.

(** The frame after a segment. *)
Lemma end_next s : 0 <= lo s -> 1 <= MemoryRange.pages s -> hi s < FRAMES ->
  exists e e1, MemoryRange.end_frame s = Ok e /\ frame_add e 1 = Ok e1 /\ number e1 = hi s.
Proof.
  unfold hi, lo. intros Hlo Hp Hhi. unfold MemoryRange.end_frame.
  destruct (frame_add_ok (MemoryRange.start s) (MemoryRange.pages s)) as (x & Ex & Nx); [lia..|].
  destruct (frame_sub_ok x 1) as (y & Ey & Ny); [lia..|].
  destruct (frame_add_ok y 1) as (e1 & Ee & Ne); [lia..|].
  exists y, e1. rewrite Ex. split_and!; [done|done|lia].
Qed.

(** How the loop of [deallocate] ends. *)
Inductive scanned (from : Z) (addr : F) (i : Z) segs : list range -> Z -> Z -> Prop :=
  | Scan_end : end_of from segs < number addr ->
      scanned from addr i segs segs FrameAllocator.not (-1)
  | Scan_right pre s post : segs = pre ++ s :: post -> hi s = number addr ->
      scanned from addr i segs
        (pre ++ MemoryRange.mk (MemoryRange.start s) (MemoryRange.pages s + 1) :: post)
        FrameAllocator.right (i + zlen pre)
  | Scan_left pre s post : segs = pre ++ s :: post -> end_of from pre < number addr ->
      lo s = number addr + 1 ->
      scanned from addr i segs (pre ++ MemoryRange.mk addr (MemoryRange.pages s + 1) :: post)
        FrameAllocator.left (i + zlen pre)
  | Scan_gap pre s post : segs = pre ++ s :: post -> end_of from pre < number addr ->
      number addr + 1 < lo s ->
      scanned from addr i segs segs FrameAllocator.not (i + zlen pre).

Lemma scanned_cons from addr i s segs segs' ok index : scanned (hi s) addr (i + 1) segs segs' ok index ->
  scanned from addr i (s :: segs) (s :: segs') ok index.
Proof.
  assert (Ei : forall pre, i + 1 + zlen pre = i + zlen (s :: pre)) by (intros; cbn [length]; lia).
  destruct 1 as [?|pre t post ? ?|pre t post ? ? ?|pre t post ? ? ?]; rewrite ?Ei.
  - by constructor.
  - apply (Scan_right _ _ _ _ (s :: pre) t post); [by subst|done].
  - apply (Scan_left _ _ _ _ (s :: pre) t post); [by subst|done..].
  - apply (Scan_gap _ _ _ _ (s :: pre) t post); [by subst|done..].
Qed.

Lemma scan_spec addr segs : forall from i, sorted_from from segs -> -1 <= from < number addr ->
  number addr + 1 < FRAMES -> ~ frees segs (number addr) -> 0 <= i -> i + zlen segs < 2 ^ 31 ->
  exists segs' ok index, FrameAllocator.scan addr i segs = Ok (segs', (ok, index)) /\
    scanned from addr i segs segs' ok index.
Proof.
  induction segs as [|s segs IH]; intros from i Hs Hfrom Ha Hfree Hi Hl; cbn [FrameAllocator.scan].
  { eexists _, _, _. split; [done|]. constructor. cbn. lia. }
  cbn [sorted_from length] in *. destruct Hs as (Hlo & Hp & Hhi & Hs). rewrite frees_cons in Hfree.
  assert (Hi0 : i = i + zlen (@nil range)) by (cbn; lia).
  destruct (end_next s) as (e & e1 & Ee & Ee1 & Ne); [lia..|].
  rewrite Ee. cbn [mbind outcome_bind]. rewrite Ee1. cbn [mbind outcome_bind]. rewrite frame_ltb_eq, frame_eqb_eq, Ne. destruct (Z.ltb_spec (hi s) (number addr)) as [Hlt|Hge].
  - destruct (IH (hi s) (i + 1)) as (segs' & ok & index & E & Hsc); [done|unfold hi in *; lia|done|tauto|lia|lia|].
    rewrite E. cbn [mbind outcome_bind]. eexists _, _, _. split; [done|]. by apply scanned_cons.
  - assert (Hp2 : MemoryRange.pages s + 1 < U64) by (unfold hi, FRAMES, U64 in *; lia).
    destruct (Z.eqb_spec (hi s) (number addr)) as [Heq|Hne].
    + rewrite add64_ok by done. cbn [mbind outcome_bind]. rewrite as_i32_small by lia.
      eexists _, _, _. split; [done|]. rewrite Hi0 at 2. by apply (Scan_right _ _ _ _ [] s segs).
    + destruct (frame_add_ok addr 1) as (a1 & Ea & Na); [lia..|]. rewrite Ea. cbn [mbind outcome_bind].
      rewrite frame_eqb_eq, frame_ltb_eq, Na. fold (lo s). rewrite as_i32_small by lia.
      destruct (Z.eqb_spec (lo s) (number addr + 1)) as [El|El].
      * rewrite add64_ok by done. cbn [mbind outcome_bind]. eexists _, _, _. split; [done|]. rewrite Hi0 at 2.
        apply (Scan_left _ _ _ _ [] s segs); [done|cbn; lia|done].
      * destruct (Z.ltb_spec (number addr + 1) (lo s)) as [Hg|Hg]; [|lia].
        eexists _, _, _. split; [done|]. rewrite Hi0 at 2. apply (Scan_gap _ _ _ _ [] s segs); [done|cbn; lia|done].
Qed.

(** Merging two neighbours in the middle of the list. *)
Lemma merge_spec pre a b post : 0 <= lo a -> 1 <= MemoryRange.pages a -> hi a < FRAMES ->
  0 <= MemoryRange.pages b -> MemoryRange.pages a + MemoryRange.pages b < U64 -> zlen pre + 1 < 2 ^ 31 ->
  FrameAllocator.merge (zlen pre) (zlen pre + 1) (pre ++ a :: b :: post) =
    Ok (pre ++ if hi a =? lo b then MemoryRange.mk (MemoryRange.start a) (MemoryRange.pages a + MemoryRange.pages b) :: post
               else a :: b :: post).
Proof.
  intros Hlo Hp Hhi Hpb Hsum Hl. unfold FrameAllocator.merge. rewrite !as_usize_small by lia.
  rewrite Nat2Z.id, Z2Nat.inj_add, Nat2Z.id by lia. change (Z.to_nat 1) with 1%nat. rewrite Nat.add_1_r.
  rewrite (list_lookup_middle pre _ a (length pre)) by done. cbn [unwrap mbind outcome_bind].
  destruct (end_next a) as (e & e1 & Ee & Ee1 & Ne); [lia..|].
  rewrite Ee. cbn [mbind outcome_bind]. rewrite Ee1. cbn [mbind outcome_bind].
  rewrite lookup_app_r by lia. replace (S (length pre) - length pre)%nat with 1%nat by lia.
  cbn [lookup list_lookup unwrap mbind outcome_bind]. rewrite frame_eqb_eq, Ne. fold (lo b).
  destruct (hi a =? lo b); [|done]. rewrite add64_ok by done. cbn [mbind outcome_bind]. f_equal.
  rewrite insert_app_r_alt by lia. rewrite Nat.sub_diag. cbn [insert list_insert].
  rewrite delete_take_drop, take_app_ge, drop_app_ge by lia.
  replace (S (length pre) - length pre)%nat with 1%nat by lia. replace (S (S (length pre)) - length pre)%nat with 2%nat by lia.
  cbn [take drop]. by rewrite <- app_assoc.
Qed.
(** The free frames, with one more. *)
Definition adds segs (a : Z) segs' : Prop := sorted_from (-1) segs' /\ forall x, frees segs' x <-> frees segs x \/ x = a.

Lemma grow_right pre s post addr : sorted_from (-1) (pre ++ s :: post) -> hi s = number addr ->
  number addr + 1 < FRAMES -> (forall t, head post = Some t -> number addr + 1 < lo t) ->
  adds (pre ++ s :: post) (number addr)
    (pre ++ MemoryRange.mk (MemoryRange.start s) (MemoryRange.pages s + 1) :: post).
Proof.
  intros Hs He Ha Hnext. apply sorted_app in Hs as [Hpre Hs]. cbn [sorted_from] in Hs. destruct Hs as (? & ? & ? & Hs).
  unfold hi, lo in *. split.
  - apply sorted_app. split; [done|]. cbn [sorted_from]. unfold hi, lo. cbn. split_and!; try lia.
    destruct post as [|t post]; [done|]. cbn [sorted_from] in *. specialize (Hnext t eq_refl). unfold hi, lo in *. split; [lia|tauto].
  - intros x. rewrite !frees_app, !frees_cons. unfold hi, lo. cbn. intuition lia.
Qed.

Lemma grow_both pre s t post addr : sorted_from (-1) (pre ++ s :: t :: post) -> hi s = number addr ->
  lo t = number addr + 1 ->
  adds (pre ++ s :: t :: post) (number addr)
    (pre ++ MemoryRange.mk (MemoryRange.start s) (MemoryRange.pages s + 1 + MemoryRange.pages t) :: post).
Proof.
  intros Hs He Ht. apply sorted_app in Hs as [Hpre Hs]. cbn [sorted_from] in Hs.
  destruct Hs as (? & ? & ? & ? & ? & ? & Hs). unfold hi, lo in *. split.
  - apply sorted_app. split; [done|]. cbn [sorted_from]. unfold hi, lo. cbn. split_and!; try lia.
    eapply sorted_weaken; [|exact Hs]. lia.
  - intros x. rewrite !frees_app, !frees_cons. unfold hi, lo. cbn. intuition lia.
Qed.

Lemma grow_left pre s post addr : sorted_from (-1) (pre ++ s :: post) -> end_of (-1) pre < number addr ->
  lo s = number addr + 1 ->
  adds (pre ++ s :: post) (number addr) (pre ++ MemoryRange.mk addr (MemoryRange.pages s + 1) :: post).
Proof.
  intros Hs He Hl. apply sorted_app in Hs as [Hpre Hs]. cbn [sorted_from] in Hs. destruct Hs as (? & ? & ? & Hs).
  unfold hi, lo in *. split.
  - apply sorted_app. split; [done|]. cbn [sorted_from]. unfold hi, lo. cbn. split_and!; try lia.
    eapply sorted_weaken; [|exact Hs]. lia.
  - intros x. rewrite !frees_app, !frees_cons. unfold hi, lo. cbn. intuition lia.
Qed.

Lemma add_segment pre post addr : sorted_from (-1) (pre ++ post) -> end_of (-1) pre < number addr ->
  number addr + 1 < FRAMES -> (forall t, head post = Some t -> number addr + 1 < lo t) ->
  adds (pre ++ post) (number addr) (pre ++ MemoryRange.mk addr 1 :: post).
Proof.
  intros Hs He Ha Hnext. apply sorted_app in Hs as [Hpre Hs]. split.
  - apply sorted_app. split; [done|]. cbn [sorted_from]. unfold hi, lo. cbn. split_and!; try lia.
    destruct post as [|t post]; [done|]. cbn [sorted_from] in *. specialize (Hnext t eq_refl). unfold hi, lo in *. split; [lia|tauto].
  - intros x. rewrite !frees_app, !frees_cons. unfold hi, lo. cbn. intuition lia.
Qed.

(** The part of [deallocate] after the loop. *)
Definition finish (addr : F) segs (ok index : Z) : outcome (list range) :=
  if (ok =? FrameAllocator.not) && negb (index =? -1) then
    FrameAllocator.vec_insert (as_usize index) (MemoryRange.mk addr 1) segs
  else if (ok =? FrameAllocator.not) && (index =? -1) then Ok (segs ++ [MemoryRange.mk addr 1])
  else
    segs ← (if (ok =? FrameAllocator.left) && negb (index =? 0) then FrameAllocator.merge (index - 1) index segs else Ok segs);
    if ok =? FrameAllocator.right then
      last ← sub64 (zlen segs) 1;
      if negb (as_usize index =? last) then FrameAllocator.merge index (index + 1) segs else Ok segs
    else Ok segs.

Lemma deallocate_finish addr fa segs' ok index : FrameAllocator.segments fa <> [] ->
  FrameAllocator.scan addr 0 (FrameAllocator.segments fa) = Ok (segs', (ok, index)) ->
  FrameAllocator.deallocate addr fa = segs ← finish addr segs' ok index; Ok (tt, FrameAllocator.mk segs).
Proof.
  intros Hne E. unfold FrameAllocator.deallocate. destruct (Z.eqb_spec (zlen (FrameAllocator.segments fa)) 0) as [H0|_].
  { destruct (FrameAllocator.segments fa); [done|]. simpl in H0. lia. }
  rewrite E. unfold finish. cbn [mbind outcome_bind]. destruct (_ && _); [done|]. destruct (_ && _); [done|].
  destruct (if _ && _ then _ else _); [|done]. cbn [outcome_bind]. destruct (ok =? _); [|done].
  by destruct (sub64 (zlen a) 1).
Qed.

Lemma finish_right addr pre s post : sorted_from (-1) (pre ++ s :: post) -> zlen (pre ++ s :: post) + 1 < 2 ^ 31 ->
  hi s = number addr -> number addr + 1 < FRAMES ->
  exists segs', finish addr (pre ++ MemoryRange.mk (MemoryRange.start s) (MemoryRange.pages s + 1) :: post)
      FrameAllocator.right (zlen pre) = Ok segs' /\
    adds (pre ++ s :: post) (number addr) segs' /\ zlen segs' <= zlen (pre ++ s :: post) + 1.
Proof.
  intros Hs Hl He Ha. unfold finish. cbn [Z.eqb FrameAllocator.right FrameAllocator.not FrameAllocator.left andb mbind outcome_bind Pos.eqb].
  rewrite length_app in Hl. cbn [length] in Hl.
  rewrite length_app. cbn [length]. rewrite sub64_ok by lia. cbn [mbind outcome_bind].
  rewrite as_usize_small by lia. destruct post as [|t post].
  - cbn [length]. rewrite (proj2 (Z.eqb_eq _ _)) by lia. cbn [negb]. eexists. split; [done|]. split; [by apply grow_right|].
    rewrite !length_app. cbn [length]. lia.
  - rewrite (proj2 (Z.eqb_neq _ _)) by (cbn [length]; lia). cbn [negb]. assert (Hs' := Hs).
    apply sorted_app in Hs as [Hpre Hs]. pose proof (end_of_mono _ _ Hpre). cbn [sorted_from] in Hs.
    destruct Hs as (? & ? & ? & ? & ? & ? & Hs). unfold hi, lo, FRAMES, U64 in *. rewrite merge_spec.
    + unfold hi, lo in *. cbn [MemoryRange.start MemoryRange.pages]. destruct (Z.eqb_spec (number (MemoryRange.start s) + (MemoryRange.pages s + 1))
        (number (MemoryRange.start t))) as [E|E]; eexists; (split; [done|]); rewrite !length_app; cbn [length]; (split; [|lia]).
      * apply grow_both; unfold hi, lo; [done|lia|lia].
      * apply grow_right; unfold hi, lo, FRAMES; [done|lia|lia|]. intros ? [= <-]. lia.
    + cbn. unfold lo. cbn. lia.
    + cbn. lia.
    + unfold hi, lo, FRAMES. cbn. lia.
    + lia.
    + cbn. unfold U64. lia.
    + lia.
Qed.

Lemma finish_left addr pre s post : sorted_from (-1) (pre ++ s :: post) -> zlen (pre ++ s :: post) + 1 < 2 ^ 31 ->
  end_of (-1) pre < number addr -> lo s = number addr + 1 ->
  finish addr (pre ++ MemoryRange.mk addr (MemoryRange.pages s + 1) :: post) FrameAllocator.left (zlen pre) =
    Ok (pre ++ MemoryRange.mk addr (MemoryRange.pages s + 1) :: post).
Proof.
  intros Hs Hl He Hlo. unfold finish. cbn [Z.eqb FrameAllocator.right FrameAllocator.not FrameAllocator.left andb mbind outcome_bind Pos.eqb].
  destruct (last pre) as [p|] eqn:Elast.
  - apply last_Some in Elast as [pre' ->]. rewrite length_app in *. cbn [length] in *. rewrite length_app in Hl. cbn [length] in Hl.
    rewrite (proj2 (Z.eqb_neq _ _)) by lia. cbn [negb]. rewrite <- app_assoc. cbn [app].
    rewrite <- app_assoc in Hs. cbn [app] in Hs. apply sorted_app in Hs as [Hpre Hs]. pose proof (end_of_mono _ _ Hpre).
    cbn [sorted_from] in Hs. destruct Hs as (? & ? & ? & ? & ? & ? & Hs).
    assert (Hep : hi p < number addr).
    { revert He. clear. generalize (-1). induction pre' as [|u pre' IH]; intros from; cbn [app end_of]; [done|apply IH]. }
    replace (Z.of_nat (length pre' + 1) - 1) with (zlen pre') by lia.
    replace (Z.of_nat (length pre' + 1)) with (zlen pre' + 1) by lia. rewrite merge_spec; try (unfold hi, lo, FRAMES, U64 in *; cbn in *; lia).
    rewrite (proj2 (Z.eqb_neq _ _)); [done|]. unfold lo at 1. cbn. lia.
  - apply last_None in Elast as ->. done.
Qed.

Lemma finish_gap addr pre s post : sorted_from (-1) (pre ++ s :: post) -> zlen (pre ++ s :: post) + 1 < 2 ^ 31 ->
  finish addr (pre ++ s :: post) FrameAllocator.not (zlen pre) = Ok (pre ++ MemoryRange.mk addr 1 :: s :: post).
Proof.
  intros Hs Hl. unfold finish. rewrite length_app in Hl. rewrite (proj2 (Z.eqb_neq (zlen pre) (-1))) by lia.
  cbn [Z.eqb FrameAllocator.not andb negb]. unfold FrameAllocator.vec_insert. rewrite as_usize_small by lia.
  rewrite assert_ok by (apply Z.leb_le; rewrite length_app; lia). cbn [mbind outcome_bind].
  by rewrite Nat2Z.id, take_app_length, drop_app_length.
Qed.

Lemma deallocate_ok fa addr : fa_ok fa -> ~ fa_free fa (number addr) -> 0 <= number addr -> number addr + 1 < FRAMES ->
  zlen (FrameAllocator.segments fa) + 1 < 2 ^ 31 ->
  exists fa', FrameAllocator.deallocate addr fa = Ok (tt, fa') /\ fa_ok fa' /\
    (forall x, fa_free fa' x <-> fa_free fa x \/ x = number addr) /\
    zlen (FrameAllocator.segments fa') <= zlen (FrameAllocator.segments fa) + 1.
Proof.
  intros [Hs _] Hfree H0 Ha Hl. unfold fa_free, fa_ok in *.
  enough (Hmain : exists segs', FrameAllocator.deallocate addr fa = Ok (tt, FrameAllocator.mk segs') /\
    adds (FrameAllocator.segments fa) (number addr) segs' /\ zlen segs' <= zlen (FrameAllocator.segments fa) + 1).
  { destruct Hmain as (segs' & E & [Hs' Hf'] & Hl'). eexists. split; [exact E|]. cbn [FrameAllocator.segments].
    split; [split; [exact Hs'|lia]|]. split; [exact Hf'|exact Hl']. }
  destruct (decide (FrameAllocator.segments fa = [])) as [E|Hne].
  { unfold FrameAllocator.deallocate. rewrite E. cbn. eexists. split; [done|]. split; [|done].
    apply (add_segment [] [] addr); [done|cbn; lia|done|done]. }
  destruct (scan_spec addr (FrameAllocator.segments fa) (-1) 0) as (segs' & ok & index & E & Hsc); [done|lia|done|done|lia|lia|].
  rewrite (deallocate_finish addr fa segs' ok index) by done. clear E Hne.
  remember (FrameAllocator.segments fa) as segs eqn:Esegs. clear Esegs. destruct Hsc as [He|pre s post -> He|pre s post -> He Hlo|pre s post -> He Hlo];
    rewrite ?Z.add_0_l.
  - unfold finish. cbn [Z.eqb FrameAllocator.not andb negb Pos.eqb mbind outcome_bind]. eexists. split; [done|]. split.
    + rewrite <- (app_nil_r segs) at 1. apply add_segment; [by rewrite app_nil_r|done..].
    + rewrite length_app. cbn [length]. lia.
  - destruct (finish_right addr pre s post) as (segs' & -> & Hadd & Hlen); [done..|].
    cbn [mbind outcome_bind]. eauto.
  - rewrite finish_left by done. cbn [mbind outcome_bind]. eexists. split; [done|]. split; [by apply grow_left|].
    rewrite !length_app. cbn [length]. lia.
  - rewrite finish_gap by done. cbn [mbind outcome_bind]. eexists. split; [done|]. split.
    + apply (add_segment pre (s :: post)); [done..|]. by intros ? [= <-].
    + rewrite !length_app. cbn [length]. lia.
Qed.

(** ** The segments are determined by the free frames *)
Lemma segment_eq s t : lo s = lo t -> hi s = hi t -> s = t.
Proof.
  destruct s as [a p], t as [b q]. unfold hi, lo. cbn. intros Hab Hpq. apply number_inj in Hab as ->. f_equal. lia.
Qed.

Lemma first_run from s segs : sorted_from from (s :: segs) ->
  (forall x, lo s <= x < hi s -> frees (s :: segs) x) /\ ~ frees (s :: segs) (hi s) /\
  forall x, frees (s :: segs) x -> lo s <= x.
Proof.
  cbn [sorted_from]. intros (? & ? & ? & Hs). split_and!.
  - intros x Hx. apply frees_cons. by left.
  - intros [?|Hf]%frees_cons; [lia|]. pose proof (frees_above _ _ _ Hs Hf). lia.
  - intros x [?|Hf]%frees_cons; [lia|]. pose proof (frees_above _ _ _ Hs Hf). unfold hi in *. lia.
Qed.

Lemma canonical segs : forall from segs', sorted_from from segs -> sorted_from from segs' ->
  (forall x, frees segs x <-> frees segs' x) -> segs = segs'.
Proof.
  induction segs as [|s segs IH]; intros from [|t segs'] Hs Ht Hx; [done|..].
  - exfalso. cbn [sorted_from] in Ht. apply (frees_nil (lo t)), Hx, frees_cons. unfold hi in *. left. lia.
  - exfalso. cbn [sorted_from] in Hs. apply (frees_nil (lo s)), Hx, frees_cons. unfold hi in *. left. lia.
  - assert (Hs0 := Hs). assert (Ht0 := Ht). cbn [sorted_from] in Hs, Ht. destruct Hs as (? & ? & ? & Hs), Ht as (? & ? & ? & Ht).
    destruct (first_run _ _ _ Hs0) as (A1 & A2 & A3), (first_run _ _ _ Ht0) as (B1 & B2 & B3).
    assert (lo s = lo t). { apply Z.le_antisymm; [apply A3, Hx, B1|apply B3, Hx, A1]; unfold hi; lia. }
    assert (E : s = t).
    { apply segment_eq; [done|]. destruct (Z.lt_trichotomy (hi s) (hi t)) as [Hlt|[?|Hlt]]; [|done|]; exfalso.
      - apply A2, Hx, B1. unfold hi in *. lia.
      - apply B2, Hx, A1. unfold hi in *. lia. }
    subst t. f_equal. apply (IH (hi s)); [done|done|]. intros x. specialize (Hx x). rewrite !frees_cons in Hx. split; intros Hf.
    + pose proof (frees_above _ _ _ Hs Hf). destruct (proj1 Hx (or_intror Hf)); [lia|done].
    + pose proof (frees_above _ _ _ Ht Hf). destruct (proj2 Hx (or_intror Hf)); [lia|done].
Qed.
End deallocation.

(** ** The kernel's interface to the allocator, and DMA buffers *)
Section dma.
Context {F : Type} `{HF : PhysFrameLaws F}.
Implicit Types fa : FrameAllocator.t F.

Lemma fa_eq fa fa' : fa_ok fa -> fa_ok fa' -> (forall x, fa_free fa x <-> fa_free fa' x) -> fa = fa'.
Proof. destruct fa, fa'. intros [Hs _] [Hs' _] Hx. f_equal. by eapply canonical. Qed.

Lemma free_bounds fa x : fa_ok fa -> fa_free fa x -> 0 <= x /\ x + 1 < FRAMES.
Proof.
  intros [Hs _] Hx. pose proof (frees_above _ _ _ Hs Hx). split; [lia|].
  unfold fa_free in Hx. revert Hs Hx. generalize (-1). induction (FrameAllocator.segments fa) as [|s segs IH]; intros from Hs Hx.
  - by apply frees_nil in Hx.
  - cbn [sorted_from] in Hs. destruct Hs as (? & ? & ? & Hs). apply frees_cons in Hx as [?|Hx]; [lia|by eapply IH].
Qed.

Lemma allocate_length fa f fa' : FrameAllocator.allocate fa = Ok (Some f, fa') ->
  zlen (FrameAllocator.segments fa') <= zlen (FrameAllocator.segments fa).
Proof.
  unfold FrameAllocator.allocate. destruct (FrameAllocator.segments fa) as [|s segs]; [done|].
  destruct (_ =? 1); [intros [= <- <-]; cbn; lia|]. destruct (frame_add _ 1); [|done]. cbn [mbind outcome_bind].
  destruct (sub64 _ 1); [|done]. cbn [mbind outcome_bind]. intros [= <- <-]. cbn. lia.
Qed.

(** Freeing the frames from [f + i] on, one by one. *)
Lemma dealloc_from_ok off p4 f m : forall i fa, fa_ok fa -> 0 <= i -> 0 <= m -> 0 <= number f ->
  number f + i + m < FRAMES -> (forall x, number f + i <= x < number f + i + m -> ~ fa_free fa x) ->
  zlen (FrameAllocator.segments fa) + m < 2 ^ 31 ->
  exists fa', Provider.dealloc_from f (seqZ i m) (Memory.mk (Some fa) off p4) = Ok (tt, Memory.mk (Some fa') off p4) /\
    fa_ok fa' /\ forall x, fa_free fa' x <-> fa_free fa x \/ number f + i <= x < number f + i + m.
Proof.
  intros i fa Hok Hi Hm. revert i fa Hok Hi. pattern m. apply natlike_ind; [|clear m Hm; intros m Hm IH|done].
  { intros i fa Hok Hi Hf Hb Hfree Hl. exists fa. split_and!; [done|done|]. intros x. intuition lia. }
  intros i fa Hok Hi Hf Hb Hfree Hl. rewrite seqZ_cons by lia. cbn [Provider.dealloc_from].
  destruct (frame_add_ok f i) as (g & Eg & Ng); [lia..|].
  destruct (deallocate_ok fa g) as (fa1 & E1 & Hok1 & Hf1 & Hl1); [done|apply Hfree; lia|lia|lia|lia|].
  destruct (IH (Z.succ i) fa1) as (fa2 & E2 & Hok2 & Hf2); [done|lia|done|lia| |lia|].
  { intros x Hx. rewrite Hf1. intros [Hx'|Hx']; [|lia]. eapply Hfree; [|exact Hx']. lia. }
  exists fa2. split_and!; [|done|].
  - unfold mbind, M_bind, lift. rewrite Eg. unfold Memory.dealloc, Memory.with_frame. cbn [Memory.FRAME unwrap mbind outcome_bind].
    rewrite E1. cbn [mbind outcome_bind Memory.PHYSICAL_MEMORY_OFFSET Memory.KERNEL_P4_TABLE].
    replace (Z.pred (Z.succ m)) with m by lia. exact E2.
  - intros x. rewrite Hf2, Hf1, Ng. intuition lia.
Qed.
End dma.
