(* ===== verification/KernelMemory.v ===== *)
(** The properties of the kernel's memory management: the frame allocator of
    kernel/src/memory/frame.rs, the DMA buffers of kernel/src/drivers/provider.rs, and
    the heap of kernel/src/allocator.rs. *)
From S2P Require Import Prelude Frame.
From Stdlib Require Import ZArith Lia.
From stdpp Require Import gmap functions sorting list_numbers list.
Local Open Scope Z_scope.

(** ** The heap *)
Module Heap.

(** [Layout]: the size and the alignment of a block. *)
Record Layout := mk_layout { size : Z; align : Z }.

(** The state is the value of [start]; blocks are never given back. *)
Definition START : Z := 0xffff900040000000.

Definition alloc (layout : Layout) : M Z Z := fun v =>
  a ← add64 v (align layout);
  start ← sub64 a (v mod align layout);
  end_ ← add64 start (size layout);
  Ok (start, end_).

Definition dealloc (_ptr : Z) (_layout : Layout) : M Z unit := mret tt.

(** The blocks of a sequence of allocations. *)
Fixpoint alloc_all (layouts : list Layout) : M Z (list (Z * Layout)) :=
  match layouts with
  | [] => mret []
  | l :: layouts => p ← alloc l; ps ← alloc_all layouts; mret ((p, l) :: ps)
  end.

(** The blocks [p, p + size) lie above [from], one after the other. *)
Fixpoint placed (from : Z) (ps : list (Z * Layout)) (to : Z) : Prop :=
  match ps with
  | [] => from = to
  | (p, l) :: ps => from <= p /\ p mod align l = 0 /\ placed (p + size l) ps to
  end.

(** The space a sequence of allocations can take at most. *)
Definition total (layouts : list Layout) : Z := foldr (fun l t => size l + align l + t) 0 layouts.

Definition layout_ok (l : Layout) : Prop := 0 <= size l /\ 0 < align l.

Lemma total_pos layouts : Forall layout_ok layouts -> 0 <= total layouts.
Proof. induction 1 as [|l layouts [? ?] _ IH]; cbn [total foldr]; [lia|]. unfold total in IH. lia. Qed.

Lemma alloc_ok l v : layout_ok l -> 0 <= v -> v + align l + size l < U64 ->
  exists p, alloc l v = Ok (p, p + size l) /\ v < p <= v + align l /\ p mod align l = 0.
Proof.
  intros [Hs Ha] Hv Hb. unfold alloc. pose proof (Z.mod_pos_bound v (align l) Ha) as Hm.
  rewrite add64_ok by lia. cbn [mbind outcome_bind]. rewrite sub64_ok by lia. cbn [mbind outcome_bind].
  rewrite add64_ok by lia. cbn [mbind outcome_bind]. eexists. split; [done|]. split; [lia|].
  pose proof (Z.div_mod v (align l)). replace (v + align l - v mod align l) with ((v / align l + 1) * align l) by nia.
  apply Z.mod_mul. lia.
Qed.

Lemma alloc_all_ok layouts : Forall layout_ok layouts -> forall v, 0 <= v -> v + total layouts < U64 ->
  exists ps to, alloc_all layouts v = Ok (ps, to) /\ placed v ps to /\ ps.*2 = layouts /\ to <= v + total layouts.
Proof.
  induction 1 as [|l layouts Hl Hls IH]; intros v Hv Hb; cbn [alloc_all].
  - exists [], v. cbn. split_and!; [done|done|done|lia].
  - pose proof (total_pos layouts Hls) as Ht. cbn [total foldr] in Hb. unfold total in Ht, IH.
    destruct (alloc_ok l v Hl Hv ltac:(lia)) as (p & E & Hp & Hm). pose proof Hl as [? ?].
    destruct (IH (p + size l)) as (ps & to & Es & Hpl & Hl2 & Hto); [lia|lia|].
    exists ((p, l) :: ps), to. split_and!.
    + unfold mbind, M_bind. by rewrite E, Es.
    + cbn [placed]. split_and!; [lia|done|done].
    + cbn. by rewrite Hl2.
    + cbn [total foldr]. lia.
Qed.

(** Blocks of different allocations do not overlap. *)
Lemma placed_above ps : forall from to i p l, placed from ps to -> Forall (fun x => layout_ok x.2) ps ->
  ps !! i = Some (p, l) -> from <= p /\ p + size l <= to.
Proof.
  induction ps as [|[q m] ps IH]; intros from to i p l Hp Hf Hi; [done|]. cbn [placed] in Hp.
  destruct Hp as (? & ? & Hp). apply Forall_cons in Hf as [[? ?] Hf]. cbn in *.
  assert (Hto : q + size m <= to).
  { clear IH Hi. revert Hp. generalize (q + size m). induction Hf as [|[r o] ps [? ?] _ IH]; intros z; cbn [placed]; [lia|].
    intros (? & ? & Hp%IH). cbn in *. lia. }
  destruct i as [|i]; [by injection Hi as <- <-|]. destruct (IH _ _ _ _ _ Hp Hf Hi). lia.
Qed.

Lemma placed_disjoint ps : forall from to i j p l q m, placed from ps to -> Forall (fun x => layout_ok x.2) ps ->
  ps !! i = Some (p, l) -> ps !! j = Some (q, m) -> (i < j)%nat -> p + size l <= q.
Proof.
  induction ps as [|[r o] ps IH]; intros from to i j p l q m Hp Hf Hi Hj Hij; [done|]. cbn [placed] in Hp.
  destruct Hp as (? & ? & Hp). apply Forall_cons in Hf as [_ Hf]. destruct j as [|j]; [lia|]. destruct i as [|i].
  - injection Hi as <- <-. by destruct (placed_above _ _ _ _ _ _ Hp Hf Hj).
  - eapply (IH _ _ i j); eauto. lia.
Qed.
Lemma placed_aligned ps : forall from to i p l, placed from ps to -> ps !! i = Some (p, l) -> p mod align l = 0.
Proof.
  induction ps as [|[q m] ps IH]; intros from to i p l Hp Hi; [done|]. cbn [placed] in Hp. destruct Hp as (? & ? & Hp).
  destruct i as [|i]; [by injection Hi as <- <-|]. by eapply IH.
Qed.
End Heap.

(** ** What a client can rely on *)

(** [FrameAllocator::allocate] returns the lowest free frame and takes exactly that
    frame out of the free ones; it returns nothing only when no frame is free. The
    order of the segments is kept. *)
Theorem frame_allocate {F} `{PhysFrameLaws F} (fa : FrameAllocator.t F) : fa_ok fa ->
  exists r fa', FrameAllocator.allocate fa = Ok (r, fa') /\ fa_ok fa' /\
  match r with
  | None => forall x, ~ fa_free fa x
  | Some f => fa_free fa (number f) /\ (forall x, fa_free fa x -> number f <= x) /\
      forall x, fa_free fa' x <-> fa_free fa x /\ x <> number f
  end.
Proof. apply allocate_ok. Qed.

Definition two_segments : FrameAllocator.t Z := FrameAllocator.mk [MemoryRange.mk 3 2; MemoryRange.mk 9 4].

Lemma two_segments_ok : fa_ok two_segments.
Proof. split; [|zeval]. unfold two_segments. cbn [FrameAllocator.segments sorted_from]. unfold hi, lo, FRAMES. cbn. lia. Qed.

Lemma frame_allocate_witness : exists r fa', FrameAllocator.allocate two_segments = Ok (r, fa') /\ fa_ok fa' /\ r = Some 3.
Proof.
  destruct (frame_allocate two_segments two_segments_ok) as (r & fa' & E & Hok & _).
  exists r, fa'. split_and!; [exact E|exact Hok|]. by injection E as <- _.
Defined.

(** [FrameAllocator::alloc_range] for at least one page returns the lowest run of that
    many consecutive free frames and takes exactly these out of the free ones; it
    returns nothing, and changes nothing, only when there is no such run anywhere. *)
Theorem frame_alloc_range {F} `{PhysFrameLaws F} (fa : FrameAllocator.t F) k : fa_ok fa -> 1 <= k ->
  exists r fa', FrameAllocator.alloc_range k fa = Ok (r, fa') /\ fa_ok fa' /\
  match r with
  | None => fa' = fa /\ forall y, ~ forall x, y <= x < y + k -> fa_free fa x
  | Some f => (forall x, number f <= x < number f + k -> fa_free fa x) /\
      (forall y, (forall x, y <= x < y + k -> fa_free fa x) -> number f <= y) /\
      forall x, fa_free fa' x <-> fa_free fa x /\ ~ number f <= x < number f + k
  end.
Proof. intros Hok Hk. destruct (alloc_range_ok fa k Hok Hk) as (r & fa' & ? & ? & _ & ?). by exists r, fa'. Qed.

Lemma frame_alloc_range_witness : exists r fa', FrameAllocator.alloc_range 3 two_segments = Ok (r, fa') /\ fa_ok fa' /\ r = Some 9.
Proof.
  destruct (frame_alloc_range two_segments 3 two_segments_ok ltac:(lia)) as (r & fa' & E & Hok & _).
  exists r, fa'. split_and!; [exact E|exact Hok|]. by injection E as <- _.
Defined.

(** C31: [FrameAllocator::deallocate] of a frame that is not free returns, adds exactly
    that frame to the free ones, and leaves the segments sorted, disjoint and merged. *)
Theorem frame_deallocate {F} `{PhysFrameLaws F} (fa : FrameAllocator.t F) addr :
  fa_ok fa -> ~ fa_free fa (number addr) -> 0 <= number addr -> number addr + 1 < FRAMES ->
  zlen (FrameAllocator.segments fa) + 1 < 2 ^ 31 ->
  exists fa', FrameAllocator.deallocate addr fa = Ok (tt, fa') /\ fa_ok fa' /\
    forall x, fa_free fa' x <-> fa_free fa x \/ x = number addr.
Proof. intros. destruct (deallocate_ok fa addr) as (fa' & ? & ? & ? & _); try assumption. by exists fa'. Qed.

Lemma two_segments_free x : fa_free two_segments x <-> 3 <= x < 5 \/ 9 <= x < 13.
Proof. unfold fa_free, two_segments. cbn [FrameAllocator.segments]. rewrite !frees_cons, frees_nil. unfold hi, lo. cbn. intuition lia. Qed.

Lemma frame_deallocate_witness : exists fa', FrameAllocator.deallocate 5 two_segments = Ok (tt, fa') /\ fa_ok fa' /\
  fa' = FrameAllocator.mk [MemoryRange.mk 3 3; MemoryRange.mk 9 4].
Proof.
  destruct (frame_deallocate two_segments 5) as (fa' & E & Hok & _).
  - apply two_segments_ok.
  - rewrite two_segments_free. cbn. lia.
  - zeval.
  - zeval.
  - zeval.
  - exists fa'. split_and!; [exact E|exact Hok|]. by injection E as <-.
Defined.

(** Giving back a frame right after it was allocated restores the allocator: the same
    segments, not only the same free frames. *)
Theorem frame_roundtrip {F} `{PhysFrameLaws F} (fa fa' : FrameAllocator.t F) f :
  fa_ok fa -> zlen (FrameAllocator.segments fa) + 1 < 2 ^ 31 -> FrameAllocator.allocate fa = Ok (Some f, fa') ->
  FrameAllocator.deallocate f fa' = Ok (tt, fa).
Proof.
  intros Hok Hl E. destruct (allocate_ok fa Hok) as (r & fa2 & E2 & Hok2 & Hr). rewrite E in E2. injection E2 as <- <-.
  destruct Hr as (Hf & _ & Hx). pose proof (free_bounds fa _ Hok Hf).
  assert (Hl' : zlen (FrameAllocator.segments fa') <= zlen (FrameAllocator.segments fa)) by (by apply (allocate_length fa f)).
  destruct (deallocate_ok fa' f) as (fa3 & E3 & Hok3 & Hx3 & _); [done|rewrite Hx; tauto|lia|lia|lia|].
  rewrite E3. do 2 f_equal. apply fa_eq; [done|done|]. intros x. rewrite Hx3, Hx.
  destruct (decide (x = number f)) as [->|]; tauto.
Qed.

Lemma frame_roundtrip_witness :
  FrameAllocator.deallocate 3 (FrameAllocator.mk [MemoryRange.mk 4 1; MemoryRange.mk 9 4]) = Ok (tt, two_segments).
Proof.
  apply (frame_roundtrip two_segments (FrameAllocator.mk [MemoryRange.mk 4 1; MemoryRange.mk 9 4]) 3).
  - apply two_segments_ok.
  - zeval.
  - reflexivity.
Defined.

(** A frame that is given back twice is free twice: the allocator does not notice
    that it already is free, its segments overlap from then on, and it hands out the
    same frame to two callers. *)
Theorem frame_double_free {F} `{PhysFrameLaws F} (f g : F) k : 0 <= number f -> 2 <= k -> number f + k < FRAMES ->
  number g = number f ->
  exists fa1 fa2 fa3, FrameAllocator.deallocate g (FrameAllocator.mk [MemoryRange.mk f k]) = Ok (tt, fa1) /\
    FrameAllocator.alloc_range k fa1 = Ok (Some f, fa2) /\
    FrameAllocator.allocate fa2 = Ok (Some f, fa3).
Proof.
  intros Hf Hk Hb Hg. apply number_inj in Hg as ->.
  exists (FrameAllocator.mk [MemoryRange.mk f k; MemoryRange.mk f 1]), (FrameAllocator.mk [MemoryRange.mk f 1]), (FrameAllocator.mk []).
  split_and!.
  - rewrite (deallocate_finish f _ [MemoryRange.mk f k] FrameAllocator.not (-1)); [done|done|].
    cbn [FrameAllocator.segments FrameAllocator.scan].
    destruct (end_next (MemoryRange.mk f k)) as (e & e1 & Ee & Ee1 & Ne); [unfold hi, lo; cbn; lia..|].
    unfold hi, lo in Ne. cbn in Ne. rewrite Ee. cbn [mbind outcome_bind]. rewrite Ee1. cbn [mbind outcome_bind].
    rewrite frame_ltb_eq, frame_eqb_eq, Ne, (proj2 (Z.ltb_ge _ _)), (proj2 (Z.eqb_neq _ _)) by lia.
    destruct (frame_add_ok f 1) as (a1 & Ea & Na); [lia..|]. rewrite Ea. cbn [mbind outcome_bind MemoryRange.start].
    by rewrite frame_ltb_eq, frame_eqb_eq, Na, (proj2 (Z.ltb_ge _ _)), (proj2 (Z.eqb_neq _ _)) by lia.
  - unfold FrameAllocator.alloc_range. cbn [FrameAllocator.segments find_index MemoryRange.pages].
    rewrite Z.leb_refl. cbn [lookup list_lookup unwrap mbind outcome_bind MemoryRange.pages]. by rewrite Z.eqb_refl.
  - done.
Qed.

Lemma frame_double_free_witness : exists fa1 fa2 fa3 : FrameAllocator.t Z,
  FrameAllocator.deallocate 3 (FrameAllocator.mk [MemoryRange.mk 3 2]) = Ok (tt, fa1) /\
  FrameAllocator.alloc_range 2 fa1 = Ok (Some 3, fa2) /\ FrameAllocator.allocate fa2 = Ok (Some 3, fa3).
Proof. apply (frame_double_free 3 3 2); zeval. reflexivity. Defined.

(** The pages of a buffer. *)
Lemma pages_of_ok size : 1 <= size -> size + PAGE_SIZE < U64 ->
  exists k, Provider.pages_of size = Ok k /\ 1 <= k /\ size <= k * PAGE_SIZE < size + PAGE_SIZE.
Proof.
  change PAGE_SIZE with 4096. intros Hs Hb. unfold Provider.pages_of. change PAGE_SIZE with 4096.
  rewrite add64_ok by lia. cbn [mbind outcome_bind]. rewrite sub64_ok by lia. cbn [mbind outcome_bind].
  eexists. split; [done|]. pose proof (Z.div_mod (size + 4096 - 1) 4096). pose proof (Z.mod_pos_bound (size + 4096 - 1) 4096). lia.
Qed.

(** The addresses of a frame whose virtual address exists. *)
Lemma frame_addresses {F} `{PhysFrameLaws F} (f : F) off : U64 - 2 ^ 47 <= off -> 0 <= number f < FRAMES ->
  (number f + 1) * PAGE_SIZE + off <= U64 ->
  let p := number f * PAGE_SIZE in
  start_address f = p /\ phys_new p = Ok p /\ add64 p off = Ok (p + off) /\ virt_new (p + off) = Ok (p + off) /\
  sub64 (p + off) off = Ok p /\ containing_address p = Ok f /\ p / PAGE_SIZE = number f /\ p mod PAGE_SIZE = 0.
Proof.
  intros Ho Hf Hc p. assert (Hp : 0 <= p < FRAMES * PAGE_SIZE) by (unfold p; change PAGE_SIZE with 4096; lia).
  assert (Hpd : p / PAGE_SIZE = number f) by (unfold p; by apply Z.div_mul).
  assert (Hv : U64 - 2 ^ 47 <= p + off < U64) by (unfold p in *; change PAGE_SIZE with 4096 in *; lia).
  split_and!; [apply start_address_eq|by apply phys_new_ok|apply add64_ok; lia|apply virt_new_ok; by right| | |done|].
  - rewrite sub64_ok by lia. f_equal. lia.
  - destruct (containing_address_eq p Hp) as (f' & -> & Nf). rewrite Hpd in Nf. by apply number_inj in Nf as ->.
  - unfold p. by apply Z.mod_mul.
Qed.

(** C32: [alloc_dma] returns a page-aligned physical address of frames that were free and
    now are not, big enough for the buffer, with its virtual address; giving the buffer
    back with [dealloc_dma] restores the memory state exactly. When there is no
    long enough run of free frames, [alloc_dma] panics. *)
Theorem dma_roundtrip {F} `{PhysFrameLaws F} (fa : FrameAllocator.t F) off p4 size :
  fa_ok fa -> 1 <= size -> size + PAGE_SIZE < U64 ->
  U64 - 2 ^ 47 <= off -> (forall x, fa_free fa x -> (x + 1) * PAGE_SIZE + off <= U64) ->
  zlen (FrameAllocator.segments fa) + (size + PAGE_SIZE) / PAGE_SIZE < 2 ^ 31 ->
  let st := Memory.mk (Some fa) off p4 in
  (exists v p fa', Provider.alloc_dma size st = Ok ((v, p), Memory.mk (Some fa') off p4) /\
     p mod PAGE_SIZE = 0 /\ v = p + off /\
     (forall x, p / PAGE_SIZE <= x -> x * PAGE_SIZE < p + size -> fa_free fa x /\ ~ fa_free fa' x) /\
     Provider.dealloc_dma v size (Memory.mk (Some fa') off p4) = Ok (tt, st)) \/
  (Provider.alloc_dma size st = Fault (Panic PUnwrap) /\
     forall y, ~ forall x, y <= x -> x * PAGE_SIZE < y * PAGE_SIZE + size -> fa_free fa x).
Proof.
  intros Hok Hs Hb Ho Hcan Hl st. destruct (pages_of_ok size Hs Hb) as (k & Ek & Hk & Hks).
  assert (Hkl : k <= (size + PAGE_SIZE) / PAGE_SIZE) by (change PAGE_SIZE with 4096 in *; apply Z.div_le_lower_bound; lia).
  destruct (alloc_range_ok fa k Hok Hk) as (r & fa' & Er & Hok' & Hl' & Hr).
  assert (Ea : Memory.alloc_range k st = Ok (r, Memory.mk (Some fa') off p4)).
  { unfold Memory.alloc_range, Memory.with_frame, st. cbn [Memory.FRAME unwrap mbind outcome_bind]. by rewrite Er. }
  destruct r as [f|].
  2:{ right. destruct Hr as [-> Hno]. split.
      - unfold Provider.alloc_dma, Provider.virtio_dma_alloc, mbind, M_bind, lift. by rewrite Ek, Ea.
      - intros y Hrun. apply (Hno y). intros x Hx. apply Hrun; [lia|]. change PAGE_SIZE with 4096 in *. lia. }
  destruct Hr as (Hfree & _ & Hx). left.
  assert (Hfirst : fa_free fa (number f)) by (apply Hfree; lia).
  assert (Hlast : fa_free fa (number f + k - 1)) by (apply Hfree; lia).
  pose proof (free_bounds fa _ Hok Hfirst). pose proof (free_bounds fa _ Hok Hlast).
  assert (Hfb : 0 <= number f < FRAMES) by lia.
  destruct (frame_addresses f off Ho Hfb (Hcan _ Hfirst)) as (Es & Ep & Eadd & Ev & Esub & Ec & Hpd & Hpm).
  set (p := number f * PAGE_SIZE) in *.
  destruct (dealloc_from_ok off p4 f k 0 fa') as (fa2 & E2 & Hok2 & Hx2); [done|lia|lia|lia|lia| |lia|].
  { intros x Hxk. rewrite Hx. lia. }
  assert (fa2 = fa) as ->.
  { apply fa_eq; [done|done|]. intros x. rewrite Hx2, Hx. specialize (Hfree x). rewrite Z.add_0_r.
    destruct (decide (number f <= x < number f + k)); tauto. }
  exists (p + off), p, fa'. split_and!; [|done|done| |].
  - unfold Provider.alloc_dma, Provider.virtio_dma_alloc, Memory.to_virt_addr, mbind, M_bind, lift. rewrite Ek, Ea.
    cbn [unwrap]. rewrite Es, Ep. cbn [Memory.PHYSICAL_MEMORY_OFFSET]. rewrite Eadd. cbn [outcome_bind]. by rewrite Ev.
  - intros x Hx1 Hxs. rewrite Hpd in Hx1. assert (number f <= x < number f + k) as Hin.
    { unfold p in Hxs. change PAGE_SIZE with 4096 in *. lia. }
    split; [by apply Hfree|]. rewrite Hx. tauto.
  - unfold Provider.dealloc_dma, Provider.virtio_dma_dealloc, Memory.to_phys_addr, mbind, M_bind, lift.
    cbn [Memory.PHYSICAL_MEMORY_OFFSET]. rewrite Esub. cbn [outcome_bind]. rewrite Ep. cbn [outcome_bind]. rewrite Ek, Ec. exact E2.
Qed.

Definition OFFSET : Z := U64 - 2 ^ 47.

Lemma dma_roundtrip_witness :
  exists v p fa', Provider.alloc_dma 9000 (Memory.mk (Some two_segments) OFFSET 0) = Ok ((v, p), Memory.mk (Some fa') OFFSET 0) /\
    p = 9 * PAGE_SIZE /\ Provider.dealloc_dma v 9000 (Memory.mk (Some fa') OFFSET 0) = Ok (tt, Memory.mk (Some two_segments) OFFSET 0).
Proof.
  destruct (dma_roundtrip two_segments OFFSET 0 9000) as [(v & p & fa' & E & _ & _ & _ & Ed)|[E _]].
  - apply two_segments_ok.
  - zeval.
  - zeval.
  - zeval.
  - intros x Hx. apply two_segments_free in Hx. unfold OFFSET, U64. change PAGE_SIZE with 4096. lia.
  - zeval.
  - exists v, p, fa'. split_and!; [exact E| |exact Ed]. vm_compute in E. injection E as _ <- _. reflexivity.
  - vm_compute in E. discriminate E.
Defined.

(** C33: The heap hands out aligned blocks that never overlap, for any sequence of
    allocations that fits into the address space; it never gives a block out twice. *)
Theorem heap_alloc layouts v : Forall Heap.layout_ok layouts -> 0 <= v -> v + Heap.total layouts < U64 ->
  exists ps to, Heap.alloc_all layouts v = Ok (ps, to) /\ ps.*2 = layouts /\
    (forall i p l, ps !! i = Some (p, l) -> v <= p /\ p mod Heap.align l = 0 /\ p + Heap.size l <= to) /\
    forall i j p l q m, ps !! i = Some (p, l) -> ps !! j = Some (q, m) -> (i < j)%nat -> p + Heap.size l <= q.
Proof.
  intros Hl Hv Hb. destruct (Heap.alloc_all_ok layouts Hl v Hv Hb) as (ps & to & E & Hp & Hl2 & _).
  assert (Hf : Forall (fun x => Heap.layout_ok x.2) ps) by (rewrite <- Hl2, Forall_fmap in Hl; exact Hl).
  exists ps, to. split_and!; [done|done| |].
  - intros i p l Hi. destruct (Heap.placed_above _ _ _ _ _ _ Hp Hf Hi). split_and!; [done| |done].
    by eapply Heap.placed_aligned.
  - intros. by eapply (Heap.placed_disjoint ps v to i j).
Qed.

Lemma heap_alloc_witness : exists ps to,
  Heap.alloc_all [Heap.mk_layout 5 1; Heap.mk_layout 16 8] Heap.START = Ok (ps, to) /\ to = Heap.START + 24.
Proof.
  destruct (heap_alloc [Heap.mk_layout 5 1; Heap.mk_layout 16 8] Heap.START) as (ps & to & E & _).
  - constructor; [split; zeval|]. constructor; [split; zeval|]. constructor.
  - zeval.
  - zeval.
  - exists ps, to. split; [exact E|]. vm_compute in E. injection E as _ <-. reflexivity.
Defined.

(** ** The heap and the frames *)

(** The default of [physical_memory_offset] in the configuration of the boot loader. *)
Definition physical_memory_offset : Z := 0xffff900000000000.

(** The first frame of the heap in the window onto physical memory, at 1 GiB. *)
Definition heap_frame : Z := 0x40000.

(** The heap is not kept apart from the frame allocator: the heap starts at 1 GiB of
    the window onto physical memory, and when the memory map offers the frame there,
    a DMA buffer is placed on top of the first block of the heap. *)
Theorem heap_dma_overlap {F} `{PhysFrameLaws F} (f : F) k p4 : number f = heap_frame -> 2 <= k -> heap_frame + k < FRAMES ->
  exists p v pa st', Heap.alloc (Heap.mk_layout 8 8) Heap.START = Ok (p, p + 8) /\
    Provider.alloc_dma PAGE_SIZE (Memory.mk (Some (FrameAllocator.mk [MemoryRange.mk f k])) physical_memory_offset p4) =
      Ok ((v, pa), st') /\
    v <= p /\ p + 8 <= v + PAGE_SIZE.
Proof.
  intros Hf Hk Hb. destruct (frame_addresses f physical_memory_offset) as (Es & Ep & Eadd & Ev & _).
  { zeval. }
  { rewrite Hf. zeval. }
  { rewrite Hf. zeval. }
  destruct (frame_add_ok f 1) as (g & Eg & _); [rewrite ?Hf; unfold heap_frame in *; lia..|].
  exists (Heap.START + 8), (number f * PAGE_SIZE + physical_memory_offset), (number f * PAGE_SIZE). eexists. split_and!.
  - reflexivity.
  - unfold Provider.alloc_dma, Provider.virtio_dma_alloc, Memory.to_virt_addr, Memory.alloc_range, Memory.with_frame,
      FrameAllocator.alloc_range, mbind, M_bind, lift.
    change (Provider.pages_of PAGE_SIZE) with (Ok 1 : outcome Z).
    cbn [Memory.FRAME unwrap outcome_bind FrameAllocator.segments find_index MemoryRange.pages].
    rewrite (proj2 (Z.leb_le 1 k)) by lia. cbn [lookup list_lookup unwrap outcome_bind MemoryRange.pages MemoryRange.start].
    rewrite (proj2 (Z.eqb_neq k 1)) by lia. rewrite Eg. cbn [outcome_bind]. rewrite sub64_ok by lia. cbn [outcome_bind unwrap].
    rewrite Es, Ep. cbn [Memory.PHYSICAL_MEMORY_OFFSET]. rewrite Eadd. cbn [outcome_bind]. by rewrite Ev.
  - rewrite Hf. zeval.
  - rewrite Hf. zeval.
Qed.

Lemma heap_dma_overlap_witness : exists p v pa st', Heap.alloc (Heap.mk_layout 8 8) Heap.START = Ok (p, p + 8) /\
  Provider.alloc_dma PAGE_SIZE (Memory.mk (Some (FrameAllocator.mk [MemoryRange.mk heap_frame 100])) physical_memory_offset 0) =
    Ok ((v, pa), st') /\ v <= p /\ p + 8 <= v + PAGE_SIZE.
Proof. apply (heap_dma_overlap heap_frame 100 0); [reflexivity|zeval..]. Defined.
