(* ===== verification/Config.v ===== *)
(** The configuration of the boot loader: bootloader/efi/src/config.rs.

    The file is UTF-8 text with a line [key=value] per option. A string is the list of
    its characters (code points); [chars] decodes the bytes of the file. Messages about
    unknown keys are left out. *)
From S2P Require Import Prelude Machine Utf8.
From Stdlib Require Import ZArith Lia.
From stdpp Require Import gmap functions sorting list_numbers list.
Local Open Scope Z_scope.

(** ** Strings of the standard library *)

(** The character of a valid sequence of bytes. *)
Definition code_point (l : list Z) : Z :=
  match l with
  | [a] => a
  | [a; b] => Z.lor (Z.shiftl (Z.land a 31) 6) (Z.land b 63)
  | [a; b; c] => Z.lor (Z.shiftl (Z.land a 15) 12) (Z.lor (Z.shiftl (Z.land b 63) 6) (Z.land c 63))
  | [a; b; c; d] => Z.lor (Z.shiftl (Z.land a 7) 18)
      (Z.lor (Z.shiftl (Z.land b 63) 12) (Z.lor (Z.shiftl (Z.land c 63) 6) (Z.land d 63)))
  | _ => 0
  end.

Fixpoint decode_loop (fuel : nat) (l : list Z) : list Z :=
  match fuel, l with
  | S fuel, _ :: _ => let k := (utf8_next l).1 in code_point (take k l) :: decode_loop fuel (drop k l)
  | _, _ => []
  end.

(** [core::str::from_utf8], as characters. *)
Definition from_utf8 (l : list Z) : option (list Z) :=
  if utf8 l then Some (decode_loop (length l) l) else None.

(** [char::is_whitespace]: the Unicode property White_Space *)
Definition is_whitespace (c : Z) : bool :=
  Utf8.between 9 13 c || (c =? 32) || (c =? 0x85) || (c =? 0xA0) || (c =? 0x1680) || Utf8.between 0x2000 0x200A c ||
  (c =? 0x2028) || (c =? 0x2029) || (c =? 0x202F) || (c =? 0x205F) || (c =? 0x3000).

Fixpoint trim_start (s : list Z) : list Z :=
  match s with [] => [] | c :: s' => if is_whitespace c then trim_start s' else s end.
(** [str::trim] *)
Definition trim (s : list Z) : list Z := reverse (trim_start (reverse (trim_start s))).

(** [splitn(2, sep)]: the first piece and the rest behind the separator, if there is one. *)
Fixpoint splitn2 (sep : Z) (s : list Z) : list Z * option (list Z) :=
  match s with
  | [] => ([], None)
  | c :: s => if c =? sep then ([], Some s) else let '(a, b) := splitn2 sep s in (c :: a, b)
  end.

(** [char::len_utf8] *)
Definition len_utf8 (c : Z) : Z :=
  if c <? 0x80 then 1 else if c <? 0x800 then 2 else if c <? 0x10000 then 3 else 4.

(** [&s[n..]]: panics unless byte [n] starts a character or is the end. *)
Fixpoint slice_from (n : Z) (s : list Z) : outcome (list Z) :=
  if n =? 0 then Ok s
  else match s with
    | [] => Fault (Panic PIndex)
    | c :: s => if len_utf8 c <=? n then slice_from (n - len_utf8 c) s else Fault (Panic PIndex)
    end.

(** ** [Config] *)
Module Config.

Record t := mk {
  kernel_stack_address : Z;
  kernel_stack_size : Z;
  physical_memory_offset : Z;
  kernel_path : list Z;
  resolution : option (Z * Z)
}.

Definition DEFAULT_CONFIG : t :=
  mk 0xffff802000000000 512 0xffff900000000000 (str "\EFI\canyon\kernel.elf") None.

Definition r10 (value : list Z) : outcome Z := unwrap (from_str_radix 10 value) PUnwrap.
Definition r16 (value : list Z) : outcome Z :=
  digits ← slice_from 2 value;
  unwrap (from_str_radix 16 digits) PUnwrap.

Definition process (self : t) (key value : list Z) : outcome t :=
  if decide (key = str "kernel_stack_address") then
    a ← r16 value;
    Ok (mk a (kernel_stack_size self) (physical_memory_offset self) (kernel_path self) (resolution self))
  else if decide (key = str "kernel_stack_size") then
    n ← r10 value;
    Ok (mk (kernel_stack_address self) n (physical_memory_offset self) (kernel_path self) (resolution self))
  else if decide (key = str "physical_memory_offset") then
    o ← r16 value;
    Ok (mk (kernel_stack_address self) (kernel_stack_size self) o (kernel_path self) (resolution self))
  else if decide (key = str "kernel_path") then
    Ok (mk (kernel_stack_address self) (kernel_stack_size self) (physical_memory_offset self) value (resolution self))
  else if decide (key = str "resolution") then
    let iter := Utf8.split 120 value in
    x ← unwrap (iter !! 0%nat) PUnwrap;
    x ← unwrap (from_str_radix 10 x) PUnwrap;
    y ← unwrap (iter !! 1%nat) PUnwrap;
    y ← unwrap (from_str_radix 10 y) PUnwrap;
    Ok (mk (kernel_stack_address self) (kernel_stack_size self) (physical_memory_offset self) (kernel_path self) (Some (x, y)))
  else Ok self.

(** One line of the file. *)
Definition parse_line (config : t) (line : list Z) : outcome t :=
  let line := trim line in
  if match line with [] => true | c :: _ => c =? 35 end then Ok config
  else
    let '(key, rest) := splitn2 61 line in
    value ← unwrap rest PExpect;
    process config key value.

Definition parse (content : list Z) : outcome t :=
  content ← unwrap (from_utf8 content) PExpect;
  foldO parse_line DEFAULT_CONFIG (Utf8.split 10 content).
End Config.

(** ** Reading text that was laid out *)

Lemma from_utf8_ascii l : Forall (fun b => 0 <= b < 128) l -> from_utf8 l = Some l.
Proof.
  intros Hl. unfold from_utf8. rewrite ascii_utf8 by done. f_equal.
  induction Hl as [|b l Hb Hl IH]; [done|]. cbn [decode_loop length].
  assert (E : (utf8_next (b :: l)).1 = 1%nat).
  { unfold utf8_next. change (safe_get (b :: l) 0) with b. by rewrite (proj2 (Z.ltb_lt b 128)) by lia. }
  cbn zeta. rewrite E. change (drop 1 (b :: l)) with (drop 0 l). by rewrite drop_0, IH.
Qed.

Abbreviation blank := (Forall (fun c => is_whitespace c = true)).

Lemma trim_start_blank ws s : blank ws -> trim_start (ws ++ s) = trim_start s.
Proof. induction 1 as [|c ws Hc _ IH]; [done|]. cbn. by rewrite Hc. Qed.

Lemma trim_start_id s : (forall c, head s = Some c -> is_whitespace c = false) -> trim_start s = s.
Proof. destruct s as [|c s]; [done|]. intros H. cbn. by rewrite H. Qed.

(** Blanks around a text that neither starts nor ends with one. *)
Lemma trim_blanks ws ws' s : blank ws -> blank ws' -> (forall c, head s = Some c -> is_whitespace c = false) ->
  (forall c, last s = Some c -> is_whitespace c = false) -> trim (ws ++ s ++ ws') = s.
Proof.
  intros Hws Hws' Hh Hl. unfold trim. rewrite trim_start_blank by done.
  destruct s as [|c s].
  - cbn [app]. rewrite <- (app_nil_r ws'), trim_start_blank by done. done.
  - rewrite (trim_start_id ((c :: s) ++ ws')) by (intros d Hd; apply Hh; exact Hd).
    rewrite reverse_app, trim_start_blank by (by apply Forall_reverse).
    rewrite trim_start_id; [apply reverse_involutive|]. intros d Hd. apply Hl. by rewrite <- head_reverse.
Qed.

Lemma splitn2_app sep a b : sep ∉ a -> splitn2 sep (a ++ sep :: b) = (a, Some b).
Proof.
  induction a as [|c a IH]; intros Ha; cbn; [by rewrite Z.eqb_refl|].
  apply not_elem_of_cons in Ha as [Hc Ha]. rewrite (proj2 (Z.eqb_neq _ _)), IH by done. done.
Qed.

Lemma splitn2_none sep a : sep ∉ a -> splitn2 sep a = (a, None).
Proof.
  induction a as [|c a IH]; intros Ha; cbn; [done|].
  apply not_elem_of_cons in Ha as [Hc Ha]. rewrite (proj2 (Z.eqb_neq _ _)), IH by done. done.
Qed.

(** A line of a configuration file: blank, a comment, or a setting, with blanks around. *)
Inductive item :=
  | Blank (ws : list Z)
  | Comment (ws text : list Z)
  | Setting (ws key value ws' : list Z).

Definition item_line (i : item) : list Z :=
  match i with
  | Blank ws => ws
  | Comment ws text => ws ++ 35 :: text
  | Setting ws key value ws' => ws ++ (key ++ 61 :: value) ++ ws'
  end.

Definition item_ok (i : item) : Prop :=
  Forall (fun c => 0 <= c < 128 /\ c <> 10) (item_line i) /\
  match i with
  | Blank ws => blank ws
  | Comment ws text => blank ws
  | Setting ws key value ws' => blank ws /\ blank ws' /\ (61 ∉ key) /\
      (exists c key', key = c :: key' /\ is_whitespace c = false /\ c <> 35) /\
      (forall c, last value = Some c -> is_whitespace c = false)
  end.

(** The lines that [process] gets. *)
Definition item_effect (config : Config.t) (i : item) : outcome Config.t :=
  match i with
  | Setting _ key value _ => Config.process config key value
  | _ => Ok config
  end.

Lemma trim_comment ws text : blank ws -> exists t, trim (ws ++ 35 :: text) = 35 :: t.
Proof.
  intros Hws. unfold trim. rewrite trim_start_blank by done. cbn [trim_start]. change (is_whitespace 35) with false. cbn iota.
  rewrite reverse_cons. generalize (reverse text). intros r. induction r as [|c r IH]; [by exists []|].
  cbn [app trim_start]. destruct (is_whitespace c); [exact IH|].
  exists (reverse r ++ [c]). by rewrite reverse_cons, reverse_app.
Qed.

Lemma parse_line_item config i : item_ok i -> Config.parse_line config (item_line i) = item_effect config i.
Proof.
  intros [_ Hi]. unfold Config.parse_line. destruct i as [ws|ws text|ws key value ws']; cbn [item_line item_effect].
  - rewrite <- (app_nil_r ws), <- (app_nil_r (ws ++ [])), <- app_assoc, trim_blanks; [done|done|constructor|done|done].
  - destruct (trim_comment ws text Hi) as [t ->]. done.
  - destruct Hi as (Hws & Hws' & Hkey & (c & key' & -> & Hc & H35) & Hv). rewrite trim_blanks; [|done|done|..].
    + rewrite splitn2_app by done. cbn. by rewrite (proj2 (Z.eqb_neq c 35)) by done.
    + intros d [= <-]. done.
    + intros d. rewrite last_app. cbn. destruct (last value) as [z|] eqn:E.
      * destruct value as [|v value]; [done|]. rewrite last_cons_cons, E. intros [= <-]. auto.
      * apply last_None in E as ->. intros [= <-]. done.
Qed.

(** A text of ASCII lines is processed line by line. *)
Lemma parse_lines ls : ls <> [] -> Forall (Forall (fun c => 0 <= c < 128 /\ c <> 10)) ls ->
  Config.parse (join_on 10 ls) = foldO Config.parse_line Config.DEFAULT_CONFIG ls.
Proof.
  intros Hne Hls. unfold Config.parse. rewrite from_utf8_ascii.
  - cbn [unwrap]. omon. rewrite split_join; [done|done|]. eapply Forall_impl; [exact Hls|]. intros l Hl Hin.
    by destruct (proj1 (Forall_forall _ _) Hl _ Hin).
  - clear Hne. induction Hls as [|l ls Hl Hls IH]; [constructor|].
    assert (Ha : Forall (fun b => 0 <= b < 128) l) by (eapply Forall_impl; [exact Hl|]; by intros ? [? _]).
    destruct ls as [|l' ls]; [done|].
    change (join_on 10 (l :: l' :: ls)) with (l ++ 10 :: join_on 10 (l' :: ls)).
    apply Forall_app_2; [done|]. constructor; [lia|exact IH].
Qed.

Lemma fold_items c items : Forall item_ok items ->
  foldO Config.parse_line c (item_line <$> items) = foldO item_effect c items.
Proof.
  intros Hi. revert c. induction Hi as [|i items Hi _ IH]; intros c; [done|].
  cbn [fmap list_fmap foldO]. rewrite parse_line_item by done. destruct (item_effect c i); [apply IH|done].
Qed.

Lemma item_lines_plain items : Forall item_ok items ->
  Forall (Forall (fun c => 0 <= c < 128 /\ c <> 10)) (item_line <$> items).
Proof. intros Hi. apply Forall_fmap. eapply Forall_impl; [exact Hi|]. by intros i [? _]. Qed.

Lemma parse_items items : items <> [] -> Forall item_ok items ->
  Config.parse (join_on 10 (item_line <$> items)) = foldO item_effect Config.DEFAULT_CONFIG items.
Proof.
  intros Hne Hi. rewrite parse_lines; [by apply fold_items|by destruct items|by apply item_lines_plain].
Qed.

Lemma trim_start_split s : exists ws, blank ws /\ s = ws ++ trim_start s.
Proof.
  induction s as [|c s (ws & Hws & E)]; [by exists []|]. cbn. destruct (is_whitespace c) eqn:Hc; [|by exists []].
  exists (c :: ws). split; [by constructor|]. cbn. by rewrite <- E.
Qed.

(** A line that starts with a character keeps it, and gets no new ones. *)
Lemma trim_line ch rest : is_whitespace ch = false -> exists r, trim (ch :: rest) = ch :: r /\
  forall x, x ∉ ch :: rest -> x ∉ ch :: r.
Proof.
  intros Hc. unfold trim. rewrite (trim_start_id (ch :: rest)) by (by intros ? [= <-]).
  destruct (trim_start_split (reverse (ch :: rest))) as (ws & Hws & E).
  set (m := trim_start _) in *. apply (f_equal reverse) in E. rewrite reverse_involutive, reverse_app in E.
  destruct (reverse m) as [|d r] eqn:Em.
  - cbn in E. apply Forall_reverse in Hws. rewrite <- E in Hws. apply Forall_cons in Hws as [? _]. congruence.
  - injection E as -> Er. exists r. split; [done|]. intros x Hx. rewrite Er, app_comm_cons in Hx.
    by apply not_elem_of_app in Hx as [? _].
Qed.

Lemma parse_line_no_value c line : (61 ∉ line) ->
  (exists ch rest, line = ch :: rest /\ is_whitespace ch = false /\ ch <> 35) ->
  Config.parse_line c line = Fault (Panic PExpect).
Proof.
  intros H61 (ch & rest & -> & Hws & H35). unfold Config.parse_line.
  destruct (trim_line ch rest Hws) as (r & -> & Hr). rewrite (proj2 (Z.eqb_neq ch 35)) by done.
  rewrite splitn2_none by auto. done.
Qed.

(** ** Printing a configuration *)

Definition hex (n : Z) : list Z := str "0x" ++ (digit_char <$> digits_upto 64 16 n).

Definition config_items (c : Config.t) : list item :=
  [Setting [] (str "kernel_stack_address") (hex (Config.kernel_stack_address c)) [];
   Setting [] (str "kernel_stack_size") (decimal (Config.kernel_stack_size c)) [];
   Setting [] (str "physical_memory_offset") (hex (Config.physical_memory_offset c)) [];
   Setting [] (str "kernel_path") (Config.kernel_path c) []] ++
  match Config.resolution c with
  | Some (x, y) => [Setting [] (str "resolution") (decimal x ++ 120 :: decimal y) []]
  | None => []
  end.

Definition print_config (c : Config.t) : list Z := join_on 10 (item_line <$> config_items c).

(** What the format can express: 64-bit numbers and a path of ASCII characters on one
    line that does not end with a blank. *)
Definition config_ok (c : Config.t) : Prop :=
  u64 (Config.kernel_stack_address c) /\ u64 (Config.kernel_stack_size c) /\ u64 (Config.physical_memory_offset c) /\
  Forall (fun c => 0 <= c < 128 /\ c <> 10) (Config.kernel_path c) /\
  (forall ch, last (Config.kernel_path c) = Some ch -> is_whitespace ch = false) /\
  match Config.resolution c with Some (x, y) => u64 x /\ u64 y | None => True end.

Lemma numeral_plain c : numeral c -> 0 <= c < 128 /\ c <> 10.
Proof. unfold numeral. lia. Qed.
Lemma numeral_not_blank c : numeral c -> is_whitespace c = false.
Proof.
  unfold numeral, is_whitespace, Utf8.between. intros Hc.
  repeat match goal with
  | |- context [?a =? ?b] => rewrite (proj2 (Z.eqb_neq a b)) by lia
  end.
  destruct (Z.leb_spec c 13), (Z.leb_spec 0x2000 c); try lia.
Qed.

Lemma last_Forall {A} (P : A -> Prop) l x : Forall P l -> last l = Some x -> P x.
Proof. intros Hl [l' ->]%last_Some. apply Forall_app in Hl as [_ Hx]. by inversion Hx. Qed.

(** A setting written without blanks, its value plain characters that end well. *)
Lemma setting_ok key value : Forall (fun c => 0 <= c < 128 /\ c <> 10) key -> (61 ∉ key) ->
  (exists c key', key = c :: key' /\ is_whitespace c = false /\ c <> 35) ->
  Forall (fun c => 0 <= c < 128 /\ c <> 10) value -> (forall c, last value = Some c -> is_whitespace c = false) ->
  item_ok (Setting [] key value []).
Proof.
  intros Hk H61 Hc Hv Hl. split.
  - cbn [item_line app]. rewrite app_nil_r. apply Forall_app_2; [done|]. constructor; [lia|done].
  - split_and!; done.
Qed.

Lemma digits_value_ok pre radix n : Forall (fun c => 0 <= c < 128 /\ c <> 10) pre -> 2 <= radix <= 36 -> 0 <= n ->
  Forall (fun c => 0 <= c < 128 /\ c <> 10) (pre ++ (digit_char <$> digits_upto 64 radix n)) /\
  (forall c, last (pre ++ (digit_char <$> digits_upto 64 radix n)) = Some c -> is_whitespace c = false).
Proof.
  intros Hp Hr Hn. pose proof (digits_numeral radix n Hr) as Hd. split.
  - apply Forall_app_2; [done|]. eapply Forall_impl; [exact Hd|apply numeral_plain].
  - intros c. rewrite last_app. destruct (last (digit_char <$> _)) as [z|] eqn:E.
    + intros [= <-]. apply numeral_not_blank. by eapply last_Forall.
    + apply last_None, fmap_nil_inv, digits_upto_nonempty in E as [].
Qed.

Ltac key_ok := first [apply (bool_decide_unpack _); vm_compute; exact I
  | eexists _, _; split; [reflexivity|]; split; [reflexivity|discriminate]].

Lemma config_items_ok c : config_ok c -> Forall item_ok (config_items c).
Proof.
  intros (Ha & Hs & Ho & Hp & Hl & Hr). unfold config_items. apply Forall_app_2.
  - apply Forall_cons_2; [|apply Forall_cons_2; [|apply Forall_cons_2; [|apply Forall_cons_2; [|constructor]]]];
      (apply setting_ok; [key_ok|key_ok|key_ok|..]).
    1,2: apply (digits_value_ok (str "0x") 16); [key_ok|lia|apply Ha].
    1,2: apply (digits_value_ok [] 10); [constructor|lia|apply Hs].
    1,2: apply (digits_value_ok (str "0x") 16); [key_ok|lia|apply Ho].
    all: done.
  - destruct (Config.resolution c) as [[x y]|]; [|constructor]. apply Forall_singleton.
    assert (Hd : Forall (fun c => 0 <= c < 128 /\ c <> 10) (decimal x ++ [120])).
    { apply Forall_app_2; [apply (digits_value_ok [] 10); [constructor|lia|apply Hr]|]. apply Forall_singleton. lia. }
    change (decimal x ++ 120 :: decimal y) with (decimal x ++ [120] ++ decimal y). rewrite app_assoc.
    apply setting_ok; [key_ok..| |]; apply (digits_value_ok _ 10); (done || lia || apply Hr).
Qed.

Lemma r10_decimal n : u64 n -> Config.r10 (decimal n) = Ok n.
Proof. intros Hn. unfold Config.r10, decimal. by rewrite from_str_radix_digits by (done || lia). Qed.

Lemma r16_hex n : u64 n -> Config.r16 (hex n) = Ok n.
Proof.
  intros Hn. unfold Config.r16, hex. change (slice_from 2 (str "0x" ++ ?l)) with (slice_from 0 l).
  assert (E : forall l, slice_from 0 l = Ok l) by (by intros []). rewrite E. omon.
  by rewrite from_str_radix_digits by (done || lia).
Qed.

Lemma split_resolution x y : 0 <= x -> 0 <= y -> Utf8.split 120 (decimal x ++ 120 :: decimal y) = [decimal x; decimal y].
Proof.
  intros Hx Hy. assert (H120 : forall n, 0 <= n -> 120 ∉ decimal n).
  { intros n Hn Hin. pose proof (digits_upto_range 64 10 n ltac:(lia)) as Hd.
    apply list_elem_of_fmap in Hin as (d & E & Hin). pose proof (proj1 (Forall_forall _ _) Hd _ Hin) as Hr.
    cbn in Hr. unfold digit_char in E. destruct (Z.ltb_spec d 10); lia. }
  rewrite split_app by auto. by rewrite split_one by auto.
Qed.

(** Decide which key it is. *)
Ltac key_cases := repeat (rewrite (decide_False (P := str _ = str _)) by discriminate
  || rewrite (decide_True (P := str _ = str _)) by done).

(** ** What the settings of a file mean *)

(** The values: an address is hexadecimal behind two characters, whatever they are; a
    resolution is two decimal numbers with an 'x' between them (and perhaps another 'x'
    with anything behind). [None] is a value that stops the boot loader. *)
Definition address (v : list Z) : option Z :=
  match v with _ :: _ :: digits => from_str_radix 16 digits | _ => None end.
Definition number (v : list Z) : option Z := from_str_radix 10 v.
Definition dimensions (v : list Z) : option (Z * Z) :=
  match Utf8.split 120 v with
  | x :: y :: _ => match number x, number y with Some x, Some y => Some (x, y) | _, _ => None end
  | _ => None
  end.

(** The value that a line gives to [key]. *)
Definition value_of (key : list Z) (i : item) : option (list Z) :=
  match i with Setting _ k v _ => if decide (k = key) then Some v else None | _ => None end.

(** What the last line with [key] says, and otherwise [d]. *)
Definition setting {A} (key : list Z) (read : list Z -> option A) (items : list item) (d : A) : A :=
  default d (last (omap (fun i => value_of key i ≫= read) items)).
(** A line whose value, if it is one for [key], can be read. *)
Definition readable {A} (key : list Z) (read : list Z -> option A) (i : item) : bool :=
  match value_of key i with Some v => bool_decide (is_Some (read v)) | None => true end.

Definition all_readable (i : item) : bool :=
  readable (str "kernel_stack_address") address i && readable (str "kernel_stack_size") number i &&
  readable (str "physical_memory_offset") address i && readable (str "resolution") dimensions i.

(** The configuration that [items] describe, with [c] for what they leave out. *)
Definition settings (items : list item) (c : Config.t) : Config.t :=
  Config.mk (setting (str "kernel_stack_address") address items (Config.kernel_stack_address c))
    (setting (str "kernel_stack_size") number items (Config.kernel_stack_size c))
    (setting (str "physical_memory_offset") address items (Config.physical_memory_offset c))
    (setting (str "kernel_path") Some items (Config.kernel_path c))
    (setting (str "resolution") (fun v => Some <$> dimensions v) items (Config.resolution c)).

Lemma setting_cons {A} key (read : list Z -> option A) i items d :
  setting key read (i :: items) d = setting key read items (setting key read [i] d).
Proof.
  unfold setting. cbn [omap list_omap]. destruct (value_of key i ≫= read) as [a|]; [|done].
  destruct (omap _ items) as [|b l]; [done|]. rewrite last_cons_cons.
  destruct (last (b :: l)) eqn:E; [done|]. by apply last_None in E.
Qed.

Lemma settings_cons i items c : settings (i :: items) c = settings items (settings [i] c).
Proof. unfold settings. cbn [Config.kernel_stack_address Config.kernel_stack_size Config.physical_memory_offset Config.kernel_path Config.resolution]. f_equal; apply setting_cons. Qed.

Lemma r16_address v : Forall (fun c => 0 <= c < 128) v ->
  match address v with Some a => Config.r16 v = Ok a | None => exists p, Config.r16 v = Fault (Panic p) end.
Proof.
  assert (Hlen : forall c, 0 <= c < 128 -> len_utf8 c = 1) by (intros c Hc; unfold len_utf8; by rewrite (proj2 (Z.ltb_lt _ _)) by lia).
  assert (E0 : forall l, slice_from 0 l = Ok l) by (by intros []).
  unfold Config.r16. intros Hv. destruct Hv as [|a l Ha [|b digits Hb _]]; [by eexists|..]; cbn -[len_utf8];
    rewrite (Hlen a) by exact Ha; cbn -[len_utf8]; [by eexists|].
  rewrite (Hlen b) by exact Hb. cbn. rewrite E0.
  change (2 - 1 =? 0) with false. change (1 <=? 2 - 1) with true. cbv iota. omon.
  destruct (from_str_radix 16 digits); [done|]. by exists PUnwrap.
Qed.

(** One line. *)
Lemma item_effect_setting c i : item_ok i ->
  if all_readable i then item_effect c i = Ok (settings [i] c) else exists p, item_effect c i = Fault (Panic p).
Proof.
  intros [Hl Hi]. destruct i as [ws|ws text|ws key value ws']; [by destruct c..|].
  assert (Hv : Forall (fun c => 0 <= c < 128) value).
  { cbn [item_line] in Hl. apply Forall_app in Hl as [_ Hl]. apply Forall_app in Hl as [Hl _].
    apply Forall_app in Hl as [_ Hl]. inversion Hl. subst. eapply Forall_impl; [eassumption|]. by intros ? [? _]. }
  pose proof (r16_address value Hv) as Ha. clear Hl Hi Hv.
  cbn [item_effect]. unfold Config.process, all_readable, readable, settings, setting, value_of. cbn [omap list_omap].
  destruct (decide (key = str "kernel_stack_address")) as [->|N1];
  [|destruct (decide (key = str "kernel_stack_size")) as [->|N2];
  [|destruct (decide (key = str "physical_memory_offset")) as [->|N3];
  [|destruct (decide (key = str "kernel_path")) as [->|N4];
  [|destruct (decide (key = str "resolution")) as [->|N5]]]]]; key_cases; rewrite ?decide_False by done;
    cbn [option_bind mbind andb].
  - destruct (address value) as [a|]; cbn; [by rewrite Ha|destruct Ha as [p ->]; by exists p].
  - unfold Config.r10, number. destruct (from_str_radix 10 value) as [n|]; cbn; [done|by eexists].
  - destruct (address value) as [a|]; cbn; [by rewrite Ha|destruct Ha as [p ->]; by exists p].
  - done.
  - unfold dimensions, number. destruct (Utf8.split 120 value) as [|x [|y rest]]; cbn; [by eexists|destruct (from_str_radix 10 x); by eexists|].
    destruct (from_str_radix 10 x) as [x'|]; cbn; [|by eexists]. destruct (from_str_radix 10 y) as [y'|]; cbn; [done|by eexists].
  - by destruct c.
Qed.

Lemma fold_settings c items : Forall item_ok items ->
  if forallb all_readable items then foldO item_effect c items = Ok (settings items c)
  else exists p, foldO item_effect c items = Fault (Panic p).
Proof.
  intros Hi. revert c. induction Hi as [|i items Hi _ IH]; intros c; [by destruct c|].
  cbn [forallb foldO]. pose proof (item_effect_setting c i Hi) as Hc. destruct (all_readable i); cbn [andb].
  - rewrite Hc, (settings_cons i items c). apply IH.
  - destruct Hc as [p ->]. by exists p.
Qed.

(** ** Claims *)

(** C21: what a configuration file means. When every value given for an address, the size or
    the resolution can be read, [Config::parse] returns the configuration in which each of
    the five options has the value of the last line with its key, or its default without
    one: the two addresses are the hexadecimal numbers behind two characters, the size is
    a decimal number, the path is the value itself, the resolution two decimal numbers with an 'x'
    between. Blank lines, comments, blanks around a line, the order of different keys and
    lines with an unknown key have no effect. When one of these values cannot be read it panics. *)
Theorem config_settings (items : list item) : items <> [] -> Forall item_ok items ->
  if forallb all_readable items
  then Config.parse (join_on 10 (item_line <$> items)) = Ok (Config.mk
    (setting (str "kernel_stack_address") address items 0xffff802000000000)
    (setting (str "kernel_stack_size") number items 512)
    (setting (str "physical_memory_offset") address items 0xffff900000000000)
    (setting (str "kernel_path") Some items (str "\EFI\canyon\kernel.elf"))
    (setting (str "resolution") (fun v => Some <$> dimensions v) items None))
  else exists p, Config.parse (join_on 10 (item_line <$> items)) = Fault (Panic p).
Proof. intros Hne Hi. rewrite parse_items by done. by apply (fold_settings Config.DEFAULT_CONFIG). Qed.

(** C22: every configuration the format can express is read back from its printed form. *)
Theorem config_roundtrip (c : Config.t) : config_ok c -> Config.parse (print_config c) = Ok c.
Proof.
  intros Hc. unfold print_config. rewrite parse_items; [|done|by apply config_items_ok].
  destruct Hc as (Ha & Hs & Ho & _ & _ & Hr). unfold config_items. rewrite foldO_app.
  cbn [foldO item_effect]. unfold Config.process. rewrite r16_hex, r10_decimal, r16_hex by done.
  key_cases. omon.
  destruct c as [a n o p [[x y]|]]; cbn [Config.resolution foldO item_effect] in *; [|done]. unfold Config.process.
  rewrite split_resolution by apply Hr. cbn [lookup list_lookup unwrap].
  key_cases. omon.
  unfold decimal. rewrite !from_str_radix_digits by (lia || apply Hr). done.
Qed.

(** The ways a configuration stops the boot loader: a file that is not UTF-8, a line
    that is neither blank nor a comment and has no '=', an address shorter than its
    prefix, a number that is empty, not decimal or does not fit 64 bits, and a resolution without
    'x' all panic, after any settings that are fine; an unknown key does nothing. *)
Theorem config_errors (items : list item) (c : Config.t) (line value : list Z) :
  Forall item_ok items -> foldO item_effect Config.DEFAULT_CONFIG items = Ok c ->
  Forall (fun ch => 0 <= ch < 128 /\ ch <> 10) line ->
  (forall bytes, utf8 bytes = false -> Config.parse bytes = Fault (Panic PExpect)) /\
  ((61 ∉ line) -> (exists ch rest, line = ch :: rest /\ is_whitespace ch = false /\ ch <> 35) ->
    Config.parse (join_on 10 ((item_line <$> items) ++ [line])) = Fault (Panic PExpect)) /\
  (zlen value < 2 -> Forall (fun ch => ch < 128) value ->
    Config.process c (str "kernel_stack_address") value = Fault (Panic PIndex) /\
    Config.process c (str "physical_memory_offset") value = Fault (Panic PIndex)) /\
  (from_str_radix 10 value = None -> Config.process c (str "kernel_stack_size") value = Fault (Panic PUnwrap)) /\
  ((120 ∉ value) -> Config.process c (str "resolution") value = Fault (Panic PUnwrap)) /\
  (forall key, key ∉ [str "kernel_stack_address"; str "kernel_stack_size"; str "physical_memory_offset";
    str "kernel_path"; str "resolution"] -> Config.process c key value = Ok c).
Proof.
  intros Hi Hc Hl. split_and!.
  - intros bytes Hb. unfold Config.parse, from_utf8. by rewrite Hb.
  - intros H61 Hch. rewrite parse_lines; [|by destruct items|].
    + rewrite foldO_app, fold_items, Hc by done. omon. cbn [foldO]. by rewrite parse_line_no_value.
    + apply Forall_app_2; [by apply item_lines_plain|by apply Forall_singleton].
  - intros Hv Ha. assert (E : Config.r16 value = Fault (Panic PIndex)).
    { unfold Config.r16. destruct value as [|v [|v' value]]; [done| |cbn in Hv; lia].
      apply Forall_cons in Ha as [Ha _]. cbn. unfold len_utf8. by rewrite (proj2 (Z.ltb_lt _ _)) by lia. }
    split; unfold Config.process; rewrite E; key_cases; done.
  - intros Hv. unfold Config.process, Config.r10. rewrite Hv. key_cases. done.
  - intros Hx. unfold Config.process. rewrite split_one by done. key_cases. cbn [lookup list_lookup unwrap]. omon.
    by destruct (from_str_radix 10 value).
  - intros key Hk. unfold Config.process. rewrite !not_elem_of_cons in Hk. destruct Hk as (?&?&?&?&?&_).
    by rewrite !decide_False by done.
Qed.

(** The file bootloader/efi/boot.conf. *)
Definition boot_conf : list Z := str "# The config file for bootloader.
# Place me at \EFI\Boot\conf.yaml

# The address at which the kernel stack is placed.
kernel_stack_address=0xFFFF802000000000

# The size of the kernel stack, given in number of 4KiB pages. Defaults to 512.
kernel_stack_size=512

# The virtual address offset from which physical memory is mapped, as described in
physical_memory_offset=0xFFFF900000000000

# The path of kernel ELF
kernel_path=\EFI\canyon\kernel.elf

# The resolution of graphic output
resolution=1024x768
".

Definition boot_conf_config : Config.t :=
  Config.mk 0xffff802000000000 512 0xffff900000000000 (str "\EFI\canyon\kernel.elf") (Some (1024, 768)).

(** The lines of that file. *)
Definition boot_conf_items : list item :=
  [Comment [] (str " The config file for bootloader."); Comment [] (str " Place me at \EFI\Boot\conf.yaml"); Blank [];
   Comment [] (str " The address at which the kernel stack is placed.");
   Setting [] (str "kernel_stack_address") (str "0xFFFF802000000000") []; Blank [];
   Comment [] (str " The size of the kernel stack, given in number of 4KiB pages. Defaults to 512.");
   Setting [] (str "kernel_stack_size") (str "512") []; Blank [];
   Comment [] (str " The virtual address offset from which physical memory is mapped, as described in");
   Setting [] (str "physical_memory_offset") (str "0xFFFF900000000000") []; Blank [];
   Comment [] (str " The path of kernel ELF"); Setting [] (str "kernel_path") (str "\EFI\canyon\kernel.elf") []; Blank [];
   Comment [] (str " The resolution of graphic output"); Setting [] (str "resolution") (str "1024x768") []; Blank []].

Definition plain_item_ok (i : item) : bool :=
  bool_decide (Forall (fun c => 0 <= c < 128 /\ c <> 10) (item_line i)) &&
  match i with
  | Setting ws key value ws' => bool_decide (ws = []) && bool_decide (ws' = []) && bool_decide (61 ∉ key) &&
      match key with c :: _ => negb (is_whitespace c) && negb (c =? 35) | [] => false end &&
      match last value with Some c => negb (is_whitespace c) | None => true end
  | Blank ws | Comment ws _ => bool_decide (ws = [])
  end.
Lemma plain_item_ok_spec i : plain_item_ok i = true -> item_ok i.
Proof.
  unfold plain_item_ok. intros [Hl Hi]%andb_prop. split; [by apply bool_decide_eq_true in Hl|].
  destruct i as [ws|ws text|ws key value ws']; [by apply bool_decide_eq_true in Hi as ->..|].
  rewrite !andb_true_iff, !bool_decide_eq_true in Hi. destruct Hi as ((((-> & ->) & Hk) & Hc) & Hv).
  split_and!; [constructor|constructor|done|..].
  - destruct key as [|c key]; [done|]. apply andb_prop in Hc as [Hw H35]. exists c, key.
    split; [done|]. split; [by apply negb_true_iff in Hw|]. by apply negb_true_iff, Z.eqb_neq in H35.
  - intros c E. rewrite E in Hv. by apply negb_true_iff in Hv.
Qed.

Lemma config_settings_witness : join_on 10 (item_line <$> boot_conf_items) = boot_conf /\
  Config.parse boot_conf = Ok boot_conf_config.
Proof.
  split; [vm_compute; reflexivity|].
  assert (E : boot_conf = join_on 10 (item_line <$> boot_conf_items)) by (vm_compute; reflexivity).
  rewrite E. pose proof (config_settings boot_conf_items) as H.
  change (forallb all_readable boot_conf_items) with true in H. cbv iota in H.
  rewrite H; [vm_compute; reflexivity|discriminate|].
  eapply (Forall_impl (fun i => plain_item_ok i = true)); [|intros i; apply plain_item_ok_spec].
  apply (bool_decide_unpack _). vm_compute. exact I.
Defined.

Lemma config_roundtrip_witness : config_ok boot_conf_config /\ Config.parse (print_config boot_conf_config) = Ok boot_conf_config.
Proof.
  assert (H : config_ok boot_conf_config).
  { unfold config_ok, u64. cbn [boot_conf_config Config.kernel_stack_address Config.kernel_stack_size Config.physical_memory_offset
      Config.kernel_path Config.resolution]. split; [zeval|]. split; [zeval|]. split; [zeval|].
    split; [apply (bool_decide_unpack _); vm_compute; exact I|]. split; [intros ch [= <-]; reflexivity|zeval]. }
  split; [exact H|]. apply (config_roundtrip boot_conf_config H).
Defined.

(** "kernel_stack_size 512" after the settings of the file *)
Lemma config_errors_witness : Config.parse (join_on 10 ((item_line <$> boot_conf_items) ++ [str "kernel_stack_size 512"])) =
  Fault (Panic PExpect).
Proof.
  destruct (config_errors boot_conf_items boot_conf_config (str "kernel_stack_size 512") []) as (_ & H & _); [..|apply H].
  - eapply (Forall_impl (fun i => plain_item_ok i = true)); [|intros i; apply plain_item_ok_spec].
    apply (bool_decide_unpack _). vm_compute. exact I.
  - vm_compute. reflexivity.
  - apply (bool_decide_unpack _). vm_compute. exact I.
  - apply (bool_decide_unpack _). vm_compute. exact I.
  - eexists _, _. split; [reflexivity|]. split; [reflexivity|discriminate].
Defined.
