(* ===== verification/Paging.v ===== *)
(** The page tables the boot loader sets up: bootloader/efi/src/page_table.rs.

    The tables belong to the x86_64 crate and the memory to UEFI: both are the
    parameters [Paging], operations on a machine state [S]. Pages and frames are given
    by their numbers. What the code relies on is [PagingLaws], over three views of the
    state: the 4 KiB and 2 MiB entries of the tables, the bytes of the physical memory,
    and which frames are free or hold data. *)
From S2P Require Import Prelude Machine.
From Stdlib Require Import ZArith Lia.
From stdpp Require Import gmap functions sorting list_numbers list.
Local Open Scope Z_scope.

Definition SIZE_4K : Z := 0x1000.
Definition SIZE_2M : Z := 0x200000.

(** The bits of [PageTableFlags] the code sets; [PRESENT] is always one of them. *)
Module PageTableFlags.
Record t := mk { writable : bool; no_execute : bool }.
Definition PRESENT : t := mk false false.
Definition WRITABLE : t := mk true false.
Definition NO_EXECUTE : t := mk false true.
Definition or (a b : t) : t := mk (writable a || writable b) (no_execute a || no_execute b).
End PageTableFlags.

Inductive MapToError := FrameAllocationFailed | ParentEntryHugePage | PageAlreadyMapped.
Inductive UnmapError := HugePage | PageNotMapped | InvalidFrameAddress.

(** [xmas_elf::program::ProgramHeader]: its type if it is a known one, and its fields. *)
Module ProgramHeader.
Inductive type_ := Load | Other.
Record t := mk {
  get_type : option type_;
  offset : Z;
  virtual_addr : Z;
  file_size : Z;
  mem_size : Z;
  is_execute : bool;
  is_write : bool
}.
End ProgramHeader.

Class Paging (S : Type) := {
  (** [PhysAddr::new], [VirtAddr::new], and their [+] and [-] with a number *)
  phys_addr : Z -> outcome Z;
  virt_addr : Z -> outcome Z;
  phys_plus : Z -> Z -> outcome Z;
  phys_minus : Z -> Z -> outcome Z;
  virt_plus : Z -> Z -> outcome Z;
  virt_minus : Z -> Z -> outcome Z;
  (** [x86_64::align_up] *)
  align_up : Z -> Z -> Z;
  (** [containing_address] for pages or frames of a size, and [start_address] *)
  containing : Z -> Z -> Z;
  start_of : Z -> Z -> Z;
  (** [Page + u64], [PhysFrame - PhysFrame], [range], [range_inclusive] *)
  page_plus : Z -> Z -> outcome Z;
  frame_minus : Z -> Z -> outcome Z;
  range : Z -> Z -> list Z;
  range_inclusive : Z -> Z -> list Z;
  (** [BootServices::allocate_pages(AnyPages, LOADER_DATA, 1)] *)
  allocate_pages : M S (option Z);
  (** [Mapper::map_to] for pages of 4 KiB and of 2 MiB, with the frame allocator for
      new tables, and [Mapper::unmap] *)
  map_to : Z -> Z -> PageTableFlags.t -> M S (option Z) -> M S (MapToError + unit);
  map_to_2m : Z -> Z -> PageTableFlags.t -> M S (option Z) -> M S (MapToError + unit);
  unmap : Z -> M S (UnmapError + unit);
  (** a page at a physical address, which is mapped to itself *)
  read_page : Z -> M S (list Z);
  write_page : Z -> list Z -> M S unit;
  (** [core::ptr::write_bytes] at a virtual address *)
  write_bytes : Z -> Z -> Z -> M S unit
}.

(** The operator [?]. *)
Definition try_ {S E A B} (m : M S (E + A)) (f : A -> M S (E + B)) : M S (E + B) :=
  r ← m; match r with inl e => mret (inl e) | inr a => f a end.

Lemma try_ok {S E A B} (m : M S (E + A)) (f : A -> M S (E + B)) s a s' : m s = Ok (inr a, s') -> try_ m f s = f a s'.
Proof. intros Em. unfold try_. by erewrite bind_ok by exact Em. Qed.
Lemma try_err {S E A B} (m : M S (E + A)) (f : A -> M S (E + B)) s e s' :
  m s = Ok (inl e, s') -> try_ m f s = Ok (inl e, s').
Proof. intros Em. unfold try_. by erewrite bind_ok by exact Em. Qed.
Lemma try_fault {S E A B} (m : M S (E + A)) (f : A -> M S (E + B)) s e : m s = Fault e -> try_ m f s = Fault e.
Proof. intros Em. unfold try_. by apply bind_fault. Qed.

(** [for x in l { f(x)?; }] *)
Fixpoint try_all {S E A} (f : A -> M S (E + unit)) (l : list A) : M S (E + unit) :=
  match l with
  | [] => mret (inr tt)
  | x :: l => try_ (f x) (fun _ => try_all f l)
  end.

Definition ok_or {S E A} (o : option A) (e : E) : M S (E + A) :=
  mret match o with Some a => inr a | None => inl e end.

Section code.
Context {S : Type} `{Paging S}.

(** [UEFIFrameAllocator] *)
Definition allocate_frame : M S (option Z) :=
  addr ← allocate_pages;
  addr ← lift (unwrap addr PExpect);
  addr ← lift (phys_addr addr);
  mret (Some (containing SIZE_4K addr)).

(** The flags of a segment. *)
Definition segment_flags (segment : ProgramHeader.t) : PageTableFlags.t :=
  let flags := PageTableFlags.PRESENT in
  let flags := if negb (ProgramHeader.is_execute segment)
    then PageTableFlags.or flags PageTableFlags.NO_EXECUTE else flags in
  if ProgramHeader.is_write segment then PageTableFlags.or flags PageTableFlags.WRITABLE else flags.

(** A new frame for [page]. *)
Definition map_new (flags : PageTableFlags.t) (page : Z) : M S (MapToError + unit) :=
  frame ← allocate_frame;
  try_ (ok_or frame FrameAllocationFailed) (fun frame => map_to page frame flags allocate_frame).

(** The last page of the file gets a frame of its own. *)
Definition remap_last (flags : PageTableFlags.t) (virt_start_addr file_size end_frame : Z) : M S (MapToError + unit) :=
  new_frame ← allocate_frame;
  try_ (ok_or new_frame FrameAllocationFailed) (fun new_frame =>
    a ← lift (virt_plus virt_start_addr file_size);
    a ← lift (virt_minus a 1);
    let last_page := containing SIZE_4K a in
    contents ← read_page (start_of SIZE_4K end_frame);
    write_page (start_of SIZE_4K new_frame) contents ;;
    r ← unmap last_page;
    match r with
    | inl HugePage => mret (inl ParentEntryHugePage)
    | inl _ => throw (Panic PUnreachable)
    | inr _ => map_to last_page new_frame flags allocate_frame
    end).

(** The part of a segment that is not in the file. *)
Definition map_bss (flags : PageTableFlags.t) (virt_start_addr file_size mem_size end_frame : Z) :
    M S (MapToError + unit) :=
  zero_start ← lift (virt_plus virt_start_addr file_size);
  zero_end ← lift (virt_plus virt_start_addr mem_size);
  try_ (if negb (Z.land zero_start 0xfff =? 0) then remap_last flags virt_start_addr file_size end_frame
        else mret (inr tt)) (fun _ =>
    a ← lift (virt_addr (align_up zero_start SIZE_4K));
    let start_page := containing SIZE_4K a in
    let end_page := containing SIZE_4K zero_end in
    try_ (try_all (map_new flags) (range_inclusive start_page end_page)) (fun _ =>
      n ← lift (sub64 mem_size file_size);
      write_bytes zero_start 0 n ;;
      mret (inr tt))).

Definition map_segment (segment : ProgramHeader.t) (kernel_start : Z) : M S (MapToError + unit) :=
  type_ ← lift (unwrap (ProgramHeader.get_type segment) PUnwrap);
  match type_ with
  | ProgramHeader.Other => mret (inr tt)
  | ProgramHeader.Load =>
      let mem_size := ProgramHeader.mem_size segment in
      let file_size := ProgramHeader.file_size segment in
      let file_offset := Z.ldiff (ProgramHeader.offset segment) 0xfff in
      phys_start_addr ← lift (phys_plus kernel_start file_offset);
      virt_start_addr ← lift (virt_addr (ProgramHeader.virtual_addr segment));
      let start_page := containing SIZE_4K virt_start_addr in
      let start_frame := containing SIZE_4K phys_start_addr in
      a ← lift (phys_plus phys_start_addr file_size);
      a ← lift (phys_minus a 1);
      let end_frame := containing SIZE_4K a in
      let page_table_flags := segment_flags segment in
      try_ (try_all (fun frame =>
          offset ← lift (frame_minus frame start_frame);
          page ← lift (page_plus start_page offset);
          map_to page frame page_table_flags allocate_frame) (range_inclusive start_frame end_frame)) (fun _ =>
        if file_size <? mem_size then map_bss page_table_flags virt_start_addr file_size mem_size end_frame
        else mret (inr tt))
  end.

(** [kernel_start] is the address of the file. *)
Definition map_elf (segments : list ProgramHeader.t) (kernel_start : Z) : M S (MapToError + unit) :=
  kernel_start ← lift (phys_addr kernel_start);
  try_all (fun segment => map_segment segment kernel_start) segments.

Definition map_stack (addr pages : Z) : M S (MapToError + unit) :=
  a ← lift (virt_addr addr);
  let stack_start := containing SIZE_4K a in
  stack_end ← lift (page_plus stack_start pages);
  let flags := PageTableFlags.or PageTableFlags.PRESENT PageTableFlags.WRITABLE in
  try_all (map_new flags) (range stack_start stack_end).

Definition map_physical_memory (offset max_addr : Z) : M S unit :=
  a ← lift (phys_addr 0);
  let start_frame := containing SIZE_2M a in
  b ← lift (phys_addr max_addr);
  let end_frame := containing SIZE_2M b in
  forM (fun frame =>
    a ← lift (add64 (start_of SIZE_2M frame) offset);
    a ← lift (virt_addr a);
    let page := containing SIZE_2M a in
    let flags := PageTableFlags.or PageTableFlags.PRESENT PageTableFlags.WRITABLE in
    r ← map_to_2m page frame flags allocate_frame;
    match r with inl _ => throw (Panic PExpect) | inr _ => mret tt end)
    (range_inclusive start_frame end_frame).
End code.
