(* ===== verification/PageTables.v ===== *)
(** What the page tables of the boot loader are: the laws of the paging interface
    ([PagingView], [PagingLaws]), and the mapping of pages and of the segments of the
    kernel. *)
From S2P Require Import Prelude Machine Frame Paging.
From Stdlib Require Import ZArith Lia.
From stdpp Require Import gmap functions sorting list_numbers list.
Local Open Scope Z_scope.

(** ** Views and laws *)

Class PagingView (S : Type) := {
  (** the frame and the flags of a 4 KiB page and of a 2 MiB page *)
  pte : S -> Z -> option (Z * PageTableFlags.t);
  pde : S -> Z -> option (Z * PageTableFlags.t);
  (** the 2 MiB region was never used *)
  untouched : S -> Z -> Prop;
  (** a byte of the physical memory *)
  mem : S -> Z -> Z;
  (** frames UEFI can still hand out, at least [room] many; frames that hold data, which
      are neither free nor page tables *)
  free : S -> Z -> Prop;
  room : S -> Z;
  data : S -> Z -> Prop
}.

(** The physical address and the flags behind a virtual address. *)
Definition translate {S} `{PagingView S} (s : S) (v : Z) : option (Z * PageTableFlags.t) :=
  match pte s (v / SIZE_4K) with
  | Some (f, fl) => Some (f * SIZE_4K + v mod SIZE_4K, fl)
  | None => match pde s (v / SIZE_2M) with
      | Some (f, fl) => Some (f * SIZE_2M + v mod SIZE_2M, fl)
      | None => None
      end
  end.

(** [s'] has the same 2 MiB pages, all data frames of [s], and no new free frames. *)
Record grows {S} `{PagingView S} (s s' : S) : Prop := {
  grows_pde q : pde s' q = pde s q;
  grows_data f : data s f -> data s' f;
  grows_free f : free s' f -> free s f
}.
(** The data of [s] is unchanged. *)
Definition mem_kept {S} `{PagingView S} (s s' : S) : Prop :=
  forall a, data s (a / SIZE_4K) -> mem s' a = mem s a.
(** The 4 KiB pages are the same. *)
Definition same_pages {S} `{PagingView S} (s s' : S) : Prop :=
  (forall p, pte s' p = pte s p) /\ (forall q, untouched s q -> untouched s' q).

(** No page of the 4 KiB page [p] is mapped. *)
Definition unmapped {S} `{PagingView S} (s : S) (p : Z) : Prop := pte s p = None /\ pde s (p / 512) = None.

(** Addresses of one half of the address space. *)
Definition canonical_range (lo hi : Z) : Prop :=
  0 <= lo /\ hi < 2 ^ 47 \/ U64 - 2 ^ 47 <= lo /\ hi < U64.

(** A mapping may need a new table on each of three levels. *)
Definition TABLES : Z := 3.

Class PagingLaws (S : Type) `{Paging S} `{PagingView S} := {
  phys_addr_ok a : 0 <= a < 2 ^ 52 -> phys_addr a = Ok a;
  phys_plus_ok a b : 0 <= a -> 0 <= b -> a + b < 2 ^ 52 -> phys_plus a b = Ok (a + b);
  phys_minus_ok a b : 0 <= b <= a -> a < 2 ^ 52 -> phys_minus a b = Ok (a - b);
  virt_addr_ok a : canonical_range a a -> virt_addr a = Ok a;
  virt_plus_ok a b : 0 <= b -> canonical_range a (a + b) -> virt_plus a b = Ok (a + b);
  virt_minus_ok a b : 0 <= b -> canonical_range (a - b) a -> virt_minus a b = Ok (a - b);
  align_up_eq a : 0 <= a -> a + SIZE_4K <= U64 -> align_up a SIZE_4K = (a + (SIZE_4K - 1)) / SIZE_4K * SIZE_4K;
  containing_eq n a : containing n a = a / n;
  start_of_eq n f : start_of n f = f * n;
  page_plus_ok p k : 0 <= k -> canonical_range (p * SIZE_4K) ((p + k) * SIZE_4K) -> page_plus p k = Ok (p + k);
  frame_minus_ok f g : g <= f -> frame_minus f g = Ok (f - g);
  range_eq a b : range a b = seqZ a (b - a);
  range_inclusive_eq a b : range_inclusive a b = seqZ a (b - a + 1);
  data_not_free s f : data s f -> ~ free s f;
  untouched_unmapped s q : untouched s q -> pde s q = None /\ forall p, p / 512 = q -> pte s p = None;
  allocate_pages_ok s : 0 < room s -> exists f s', allocate_pages s = Ok (Some (f * SIZE_4K), s') /\
    0 <= f < 2 ^ 40 /\ free s f /\ data s' f /\ room s' = room s - 1 /\
    grows s s' /\ mem_kept s s' /\ same_pages s s';
  map_to_ok s p f fl : TABLES <= room s -> unmapped s p ->
    exists s', map_to p f fl allocate_frame s = Ok (inr tt, s') /\
      (forall p', pte s' p' = if p' =? p then Some (f, fl) else pte s p') /\
      (forall q, q <> p / 512 -> untouched s q -> untouched s' q) /\
      room s - TABLES <= room s' /\ grows s s' /\ mem_kept s s';
  map_to_mapped s p f fl x : pte s p = Some x ->
    exists s', map_to p f fl allocate_frame s = Ok (inl PageAlreadyMapped, s');
  map_to_2m_ok s q f fl : TABLES <= room s -> untouched s q ->
    exists s', map_to_2m q f fl allocate_frame s = Ok (inr tt, s') /\
      (forall q', pde s' q' = if q' =? q then Some (f, fl) else pde s q') /\
      (forall p, pte s' p = pte s p) /\ (forall q', q' <> q -> untouched s q' -> untouched s' q') /\
      room s - TABLES <= room s' /\ (forall g, data s g -> data s' g) /\ (forall g, free s' g -> free s g) /\ mem_kept s s';
  unmap_ok s p x : pte s p = Some x ->
    exists s', unmap p s = Ok (inr tt, s') /\ (forall p', pte s' p' = if p' =? p then None else pte s p') /\
      (forall q, untouched s q -> untouched s' q) /\ room s' = room s /\ grows s s' /\ mem_kept s s';
  unmap_missing s p : unmapped s p -> exists s', unmap p s = Ok (inl PageNotMapped, s');
  read_page_ok s f : data s f -> read_page (f * SIZE_4K) s = Ok (mem s <$> seqZ (f * SIZE_4K) SIZE_4K, s);
  write_page_ok s f l : data s f -> zlen l = SIZE_4K ->
    exists s', write_page (f * SIZE_4K) l s = Ok (tt, s') /\
      (forall i, 0 <= i < SIZE_4K -> mem s' (f * SIZE_4K + i) = default 0 (l !! Z.to_nat i)) /\
      (forall a, data s (a / SIZE_4K) -> a / SIZE_4K <> f -> mem s' a = mem s a) /\
      room s' = room s /\ grows s s' /\ same_pages s s';
  (** write protection is off, so the pages need not be writable *)
  write_bytes_ok s v n :
    (forall i, 0 <= i < n -> exists a fl, translate s (v + i) = Some (a, fl) /\ data s (a / SIZE_4K)) ->
    exists s', write_bytes v 0 n s = Ok (tt, s') /\
      (forall i a fl, 0 <= i < n -> translate s (v + i) = Some (a, fl) -> mem s' a = 0) /\
      (forall a, data s (a / SIZE_4K) -> (forall i, 0 <= i < n -> fst <$> translate s (v + i) <> Some a) -> mem s' a = mem s a) /\
      room s' = room s /\ grows s s' /\ same_pages s s'
}.

(** Arithmetic with pages. *)
Ltac page_lia := unfold SIZE_4K in *; Z.div_mod_to_equations; lia.

Section proofs.
Context {S : Type} `{HP : Paging S} `{HV : !PagingView S} `{HL : !PagingLaws S}.
Implicit Types (s : S) (fl : PageTableFlags.t).

Lemma grows_refl s : grows s s.
Proof. by split. Qed.
Lemma grows_trans s1 s2 s3 : grows s1 s2 -> grows s2 s3 -> grows s1 s3.
Proof. intros [] []. split; auto. intros q. etrans; eauto. Qed.
Lemma mem_kept_refl s : mem_kept s s.
Proof. done. Qed.
Lemma mem_kept_trans s1 s2 s3 : grows s1 s2 -> mem_kept s1 s2 -> mem_kept s2 s3 -> mem_kept s1 s3.
Proof. intros Hg H1 H2 a Ha. rewrite H2; [auto|]. by apply (grows_data _ _ Hg). Qed.

(** What a step that maps pages between [lo] and [hi] has in common with all the others. *)
Record step s s' (cost lo hi : Z) : Prop := {
  step_grows : grows s s';
  step_mem : mem_kept s s';
  step_room : room s - cost <= room s';
  step_pte p : p < lo \/ hi < p -> pte s' p = pte s p;
  step_untouched q : q < lo / 512 \/ hi / 512 < q -> untouched s q -> untouched s' q
}.
Lemma step_refl s lo hi : step s s 0 lo hi.
Proof. split; try done. lia. Qed.
Lemma step_trans s1 s2 s3 a b lo hi : step s1 s2 a lo hi -> step s2 s3 b lo hi -> step s1 s3 (a + b) lo hi.
Proof.
  intros [] []. split; [by eapply grows_trans|by eapply mem_kept_trans|lia|..]; [|by auto].
  intros p Hp. etrans; [by apply step_pte1|by apply step_pte0].
Qed.
Lemma step_weaken s s' a b lo hi lo' hi' : step s s' a lo hi -> a <= b -> lo' <= lo -> hi <= hi' -> step s s' b lo' hi'.
Proof.
  intros [] Hab Hlo Hhi. split; try done; [lia|..].
  - intros p Hp. apply step_pte0. lia.
  - intros q Hq. apply step_untouched0.
    pose proof (Z.div_le_mono lo' lo 512 ltac:(lia) Hlo). pose proof (Z.div_le_mono hi hi' 512 ltac:(lia) Hhi). lia.
Qed.
Lemma unmapped_step s s' c lo hi p : step s s' c lo hi -> p < lo \/ hi < p -> unmapped s p -> unmapped s' p.
Proof.
  intros Hs Hp [H1 H2]. split; [by rewrite (step_pte _ _ _ _ _ Hs)|]. by rewrite (grows_pde _ _ (step_grows _ _ _ _ _ Hs)).
Qed.

(** Nothing but an allocation. *)
Lemma same_pages_step s s' c lo hi : grows s s' -> mem_kept s s' -> room s - c <= room s' -> same_pages s s' -> step s s' c lo hi.
Proof. intros Hg Hm Hr [Hp Hq]. split; auto. Qed.

Lemma allocate_frame_ok s : 0 < room s ->
  exists f s', allocate_frame s = Ok (Some f, s') /\ free s f /\ data s' f /\ same_pages s s' /\
    forall lo hi, step s s' 1 lo hi.
Proof.
  intros Hr. destruct (allocate_pages_ok s Hr) as (f & s' & E & Hf & Hfree & Hdata & Hroom & Hg & Hm & Hp).
  exists f, s'. unfold allocate_frame. rewrite (bind_ok _ _ _ _ _ E). cbn [unwrap]. rewrite (bind_lift _ _ _ (f * SIZE_4K)) by done.
  rewrite (bind_lift _ _ _ (f * SIZE_4K)) by (apply phys_addr_ok; unfold SIZE_4K; lia).
  rewrite containing_eq, Z.div_mul by done.
  split_and!; auto. intros. apply same_pages_step; auto. lia.
Qed.

Lemma map_step s p f fl : TABLES <= room s -> unmapped s p ->
  exists s', map_to p f fl allocate_frame s = Ok (inr tt, s') /\ step s s' TABLES p p /\
    (forall p', pte s' p' = if p' =? p then Some (f, fl) else pte s p').
Proof.
  intros Hr Hu. destruct (map_to_ok s p f fl Hr Hu) as (s' & E & Hp & Hq & Hroom & Hg & Hm).
  exists s'. split; [done|]. split; [|done]. split; auto with lia.
  intros p' Hp'. rewrite Hp, (proj2 (Z.eqb_neq _ _)) by lia. done.
Qed.

(** Mapping a run of pages to a run of frames. *)
Lemma map_run_ok fl p0 f0 n s (body : Z -> M S (MapToError + unit)) :
  (forall i, 0 <= i < Z.of_nat n -> forall s, body (f0 + i) s = map_to (p0 + i) (f0 + i) fl allocate_frame s) ->
  TABLES * Z.of_nat n <= room s -> (forall i, 0 <= i < Z.of_nat n -> unmapped s (p0 + i)) ->
  exists s', try_all body (seqZ f0 (Z.of_nat n)) s = Ok (inr tt, s') /\
    step s s' (TABLES * Z.of_nat n) p0 (p0 + Z.of_nat n - 1) /\
    (forall p, p0 <= p < p0 + Z.of_nat n -> pte s' p = Some (f0 + (p - p0), fl)).
Proof.
  revert p0 f0 s. induction n as [|n IH]; intros p0 f0 s Hs Hr Hu.
  { exists s. split; [done|]. split; [apply step_refl|]. lia. }
  rewrite seqZ_cons by lia. cbn [try_all].
  pose proof (Hs 0 ltac:(lia)) as H0. rewrite !Z.add_0_r in H0.
  destruct (map_step s p0 f0 fl) as (s1 & E1 & Hst1 & Hp1); [unfold TABLES in *; lia| |].
  { rewrite <- (Z.add_0_r p0). apply Hu. lia. }
  rewrite (try_ok _ _ s tt s1) by (by rewrite H0).
  replace (Z.pred (Z.of_nat (Datatypes.S n))) with (Z.of_nat n) by lia.
  destruct (IH (p0 + 1) (Z.succ f0) s1) as (s2 & E2 & Hst2 & Hp2).
  - intros i Hi s0. replace (Z.succ f0 + i) with (f0 + (i + 1)) by lia. replace (p0 + 1 + i) with (p0 + (i + 1)) by lia.
    apply Hs. lia.
  - pose proof (step_room _ _ _ _ _ Hst1). unfold TABLES in *. lia.
  - intros i Hi. apply (unmapped_step _ _ _ _ _ _ Hst1); [lia|].
    replace (p0 + 1 + i) with (p0 + (i + 1)) by lia. apply Hu. lia.
  - exists s2. split; [done|]. split.
    + replace (TABLES * Z.of_nat (Datatypes.S n)) with (TABLES + TABLES * Z.of_nat n) by lia.
      eapply step_trans; [eapply step_weaken; [exact Hst1|lia..]|eapply step_weaken; [exact Hst2|lia..]].
    + intros p Hp. destruct (decide (p = p0)) as [->|].
      * rewrite (step_pte _ _ _ _ _ Hst2), Hp1, Z.eqb_refl by lia. do 2 f_equal. lia.
      * rewrite Hp2 by lia. do 2 f_equal. lia.
Qed.

(** Giving each page of a run a frame of its own. *)
Definition NEW : Z := TABLES + 1.
Lemma map_news_ok fl p0 n s : NEW * Z.of_nat n <= room s -> (forall i, 0 <= i < Z.of_nat n -> unmapped s (p0 + i)) ->
  exists s' (fr : Z -> Z), try_all (map_new fl) (seqZ p0 (Z.of_nat n)) s = Ok (inr tt, s') /\
    step s s' (NEW * Z.of_nat n) p0 (p0 + Z.of_nat n - 1) /\
    (forall p, p0 <= p < p0 + Z.of_nat n -> pte s' p = Some (fr p, fl) /\ free s (fr p) /\ data s' (fr p)) /\
    (forall p p', p0 <= p < p0 + Z.of_nat n -> p0 <= p' < p0 + Z.of_nat n -> fr p = fr p' -> p = p').
Proof.
  revert p0 s. induction n as [|n IH]; intros p0 s Hr Hu.
  { exists s, id. split; [done|]. split; [apply step_refl|]. split; intros; lia. }
  rewrite seqZ_cons by lia. cbn [try_all]. unfold NEW, TABLES in *.
  destruct (allocate_frame_ok s) as (f & s1 & E1 & Hf & Hd & Hp & Hst1); [lia|].
  pose proof (step_room _ _ _ _ _ (Hst1 0 0)) as Hr1.
  destruct (map_step s1 p0 f fl) as (s2 & E2 & Hst2 & Hp2); [unfold TABLES; lia| |].
  { apply (unmapped_step _ _ _ (p0 + 1) p0 _ (Hst1 _ _)); [lia|]. rewrite <- (Z.add_0_r p0). apply Hu. lia. }
  pose proof (step_room _ _ _ _ _ Hst2) as Hr2. unfold TABLES in Hr2.
  assert (Hst12 : step s s2 4 p0 p0) by (eapply (step_trans _ _ _ 1 3); [apply Hst1|exact Hst2]).
  rewrite (try_ok _ _ s tt s2).
  2:{ unfold map_new. rewrite (bind_ok _ _ _ _ _ E1). cbn [ok_or]. exact E2. }
  replace (Z.pred (Z.of_nat (Datatypes.S n))) with (Z.of_nat n) by lia.
  destruct (IH (Z.succ p0) s2) as (s3 & fr & E3 & Hst3 & Hfr & Hinj); [lia| |].
  - intros i Hi. apply (unmapped_step _ _ _ _ _ _ Hst12); [lia|].
    replace (Z.succ p0 + i) with (p0 + (i + 1)) by lia. apply Hu. lia.
  - exists s3, (fun p => if p =? p0 then f else fr p). split; [done|]. split; [|split].
    + replace ((3 + 1) * Z.of_nat (Datatypes.S n)) with (4 + (3 + 1) * Z.of_nat n) by lia.
      eapply step_trans; [eapply step_weaken; [exact Hst12|lia..]|eapply step_weaken; [exact Hst3|lia..]].
    + intros p Hp'. destruct (Z.eqb_spec p p0) as [->|].
      * rewrite (step_pte _ _ _ _ _ Hst3), Hp2, Z.eqb_refl by lia. split; [done|]. split; [done|].
        apply (grows_data _ _ (step_grows _ _ _ _ _ Hst3)), (grows_data _ _ (step_grows _ _ _ _ _ Hst2)), Hd.
      * destruct (Hfr p) as (H1 & H2 & H3); [lia|]. split; [done|]. split; [|done].
        by apply (grows_free _ _ (step_grows _ _ _ _ _ Hst12)).
    + assert (Hne : forall p, Z.succ p0 <= p < Z.succ p0 + Z.of_nat n -> fr p <> f).
      { intros p Hp' E. destruct (Hfr p Hp') as (_ & Hfree & _). rewrite E in Hfree.
        eapply (data_not_free s2 f); [|exact Hfree]. apply (grows_data _ _ (step_grows _ _ _ _ _ Hst2)), Hd. }
      intros p p' Hp1 Hp1'. destruct (Z.eqb_spec p p0), (Z.eqb_spec p' p0); intros E; subst; try done.
      * exfalso. apply (Hne p'); [lia|done].
      * exfalso. apply (Hne p); [lia|done].
      * apply Hinj; [lia|lia|done].
Qed.

(** ** Segments *)

Lemma translate_page s v f fl : pte s (v / SIZE_4K) = Some (f, fl) -> translate s v = Some (f * SIZE_4K + v mod SIZE_4K, fl).
Proof. intros E. unfold translate. by rewrite E. Qed.
Lemma frame_of f j : 0 <= j < SIZE_4K -> (f * SIZE_4K + j) / SIZE_4K = f.
Proof. intros Hj. rewrite Z.div_add_l, (Z.div_small j) by (unfold SIZE_4K in *; lia). lia. Qed.
Lemma offset_of f j : 0 <= j < SIZE_4K -> (f * SIZE_4K + j) mod SIZE_4K = j.
Proof. intros Hj. rewrite Z.add_comm, Z.mod_add, Z.mod_small by (unfold SIZE_4K in *; lia). lia. Qed.
Lemma page_offset v : 0 <= v mod SIZE_4K < SIZE_4K.
Proof. apply Z.mod_pos_bound. unfold SIZE_4K. lia. Qed.

(** The last page of a segment gets a copy of its frame. *)
Lemma remap_last_ok s fl fl0 v fsz fe : NEW <= room s -> 0 < fsz -> canonical_range v (v + fsz) ->
  let pl := (v + fsz - 1) / SIZE_4K in
  pte s pl = Some (fe, fl0) -> pde s (pl / 512) = None -> data s fe ->
  exists s' nf, remap_last fl v fsz fe s = Ok (inr tt, s') /\ step s s' NEW pl pl /\ pte s' pl = Some (nf, fl) /\
    free s nf /\ data s' nf /\
    (forall j, 0 <= j < SIZE_4K -> mem s' (nf * SIZE_4K + j) = mem s (fe * SIZE_4K + j)).
Proof.
  intros Hr Hf Hc pl Hpl Hpde Hfe. unfold remap_last. unfold NEW, TABLES in *.
  destruct (allocate_frame_ok s) as (nf & s1 & E1 & Hnf & Hd1 & Hsp1 & Hst1); [lia|]. rewrite (bind_ok _ _ _ _ _ E1).
  cbn [ok_or]. rewrite (try_ok _ _ _ nf s1) by done.
  rewrite (bind_lift _ _ _ _ (virt_plus_ok v fsz ltac:(lia) Hc)).
  rewrite (bind_lift _ _ _ (v + fsz - 1)) by (apply virt_minus_ok; unfold canonical_range in *; lia).
  rewrite containing_eq, !start_of_eq. fold pl.
  pose proof (step_grows _ _ _ _ _ (Hst1 0 0)) as Hg1. pose proof (step_mem _ _ _ _ _ (Hst1 0 0)) as Hm1.
  pose proof (grows_data _ _ Hg1 fe Hfe) as Hfe1.
  rewrite (bind_ok _ _ _ _ _ (read_page_ok s1 fe Hfe1)).
  destruct (write_page_ok s1 nf (mem s1 <$> seqZ (fe * SIZE_4K) SIZE_4K) Hd1) as (s2 & E2 & Hw & Hkeep & Hr2 & Hg2 & Hsp2).
  { rewrite length_fmap, length_seqZ. done. }
  rewrite (bind_ok _ _ _ _ _ E2).
  assert (Hne : nf <> fe) by (intros ->; by apply (data_not_free s fe)).
  assert (Hst2 : step s s2 1 pl pl).
  { apply same_pages_step; [by eapply grows_trans| |pose proof (step_room _ _ _ _ _ (Hst1 0 0)); lia|].
    - intros a Ha. rewrite Hkeep; [by apply Hm1|by apply (grows_data _ _ Hg1)|].
      intros E. rewrite E in Ha. by apply (data_not_free s nf).
    - destruct Hsp1, Hsp2. split; [intros p; etrans; eauto|auto]. }
  assert (Hpl2 : pte s2 pl = Some (fe, fl0)) by (rewrite (proj1 Hsp2), (proj1 Hsp1); done).
  destruct (unmap_ok s2 pl _ Hpl2) as (s3 & E3 & Hp3 & Hu3 & Hr3 & Hg3 & Hm3). rewrite (bind_ok _ _ _ _ _ E3).
  assert (Hst3 : step s2 s3 0 pl pl).
  { split; auto; [lia|]. intros p Hp. rewrite Hp3, (proj2 (Z.eqb_neq _ _)) by lia. done. }
  pose proof (step_room _ _ _ _ _ Hst2). destruct (map_step s3 pl nf fl) as (s4 & E4 & Hst4 & Hp4); [unfold TABLES; lia| |].
  { split; [by rewrite Hp3, Z.eqb_refl|]. by rewrite (grows_pde _ _ Hg3), (grows_pde _ _ Hg2), (grows_pde _ _ Hg1). }
  exists s4, nf. split; [exact E4|]. split.
  { apply (step_trans s s2 s4 1 3); [exact Hst2|]. apply (step_trans s2 s3 s4 0 3); [exact Hst3|exact Hst4]. }
  split; [by rewrite Hp4, Z.eqb_refl|]. split; [done|].
  assert (Hd3 : data s3 nf) by (apply (grows_data _ _ Hg3), (grows_data _ _ Hg2), Hd1).
  split; [by apply (grows_data _ _ (step_grows _ _ _ _ _ Hst4))|].
  intros j Hj. rewrite (step_mem _ _ _ _ _ Hst4) by (by rewrite frame_of).
  rewrite Hm3 by (rewrite frame_of by done; by apply (grows_data _ _ Hg2)).
  rewrite Hw by done. rewrite list_lookup_fmap, lookup_seqZ_lt by lia. cbn. rewrite Z2Nat.id by lia.
  apply Hm1. by rewrite frame_of.
Qed.

Lemma last_page_facts zs : 0 <= zs -> zs mod SIZE_4K = 0 -> forall a, zs <= a -> (zs - 1) / SIZE_4K < a / SIZE_4K.
Proof. intros Hz Hm a Ha. page_lia. Qed.

(** Zeroing the pages from [v + fsz] to [v + msz]: the page [pl] of [v + fsz - 1] is mapped to [f], and
    all frames were free in [s]. *)
Lemma zero_pages_ok s s2 fl f v fsz msz : let pl := (v + fsz - 1) / SIZE_4K in
  (forall a, v + fsz <= a < v + msz -> exists g, pte s2 (a / SIZE_4K) = Some (g, fl) /\ data s2 g /\ free s g /\ (g = f -> a / SIZE_4K = pl)) ->
  exists s3, write_bytes (v + fsz) 0 (msz - fsz) s2 = Ok (tt, s3) /\ room s3 = room s2 /\ grows s2 s3 /\ same_pages s2 s3 /\
    (forall a, data s (a / SIZE_4K) -> data s2 (a / SIZE_4K) -> mem s3 a = mem s2 a) /\
    (forall j, 0 <= j < SIZE_4K -> pl * SIZE_4K + j < v + fsz -> data s2 f -> mem s3 (f * SIZE_4K + j) = mem s2 (f * SIZE_4K + j)) /\
    (forall a g fl', v + fsz <= a < v + msz -> pte s2 (a / SIZE_4K) = Some (g, fl') -> mem s3 (g * SIZE_4K + a mod SIZE_4K) = 0).
Proof.
  intros pl Hpage.
  assert (Htr : forall i, 0 <= i < msz - fsz -> exists g, translate s2 (v + fsz + i) = Some (g * SIZE_4K + (v + fsz + i) mod SIZE_4K, fl) /\
    data s2 g /\ free s g /\ (g = f -> (v + fsz + i) / SIZE_4K = pl)).
  { intros i Hi. destruct (Hpage (v + fsz + i)) as (g & H1 & H2 & H3 & H4); [lia|]. exists g.
    rewrite (translate_page _ _ _ _ H1). done. }
  destruct (write_bytes_ok s2 (v + fsz) (msz - fsz)) as (s3 & E3 & Hzero & Hkeep & Hr3 & Hg3 & Hsp3).
  { intros i Hi. destruct (Htr i Hi) as (g & H1 & H2 & _). eexists _, _. split; [exact H1|].
    rewrite frame_of by apply page_offset. done. }
  exists s3. split_and!; [exact E3|exact Hr3|exact Hg3|exact Hsp3|..].
  - intros a Ha Ha2. apply Hkeep; [exact Ha2|]. intros i Hi. destruct (Htr i Hi) as (g & -> & _ & Hfree & _). cbn. intros [= <-].
    rewrite frame_of in Ha by apply page_offset. by apply (data_not_free s g).
  - intros j Hj Hlt Hd. apply Hkeep; [by rewrite frame_of|]. intros i Hi. destruct (Htr i Hi) as (g & -> & _ & _ & Hgf). cbn. intros [= E].
    pose proof (page_offset (v + fsz + i)) as Hpo. assert (g = f) as Hg.
    { rewrite <- (frame_of g _ Hpo), <- (frame_of f j Hj). by rewrite E. }
    specialize (Hgf Hg). pose proof (Z.div_mod (v + fsz + i) SIZE_4K). unfold SIZE_4K in *. lia.
  - intros a g fl' Ha Hp. apply (Hzero (a - (v + fsz)) _ fl'); [lia|].
    replace (v + fsz + (a - (v + fsz))) with a by lia. by apply translate_page.
Qed.

(** The frame of the last page before the rest is zeroed: the old one when the file ends
    with the page, a copy otherwise. *)
Lemma bss_first_page s fl v fsz fe : NEW <= room s -> 0 < fsz -> canonical_range v (v + fsz) ->
  let pl := (v + fsz - 1) / SIZE_4K in
  pte s pl = Some (fe, fl) -> pde s (pl / 512) = None -> data s fe ->
  exists s' f, (if negb (Z.land (v + fsz) 0xfff =? 0) then remap_last fl v fsz fe else mret (inr tt)) s = Ok (inr tt, s') /\
    step s s' NEW pl pl /\ pte s' pl = Some (f, fl) /\ data s' f /\
    ((v + fsz) mod SIZE_4K = 0 \/ free s f) /\
    (forall j, 0 <= j < SIZE_4K -> mem s' (f * SIZE_4K + j) = mem s (fe * SIZE_4K + j)).
Proof.
  intros Hr Hf Hc pl Hpl Hpde Hfe.
  assert (E : Z.land (v + fsz) 0xfff = (v + fsz) mod SIZE_4K) by (apply (Z.land_ones (v + fsz) 12); lia). rewrite E.
  destruct (Z.eqb_spec ((v + fsz) mod SIZE_4K) 0) as [Hz|Hz]; cbn [negb].
  - exists s, fe. split; [done|]. split; [apply (step_weaken s s 0 NEW pl pl); [apply step_refl|unfold NEW, TABLES; lia|lia|lia]|]. auto.
  - destruct (remap_last_ok s fl fl v fsz fe) as (s' & nf & E' & Hst & Hp & Hfree & Hd & Hm); [done..|].
    exists s', nf. split_and!; auto.
Qed.

Lemma map_bss_ok s fl v fsz msz fe : 0 < fsz < msz -> canonical_range v (v + msz + SIZE_4K) ->
  let pl := (v + fsz - 1) / SIZE_4K in
  let ql := (v + msz) / SIZE_4K in
  NEW * (ql - pl + 1) <= room s -> pte s pl = Some (fe, fl) -> data s fe -> pde s (pl / 512) = None ->
  (forall p, pl < p <= ql -> unmapped s p) ->
  exists s' f, map_bss fl v fsz msz fe s = Ok (inr tt, s') /\ step s s' (NEW * (ql - pl + 1)) pl ql /\
    pte s' pl = Some (f, fl) /\ data s' f /\
    (forall j, 0 <= j < SIZE_4K -> pl * SIZE_4K + j < v + fsz -> mem s' (f * SIZE_4K + j) = mem s (fe * SIZE_4K + j)) /\
    (forall p, pl < p <= ql -> exists g, pte s' p = Some (g, fl) /\ data s' g) /\
    (forall a g fl', v + fsz <= a < v + msz -> pte s' (a / SIZE_4K) = Some (g, fl') -> mem s' (g * SIZE_4K + a mod SIZE_4K) = 0).
Proof.
  intros Hf Hc pl ql Hr Hpl Hfe Hpde Hu. unfold map_bss.
  assert (Hq : 0 <= v /\ pl <= ql). { split; [unfold canonical_range, U64 in Hc; lia|]. apply Z.div_le_mono; unfold SIZE_4K; lia. }
  rewrite (bind_lift _ _ _ (v + fsz)) by (apply virt_plus_ok; unfold canonical_range, SIZE_4K in *; lia).
  rewrite (bind_lift _ _ _ (v + msz)) by (apply virt_plus_ok; unfold canonical_range, SIZE_4K in *; lia).
  destruct (bss_first_page s fl v fsz fe) as (s1 & f & E1 & Hst1 & Hp1 & Hd1 & Hz & Hm1); [unfold NEW, TABLES in *; lia|lia| |done..|].
  { unfold canonical_range, SIZE_4K in *. lia. }
  fold pl in Hst1, Hp1. rewrite (try_ok _ _ _ tt s1) by exact E1.
  assert (Hal : align_up (v + fsz) SIZE_4K = (pl + 1) * SIZE_4K).
  { rewrite align_up_eq by (unfold canonical_range, SIZE_4K, U64 in *; lia). f_equal. unfold pl. page_lia. }
  rewrite (bind_lift _ _ _ ((pl + 1) * SIZE_4K)).
  2:{ rewrite Hal. apply virt_addr_ok. unfold pl, canonical_range, U64 in *. page_lia. }
  rewrite !containing_eq, Z.div_mul, range_inclusive_eq by done. fold ql.
  replace (ql - (pl + 1) + 1) with (Z.of_nat (Z.to_nat (ql - pl))) by lia.
  pose proof (step_room _ _ _ _ _ Hst1) as Hr1.
  destruct (map_news_ok fl (pl + 1) (Z.to_nat (ql - pl)) s1) as (s2 & fr & E2 & Hst2 & Hfr & _); [unfold NEW, TABLES in *; lia| |].
  { intros i Hi. apply (unmapped_step _ _ _ _ _ _ Hst1); [lia|]. apply Hu. lia. }
  rewrite (try_ok _ _ _ tt s2) by exact E2. rewrite (bind_lift _ _ _ _ (sub64_ok msz fsz ltac:(lia))).
  assert (Hg2 : grows s s2) by (eapply grows_trans; [apply Hst1|apply Hst2]).
  assert (Hp2 : pte s2 pl = Some (f, fl)) by (rewrite (step_pte _ _ _ _ _ Hst2) by lia; done).
  assert (Hd2 : data s2 f) by (by apply (grows_data _ _ (step_grows _ _ _ _ _ Hst2))).
  (* the pages that are zeroed *)
  assert (Hpage : forall a, v + fsz <= a < v + msz -> exists g, pte s2 (a / SIZE_4K) = Some (g, fl) /\ data s2 g /\ free s g /\
    (g = f -> a / SIZE_4K = pl)).
  { intros a Ha. assert (Hpq : pl <= a / SIZE_4K <= ql) by (split; apply Z.div_le_mono; unfold SIZE_4K; lia).
    destruct (decide (a / SIZE_4K = pl)) as [E|Hne].
    - exists f. rewrite E. split_and!; try done. destruct Hz as [Hz|Hz]; [|done].
      pose proof (last_page_facts (v + fsz) ltac:(lia) Hz a ltac:(lia)) as Hl. fold pl in Hl. lia.
    - destruct (Hfr (a / SIZE_4K)) as (H1 & H2 & H3); [lia|]. exists (fr (a / SIZE_4K)). split_and!; try done.
      + by apply (grows_free _ _ (step_grows _ _ _ _ _ Hst1)).
      + intros E. exfalso. rewrite E in H2. by apply (data_not_free s1 f). }
  destruct (zero_pages_ok s s2 fl f v fsz msz Hpage) as (s3 & E3 & Hr3 & Hg3 & Hsp3 & Hkeep & Hkeepf & Hzero).
  rewrite (bind_ok _ _ _ _ _ E3). exists s3, f. split; [done|].
  assert (Hmem : mem_kept s s3).
  { intros a Ha. rewrite Hkeep; [|done|by apply (grows_data _ _ Hg2)].
    eapply (mem_kept_trans s s1 s2); [apply Hst1|apply Hst1|apply Hst2|done]. }
  split; [|split; [|split; [|split; [|split]]]].
  - pose proof (step_room _ _ _ _ _ Hst2). split; [by eapply grows_trans|done|unfold NEW, TABLES in *; lia|..].
    + intros p Hp. rewrite (proj1 Hsp3), (step_pte _ _ _ _ _ Hst2), (step_pte _ _ _ _ _ Hst1) by lia. done.
    + intros q Hq' Hun. assert (q < (pl + 1) / 512 \/ ql / 512 < q) by (pose proof (Z.div_le_mono pl (pl + 1) 512); lia).
      apply (proj2 Hsp3), (step_untouched _ _ _ _ _ Hst2); [|apply (step_untouched _ _ _ _ _ Hst1); [|done]].
      * replace (pl + 1 + Z.of_nat (Z.to_nat (ql - pl)) - 1) with ql by lia. done.
      * pose proof (Z.div_le_mono pl ql 512). lia.
  - by rewrite (proj1 Hsp3).
  - by apply (grows_data _ _ Hg3).
  - intros j Hj Hlt. rewrite Hkeepf by done. rewrite (step_mem _ _ _ _ _ Hst2) by (by rewrite frame_of). by apply Hm1.
  - intros p Hp. destruct (Hfr p) as (H1 & _ & H3); [lia|]. exists (fr p). rewrite (proj1 Hsp3). split; [done|].
    by apply (grows_data _ _ Hg3).
  - intros a g fl' Ha. rewrite (proj1 Hsp3). by apply Hzero.
Qed.

(** The pages a segment takes. *)
Definition seg_first (sg : ProgramHeader.t) : Z := ProgramHeader.virtual_addr sg / SIZE_4K.
Definition seg_last (sg : ProgramHeader.t) : Z :=
  (if ProgramHeader.file_size sg <? ProgramHeader.mem_size sg
   then ProgramHeader.virtual_addr sg + ProgramHeader.mem_size sg
   else ProgramHeader.virtual_addr sg + ProgramHeader.file_size sg - 1) / SIZE_4K.

(** A loadable segment, aligned in the file as in memory. *)
Record seg_shape (kernel_start : Z) (sg : ProgramHeader.t) : Prop := {
  seg_load : ProgramHeader.get_type sg = Some ProgramHeader.Load;
  seg_sizes : 0 < ProgramHeader.file_size sg <= ProgramHeader.mem_size sg;
  seg_aligned : ProgramHeader.virtual_addr sg mod SIZE_4K = ProgramHeader.offset sg mod SIZE_4K;
  seg_offset : 0 <= ProgramHeader.offset sg;
  seg_canonical : canonical_range (ProgramHeader.virtual_addr sg)
    (ProgramHeader.virtual_addr sg + ProgramHeader.mem_size sg + SIZE_4K);
  seg_phys : kernel_start + ProgramHeader.offset sg + ProgramHeader.file_size sg < 2 ^ 52
}.

(** A segment the loader handles: the part of its first page before it does not push its
    end over a page boundary. *)
Definition seg_ok (kernel_start : Z) (sg : ProgramHeader.t) : Prop :=
  seg_shape kernel_start sg /\
  (ProgramHeader.offset sg mod SIZE_4K + ProgramHeader.file_size sg - 1) / SIZE_4K =
    (ProgramHeader.file_size sg - 1) / SIZE_4K.

(** What is needed of the machine to load it. *)
Record seg_room (kernel_start : Z) (sg : ProgramHeader.t) s : Prop := {
  room_file k : 0 <= k < ProgramHeader.file_size sg -> data s ((kernel_start + ProgramHeader.offset sg + k) / SIZE_4K);
  room_pages p : seg_first sg <= p <= seg_last sg -> unmapped s p;
  room_frames : NEW * (seg_last sg - seg_first sg + 2) <= room s
}.

(** The segment is in memory: the bytes of the file, then zeros. *)
Definition loaded (content : Z -> Z) (sg : ProgramHeader.t) s : Prop :=
  forall i, 0 <= i < ProgramHeader.mem_size sg ->
    let v := ProgramHeader.virtual_addr sg + i in
    exists f, pte s (v / SIZE_4K) = Some (f, segment_flags sg) /\ data s f /\
      mem s (f * SIZE_4K + v mod SIZE_4K) =
        if i <? ProgramHeader.file_size sg then content (ProgramHeader.offset sg + i) else 0.

Lemma ldiff_page a : Z.ldiff a 0xfff = a - a mod SIZE_4K.
Proof.
  change 0xfff with (Z.ones 12). rewrite Z.ldiff_ones_r, Z.shiftl_mul_pow2, Z.shiftr_div_pow2 by lia.
  pose proof (Z.div_mod a SIZE_4K). change (2 ^ 12) with SIZE_4K. unfold SIZE_4K in *. lia.
Qed.

Lemma frame_split ks off : ks mod SIZE_4K = 0 -> ks + (off - off mod SIZE_4K) = (ks / SIZE_4K + off / SIZE_4K) * SIZE_4K.
Proof. intros. page_lia. Qed.

(** The pages that come from the file. *)
Lemma map_file_ok ks sg s : seg_shape ks sg ->
  let v := ProgramHeader.virtual_addr sg in
  let f0 := ks / SIZE_4K + ProgramHeader.offset sg / SIZE_4K in
  let n := (ProgramHeader.file_size sg - 1) / SIZE_4K + 1 in
  TABLES * n <= room s -> (forall p, v / SIZE_4K <= p < v / SIZE_4K + n -> unmapped s p) ->
  exists s', try_all (fun frame =>
      offset ← lift (frame_minus frame f0);
      page ← lift (page_plus (v / SIZE_4K) offset);
      map_to page frame (segment_flags sg) allocate_frame) (seqZ f0 n) s = Ok (inr tt, s') /\
    step s s' (TABLES * n) (v / SIZE_4K) (v / SIZE_4K + n - 1) /\
    (forall p, v / SIZE_4K <= p < v / SIZE_4K + n -> pte s' p = Some (f0 + (p - v / SIZE_4K), segment_flags sg)).
Proof.
  intros [Ht Hsz Hal Hoff Hcan Hph] v f0 n Hroom Hpages.
  assert (Hn : 0 < n) by (unfold n, SIZE_4K; pose proof (Z.div_pos (ProgramHeader.file_size sg - 1) 0x1000); lia).
  assert (Hend : (v / SIZE_4K + n - 1) * SIZE_4K <= v + ProgramHeader.mem_size sg).
  { unfold n. clear -Hsz. page_lia. }
  destruct (map_run_ok (segment_flags sg) (v / SIZE_4K) f0 (Z.to_nat n) s (fun frame =>
      offset ← lift (frame_minus frame f0);
      page ← lift (page_plus (v / SIZE_4K) offset);
      map_to page frame (segment_flags sg) allocate_frame)) as (s' & E & Hst & Hp).
  - intros i Hi s0. rewrite (bind_lift _ _ _ (f0 + i - f0)) by (apply frame_minus_ok; lia).
    replace (f0 + i - f0) with i by lia.
    rewrite (bind_lift _ _ _ _ (page_plus_ok (v / SIZE_4K) i ltac:(lia) ltac:(idtac; fold v in Hcan; unfold canonical_range, U64 in *; page_lia))).
    done.
  - lia.
  - intros i Hi. apply Hpages. lia.
  - rewrite Z2Nat.id in * by lia. exists s'. done.
Qed.

(** With the last page of the file. *)
Lemma map_file_all ks sg s : seg_ok ks sg -> seg_room ks sg s ->
  let v := ProgramHeader.virtual_addr sg in
  let n := (ProgramHeader.file_size sg - 1) / SIZE_4K + 1 in
  TABLES * n <= room s /\ (forall p, v / SIZE_4K <= p < v / SIZE_4K + n -> unmapped s p) /\
  v / SIZE_4K + n - 1 = (v + ProgramHeader.file_size sg - 1) / SIZE_4K.
Proof.
  intros [[Ht Hsz Hal Hoff Hcan Hph] Hnc] [Hfile Hpages Hroom] v n.
  assert (Hend : v / SIZE_4K + n - 1 = (v + ProgramHeader.file_size sg - 1) / SIZE_4K).
  { unfold n. rewrite <- Hnc, <- Hal. fold v. clear. page_lia. }
  assert (Hlast : (v + ProgramHeader.file_size sg - 1) / SIZE_4K <= seg_last sg).
  { unfold seg_last. fold v. apply Z.div_le_mono; [done|]. destruct (Z.ltb_spec (ProgramHeader.file_size sg) (ProgramHeader.mem_size sg)); lia. }
  split_and!; [|intros p Hp; apply Hpages; unfold seg_first; fold v; lia|done].
  assert (0 <= n) by (unfold n, SIZE_4K; pose proof (Z.div_pos (ProgramHeader.file_size sg - 1) 0x1000); lia).
  unfold NEW, TABLES, seg_first in *. fold v in Hroom. lia.
Qed.

(** Where byte [i] of the file part lies. *)
Lemma file_byte ks sg i : ks mod SIZE_4K = 0 -> ProgramHeader.virtual_addr sg mod SIZE_4K = ProgramHeader.offset sg mod SIZE_4K ->
  let v := ProgramHeader.virtual_addr sg in
  let f := ks / SIZE_4K + ProgramHeader.offset sg / SIZE_4K + ((v + i) / SIZE_4K - v / SIZE_4K) in
  f * SIZE_4K + (v + i) mod SIZE_4K = ks + ProgramHeader.offset sg + i.
Proof. intros H1 H2. cbn zeta. page_lia. Qed.

Lemma map_segment_head ks sg s : 0 <= ks -> ks mod SIZE_4K = 0 -> seg_shape ks sg ->
  let v := ProgramHeader.virtual_addr sg in
  let f0 := ks / SIZE_4K + ProgramHeader.offset sg / SIZE_4K in
  let n := (ProgramHeader.file_size sg - 1) / SIZE_4K + 1 in
  map_segment sg ks s =
    try_ (try_all (fun frame =>
        offset ← lift (frame_minus frame f0);
        page ← lift (page_plus (v / SIZE_4K) offset);
        map_to page frame (segment_flags sg) allocate_frame) (seqZ f0 n)) (fun _ =>
      if ProgramHeader.file_size sg <? ProgramHeader.mem_size sg
      then map_bss (segment_flags sg) v (ProgramHeader.file_size sg) (ProgramHeader.mem_size sg) (f0 + n - 1)
      else mret (inr tt)) s.
Proof.
  intros Hks Hksa [Ht Hsz Hal Hoff Hcan Hph] v f0 n. unfold map_segment. rewrite Ht. cbn [unwrap].
  rewrite (bind_lift _ _ _ ProgramHeader.Load) by done. rewrite ldiff_page.
  pose proof (page_offset (ProgramHeader.offset sg)).
  rewrite (bind_lift _ _ _ (f0 * SIZE_4K)).
  2:{ rewrite phys_plus_ok; [|done|pose proof (Z.mod_le (ProgramHeader.offset sg) SIZE_4K Hoff); unfold SIZE_4K in *; lia|lia].
      f_equal. by apply frame_split. }
  fold v. rewrite (bind_lift _ _ _ v) by (apply virt_addr_ok; fold v in Hcan; unfold canonical_range, SIZE_4K in *; lia).
  assert (Hf0 : f0 * SIZE_4K <= ks + ProgramHeader.offset sg) by (unfold f0; rewrite <- frame_split by done; lia).
  assert (0 <= f0) by (unfold f0; pose proof (Z.div_pos ks SIZE_4K); pose proof (Z.div_pos (ProgramHeader.offset sg) SIZE_4K); unfold SIZE_4K in *; lia).
  rewrite (bind_lift _ _ _ (f0 * SIZE_4K + ProgramHeader.file_size sg)) by (apply phys_plus_ok; unfold SIZE_4K in *; lia).
  rewrite (bind_lift _ _ _ (f0 * SIZE_4K + ProgramHeader.file_size sg - 1)) by (apply phys_minus_ok; unfold SIZE_4K in *; lia).
  rewrite !containing_eq, Z.div_mul by done.
  assert (Eend : (f0 * SIZE_4K + ProgramHeader.file_size sg - 1) / SIZE_4K = f0 + n - 1).
  { unfold n. rewrite <- Z.add_sub_assoc, Z.div_add_l by done. lia. }
  rewrite Eend, range_inclusive_eq. replace (f0 + n - 1 - f0 + 1) with n by lia. done.
Qed.

(** The file part after its pages were mapped. *)
Lemma file_part ks sg s s1 c hi : ks mod SIZE_4K = 0 -> seg_ok ks sg -> seg_room ks sg s ->
  let v := ProgramHeader.virtual_addr sg in
  let f0 := ks / SIZE_4K + ProgramHeader.offset sg / SIZE_4K in
  let pl := (v + ProgramHeader.file_size sg - 1) / SIZE_4K in
  step s s1 c (v / SIZE_4K) hi ->
  (forall p, v / SIZE_4K <= p <= pl -> pte s1 p = Some (f0 + (p - v / SIZE_4K), segment_flags sg)) ->
  (forall p, v / SIZE_4K <= p <= pl -> data s (f0 + (p - v / SIZE_4K))) /\
  (forall i, 0 <= i < ProgramHeader.file_size sg -> let f := f0 + ((v + i) / SIZE_4K - v / SIZE_4K) in
    v / SIZE_4K <= (v + i) / SIZE_4K <= pl /\
    pte s1 ((v + i) / SIZE_4K) = Some (f, segment_flags sg) /\ data s1 f /\
    mem s1 (f * SIZE_4K + (v + i) mod SIZE_4K) = mem s (ks + (ProgramHeader.offset sg + i))).
Proof.
  intros Hksa Hok Hroom v f0 pl Hst Hp1. pose proof (seg_sizes _ _ (proj1 Hok)) as Hsz. pose proof (seg_aligned _ _ (proj1 Hok)) as Hal.
  set (fsz := ProgramHeader.file_size sg) in *.
  assert (Hd : forall p, v / SIZE_4K <= p <= pl -> data s (f0 + (p - v / SIZE_4K))).
  { intros p Hp. set (i := Z.max 0 (p * SIZE_4K - v)).
    assert (Hi : 0 <= i < fsz /\ (v + i) / SIZE_4K = p). { unfold i, pl in *. clear -Hp Hsz. page_lia. }
    destruct Hi as [Hi Hpi]. pose proof (room_file _ _ _ Hroom i Hi) as Hfile.
    pose proof (file_byte ks sg i Hksa Hal) as Hb. cbn zeta in Hb.
    fold v f0 in Hb. rewrite Hpi in Hb. rewrite <- Hb in Hfile. by rewrite frame_of in Hfile by apply page_offset. }
  split; [done|]. intros i Hi f. assert (Hf1 : v / SIZE_4K <= (v + i) / SIZE_4K <= pl).
  { split; apply Z.div_le_mono; unfold SIZE_4K; lia. }
  split; [done|]. split; [by apply Hp1|]. split; [by apply (grows_data _ _ (step_grows _ _ _ _ _ Hst)), Hd|].
  rewrite (step_mem _ _ _ _ _ Hst) by (rewrite frame_of by apply page_offset; by apply Hd).
  pose proof (file_byte ks sg i Hksa Hal) as Hb. cbn zeta in Hb. fold v f0 in Hb. unfold f. rewrite Hb, Z.add_assoc. done.
Qed.

Lemma map_segment_ok ks sg s : 0 <= ks -> ks mod SIZE_4K = 0 -> seg_ok ks sg -> seg_room ks sg s ->
  exists s', map_segment sg ks s = Ok (inr tt, s') /\
    step s s' (NEW * (seg_last sg - seg_first sg + 2)) (seg_first sg) (seg_last sg) /\
    loaded (fun k => mem s (ks + k)) sg s' /\
    (forall p, seg_first sg <= p <= seg_last sg -> is_Some (pte s' p)).
Proof.
  intros Hks Hksa Hok Hroom. rewrite map_segment_head by (done || apply Hok).
  destruct (map_file_all ks sg s Hok Hroom) as (Hfr & Hfp & Hend).
  destruct (map_file_ok ks sg s) as (s1 & E1 & Hst1 & Hp1); [apply Hok|done|done|]. rewrite (try_ok _ _ _ tt s1) by exact E1.
  destruct (file_part ks sg s s1 _ _ Hksa Hok Hroom Hst1) as [Hd Hb1]; [intros; apply Hp1; lia|].
  destruct Hok as [[Ht Hsz Hal Hoff Hcan Hph] _], Hroom as [Hfile Hpages Hrm].
  set (v := ProgramHeader.virtual_addr sg) in *. set (fsz := ProgramHeader.file_size sg) in *.
  set (msz := ProgramHeader.mem_size sg) in *. set (n := (fsz - 1) / SIZE_4K + 1) in *.
  set (f0 := ks / SIZE_4K + ProgramHeader.offset sg / SIZE_4K) in *. set (pl := (v + fsz - 1) / SIZE_4K) in *.
  assert (Hn : 0 < n) by (unfold n, SIZE_4K; pose proof (Z.div_pos (fsz - 1) 0x1000); lia).
  change (seg_first sg) with (v / SIZE_4K) in *. unfold seg_last in *. fold v fsz msz in Hpages, Hrm |- *.
  destruct (Z.ltb_spec fsz msz) as [Hlt|Hge].
  - (* zeros behind the file *)
    assert (Hpq : pl <= (v + msz) / SIZE_4K) by (apply Z.div_le_mono; unfold SIZE_4K; lia).
    destruct (map_bss_ok s1 (segment_flags sg) v fsz msz (f0 + n - 1)) as (s2 & f & E2 & Hst2 & Hpl2 & Hdf & Hcopy & Hnew & Hzero);
      [lia|done|fold pl..|].
    + pose proof (step_room _ _ _ _ _ Hst1). unfold NEW, TABLES in *. lia.
    + rewrite Hp1 by lia. do 2 f_equal. lia.
    + apply (grows_data _ _ (step_grows _ _ _ _ _ Hst1)). replace (f0 + n - 1) with (f0 + (pl - v / SIZE_4K)) by lia. apply Hd. lia.
    + rewrite (grows_pde _ _ (step_grows _ _ _ _ _ Hst1)). apply Hpages. lia.
    + intros p Hp. apply (unmapped_step _ _ _ _ _ _ Hst1); [lia|]. apply Hpages. lia.
    + fold pl in Hst2, Hpl2, Hcopy, Hnew. exists s2. split; [exact E2|]. split.
      { apply (step_weaken s s2 (TABLES * n + NEW * ((v + msz) / SIZE_4K - pl + 1)) _ (v / SIZE_4K) ((v + msz) / SIZE_4K));
          [|unfold NEW, TABLES in *; lia|lia|lia].
        eapply step_trans; [eapply step_weaken; [exact Hst1|lia..]|eapply step_weaken; [exact Hst2|lia..]]. }
      split.
      2:{ intros p Hp. destruct (decide (p < pl)) as [Hlt'|]; [rewrite (step_pte _ _ _ _ _ Hst2), Hp1 by lia; eauto|].
          destruct (decide (p = pl)) as [->|]; [eauto|]. destruct (Hnew p) as (g & -> & _); [lia|eauto]. }
      intros i Hi. cbn zeta. fold v fsz. destruct (Z.ltb_spec i fsz) as [Hif|Hif].
      * destruct (Hb1 i) as (Hf1 & H1 & H2 & H3); [lia|]. cbn zeta in H1, H2, H3.
        destruct (decide ((v + i) / SIZE_4K = pl)) as [Epl|Hne].
        -- exists f. rewrite Epl. split; [done|]. split; [done|]. rewrite <- H3, Hcopy; [|apply page_offset|].
           ++ do 2 f_equal. rewrite Epl. lia.
           ++ pose proof (Z.div_mod (v + i) SIZE_4K). rewrite <- Epl. unfold SIZE_4K in *. lia.
        -- eexists. split; [rewrite (step_pte _ _ _ _ _ Hst2) by lia; exact H1|].
           split; [by apply (grows_data _ _ (step_grows _ _ _ _ _ Hst2))|].
           rewrite (step_mem _ _ _ _ _ Hst2) by (by rewrite frame_of by apply page_offset). exact H3.
      * assert (Hr : pl <= (v + i) / SIZE_4K <= (v + msz) / SIZE_4K) by (split; apply Z.div_le_mono; unfold SIZE_4K; lia).
        assert (Hex : exists g, pte s2 ((v + i) / SIZE_4K) = Some (g, segment_flags sg) /\ data s2 g).
        { destruct (decide ((v + i) / SIZE_4K = pl)) as [->|]; [eauto|]. apply Hnew. lia. }
        destruct Hex as (g & Hg & Hdg). exists g. split; [done|]. split; [done|]. by apply (Hzero (v + i) g (segment_flags sg)); [lia|].
  - exists s1. split; [done|]. split; [eapply step_weaken; [exact Hst1|unfold NEW, TABLES in *; fold pl in Hrm |- *; lia..]|].
    split; [|intros p Hp; rewrite Hp1 by lia; eauto].
    intros i Hi. cbn zeta. fold v fsz. fold msz in Hi. rewrite (proj2 (Z.ltb_lt _ _)) by lia.
    destruct (Hb1 i) as (_ & H1 & H2 & H3); [lia|]. eexists. split; [exact H1|]. split; [exact H2|exact H3].
Qed.

(** ** The kernel *)

Definition seg_disjoint (a b : ProgramHeader.t) : Prop := seg_last a < seg_first b \/ seg_last b < seg_first a.
Definition seg_cost (sg : ProgramHeader.t) : Z := NEW * (seg_last sg - seg_first sg + 2).
Definition total_cost (segs : list ProgramHeader.t) : Z := foldr (fun sg c => seg_cost sg + c) 0 segs.
Definition is_load (sg : ProgramHeader.t) : bool :=
  match ProgramHeader.get_type sg with Some ProgramHeader.Load => true | _ => false end.

(** What is needed to load a list of segments between the pages [lo] and [hi]. *)
Record segs_ok ks lo hi s (segs : list ProgramHeader.t) : Prop := {
  segs_known : Forall (fun sg => is_Some (ProgramHeader.get_type sg)) segs;
  segs_each sg : sg ∈ segs -> is_load sg = true -> seg_ok ks sg /\ lo <= seg_first sg /\ seg_last sg <= hi /\
    (forall k, 0 <= k < ProgramHeader.file_size sg -> data s ((ks + ProgramHeader.offset sg + k) / SIZE_4K)) /\
    (forall p, seg_first sg <= p <= seg_last sg -> unmapped s p);
  segs_apart : ForallOrdPairs (fun a b => is_load a = true -> is_load b = true -> seg_disjoint a b) segs;
  segs_room : total_cost (filter (fun sg => is_load sg = true) segs) <= room s
}.

Lemma seg_first_last ks sg : seg_ok ks sg -> seg_first sg <= seg_last sg.
Proof.
  intros [Hok _]. pose proof (seg_sizes _ _ Hok). unfold seg_first, seg_last. apply Z.div_le_mono; [done|].
  destruct (Z.ltb_spec (ProgramHeader.file_size sg) (ProgramHeader.mem_size sg)); lia.
Qed.

Lemma total_cost_pos ks segs : (forall sg, sg ∈ segs -> is_load sg = true -> seg_ok ks sg) ->
  0 <= total_cost (filter (fun sg => is_load sg = true) segs).
Proof.
  intros He. induction segs as [|sg segs IH]; [done|].
  rewrite filter_cons. assert (IH' : 0 <= total_cost (filter (fun sg => is_load sg = true) segs)).
  { apply IH. intros sg' Hin. apply He. by apply list_elem_of_further. }
  case_decide as Hl; [|done]. pose proof (seg_first_last _ _ (He sg (list_elem_of_here _ _) Hl)).
  assert (0 <= seg_cost sg) by (unfold seg_cost, NEW, TABLES; lia).
  cbn [total_cost foldr]. fold (total_cost (filter (fun sg => is_load sg = true) segs)). lia.
Qed.

Lemma segs_ok_drop ks lo hi s sg segs : segs_ok ks lo hi s (sg :: segs) -> segs_ok ks lo hi s segs.
Proof.
  intros [Hk He Ha Hr]. apply Forall_cons in Hk as [_ Hk]. inversion Ha; subst. split; [done|..|done|].
  - intros sg' Hin. apply He. by apply list_elem_of_further.
  - rewrite filter_cons in Hr. case_decide as Hl; [|done]. destruct (He sg) as [Hok _]; [apply list_elem_of_here|done|].
    pose proof (seg_first_last _ _ Hok). cbn [total_cost foldr] in Hr. fold (total_cost (filter (fun sg => is_load sg = true) segs)) in Hr.
    assert (0 <= seg_cost sg) by (unfold seg_cost, NEW, TABLES; lia). lia.
Qed.

(** What remains to be done after the first segment. *)
Lemma segs_ok_tail ks lo hi s s' sg segs : segs_ok ks lo hi s (sg :: segs) -> is_load sg = true ->
  step s s' (seg_cost sg) (seg_first sg) (seg_last sg) -> segs_ok ks lo hi s' segs.
Proof.
  intros Hs Hl Hst. destruct (segs_ok_drop _ _ _ _ _ _ Hs) as [Hk _ Ha _]. destruct Hs as [_ He Ha' Hr]. split; [done|..|done|].
  - intros sg' Hin Hl'. destruct (He sg') as (H1 & H2 & H3 & H4 & H5); [by apply list_elem_of_further|done|].
    split; [done|]. split; [done|]. split; [done|]. split.
    + intros k Hk'. apply (grows_data _ _ (step_grows _ _ _ _ _ Hst)). auto.
    + intros p Hp. apply (unmapped_step _ _ _ _ _ _ Hst); [|by apply H5]. inversion Ha' as [|? ? Ha1 Ha2]; subst.
      pose proof (proj1 (Forall_forall _ _) Ha1 sg' Hin Hl Hl') as Hd. unfold seg_disjoint in Hd. lia.
  - rewrite filter_cons in Hr. case_decide; [|done]. pose proof (step_room _ _ _ _ _ Hst).
    cbn [total_cost foldr] in Hr. fold (total_cost (filter (fun sg => is_load sg = true) segs)) in Hr. lia.
Qed.

(** The pages of the bytes of a segment. *)
Lemma seg_page sg i : 0 <= i < ProgramHeader.mem_size sg -> ProgramHeader.file_size sg <= ProgramHeader.mem_size sg ->
  seg_first sg <= (ProgramHeader.virtual_addr sg + i) / SIZE_4K <= seg_last sg.
Proof.
  intros Hi Hsz. unfold seg_first, seg_last. split; apply Z.div_le_mono; try done; [lia|].
  destruct (Z.ltb_spec (ProgramHeader.file_size sg) (ProgramHeader.mem_size sg)); lia.
Qed.

(** Mappings elsewhere do not disturb a segment. *)
Lemma loaded_kept content sg s s' : loaded content sg s -> grows s s' -> mem_kept s s' ->
  (forall p, seg_first sg <= p <= seg_last sg -> pte s' p = pte s p) ->
  ProgramHeader.file_size sg <= ProgramHeader.mem_size sg -> loaded content sg s'.
Proof.
  intros Hl Hg Hk Hout Hsz i Hi. cbn zeta. destruct (Hl i Hi) as (f & Hp & Hd & Hm). cbn zeta in *. exists f.
  split; [rewrite Hout by (by apply seg_page); done|]. split; [by apply (grows_data _ _ Hg)|].
  rewrite Hk by (by rewrite frame_of by apply page_offset). done.
Qed.

(** Only the bytes of the file matter. *)
Lemma loaded_ext content content' sg s : loaded content sg s ->
  (forall k, 0 <= k < ProgramHeader.file_size sg -> content (ProgramHeader.offset sg + k) = content' (ProgramHeader.offset sg + k)) ->
  loaded content' sg s.
Proof.
  intros Hl E i Hi. cbn zeta. destruct (Hl i Hi) as (f & Hp & Hd & Hm). cbn zeta in *. exists f. split; [done|]. split; [done|].
  rewrite Hm. destruct (Z.ltb_spec i (ProgramHeader.file_size sg)); [|done]. apply E. lia.
Qed.

Lemma map_segments_ok ks lo hi s segs : 0 <= ks -> ks mod SIZE_4K = 0 -> segs_ok ks lo hi s segs ->
  exists s', try_all (fun sg => map_segment sg ks) segs s = Ok (inr tt, s') /\
    step s s' (total_cost (filter (fun sg => is_load sg = true) segs)) lo hi /\
    (forall sg, sg ∈ segs -> is_load sg = true -> loaded (fun k => mem s (ks + k)) sg s') /\
    (forall p, (forall sg, sg ∈ segs -> is_load sg = true -> p < seg_first sg \/ seg_last sg < p) -> pte s' p = pte s p).
Proof.
  intros Hks Hksa. revert s. induction segs as [|sg segs IH]; intros s Hs.
  { exists s. split; [done|]. split; [apply step_refl|]. split; [|done]. intros sg Hin. by apply not_elem_of_nil in Hin. }
  cbn [try_all]. pose proof (segs_ok_drop _ _ _ _ _ _ Hs) as Hs0. rewrite filter_cons. case_decide as Hl.
  - destruct (segs_each _ _ _ _ _ Hs sg) as (Hok & Hlo & Hhi & Hfile & Hpages); [apply list_elem_of_here|done|].
    assert (Hrm : seg_room ks sg s).
    { split; [done|done|]. pose proof (segs_room _ _ _ _ _ Hs) as Hr. rewrite filter_cons in Hr. case_decide; [|done].
      pose proof (total_cost_pos ks segs (fun sg Hin Hl => proj1 (segs_each _ _ _ _ _ Hs0 sg Hin Hl))). cbn [total_cost foldr] in Hr.
      fold (total_cost (filter (fun sg => is_load sg = true) segs)) in Hr. fold (seg_cost sg). lia. }
    destruct (map_segment_ok ks sg s Hks Hksa Hok Hrm) as (s1 & E1 & Hst1 & Hld & _). rewrite (try_ok _ _ _ tt s1) by exact E1.
    destruct (IH s1) as (s2 & E2 & Hst2 & Hall & Hrest); [by eapply segs_ok_tail|]. exists s2. split; [exact E2|].
    split; [cbn; eapply step_trans; [eapply step_weaken; [exact Hst1|done..]|exact Hst2]|]. split.
    + intros sg' Hin Hl'. apply elem_of_cons in Hin as [->|Hin].
      * eapply loaded_kept; [exact Hld|apply Hst2|apply Hst2| |apply Hok]. intros p Hp. apply Hrest. intros sg2 Hin2 Hl2.
        pose proof (segs_apart _ _ _ _ _ Hs) as Ha. inversion Ha as [|? ? Ha1 _]; subst.
        pose proof (proj1 (Forall_forall _ _) Ha1 sg2 Hin2 Hl Hl2) as Hd. unfold seg_disjoint in Hd. lia.
      * eapply loaded_ext; [by apply Hall|]. intros k Hk. apply (step_mem _ _ _ _ _ Hst1).
        rewrite Z.add_assoc. destruct (segs_each _ _ _ _ _ Hs0 sg' Hin Hl') as (_ & _ & _ & Hf & _). auto.
    + intros p Hp. rewrite Hrest, (step_pte _ _ _ _ _ Hst1); [done|apply Hp; [apply list_elem_of_here|done]|].
      intros sg' Hin. apply Hp. by apply list_elem_of_further.
  - destruct (proj1 (Forall_cons _ _ _) (segs_known _ _ _ _ _ Hs)) as [[ty Hty] _].
    assert (ty = ProgramHeader.Other) as ->. { destruct ty; [|done]. unfold is_load in Hl. by rewrite Hty in Hl. }
    rewrite (try_ok _ _ _ tt s) by (unfold map_segment; by rewrite Hty).
    destruct (IH s Hs0) as (s2 & E2 & Hst2 & Hall & Hrest).
    exists s2. split; [exact E2|]. split; [done|]. split.
    + intros sg' Hin Hl'. apply elem_of_cons in Hin as [->|Hin]; [done|auto].
    + intros p Hp. apply Hrest. intros sg' Hin. apply Hp. by apply list_elem_of_further.
Qed.
End proofs.
