(* ===== verification/BootMemory.v ===== *)
(** The memory the kernel starts with: its stack, the window onto the physical memory,
    a machine that satisfies the laws of the paging interface, and where the mapping of
    segments goes wrong. *)
From S2P Require Import Prelude Machine Frame Paging PageTables.
From Stdlib Require Import ZArith Lia.
From stdpp Require Import gmap functions sorting list_numbers list.
Local Open Scope Z_scope.

Section proofs.
Context {S : Type} `{HP : Paging S} `{HV : !PagingView S} `{HL : !PagingLaws S}.
Implicit Types (s : S).

Definition rw : PageTableFlags.t := PageTableFlags.mk true false.

(** Pages of its own for the stack, from the page of [addr] on. *)
Lemma map_stack_ok addr pages s : 0 <= pages -> canonical_range addr (addr + pages * SIZE_4K) ->
  let p0 := addr / SIZE_4K in
  NEW * pages <= room s -> (forall p, p0 <= p < p0 + pages -> unmapped s p) ->
  exists s' (fr : Z -> Z), map_stack addr pages s = Ok (inr tt, s') /\
    step s s' (NEW * pages) p0 (p0 + pages - 1) /\
    (forall p, p0 <= p < p0 + pages -> pte s' p = Some (fr p, rw) /\ free s (fr p) /\ data s' (fr p)) /\
    (forall p p', p0 <= p < p0 + pages -> p0 <= p' < p0 + pages -> fr p = fr p' -> p = p').
Proof.
  intros Hp Hc p0 Hr Hu. unfold map_stack.
  rewrite (bind_lift _ _ _ addr) by (apply virt_addr_ok; unfold canonical_range, SIZE_4K in *; lia).
  rewrite containing_eq. fold p0.
  rewrite (bind_lift _ _ _ (p0 + pages)).
  2:{ apply page_plus_ok; [done|]. unfold p0, canonical_range, U64 in *. page_lia. }
  rewrite range_eq. replace (p0 + pages - p0) with (Z.of_nat (Z.to_nat pages)) by lia.
  destruct (map_news_ok rw p0 (Z.to_nat pages) s) as (s' & fr & E & Hst & Hfr & Hinj); [unfold NEW, TABLES in *; lia|intros; apply Hu; lia|].
  rewrite Z2Nat.id in * by lia. exists s', fr. done.
Qed.

(** The physical memory up to [max_addr], in pages of 2 MiB. *)
Lemma map_frames_ok q0 n s (body : Z -> M S unit) f0 :
  (forall i, 0 <= i < Z.of_nat n -> forall s, body (f0 + i) s =
    (r ← map_to_2m (q0 + i) (f0 + i) rw allocate_frame; match r with inl _ => throw (Panic PExpect) | inr _ => mret tt end) s) ->
  TABLES * Z.of_nat n <= room s -> (forall i, 0 <= i < Z.of_nat n -> untouched s (q0 + i)) ->
  exists s', forM body (seqZ f0 (Z.of_nat n)) s = Ok (tt, s') /\ (forall p, pte s' p = pte s p) /\
    (forall g, data s g -> data s' g) /\ mem_kept s s' /\
    (forall q, pde s' q = if (q0 <=? q) && (q <? q0 + Z.of_nat n) then Some (f0 + (q - q0), rw) else pde s q).
Proof.
  revert q0 f0 s. induction n as [|n IH]; intros q0 f0 s Hb Hr Hu.
  { exists s. split; [done|]. split; [done|]. split; [done|]. split; [done|]. intros q.
    destruct (Z.leb_spec q0 q), (Z.ltb_spec q (q0 + Z.of_nat 0)); try done; lia. }
  rewrite seqZ_cons by lia. unfold forM in *. cbn [foldM].
  pose proof (Hb 0 ltac:(lia) s) as H0. rewrite !Z.add_0_r in H0.
  destruct (map_to_2m_ok s q0 f0 rw) as (s1 & E1 & Hq1 & Hp1 & Hu1 & Hr1 & Hd1 & _ & Hm1); [unfold TABLES in *; lia| |].
  { rewrite <- (Z.add_0_r q0). apply Hu. lia. }
  rewrite (bind_ok _ _ _ _ _ E1) in H0. rewrite (bind_ok _ _ _ tt s1) by (by rewrite H0).
  replace (Z.pred (Z.of_nat (Datatypes.S n))) with (Z.of_nat n) by lia.
  destruct (IH (q0 + 1) (Z.succ f0) s1) as (s2 & E2 & Hp2 & Hd2 & Hm2 & Hq2).
  - intros i Hi s0. replace (Z.succ f0 + i) with (f0 + (i + 1)) by lia. replace (q0 + 1 + i) with (q0 + (i + 1)) by lia.
    apply Hb. lia.
  - unfold TABLES in *. lia.
  - intros i Hi. apply Hu1; [lia|]. replace (q0 + 1 + i) with (q0 + (i + 1)) by lia. apply Hu. lia.
  - exists s2. split; [done|]. split; [intros p; by rewrite Hp2|]. split; [auto|]. split; [intros a Ha; rewrite Hm2; auto|].
    intros q. rewrite Hq2, Hq1.
    destruct (Z.leb_spec q0 q), (Z.leb_spec (q0 + 1) q), (Z.ltb_spec q (q0 + 1 + Z.of_nat n)),
      (Z.ltb_spec q (q0 + Z.of_nat (Datatypes.S n))), (Z.eqb_spec q q0); cbn [andb]; try lia; try done; do 2 f_equal; lia.
Qed.

Lemma map_physical_memory_ok offset max_addr s : 0 <= max_addr < 2 ^ 52 -> offset mod SIZE_2M = 0 ->
  canonical_range offset (offset + max_addr + SIZE_2M) ->
  TABLES * (max_addr / SIZE_2M + 1) <= room s ->
  (forall i, 0 <= i <= max_addr / SIZE_2M -> untouched s (offset / SIZE_2M + i)) ->
  exists s', map_physical_memory offset max_addr s = Ok (tt, s') /\ (forall p, pte s' p = pte s p) /\
    (forall g, data s g -> data s' g) /\ mem_kept s s' /\
    (forall a, 0 <= a <= max_addr -> translate s' (offset + a) = Some (a, rw)).
Proof.
  intros Hmax Hoff Hc Hr Hu. unfold map_physical_memory. rewrite (bind_lift _ _ _ 0) by (by apply phys_addr_ok).
  rewrite (bind_lift _ _ _ max_addr) by (by apply phys_addr_ok).
  rewrite !containing_eq, range_inclusive_eq. change (0 / SIZE_2M) with 0.
  set (n := max_addr / SIZE_2M) in *. assert (Hn : 0 <= n) by (apply Z.div_pos; unfold SIZE_2M; lia).
  replace (n - 0 + 1) with (Z.of_nat (Z.to_nat (n + 1))) by lia.
  match goal with |- context [forM ?b _] => set (body := b) end.
  assert (Hoff' : offset = offset / SIZE_2M * SIZE_2M) by (pose proof (Z.div_mod offset SIZE_2M); unfold SIZE_2M in *; lia).
  assert (Hnm : n * SIZE_2M <= max_addr) by (unfold n; pose proof (Z.mul_div_le max_addr SIZE_2M); unfold SIZE_2M in *; lia).
  destruct (map_frames_ok (offset / SIZE_2M) (Z.to_nat (n + 1)) s body 0) as (s' & E & Hp & Hd & Hm & Hq).
  - intros i Hi s0. unfold body. rewrite start_of_eq, Z.add_0_l.
    rewrite (bind_lift _ _ _ (offset + i * SIZE_2M)) by (rewrite add64_ok; [f_equal; lia|unfold canonical_range, SIZE_2M, U64 in *; lia]).
    rewrite (bind_lift _ _ _ (offset + i * SIZE_2M)) by (apply virt_addr_ok; unfold canonical_range, SIZE_2M, U64 in *; lia).
    rewrite containing_eq. replace ((offset + i * SIZE_2M) / SIZE_2M) with (offset / SIZE_2M + i) by (by rewrite Z.div_add). done.
  - lia.
  - intros i Hi. apply Hu. lia.
  - exists s'. split; [exact E|]. split; [done|]. split; [done|]. split; [done|]. intros a Ha. unfold translate.
    set (i := a / SIZE_2M). assert (Hi : 0 <= i <= n) by (unfold i, n; split; [apply Z.div_pos|apply Z.div_le_mono]; unfold SIZE_2M; lia).
    destruct (untouched_unmapped s (offset / SIZE_2M + i)) as [_ Hpte]; [by apply Hu|].
    assert (Hdiv : (offset + a) / SIZE_2M = offset / SIZE_2M + i).
    { rewrite Hoff' at 1. rewrite Z.div_add_l by done. done. }
    assert (Hdiv2 : (offset + a) / SIZE_4K / 512 = offset / SIZE_2M + i) by (rewrite Z.div_div by (unfold SIZE_4K; lia); exact Hdiv).
    rewrite Hp, Hpte, Hdiv, Hq by done. rewrite (proj2 (Z.leb_le _ _)), (proj2 (Z.ltb_lt _ _)) by lia. cbn [andb].
    do 2 f_equal. assert (Hmod : (offset + a) mod SIZE_2M = a mod SIZE_2M).
    { rewrite Hoff', Z.add_comm, Z.mod_add by done. done. }
    rewrite Hmod. unfold i. pose proof (Z.div_mod a SIZE_2M). unfold SIZE_2M in *. lia.
Qed.
End proofs.

(** ** A machine *)

(** Page tables that need no memory, and an allocator that hands out the frames from
    [next] on. *)
Module Sim.

Record t := mk {
  ptes : Z -> option (Z * PageTableFlags.t);
  pdes : Z -> option (Z * PageTableFlags.t);
  memory : Z -> Z;
  next : Z
}.

Definition walk (s : t) (v : Z) : option Z :=
  match ptes s (v / SIZE_4K) with
  | Some (f, _) => Some (f * SIZE_4K + v mod SIZE_4K)
  | None => match pdes s (v / SIZE_2M) with
      | Some (f, _) => Some (f * SIZE_2M + v mod SIZE_2M)
      | None => None
      end
  end.

Definition phys (a : Z) : outcome Z := if a <? 2 ^ 52 then Ok a else Fault (Panic PAddr).
Definition virt (a : Z) : outcome Z := if (a <? 2 ^ 47) || (U64 - 2 ^ 47 <=? a) then Ok a else Fault (Panic PAddr).
Definition update {A} (k : Z) (x : A) (f : Z -> A) : Z -> A := fun k' => if k' =? k then x else f k'.

#[export] Instance machine : Paging t := {|
  phys_addr := phys;
  virt_addr := virt;
  phys_plus a b := x ← add64 a b; phys x;
  phys_minus a b := x ← sub64 a b; phys x;
  virt_plus a b := x ← add64 a b; virt x;
  virt_minus a b := x ← sub64 a b; virt x;
  align_up a n := (a + (n - 1)) / n * n;
  containing n a := a / n;
  start_of n f := f * n;
  page_plus p k := x ← add64 (p * SIZE_4K) (k * SIZE_4K); a ← virt x; Ok (a / SIZE_4K);
  frame_minus f g := sub64 f g;
  range a b := seqZ a (b - a);
  range_inclusive a b := seqZ a (b - a + 1);
  allocate_pages s :=
    if (0 <=? next s) && (next s <? 2 ^ 40) then Ok (Some (next s * SIZE_4K), mk (ptes s) (pdes s) (memory s) (next s + 1))
    else Ok (None, s);
  map_to p f fl _ s :=
    match ptes s p, pdes s (p / 512) with
    | Some _, _ => Ok (inl PageAlreadyMapped, s)
    | _, Some _ => Ok (inl ParentEntryHugePage, s)
    | None, None => Ok (inr tt, mk (update p (Some (f, fl)) (ptes s)) (pdes s) (memory s) (next s))
    end;
  map_to_2m q f fl _ s :=
    match pdes s q with
    | Some _ => Ok (inl PageAlreadyMapped, s)
    | None => Ok (inr tt, mk (ptes s) (update q (Some (f, fl)) (pdes s)) (memory s) (next s))
    end;
  unmap p s :=
    match ptes s p with
    | Some _ => Ok (inr tt, mk (update p None (ptes s)) (pdes s) (memory s) (next s))
    | None => Ok (inl PageNotMapped, s)
    end;
  read_page a s := Ok (memory s <$> seqZ a SIZE_4K, s);
  write_page a l s := Ok (tt, mk (ptes s) (pdes s)
    (fun x => if (a <=? x) && (x <? a + zlen l) then default 0 (l !! Z.to_nat (x - a)) else memory s x) (next s));
  write_bytes v b n s := Ok (tt, mk (ptes s) (pdes s)
    (fun x => if bool_decide (Some x ∈ ((fun i => walk s (v + i)) <$> seqZ 0 n)) then b else memory s x) (next s))
|}.

#[export] Instance view : PagingView t := {|
  pte := ptes;
  pde := pdes;
  untouched s q := pdes s q = None /\ forall p, p / 512 = q -> ptes s p = None;
  mem := memory;
  free s f := next s <= f;
  room s := if 0 <=? next s then 2 ^ 40 - next s else 0;
  data s f := 0 <= f < next s
|}.

Lemma walk_translate s v : walk s v = fst <$> translate s v.
Proof. unfold walk, translate. cbn. destruct (ptes s _) as [[]|]; [done|]. by destruct (pdes s _) as [[]|]. Qed.

Lemma phys_ok a : 0 <= a < 2 ^ 52 -> phys a = Ok a.
Proof. intros. unfold phys. by rewrite (proj2 (Z.ltb_lt _ _)) by lia. Qed.
Lemma virt_ok lo hi a : canonical_range lo hi -> lo <= a <= hi -> virt a = Ok a.
Proof.
  intros Hc Ha. unfold virt, canonical_range in *. destruct (Z.ltb_spec a (2 ^ 47)); [done|].
  rewrite (proj2 (Z.leb_le _ _)) by lia. done.
Qed.

Lemma same_refl s m n : next s <= n -> grows s (mk (ptes s) (pdes s) m n).
Proof. intros Hn. split; cbn; [done|lia|lia]. Qed.

#[export] Instance laws : PagingLaws t.
Proof.
  assert (U : 2 ^ 52 < U64 /\ 2 ^ 47 < U64) by (unfold U64; lia).
  split.
  - apply phys_ok.
  - intros a b Ha Hb Hs. cbn. rewrite add64_ok by lia. omon. apply phys_ok. lia.
  - intros a b Hb Ha. cbn. rewrite sub64_ok by lia. omon. apply phys_ok. lia.
  - intros a Ha. cbn. by apply (virt_ok a a).
  - intros a b Hb Hc. cbn. rewrite add64_ok by (unfold canonical_range in Hc; lia). omon. apply (virt_ok a (a + b)); [done|lia].
  - intros a b Hb Hc. cbn. rewrite sub64_ok by (unfold canonical_range in Hc; lia). omon. apply (virt_ok (a - b) a); [done|lia].
  - intros a Ha Hs. reflexivity.
  - reflexivity.
  - reflexivity.
  - intros p k Hk Hc. cbn. rewrite add64_ok by (unfold canonical_range in Hc; lia). omon.
    rewrite (virt_ok _ _ _ Hc) by (unfold SIZE_4K; lia). omon. rewrite <- Z.mul_add_distr_r, Z.div_mul by done. done.
  - intros f g Hfg. cbn. by apply sub64_ok.
  - reflexivity.
  - reflexivity.
  - intros s f Hd Hf. cbn in *. lia.
  - intros s q [H1 H2]. done.
  - intros s Hr. cbn in *. destruct (Z.leb_spec 0 (next s)) as [Hn|]; [|lia]. rewrite (proj2 (Z.ltb_lt _ _)) by lia. cbn.
    eexists _, _. split; [done|]. cbn. rewrite (proj2 (Z.leb_le 0 (next s + 1))) by lia.
    split; [lia|]. split; [lia|]. split; [lia|]. split; [lia|]. split; [apply same_refl; lia|]. split; [done|]. done.
  - intros s p f fl Hr [H1 H2]. cbn in *. rewrite H1, H2. eexists. split; [done|]. cbn. split; [done|]. split.
    + intros q Hq [H3 H4]. split; [done|]. intros p' Hp'. unfold update. destruct (Z.eqb_spec p' p) as [->|]; [congruence|auto].
    + split; [unfold TABLES; lia|]. split; [|done]. split; done.
  - intros s p f fl x Hx. cbn in *. rewrite Hx. by eexists.
  - intros s q f fl Hr [H1 H2]. cbn in *. rewrite H1. eexists. split; [done|]. cbn. split; [done|]. split; [done|]. split.
    + intros q' Hq [H3 H4]. split; [|done]. unfold update. by rewrite (proj2 (Z.eqb_neq _ _)).
    + split; [unfold TABLES; lia|]. done.
  - intros s p x Hx. cbn in *. rewrite Hx. eexists. split; [done|]. cbn. split; [done|]. split.
    + intros q [H3 H4]. split; [done|]. intros p' Hp'. unfold update. destruct (p' =? p); auto.
    + split; [done|]. split; [|done]. split; done.
  - intros s p [H1 H2]. cbn in *. rewrite H1. by eexists.
  - reflexivity.
  - intros s f l Hf Hl. cbn. eexists. split; [done|]. cbn. split.
    + intros i Hi. rewrite (proj2 (Z.leb_le _ _)), (proj2 (Z.ltb_lt _ _)) by lia. cbn. do 3 f_equal. lia.
    + split; [|split; [done|split; [by apply same_refl|done]]]. intros a _ Ha.
      destruct (Z.leb_spec (f * SIZE_4K) a), (Z.ltb_spec a (f * SIZE_4K + zlen l)); cbn; try done.
      exfalso. apply Ha. rewrite Hl in *. replace a with (f * SIZE_4K + (a - f * SIZE_4K)) by lia. apply frame_of. lia.
  - intros s v n Hall. cbn. eexists. split; [done|]. cbn. split; [|split; [|split; [done|split; [by apply same_refl|done]]]].
    + intros i a fl Hi Ht. rewrite bool_decide_true; [done|]. apply list_elem_of_fmap. exists i.
      split; [by rewrite walk_translate, Ht|]. apply elem_of_seqZ. lia.
    + intros a _ Ha. rewrite bool_decide_false; [done|]. intros (i & E & Hi)%list_elem_of_fmap. apply elem_of_seqZ in Hi.
      apply (Ha i); [lia|]. by rewrite <- walk_translate.
Qed.
End Sim.
#[export] Existing Instances Sim.machine Sim.view Sim.laws.

(** ** Claims *)

Section claims.
Context {S : Type} `{HP : Paging S} `{HV : !PagingView S} `{HL : !PagingLaws S}.
Implicit Types (s : S).

(** C12: [map_elf] returns, and then every byte of every loadable segment is mapped with
    the flags of the segment: to the byte of the file, or to a zero behind the file part;
    no other page and no data changes. *)
Theorem map_elf_loads ks lo hi s (segs : list ProgramHeader.t) :
  0 <= ks < 2 ^ 52 -> ks mod SIZE_4K = 0 -> segs_ok ks lo hi s segs ->
  exists s', map_elf segs ks s = Ok (inr tt, s') /\
    (forall sg i, sg ∈ segs -> is_load sg = true -> 0 <= i < ProgramHeader.mem_size sg ->
      exists a, translate s' (ProgramHeader.virtual_addr sg + i) = Some (a, segment_flags sg) /\
        mem s' a = if i <? ProgramHeader.file_size sg then mem s (ks + ProgramHeader.offset sg + i) else 0) /\
    (forall p, (forall sg, sg ∈ segs -> is_load sg = true -> p < seg_first sg \/ seg_last sg < p) -> pte s' p = pte s p) /\
    mem_kept s s'.
Proof.
  intros Hks Hal Hs. unfold map_elf. rewrite (bind_lift _ _ _ ks) by (by apply phys_addr_ok).
  destruct (map_segments_ok ks lo hi s segs) as (s' & E & Hst & Hld & Hrest); [lia|done|done|].
  exists s'. split; [exact E|]. split; [|split; [done|apply Hst]].
  intros sg i Hin Hl Hi. destruct (Hld sg Hin Hl i Hi) as (f & Hp & _ & Hm). cbn zeta in *.
  eexists. split; [by apply translate_page|]. rewrite Hm, Z.add_assoc. done.
Qed.

(** After [map_physical_memory] every physical address up to [max_addr] can be read
    and written at its address plus the offset, which is where the kernel's
    [to_virt_addr] looks for it. *)
Theorem physical_window {F : Type} `{HF : PhysFrameLaws F} offset max_addr s : 0 <= max_addr < 2 ^ 52 -> offset mod SIZE_2M = 0 ->
  canonical_range offset (offset + max_addr + SIZE_2M) ->
  TABLES * (max_addr / SIZE_2M + 1) <= room s ->
  (forall i, 0 <= i <= max_addr / SIZE_2M -> untouched s (offset / SIZE_2M + i)) ->
  exists s', map_physical_memory offset max_addr s = Ok (tt, s') /\ mem_kept s s' /\
    (forall p, pte s' p = pte s p) /\
    forall a (st : Memory.t F), 0 <= a <= max_addr -> Memory.PHYSICAL_MEMORY_OFFSET st = offset ->
      exists v, Memory.to_virt_addr a st = Ok (v, st) /\ translate s' v = Some (a, PageTableFlags.mk true false).
Proof.
  intros Hmax Hoff Hc Hr Hu.
  destruct (map_physical_memory_ok offset max_addr s) as (s' & E & Hp & _ & Hm & Ht); [done..|].
  exists s'. split; [done|]. split; [done|]. split; [done|]. intros a st Ha Ho. exists (offset + a). split; [|by apply Ht].
  unfold Memory.to_virt_addr. rewrite Ho. unfold canonical_range, SIZE_2M, U64 in Hc.
  replace (offset + a) with (a + offset) by lia. clear -Hc Ha HF.
  rewrite add64_ok by (unfold U64; lia). omon. rewrite virt_new_ok; [done|]. unfold canonical_address, U64. lia.
Qed.

Lemma translate_unmapped s v : unmapped s (v / SIZE_4K) -> translate s v = None.
Proof.
  intros [H1 H2]. unfold translate. rewrite H1. rewrite Z.div_div in H2 by (unfold SIZE_4K; lia).
  change (SIZE_4K * 512) with SIZE_2M in H2. by rewrite H2.
Qed.

(** The end of the file part is computed from the offset rounded down to a page. When
    the segment does not start at a page boundary and reaches into one page more than
    its size alone needs, this last page is forgotten: without a zeroed part, loading
    succeeds and the last bytes are not mapped; with one that starts within a page,
    loading panics at [unreachable!]. *)
Theorem segment_last_page_missed ks sg s : 0 <= ks -> ks mod SIZE_4K = 0 -> seg_shape ks sg ->
  let v := ProgramHeader.virtual_addr sg in
  let fsz := ProgramHeader.file_size sg in
  let pl := (v + fsz - 1) / SIZE_4K in
  (fsz - 1) / SIZE_4K < (ProgramHeader.offset sg mod SIZE_4K + fsz - 1) / SIZE_4K ->
  (forall p, v / SIZE_4K <= p <= pl -> unmapped s p) -> NEW * (pl - v / SIZE_4K + 1) <= room s ->
  (forall k, 0 <= k < fsz -> data s ((ks + ProgramHeader.offset sg + k) / SIZE_4K)) ->
  (fsz = ProgramHeader.mem_size sg ->
    exists s', map_segment sg ks s = Ok (inr tt, s') /\ translate s' (v + fsz - 1) = None) /\
  (fsz < ProgramHeader.mem_size sg -> (v + fsz) mod SIZE_4K <> 0 ->
    map_segment sg ks s = Fault (Panic PUnreachable)).
Proof.
  intros Hks Hal Hsh v fsz pl Hcross Hpages Hr Hdata. rewrite map_segment_head by done.
  pose proof (seg_sizes _ _ Hsh) as Hsz. pose proof (seg_aligned _ _ Hsh) as Hva. fold v fsz in Hsz, Hva |- *.
  set (n := (fsz - 1) / SIZE_4K + 1). set (f0 := ks / SIZE_4K + ProgramHeader.offset sg / SIZE_4K).
  assert (Hn : v / SIZE_4K + n <= pl). { rewrite <- Hva in Hcross. unfold n, pl. clear -Hcross. page_lia. }
  assert (Hn0 : 0 < n) by (unfold n, SIZE_4K; pose proof (Z.div_pos (fsz - 1) 0x1000); lia).
  destruct (map_file_ok ks sg s Hsh) as (s1 & E1 & Hst1 & Hp1);
    [fold fsz n; unfold NEW, TABLES in *; lia|intros p Hp; fold v fsz n in Hp; apply Hpages; lia|].
  fold v fsz n f0 in E1, Hst1, Hp1. rewrite (try_ok _ _ _ tt s1) by exact E1.
  assert (Hu1 : unmapped s1 pl) by (apply (unmapped_step _ _ _ _ _ _ Hst1); [lia|]; apply Hpages; lia).
  split.
  - intros Heq. rewrite <- Heq, Z.ltb_irrefl. exists s1. split; [done|]. by apply translate_unmapped.
  - intros Hlt Hz. rewrite (proj2 (Z.ltb_lt _ _)) by lia. unfold map_bss. pose proof (seg_canonical _ _ Hsh) as Hcan. fold v in Hcan.
    rewrite (bind_lift _ _ _ (v + fsz)) by (apply virt_plus_ok; unfold canonical_range, SIZE_4K in *; lia).
    rewrite (bind_lift _ _ _ (v + ProgramHeader.mem_size sg)) by (apply virt_plus_ok; unfold canonical_range, SIZE_4K in *; lia).
    apply try_fault. assert (El : Z.land (v + fsz) 0xfff = (v + fsz) mod SIZE_4K) by (apply (Z.land_ones (v + fsz) 12); lia).
    rewrite El, (proj2 (Z.eqb_neq _ _)) by done. cbn [negb]. unfold remap_last.
    pose proof (step_room _ _ _ _ _ Hst1) as Hr1.
    destruct (allocate_frame_ok s1) as (nf & s2 & E2 & _ & Hd2 & Hsp2 & Hst2); [unfold NEW, TABLES in *; lia|].
    rewrite (bind_ok _ _ _ _ _ E2). cbn [ok_or]. rewrite (try_ok _ _ _ nf s2) by done.
    rewrite (bind_lift _ _ _ (v + fsz)) by (apply virt_plus_ok; unfold canonical_range, SIZE_4K in *; lia).
    rewrite (bind_lift _ _ _ (v + fsz - 1)) by (apply virt_minus_ok; unfold canonical_range, SIZE_4K in *; lia).
    rewrite containing_eq, !start_of_eq. fold pl.
    assert (Hfe : data s2 (f0 + n - 1)).
    { apply (grows_data _ _ (step_grows _ _ _ _ _ (Hst2 0 0))), (grows_data _ _ (step_grows _ _ _ _ _ Hst1)).
      assert (Hk : exists k, 0 <= k < fsz /\ (ks + ProgramHeader.offset sg + k) / SIZE_4K = f0 + n - 1).
      { exists (Z.max 0 ((f0 + n - 1) * SIZE_4K - (ks + ProgramHeader.offset sg))). unfold f0, n. clear -Hal Hsz. page_lia. }
      destruct Hk as (k & Hk & <-). by apply Hdata. }
    rewrite (bind_ok _ _ _ _ _ (read_page_ok s2 (f0 + n - 1) Hfe)).
    destruct (write_page_ok s2 nf (mem s2 <$> seqZ ((f0 + n - 1) * SIZE_4K) SIZE_4K) Hd2) as (s3 & E3 & _ & _ & _ & Hg3 & Hsp3).
    { rewrite length_fmap, length_seqZ. done. }
    rewrite (bind_ok _ _ _ _ _ E3). destruct (unmap_missing s3 pl) as (s4 & E4).
    { split; [rewrite (proj1 Hsp3), (proj1 Hsp2); apply Hu1|].
      rewrite (grows_pde _ _ Hg3), (grows_pde _ _ (step_grows _ _ _ _ _ (Hst2 0 0))). apply Hu1. }
    rewrite (bind_ok _ _ _ _ _ E4). done.
Qed.

(** The zeroed part is mapped up to the page that contains its end address, which is one
    page too many when it ends at a page boundary: a segment that starts there cannot
    be loaded any more, although the two do not overlap. *)
Theorem segment_extra_page ks sg sg' s : 0 <= ks < 2 ^ 52 -> ks mod SIZE_4K = 0 -> seg_ok ks sg -> seg_room ks sg s ->
  ProgramHeader.file_size sg < ProgramHeader.mem_size sg ->
  (ProgramHeader.virtual_addr sg + ProgramHeader.mem_size sg) mod SIZE_4K = 0 -> seg_shape ks sg' ->
  ProgramHeader.virtual_addr sg' = ProgramHeader.virtual_addr sg + ProgramHeader.mem_size sg ->
  exists s', map_elf [sg; sg'] ks s = Ok (inl PageAlreadyMapped, s').
Proof.
  intros Hks Hal Hok Hrm Hlt Hend Hsh' Hadj. unfold map_elf. rewrite (bind_lift _ _ _ ks) by (by apply phys_addr_ok).
  cbn [try_all]. destruct (map_segment_ok ks sg s) as (s1 & E1 & _ & _ & Hmap); [lia|done..|].
  rewrite (try_ok _ _ _ tt s1) by exact E1.
  assert (Hfl : seg_last sg = ProgramHeader.virtual_addr sg' / SIZE_4K).
  { unfold seg_last. by rewrite (proj2 (Z.ltb_lt _ _)), Hadj by done. }
  destruct (Hmap (seg_last sg)) as [x Hx]; [pose proof (seg_first_last _ _ Hok); lia|]. rewrite Hfl in Hx.
  set (f0 := ks / SIZE_4K + ProgramHeader.offset sg' / SIZE_4K).
  destruct (map_to_mapped s1 _ f0 (segment_flags sg') x Hx) as (s2 & E2).
  exists s2. apply try_err. rewrite map_segment_head by (done || lia). fold f0.
  pose proof (seg_sizes _ _ Hsh') as Hsz. assert (0 <= (ProgramHeader.file_size sg' - 1) / SIZE_4K) by (apply Z.div_pos; unfold SIZE_4K; lia).
  apply try_err. rewrite seqZ_cons by lia. cbn [try_all]. apply try_err.
  rewrite (bind_lift _ _ _ 0) by (rewrite frame_minus_ok by lia; f_equal; lia).
  rewrite (bind_lift _ _ _ (ProgramHeader.virtual_addr sg' / SIZE_4K)).
  2:{ rewrite page_plus_ok; [f_equal; lia|lia|]. pose proof (seg_canonical _ _ Hsh') as Hcan. unfold canonical_range, U64 in *. page_lia. }
  exact E2.
Qed.
End claims.

(** ** Segments on the simulated machine *)
Module SimExample.

Definition V : Z := 0xffff800000000000.
(** A segment with a zeroed part that spans two pages, a note, and a segment that does not
    start at a page boundary. *)
Definition text : ProgramHeader.t := ProgramHeader.mk (Some ProgramHeader.Load) 0 V 100 5000 true false.
Definition note : ProgramHeader.t := ProgramHeader.mk (Some ProgramHeader.Other) 0 0 0 0 false false.
Definition rodata : ProgramHeader.t := ProgramHeader.mk (Some ProgramHeader.Load) 0x1010 (V + 0x3010) 200 200 false false.
(** A segment of 4096 bytes that starts within a page, and one that ends at a page
    boundary in memory. *)
Definition crossing : ProgramHeader.t := ProgramHeader.mk (Some ProgramHeader.Load) 0x1010 (V + 0x1010) 4096 4096 false false.
Definition bss : ProgramHeader.t := ProgramHeader.mk (Some ProgramHeader.Load) 0 V 100 0x1000 false true.
Definition after : ProgramHeader.t := ProgramHeader.mk (Some ProgramHeader.Load) 0x1000 (V + 0x1000) 100 100 false true.
Definition start : Sim.t := Sim.mk (fun _ => None) (fun _ => None) (fun a => a mod 251) 16.

Ltac shape_eval := split; [reflexivity|zeval|reflexivity|zeval|right; zeval|zeval].
Lemma text_ok : seg_ok 0 text.
Proof. split; [shape_eval|reflexivity]. Qed.
Lemma rodata_ok : seg_ok 0 rodata.
Proof. split; [shape_eval|reflexivity]. Qed.
Lemma start_unmapped p : unmapped start p.
Proof. split; reflexivity. Qed.
(** The frames below 16 hold data. *)
Lemma start_data a : 0 <= a < 0x10000 -> data start (a / SIZE_4K).
Proof.
  intros Ha. cbn. split; [apply Z.div_pos; unfold SIZE_4K; lia|]. apply Z.div_lt_upper_bound; unfold SIZE_4K; lia.
Qed.

Lemma segments_ok : segs_ok 0 (V / SIZE_4K) (V / SIZE_4K + 3) start [text; note; rodata].
Proof.
  split.
  - repeat constructor; eexists; reflexivity.
  - intros sg Hin Hl. rewrite !elem_of_cons in Hin. destruct Hin as [->|[->|[->|Hin]]].
    + split; [exact text_ok|]. split; [zeval|]. split; [zeval|].
      split; [intros k Hk; apply start_data; cbn in *; lia|intros; apply start_unmapped].
    + discriminate.
    + split; [exact rodata_ok|]. split; [zeval|]. split; [zeval|].
      split; [intros k Hk; apply start_data; cbn in *; lia|intros; apply start_unmapped].
    + by apply not_elem_of_nil in Hin.
  - repeat constructor; intros; discriminate.
  - zeval.
Qed.
End SimExample.
Import SimExample.

Lemma map_elf_loads_witness : exists s', map_elf [text; note; rodata] 0 start = Ok (inr tt, s') /\ mem_kept start s'.
Proof.
  destruct (map_elf_loads 0 (V / SIZE_4K) (V / SIZE_4K + 3) start [text; note; rodata]) as (s' & E & _ & _ & Hm);
    [zeval|reflexivity|exact segments_ok|]. exists s'. split; [exact E|exact Hm].
Defined.

Lemma physical_window_witness : exists s', map_physical_memory 0xffff900000000000 0x100000 start = Ok (tt, s').
Proof.
  destruct (physical_window (F := Z) 0xffff900000000000 0x100000 start) as (s' & E & _);
    [zeval|reflexivity|right; zeval|zeval|intros i Hi; split; reflexivity|]. exists s'. exact E.
Defined.

Lemma segment_last_page_missed_witness : exists s', map_segment crossing 0 start = Ok (inr tt, s') /\
  translate s' (V + 0x1010 + 4096 - 1) = None.
Proof.
  destruct (segment_last_page_missed 0 crossing start) as [H _];
    [lia|reflexivity|shape_eval|zeval|intros; apply start_unmapped|zeval|intros k Hk; apply start_data; cbn in *; lia|].
  apply H. reflexivity.
Defined.

Lemma segment_extra_page_witness : exists s', map_elf [bss; after] 0 start = Ok (inl PageAlreadyMapped, s').
Proof.
  apply (segment_extra_page 0 bss after start); [zeval|reflexivity|split; [shape_eval|reflexivity]| |zeval|reflexivity|shape_eval|reflexivity].
  split; [intros k Hk; apply start_data; cbn in *; lia|intros; apply start_unmapped|zeval].
Defined.
