(* ===== verification/Logger.v ===== *)
(** The logger of the kernel: kernel/src/logger.rs.

    A log message is drawn into the frame buffer, character by character, and sent to
    the serial port. The state is the frame buffer as a list of bytes with the cursor;
    the calls to the serial port are recorded in order. The font (the crate
    noto-sans-mono-bitmap) and the outcome of a write to the port (uart_16550) are the
    parameters [Terminal]; what the logger relies on is [TerminalLaws]. *)
From S2P Require Import Prelude Machine.
From Stdlib Require Import ZArith Lia.
From stdpp Require Import gmap functions sorting list_numbers list.
Local Open Scope Z_scope.

(** [uefi::proto::console::gop::PixelFormat] *)
Inductive PixelFormat := Rgb | Bgr | Bitmask | BltOnly.
(** [log::Level] *)
Inductive Level := Error | Warn | Info | Debug | Trace.

(** [GraphicInfo] with the fields of its mode; the frame buffer lies at [fb_addr]. *)
Module GraphicInfo.
Record t := mk { resolution : Z * Z; pixel_format : PixelFormat; stride : Z; fb_addr : Z; fb_size : Z }.
End GraphicInfo.

(** The bitmap of a character: rows of intensities. *)
Module BitmapChar.
Record t := mk { width : Z; bitmap : list (list Z) }.
End BitmapChar.

Class Terminal := {
  (** [BitmapHeight::Size20.val()] *)
  val : Z;
  (** [get_bitmap(c, FontWeight::Regular, BitmapHeight::Size20)] *)
  get_bitmap : Z -> option BitmapChar.t;
  (** whether [SerialPort::write_char] returns [Ok] *)
  port_write_char : Z -> bool
}.

(** The font is monospaced with [font_width] columns and [val] rows, its
    intensities are bytes; the serial port does not fail. *)
Class TerminalLaws `{Terminal} := {
  font_width : Z;
  val_pos : 0 < val;
  font_width_pos : 0 < font_width;
  bitmap_ok c b : get_bitmap c = Some b ->
    BitmapChar.width b = font_width /\ zlen (BitmapChar.bitmap b) = val /\
    Forall (fun row => zlen row = font_width /\ Forall u8 row) (BitmapChar.bitmap b);
  port_ok c : port_write_char c = true
}.

Module RGB.
Record t := mk { r : Z; g : Z; b : Z }.
Definition to_rgb_pixel (self : t) : list Z := [r self; g self; b self; 0].
Definition to_bgr_pixel (self : t) : list Z := [b self; g self; r self; 0].
Definition from (rgb : Z * Z * Z) : t := mk rgb.1.1 rgb.1.2 rgb.2.
End RGB.

(** A call to the serial port: [send] of a byte or [write_char]. *)
Inductive port_call := Send (b : Z) | WriteChar (c : Z).

Module Logger.

Record t := mk {
  hor_res : Z;
  ver_res : Z;
  format : PixelFormat;
  stride : Z;
  bytes_per_pixel : Z;
  palette : RGB.t;
  framebuffer : list Z;
  x_pos : Z;
  y_pos : Z;
  port : list port_call
}.

Definition with_cursor (x y : Z) (self : t) : t :=
  mk (hor_res self) (ver_res self) (format self) (stride self) (bytes_per_pixel self)
    (palette self) (framebuffer self) x y (port self).
Definition with_framebuffer (fb : list Z) (self : t) : t :=
  mk (hor_res self) (ver_res self) (format self) (stride self) (bytes_per_pixel self)
    (palette self) fb (x_pos self) (y_pos self) (port self).
Definition with_palette (p : RGB.t) (self : t) : t :=
  mk (hor_res self) (ver_res self) (format self) (stride self) (bytes_per_pixel self)
    p (framebuffer self) (x_pos self) (y_pos self) (port self).
Definition with_port (p : port_call) (self : t) : t :=
  mk (hor_res self) (ver_res self) (format self) (stride self) (bytes_per_pixel self)
    (palette self) (framebuffer self) (x_pos self) (y_pos self) (port self ++ [p]).

Definition BACKGROUND_PIXEL : RGB.t := RGB.mk 40 44 52.

Definition background (format : PixelFormat) : list Z :=
  match format with
  | Rgb => RGB.to_rgb_pixel BACKGROUND_PIXEL
  | Bgr => RGB.to_bgr_pixel BACKGROUND_PIXEL
  | _ => [0; 0; 0; 0]
  end.

(** [for i in from..len { framebuffer[i] = background[i % 4] }] *)
Definition fill (from : Z) (self : t) : t :=
  with_framebuffer
    (imap (fun i b => if from <=? Z.of_nat i
      then default 0 (background (format self) !! (i mod 4)%nat) else b) (framebuffer self)) self.

Definition clear (self : t) : t :=
  with_port (Send 10) (fill 0 (with_cursor 0 0 self)).

(** [contents] is what the frame buffer holds. *)
Definition new (info : GraphicInfo.t) (contents : list Z) : outcome t :=
  let '(hor, ver) := GraphicInfo.resolution info in
  pixels ← mul64 hor ver;
  bytes_per_pixel ← div64 (GraphicInfo.fb_size info) pixels;
  Ok (clear (mk hor ver (GraphicInfo.pixel_format info) (GraphicInfo.stride info) bytes_per_pixel
    (RGB.from (0, 0, 0)) contents 0 0 [])).

Definition carriage_return (self : t) : t := with_cursor 0 (y_pos self) self.

Definition set_palette (level : Level) (self : t) : t :=
  let rgb := match level with
    | Error => (210, 114, 119)
    | Warn => (223, 193, 132)
    | Info => (115, 173, 233)
    | Debug => (161, 193, 129)
    | Trace => (220, 223, 228)
    end in
  with_palette (RGB.from rgb) self.

(** One channel of [get_color]: the operands are bytes, the product and the sum [i32]. *)
Definition channel (palette background intensity : Z) : outcome Z :=
  d ← sub8 palette background;
  p ← i32 (d * intensity);
  i32 (Z.quot p 255 + background).

Definition get_color (self : t) (intensity : Z) : outcome (list Z) :=
  red ← channel (RGB.r (palette self)) (RGB.r BACKGROUND_PIXEL) intensity;
  green ← channel (RGB.g (palette self)) (RGB.g BACKGROUND_PIXEL) intensity;
  blue ← channel (RGB.b (palette self)) (RGB.b BACKGROUND_PIXEL) intensity;
  Ok match format self with
     | Rgb => [red mod 256; green mod 256; blue mod 256; 0]
     | Bgr => [blue mod 256; green mod 256; red mod 256; 0]
     | _ => [0; 0; 0; 0]
     end.

Definition write_pixel (x y intensity : Z) (self : t) : outcome t :=
  p ← mul64 y (stride self);
  pixel_offset ← add64 p x;
  color ← get_color self intensity;
  let n := bytes_per_pixel self in
  byte_offset ← mul64 pixel_offset n;
  stop ← add64 byte_offset n;
  assert_ (stop <=? zlen (framebuffer self)) PIndex ;;
  assert_ (n <=? 4) PIndex ;;
  Ok (with_framebuffer (splice (Z.to_nat byte_offset) (take (Z.to_nat n) color) (framebuffer self)) self).

Definition write_rendered_char (rendered_char : BitmapChar.t) (self : t) : outcome t :=
  self ← foldO (fun self '(y, row) =>
    foldO (fun self '(x, byte) =>
      px ← add64 (x_pos self) x;
      py ← add64 (y_pos self) y;
      write_pixel px py byte self) self (enumerate row))
    self (enumerate (BitmapChar.bitmap rendered_char));
  x ← add64 (x_pos self) (BitmapChar.width rendered_char);
  Ok (with_cursor x (y_pos self) self).

Section terminal.
Context `{Terminal}.

Definition newline (self : t) : outcome t :=
  y ← add64 (y_pos self) val;
  Ok (carriage_return (with_cursor (x_pos self) y self)).

(** The lines from [y_pos - (ver_res - letter_height)] on are copied to the top
    ([ptr::copy] beyond the frame buffer is undefined), the rest is cleared. *)
Definition scroll (self : t) : outcome t :=
  let letter_height := val in
  below ← sub64 (ver_res self) (y_pos self);
  lines ← sub64 letter_height below;
  pixels ← mul64 lines (stride self);
  src ← mul64 pixels (bytes_per_pixel self);
  assert_ (src <? zlen (framebuffer self)) PIndex ;;
  kept ← sub64 (ver_res self) letter_height;
  pixels ← mul64 kept (stride self);
  count ← mul64 pixels (bytes_per_pixel self);
  (if src + count <=? zlen (framebuffer self) then Ok tt else Fault Undefined) ;;
  let fb := splice 0 (take (Z.to_nat count) (drop (Z.to_nat src) (framebuffer self))) (framebuffer self) in
  y ← sub64 (ver_res self) letter_height;
  let self := with_cursor (x_pos self) y (with_framebuffer fb self) in
  pixels ← mul64 (y_pos self) (stride self);
  from ← mul64 pixels (bytes_per_pixel self);
  Ok (fill from self).

Definition write_char (c : Z) (self : t) : outcome t :=
  assert_ (port_write_char c) PExpect ;;
  let self := with_port (WriteChar c) self in
  if c =? 10 then newline self
  else if c =? 13 then Ok (carriage_return self)
  else
    bitmap_char ← unwrap (get_bitmap c) PUnwrap;
    x ← add64 (x_pos self) (BitmapChar.width bitmap_char);
    self ← (if hor_res self <=? x then newline self else Ok self);
    bottom ← sub64 (ver_res self) val;
    self ← (if bottom <? y_pos self then scroll self else Ok self);
    write_rendered_char bitmap_char self.

Definition write_str (s : list Z) (self : t) : outcome t :=
  foldO (fun self c => write_char c self) self s.

(** [str::lines]: the pieces before each line feed without a carriage return
    directly before it, and what follows the last one unless it is empty. *)
Definition strip_cr (l : list Z) : list Z :=
  match last l with Some 13 => take (pred (length l)) l | _ => l end.
Fixpoint lines_loop (line s : list Z) : list (list Z) :=
  match s with
  | [] => match line with [] => [] | _ => [line] end
  | c :: s => if c =? 10 then strip_cr line :: lines_loop [] s else lines_loop (line ++ [c]) s
  end.
Definition lines (s : list Z) : list (list Z) := lines_loop [] s.

(** [Display] of [Level] *)
Definition level_str (level : Level) : list Z :=
  match level with
  | Error => [69; 82; 82; 79; 82]
  | Warn => [87; 65; 82; 78]
  | Info => [73; 78; 70; 79]
  | Debug => [68; 69; 66; 85; 71]
  | Trace => [84; 82; 65; 67; 69]
  end.

(** [format!("[{:>5}]: {:>12}@{:03}: ", log_level, file, line)] *)
Definition prefix_str (level : Level) (file : list Z) (line : Z) : list Z :=
  [91] ++ pad_left 32 5 (level_str level) ++ [93; 58; 32] ++ pad_left 32 12 file ++ [64] ++
  pad_left 48 3 (decimal line) ++ [58; 32].

(** [args] is the formatted message. *)
Definition write (level : Level) (args file : list Z) (line : Z) (self : t) : outcome t :=
  let self := set_palette level self in
  let prefix := prefix_str level file line in
  let ls := lines args in
  let first := default [] (head ls) in
  self ← write_str (prefix ++ first ++ [10]) self;
  self ← foldO (fun self line => write_str (prefix ++ line ++ [10]) self) self (tail ls);
  match last args with
  | Some 10 => write_str (prefix ++ [10]) self
  | _ => Ok self
  end.
End terminal.
End Logger.

(** [LockedLogger]: the logger behind a spin lock. *)
Module LockedLogger.

Record t := mk { locked : bool; inner : Logger.t }.

Definition new (info : GraphicInfo.t) (contents : list Z) : outcome t :=
  l ← Logger.new info contents;
  Ok (mk false l).

Section terminal.
Context `{Terminal}.

(** [force_unlock], [enabled] and [flush] *)
Definition force_unlock (self : t) : t := mk false (inner self).
Definition enabled (self : t) (_metadata : Level) : bool := true.
Definition flush (self : t) : t := self.

Definition lock (self : t) : outcome t :=
  if locked self then Fault Deadlock else Ok (mk true (inner self)).

(** [Logger::write] never returns an error, its [write_str] does not. *)
Definition log (level : Level) (args file : list Z) (line : Z) (self : t) : outcome t :=
  self ← lock self;
  l ← Logger.write level args file line (inner self);
  Ok (mk false l).

(** A message of the running kernel: when the logger panics, the panic handler logs
    the panic while the lock is held. *)
Definition kernel_log (level : Level) (args file : list Z) (line : Z) (panic_info panic_file : list Z)
    (panic_line : Z) (self : t) : outcome t :=
  match log level args file line self with
  | Fault (Panic _) => log Error panic_info panic_file panic_line (mk true (inner self))
  | o => o
  end.
End terminal.
End LockedLogger.

(** ** [init]: the serial port, the variable [LOGGER], and the logger of the crate log,
    which can be set once. *)
Module Log.
Record statics := Statics { PORT_initialized : bool; LOGGER : option LockedLogger.t; logger_set : bool }.

Definition init (info : GraphicInfo.t) (contents : list Z) : M statics unit := fun st =>
  logger ← LockedLogger.new info contents;
  assert_ (negb (logger_set st)) PUnwrap ;;
  Ok (tt, Statics true (Some logger) true).
End Log.
