(* ===== verification/Boot.v ===== *)
(** The boot loader's program: bootloader/efi/src/main.rs and fs.rs.

    The firmware is a set of parameters: the memory map, the files of the boot volume,
    the graphic modes, and the memory of [Paging] with the allocation of a buffer and
    reading into it ([Firmware], [FirmwareLaws]). The parser of the xmas-elf crate is a
    parameter too. The state of [main] is the memory with the control registers, the
    variable [ENTRY] and the registers the jump to the kernel sets; log messages are left
    out. *)
From S2P Require Import Prelude Machine Frame Config Logger Paging PageTables BootMemory.
From Stdlib Require Import ZArith Lia.
From stdpp Require Import gmap functions sorting list_numbers list.
Local Open Scope Z_scope.

(** [uefi::table::boot::MemoryDescriptor]; of the types of memory the code names one. *)
Inductive MemoryType := CONVENTIONAL | OtherMemory.
Module MemoryDescriptor.
Record t := mk { ty : MemoryType; phys_start : Z; page_count : Z }.
End MemoryDescriptor.

(** [BootInfo] of bootloader/src/lib.rs *)
Module BootInfo.
Record t := mk { memory_map : list MemoryDescriptor.t; physical_memory_offset : Z; graphic_info : GraphicInfo.t }.
End BootInfo.

(** [GraphicsOutput]: the modes, each with the frame buffer it would have, whether it can be
    set, and the current one. *)
Module Gop.
Record t := mk { modes : list GraphicInfo.t; can_set : GraphicInfo.t -> bool; current : GraphicInfo.t }.
End Gop.

Class Firmware (S : Type) := {
  (** the contents of a file of the boot volume *)
  volume : list Z -> option (list Z);
  (** [BootServices::allocate_pages] for several pages *)
  allocate_buffer : Z -> M S (option Z);
  (** [RegularFile::read] into a buffer *)
  read_into : Z -> list Z -> M S unit;
  (** [exit_boot_services]: the final memory map *)
  exit_boot_services : M S (option (list MemoryDescriptor.t));
  (** [ElfFile::new]: the entry point and the program headers *)
  elf_new : list Z -> option (Z * list ProgramHeader.t)
}.

Section code.
Context {S : Type} `{Paging S} `{!Firmware S}.

Definition open_file (path : list Z) : M S (list Z) := lift (unwrap (volume path) PExpect).

(** The address of the buffer and what was read. *)
Definition load_file (file : list Z) : M S (Z * list Z) :=
  let file_size := zlen file in
  let pages := file_size / 0x1000 + 1 in
  mem_start ← allocate_buffer pages;
  mem_start ← lift (unwrap mem_start PExpect);
  let len := Z.min file_size (pages * 0x1000) in
  let buf := take (Z.to_nat len) file in
  read_into mem_start buf ;;
  mret (mem_start, buf).

Definition init_graphic (gop : Gop.t) (resolution : option (Z * Z)) : outcome GraphicInfo.t :=
  match resolution with
  | None => Ok (Gop.current gop)
  | Some resolution =>
      mode ← unwrap (i ← find_index (fun mode => bool_decide (GraphicInfo.resolution mode = resolution)) (Gop.modes gop);
                     Gop.modes gop !! i) PExpect;
      assert_ (Gop.can_set gop mode) PExpect ;;
      Ok mode
  end.

Definition descriptor_end (x : MemoryDescriptor.t) : outcome Z :=
  n ← mul64 (MemoryDescriptor.page_count x) 0x1000;
  add64 (MemoryDescriptor.phys_start x) n.

(** [map(..).max().unwrap()] *)
Definition max_phys_addr (mmap : list MemoryDescriptor.t) : outcome Z :=
  r ← foldO (fun acc x => e ← descriptor_end x; Ok (Some (match acc with Some m => Z.max m e | None => e end))) None mmap;
  unwrap r PUnwrap.

(** The processor: the bits of CR0 and EFER the boot loader changes, the variable [ENTRY],
    and, after the jump, where the kernel runs and with which stack and argument. *)
Record Cpu := mk_cpu {
  WRITE_PROTECT : bool;
  NO_EXECUTE_ENABLE : bool;
  ENTRY : Z;
  jumped : option (Z * Z * BootInfo.t)
}.
Abbreviation machine := (S * Cpu)%type.

Definition on_mem {A} (m : M S A) : M machine A := zoom fst (fun s st => (s, st.2)) m.
Definition on_cpu (f : Cpu -> Cpu) : M machine unit := fun st => Ok (tt, (st.1, f st.2)).

(** [Cr0::update], [Efer::update] *)
Definition set_write_protect (b : bool) : M machine unit :=
  on_cpu (fun c => mk_cpu b (NO_EXECUTE_ENABLE c) (ENTRY c) (jumped c)).
Definition set_no_execute (b : bool) : M machine unit :=
  on_cpu (fun c => mk_cpu (WRITE_PROTECT c) b (ENTRY c) (jumped c)).
Definition set_entry (entry : Z) : M machine unit :=
  on_cpu (fun c => mk_cpu (WRITE_PROTECT c) (NO_EXECUTE_ENABLE c) entry (jumped c)).

(** [mov rsp, stack_top; call ENTRY]: the call pushes the return address, and the kernel
    runs at [ENTRY] with the boot information as its argument. It does not return. *)
Definition jump_to_entry (stack_top : Z) (boot_info : BootInfo.t) : M machine unit :=
  on_cpu (fun c => mk_cpu (WRITE_PROTECT c) (NO_EXECUTE_ENABLE c) (ENTRY c)
    (Some (ENTRY c, (stack_top - 8) mod U64, boot_info))).

(** The loop of pushes to a vector that was made [with_capacity], when there is no allocator
    any more to let it grow. *)
Definition push_all (capacity : Z) (mmap_iter : list MemoryDescriptor.t) : outcome (list MemoryDescriptor.t) :=
  foldO (fun memory_map desc => if zlen memory_map <? capacity then Ok (memory_map ++ [desc]) else Fault (Panic PAlloc))
    [] mmap_iter.

Definition main (mmap : list MemoryDescriptor.t) (gop : Gop.t) : M machine unit :=
  max_phys_addr ← lift (max_phys_addr mmap);
  conf ← on_mem (open_file (str "\EFI\Boot\boot.conf"));
  '(_, buf) ← on_mem (load_file conf);
  config ← lift (Config.parse buf);
  graphic_info ← lift (init_graphic gop (Config.resolution config));
  file ← on_mem (open_file (Config.kernel_path config));
  '(kernel_start, buf) ← on_mem (load_file file);
  '(entry, segments) ← lift (unwrap (elf_new buf) PExpect);
  set_entry entry ;;
  set_write_protect false ;;
  set_no_execute true ;;
  r ← on_mem (map_elf segments kernel_start);
  lift (assert_ (match r with inr _ => true | inl _ => false end) PExpect) ;;
  r ← on_mem (map_stack (Config.kernel_stack_address config) (Config.kernel_stack_size config));
  lift (assert_ (match r with inr _ => true | inl _ => false end) PExpect) ;;
  on_mem (map_physical_memory (Config.physical_memory_offset config) max_phys_addr) ;;
  set_write_protect true ;;
  n ← lift (mul64 (Config.kernel_stack_size config) 0x1000);
  stacktop ← lift (add64 (Config.kernel_stack_address config) n);
  capacity ← lift (mul64 (zlen mmap) 2);
  mmap_iter ← on_mem exit_boot_services;
  mmap_iter ← lift (unwrap mmap_iter PExpect);
  memory_map ← lift (push_all capacity mmap_iter);
  jump_to_entry stacktop (BootInfo.mk memory_map (Config.physical_memory_offset config) graphic_info).

Lemma push_all_ok capacity map : zlen map <= capacity -> push_all capacity map = Ok map.
Proof.
  unfold push_all. enough (Hgen : forall v, zlen v + zlen map <= capacity -> foldO (fun memory_map desc =>
    if zlen memory_map <? capacity then Ok (memory_map ++ [desc]) else Fault (Panic PAlloc)) v map = Ok (v ++ map)) by apply (Hgen []).
  induction map as [|d map IH]; intros v Hv; cbn [foldO]; [by rewrite app_nil_r|].
  rewrite (proj2 (Z.ltb_lt _ _)) by (cbn [length] in Hv; lia). omon.
  rewrite IH by (rewrite length_app; cbn [length] in *; lia). by rewrite <- app_assoc.
Qed.

(** A longer map than there is room for. *)
Lemma push_all_full capacity map : 0 <= capacity < zlen map -> push_all capacity map = Fault (Panic PAlloc).
Proof.
  unfold push_all. enough (Hgen : forall v, zlen v <= capacity < zlen v + zlen map -> foldO (fun memory_map desc =>
    if zlen memory_map <? capacity then Ok (memory_map ++ [desc]) else Fault (Panic PAlloc)) v map = Fault (Panic PAlloc))
    by apply (Hgen []).
  induction map as [|d map IH]; intros v Hv; cbn [foldO length] in *; [lia|].
  destruct (Z.ltb_spec (zlen v) capacity); [|done]. omon. apply IH. rewrite length_app. cbn [length]. lia.
Qed.

Lemma bind_mem {A B} (m : M S A) (f : A -> M machine B) s c a s' : m s = Ok (a, s') ->
  (on_mem m ≫= f) (s, c) = f a (s', c).
Proof. intros E. unfold mbind, M_bind, on_mem, zoom. cbn [fst snd]. by rewrite E. Qed.
Lemma bind_cpu {B} g (f : unit -> M machine B) s c : (on_cpu g ≫= f) (s, c) = f tt (s, g c).
Proof. done. Qed.
End code.

(** ** What the firmware promises *)
Class FirmwareLaws (S : Type) `{PagingLaws S} `{!Firmware S} := {
  (** there is a run of [n] free frames *)
  block : S -> Z -> Prop;
  allocate_buffer_ok s n : 0 < n <= room s -> block s n -> exists f s', allocate_buffer n s = Ok (Some (f * SIZE_4K), s') /\
    0 <= f /\ f + n <= 2 ^ 40 /\ (forall i, 0 <= i < n -> free s (f + i) /\ data s' (f + i)) /\ room s - n <= room s' /\
    grows s s' /\ mem_kept s s' /\ same_pages s s' /\ (forall m, 0 <= m -> block s (n + m) -> block s' m);
  read_into_ok s a (l : list Z) : (forall i, 0 <= i < zlen l -> data s ((a + i) / SIZE_4K)) -> exists s', read_into a l s = Ok (tt, s') /\
    (forall i, 0 <= i < zlen l -> mem s' (a + i) = default 0 (l !! Z.to_nat i)) /\
    (forall x, data s (x / SIZE_4K) -> x < a \/ a + zlen l <= x -> mem s' x = mem s x) /\
    room s' = room s /\ grows s s' /\ same_pages s s' /\ (forall m, block s m -> block s' m);
  exit_boot_services_ok s : exists map s', exit_boot_services s = Ok (Some map, s') /\
    (forall p, pte s' p = pte s p) /\ (forall q, pde s' q = pde s q) /\ mem_kept s s'
}.

Section proofs.
Context {S : Type} `{HP : Paging S} `{HV : !PagingView S} `{HL : !PagingLaws S} `{HF : !Firmware S} `{HFL : !FirmwareLaws S}.
Implicit Types (s : S).

Definition file_pages (file : list Z) : Z := zlen file / 0x1000 + 1.

(** A loaded file: page aligned, its bytes in data frames. *)
Lemma load_file_ok file s m : file_pages file <= room s -> 0 <= m -> block s (file_pages file + m) -> block s (file_pages file) ->
  exists f s', load_file file s = Ok ((f * SIZE_4K, file), s') /\ 0 <= f /\ f * SIZE_4K + zlen file < 2 ^ 52 /\
    (forall i, 0 <= i < zlen file -> data s' ((f * SIZE_4K + i) / SIZE_4K) /\
      mem s' (f * SIZE_4K + i) = default 0 (file !! Z.to_nat i)) /\
    grows s s' /\ mem_kept s s' /\ same_pages s s' /\ room s - file_pages file <= room s' /\ block s' m.
Proof.
  intros Hr Hm Hb Hb0. unfold load_file. fold (file_pages file).
  assert (Hp : 0 < file_pages file) by (unfold file_pages; pose proof (Z.div_pos (zlen file) 0x1000); lia).
  destruct (allocate_buffer_ok s (file_pages file)) as (f & s1 & E1 & Hf & Hf40 & Hfd & Hr1 & Hg1 & Hm1 & Hsp1 & Hb1); [lia|done|].
  rewrite (bind_ok _ _ _ _ _ E1). cbn [unwrap]. rewrite (bind_lift _ _ _ (f * SIZE_4K)) by done.
  assert (Hlen : zlen file < file_pages file * SIZE_4K).
  { unfold file_pages. pose proof (Z.mul_succ_div_gt (zlen file) 0x1000). unfold SIZE_4K. lia. }
  replace (Z.min (zlen file) (file_pages file * 0x1000)) with (zlen file) by (unfold SIZE_4K in *; lia).
  rewrite Nat2Z.id, firstn_all.
  assert (Hd1 : forall i, 0 <= i < zlen file -> free s ((f * SIZE_4K + i) / SIZE_4K) /\ data s1 ((f * SIZE_4K + i) / SIZE_4K)).
  { intros i Hi. rewrite Z.div_add_l by done. apply Hfd. split; [apply Z.div_pos; unfold SIZE_4K; lia|].
    apply Z.div_lt_upper_bound; unfold SIZE_4K in *; lia. }
  destruct (read_into_ok s1 (f * SIZE_4K) file) as (s2 & E2 & Hw & Hk & Hr2 & Hg2 & Hsp2 & Hb2); [intros; by apply Hd1|].
  rewrite (bind_ok _ _ _ _ _ E2). exists f, s2. split; [done|]. split; [done|]. split; [unfold SIZE_4K in *; lia|].
  split; [intros i Hi; split; [by apply (grows_data _ _ Hg2), Hd1|by apply Hw]|].
  split; [by eapply grows_trans|]. split.
  - intros a Ha. rewrite Hk; [by apply Hm1|by apply (grows_data _ _ Hg1)|].
    destruct (decide (f * SIZE_4K <= a < f * SIZE_4K + zlen file)) as [Hin|]; [|lia].
    exfalso. destruct (Hd1 (a - f * SIZE_4K)) as [Hfree _]; [lia|]. replace (f * SIZE_4K + (a - f * SIZE_4K)) with a in Hfree by lia.
    by apply (data_not_free s _ Ha).
  - destruct Hsp1, Hsp2. split; [split; [intros p; etrans; eauto|auto]|]. split; [lia|]. auto.
Qed.

Lemma descriptor_end_eq d e : descriptor_end d = Ok e ->
  e = MemoryDescriptor.phys_start d + MemoryDescriptor.page_count d * 0x1000.
Proof.
  unfold descriptor_end, mul64, add64. destruct (_ <? U64); cbn; [|done]. destruct (_ <? U64); [|done]. by intros [= <-].
Qed.

Lemma max_phys_addr_bound mmap x : max_phys_addr mmap = Ok x ->
  forall d, d ∈ mmap -> MemoryDescriptor.phys_start d + MemoryDescriptor.page_count d * 0x1000 <= x.
Proof.
  unfold max_phys_addr. set (f := fun acc x => _). intros E.
  assert (Hgen : forall l acc r, foldO f acc l = Ok r -> (forall m, acc = Some m -> exists m', r = Some m' /\ m <= m') /\
    forall d, d ∈ l -> exists m', r = Some m' /\ MemoryDescriptor.phys_start d + MemoryDescriptor.page_count d * 0x1000 <= m').
  { induction l as [|d l IH]; intros acc r Hr; cbn [foldO] in Hr.
    - injection Hr as <-. split; [intros m ->; eexists; split; [done|lia]|]. intros d Hd. by apply not_elem_of_nil in Hd.
    - destruct (f acc d) as [acc'|] eqn:Ef; [|discriminate]. change (foldO f acc' l = Ok r) in Hr. unfold f in Ef.
      destruct (descriptor_end d) as [e|] eqn:Ee; [|discriminate]. apply descriptor_end_eq in Ee. injection Ef as <-.
      destruct (IH _ _ Hr) as [H1 H2]. destruct (H1 _ eq_refl) as (m' & -> & Hm'). split.
      + intros m ->. exists m'. split; [done|]. lia.
      + intros d' [->|Hd]%elem_of_cons; [|by apply H2]. exists m'. split; [done|]. destruct acc; lia. }
  destruct (foldO f None mmap) as [r|] eqn:Er; [|done]. cbn in E. destruct r as [m|]; [|done]. injection E as <-.
  intros d Hd. destruct (Hgen _ _ _ Er) as [_ H2]. destruct (H2 d Hd) as (m' & [= <-] & Hle). done.
Qed.

(** ** The whole program *)

(** An ELF file the loader handles: its segments lie within the file and between the
    pages [lo] and [hi], and do not overlap. *)
Record elf_ok (kernel : list Z) (lo hi : Z) (segs : list ProgramHeader.t) : Prop := {
  elf_known : Forall (fun sg => is_Some (ProgramHeader.get_type sg)) segs;
  elf_each sg : sg ∈ segs -> is_load sg = true -> seg_ok 0 sg /\ lo <= seg_first sg /\ seg_last sg <= hi /\
    ProgramHeader.offset sg + ProgramHeader.file_size sg <= zlen kernel;
  elf_apart : ForallOrdPairs (fun a b => is_load a = true -> is_load b = true -> seg_disjoint a b) segs
}.

Lemma seg_ok_at ks sg : 0 <= ks -> seg_ok 0 sg -> ks + ProgramHeader.offset sg + ProgramHeader.file_size sg < 2 ^ 52 -> seg_ok ks sg.
Proof. intros Hks [[] Hnc] Hph. split; [split; done|done]. Qed.

Lemma elf_segs_ok kernel lo hi segs f s : elf_ok kernel lo hi segs -> 0 <= f -> f * SIZE_4K + zlen kernel < 2 ^ 52 ->
  (forall i, 0 <= i < zlen kernel -> data s ((f * SIZE_4K + i) / SIZE_4K)) ->
  (forall p, lo <= p <= hi -> unmapped s p) -> total_cost (filter (fun sg => is_load sg = true) segs) <= room s ->
  segs_ok (f * SIZE_4K) lo hi s segs.
Proof.
  intros [Hk He Ha] Hf Hph Hd Hu Hr. split; [done|..|done|done]. intros sg Hin Hl. destruct (He sg Hin Hl) as (Hok & Hlo & Hhi & Hlen).
  pose proof (seg_offset _ _ (proj1 Hok)). split; [apply seg_ok_at; [unfold SIZE_4K; lia|done|lia]|]. split; [done|]. split; [done|].
  split; [|intros p Hp; apply Hu; lia]. intros k Hk'. rewrite <- Z.add_assoc. apply Hd. lia.
Qed.

(** What the boot loader needs of the machine and the configuration. *)
Record boot_ok (config : Config.t) (maxa lo hi : Z) (conf kernel : list Z) (segs : list ProgramHeader.t) s : Prop := {
  boot_stack : Config.kernel_stack_address config mod SIZE_4K = 0 /\ 0 <= Config.kernel_stack_size config /\
    canonical_range (Config.kernel_stack_address config)
      (Config.kernel_stack_address config + Config.kernel_stack_size config * SIZE_4K);
  boot_window : 0 <= maxa < 2 ^ 52 /\ Config.physical_memory_offset config mod SIZE_2M = 0 /\
    canonical_range (Config.physical_memory_offset config) (Config.physical_memory_offset config + maxa + SIZE_2M);
  boot_stack_apart : let p0 := Config.kernel_stack_address config / SIZE_4K in
    p0 + Config.kernel_stack_size config - 1 < lo \/ hi < p0;
  boot_window_apart q : let q0 := Config.physical_memory_offset config / SIZE_2M in
    let p0 := Config.kernel_stack_address config / SIZE_4K in
    q0 <= q <= q0 + maxa / SIZE_2M -> untouched s q /\ (q < lo / 512 \/ hi / 512 < q) /\
      (q < p0 / 512 \/ (p0 + Config.kernel_stack_size config - 1) / 512 < q);
  boot_unmapped p : let p0 := Config.kernel_stack_address config / SIZE_4K in
    lo <= p <= hi \/ p0 <= p < p0 + Config.kernel_stack_size config -> unmapped s p;
  boot_buffers : block s (file_pages conf + file_pages kernel) /\ block s (file_pages conf);
  boot_room : file_pages conf + file_pages kernel + total_cost (filter (fun sg => is_load sg = true) segs) +
    NEW * Config.kernel_stack_size config + TABLES * (maxa / SIZE_2M + 1) <= room s
}.

(** The kernel is in memory. *)
Definition kernel_loaded (kernel : list Z) (segs : list ProgramHeader.t) s : Prop :=
  forall sg i, sg ∈ segs -> is_load sg = true -> 0 <= i < ProgramHeader.mem_size sg ->
    exists a, translate s (ProgramHeader.virtual_addr sg + i) = Some (a, segment_flags sg) /\
      mem s a = if i <? ProgramHeader.file_size sg then default 0 (kernel !! Z.to_nat (ProgramHeader.offset sg + i)) else 0.

(** Steps 1 to 3: the files and the segments. *)
Lemma load_and_map config maxa lo hi conf kernel segs s : boot_ok config maxa lo hi conf kernel segs s -> elf_ok kernel lo hi segs ->
  exists f1 s1 f2 s2 s3, load_file conf s = Ok ((f1, conf), s1) /\ load_file kernel s1 = Ok ((f2, kernel), s2) /\
    map_elf segs f2 s2 = Ok (inr tt, s3) /\
    (forall p, p < lo \/ hi < p -> pte s3 p = pte s p) /\ (forall q, pde s3 q = pde s q) /\
    (forall q, q < lo / 512 \/ hi / 512 < q -> untouched s q -> untouched s3 q) /\
    NEW * Config.kernel_stack_size config + TABLES * (maxa / SIZE_2M + 1) <= room s3 /\
    forall sg, sg ∈ segs -> is_load sg = true -> loaded (fun k => default 0 (kernel !! Z.to_nat k)) sg s3.
Proof.
  intros Hb He. destruct (boot_buffers _ _ _ _ _ _ _ _ Hb) as [Hbl Hbl0]. pose proof (boot_room _ _ _ _ _ _ _ _ Hb) as Hr.
  assert (Hn : 0 < file_pages conf /\ 0 < file_pages kernel).
  { unfold file_pages. pose proof (Z.div_pos (zlen conf) 0x1000). pose proof (Z.div_pos (zlen kernel) 0x1000). lia. }
  pose proof (boot_stack _ _ _ _ _ _ _ _ Hb) as (_ & Hst & _). pose proof (boot_window _ _ _ _ _ _ _ _ Hb) as (Hmx & _).
  assert (0 <= maxa / SIZE_2M) by (apply Z.div_pos; unfold SIZE_2M; lia).
  pose proof (total_cost_pos 0 segs (fun sg Hin Hl => proj1 (elf_each _ _ _ _ He sg Hin Hl))) as Hcost.
  unfold NEW, TABLES in Hr.
  destruct (load_file_ok conf s (file_pages kernel)) as (f1 & s1 & E1 & _ & _ & _ & Hg1 & Hm1 & Hsp1 & Hr1 & Hbl1); [lia|lia|done|done|].
  destruct (load_file_ok kernel s1 0) as (f2 & s2 & E2 & Hf2 & Hph & Hdata & Hg2 & Hm2 & Hsp2 & Hr2 & _); [lia|lia|by rewrite Z.add_0_r|done|].
  destruct (map_segments_ok (f2 * SIZE_4K) lo hi s2 segs) as (s3 & E3 & Hst3 & Hld & _); [unfold SIZE_4K; lia|by apply Z.mod_mul| |].
  { apply (elf_segs_ok kernel); [done|done|done|intros; by apply Hdata| |lia].
    intros p Hp. destruct (boot_unmapped _ _ _ _ _ _ _ _ Hb p) as [H1 H2]; [auto|].
    split; [rewrite (proj1 Hsp2), (proj1 Hsp1); done|rewrite (grows_pde _ _ Hg2), (grows_pde _ _ Hg1); done]. }
  exists (f1 * SIZE_4K), s1, (f2 * SIZE_4K), s2, s3. split; [done|]. split; [done|]. split.
  { unfold map_elf. rewrite (bind_lift _ _ _ (f2 * SIZE_4K)) by (apply phys_addr_ok; unfold SIZE_4K in *; lia). exact E3. }
  split; [intros p Hp; rewrite (step_pte _ _ _ _ _ Hst3) by done; rewrite (proj1 Hsp2), (proj1 Hsp1); done|].
  split; [intros q; rewrite (grows_pde _ _ (step_grows _ _ _ _ _ Hst3)), (grows_pde _ _ Hg2), (grows_pde _ _ Hg1); done|].
  split; [intros q Hq Hun; apply (step_untouched _ _ _ _ _ Hst3); [done|]; by apply (proj2 Hsp2), (proj2 Hsp1)|].
  split; [pose proof (step_room _ _ _ _ _ Hst3); unfold NEW, TABLES; lia|].
  intros sg Hin Hl. eapply loaded_ext; [by apply Hld|]. intros k Hk. destruct (elf_each _ _ _ _ He sg Hin Hl) as (Hok & _ & _ & Hlen).
  pose proof (seg_offset _ _ (proj1 Hok)). apply Hdata. lia.
Qed.

(** The steps of [main], each of which succeeds. *)
Lemma main_run mmap gop conf kernel config gi maxa entry segs f1 f2 s s1 s2 s3 s4 s5 s6 c map :
  max_phys_addr mmap = Ok maxa -> volume (str "\EFI\Boot\boot.conf") = Some conf -> Config.parse conf = Ok config ->
  init_graphic gop (Config.resolution config) = Ok gi -> volume (Config.kernel_path config) = Some kernel ->
  elf_new kernel = Some (entry, segs) -> load_file conf s = Ok ((f1, conf), s1) -> load_file kernel s1 = Ok ((f2, kernel), s2) ->
  map_elf segs f2 s2 = Ok (inr tt, s3) ->
  map_stack (Config.kernel_stack_address config) (Config.kernel_stack_size config) s3 = Ok (inr tt, s4) ->
  map_physical_memory (Config.physical_memory_offset config) maxa s4 = Ok (tt, s5) ->
  exit_boot_services s5 = Ok (Some map, s6) ->
  Config.kernel_stack_size config * 0x1000 < U64 ->
  Config.kernel_stack_address config + Config.kernel_stack_size config * 0x1000 < U64 ->
  zlen map <= 2 * zlen mmap < U64 ->
  main mmap gop (s, c) = Ok (tt, (s6, mk_cpu true true entry
    (Some (entry, (Config.kernel_stack_address config + Config.kernel_stack_size config * 0x1000 - 8) mod U64,
      BootInfo.mk map (Config.physical_memory_offset config) gi)))).
Proof.
  intros Hmax Hconf Hparse Hgop Hker Helf E1 E2 E3 E4 E5 E6 Hs1 Hs2 Hlen. unfold main.
  rewrite (bind_lift _ _ _ _ Hmax). erewrite bind_mem by (unfold open_file; rewrite Hconf; reflexivity).
  rewrite (bind_mem _ _ _ _ _ _ E1). rewrite (bind_lift _ _ _ _ Hparse), (bind_lift _ _ _ _ Hgop).
  erewrite bind_mem by (unfold open_file; rewrite Hker; reflexivity). rewrite (bind_mem _ _ _ _ _ _ E2).
  rewrite Helf. cbn [unwrap]. rewrite (bind_lift _ _ _ (entry, segs)) by done.
  unfold set_entry, set_write_protect, set_no_execute. rewrite !bind_cpu. rewrite (bind_mem _ _ _ _ _ _ E3).
  rewrite (bind_lift _ _ _ tt) by done. rewrite (bind_mem _ _ _ _ _ _ E4). rewrite (bind_lift _ _ _ tt) by done.
  rewrite (bind_mem _ _ _ _ _ _ E5). rewrite bind_cpu.
  rewrite (bind_lift _ _ _ _ (mul64_ok _ _ Hs1)), (bind_lift _ _ _ _ (add64_ok _ _ Hs2)).
  rewrite (bind_lift _ _ _ _ (mul64_ok (zlen mmap) 2 ltac:(lia))). rewrite (bind_mem _ _ _ _ _ _ E6). cbn [unwrap].
  rewrite (bind_lift _ _ _ map) by done. by rewrite (bind_lift _ _ _ _ (push_all_ok (zlen mmap * 2) map ltac:(lia))).
Qed.
End proofs.

(** C11: the boot loader as a whole. When the memory map, the configuration, the graphic mode
    and the kernel file are in order and the kernel, its stack and the window lie apart
    from each other and from what is mapped, [main] jumps to the kernel: to the entry
    point of the file, with eight bytes on the configured stack, write protection and
    no-execute pages on; every segment of the kernel is in memory at its addresses, byte
    for byte from the file and then zeros; every byte of the stack below its top is
    mapped writable; and the physical memory is visible at the offset passed to the
    kernel. The boot information passed on holds the memory map, in order, that
    [exit_boot_services] returned after all this, the offset and the graphic mode. The
    vector for the map is made before, with room for twice the entries of the first map,
    because nothing can be allocated later: the final map must not be longer. *)
Theorem boot_main {S : Type} `{HP : Paging S} `{HV : !PagingView S} `{HL : !PagingLaws S} `{HF : !Firmware S} `{HFL : !FirmwareLaws S}
    (mmap : list MemoryDescriptor.t) (gop : Gop.t) (conf kernel : list Z) (config : Config.t) (gi : GraphicInfo.t)
    (maxa entry lo hi : Z) (segs : list ProgramHeader.t) (s : S) (c : Cpu) :
  max_phys_addr mmap = Ok maxa -> volume (str "\EFI\Boot\boot.conf") = Some conf -> Config.parse conf = Ok config ->
  init_graphic gop (Config.resolution config) = Ok gi -> volume (Config.kernel_path config) = Some kernel ->
  elf_new kernel = Some (entry, segs) -> elf_ok kernel lo hi segs -> boot_ok config maxa lo hi conf kernel segs s ->
  2 * zlen mmap < U64 ->
  (forall st map st', exit_boot_services st = Ok (Some map, st') -> zlen map <= 2 * zlen mmap) ->
  let stack := Config.kernel_stack_address config in
  let stacktop := stack + Config.kernel_stack_size config * 0x1000 in
  let offset := Config.physical_memory_offset config in
  exists s1 s' map, exit_boot_services s1 = Ok (Some map, s') /\
    (forall v, translate s1 v = translate s' v) /\
    main mmap gop (s, c) =
      Ok (tt, (s', mk_cpu true true entry (Some (entry, (stacktop - 8) mod U64, BootInfo.mk map offset gi)))) /\
    kernel_loaded kernel segs s' /\
    (forall v, stack <= v < stacktop -> exists a, translate s' v = Some (a, PageTableFlags.mk true false)) /\
    (forall a, 0 <= a <= maxa -> translate s' (offset + a) = Some (a, PageTableFlags.mk true false)).
Proof.
  intros Hmax Hconf Hparse Hgop Hker Helf He Hb HU Hlen stack stacktop offset.
  destruct (load_and_map config maxa lo hi conf kernel segs s Hb He) as (f1 & s1 & f2 & s2 & s3 & E1 & E2 & E3 & Hp3 & Hq3 & Hu3 & Hr3 & Hld).
  destruct (boot_stack _ _ _ _ _ _ _ _ Hb) as (Hsa & Hss & Hsc). destruct (boot_window _ _ _ _ _ _ _ _ Hb) as (Hmx & Hwa & Hwc).
  fold stack offset in Hsa, Hsc, Hwa, Hwc. assert (0 <= maxa / SIZE_2M) by (apply Z.div_pos; unfold SIZE_2M; lia).
  pose proof (boot_stack_apart _ _ _ _ _ _ _ _ Hb) as Hap. cbn zeta in Hap. fold stack in Hap.
  destruct (map_stack_ok stack (Config.kernel_stack_size config) s3) as (s4 & fr & E4 & Hst4 & Hfr & _).
  { done. } { done. } { unfold TABLES in Hr3. lia. }
  { intros p Hp. destruct (boot_unmapped _ _ _ _ _ _ _ _ Hb p) as [H1 H2]; [auto|].
    split; [rewrite Hp3 by lia; done|by rewrite Hq3]. }
  pose proof (step_room _ _ _ _ _ Hst4) as Hr4.
  destruct (map_physical_memory_ok offset maxa s4) as (s5 & E5 & Hp5 & Hd5 & Hm5 & Hw5); [done|done|done|lia| |].
  { intros i Hi. destruct (boot_window_apart _ _ _ _ _ _ _ _ Hb (offset / SIZE_2M + i)) as (H1 & H2 & H3); [fold offset; lia|].
    apply (step_untouched _ _ _ _ _ Hst4); [exact H3|]. by apply Hu3. }
  destruct (exit_boot_services_ok s5) as (map & s6 & E6 & Hp6 & Hq6 & Hm6).
  exists s5, s6, map. split; [exact E6|]. split; [intros v; unfold translate; by rewrite Hp6, Hq6|]. split.
  { apply (main_run mmap gop conf kernel config gi maxa entry segs f1 f2 s s1 s2 s3 s4 s5 s6); try done.
    - unfold canonical_range, U64, SIZE_4K in *. lia.
    - unfold canonical_range, U64, SIZE_4K in *. lia.
    - split; [by eapply Hlen|done]. }
  assert (Hpte : forall p, pte s6 p = pte s4 p) by (intros p; rewrite Hp6, Hp5; done).
  split; [|split].
  - intros sg i Hin Hl Hi. destruct (Hld sg Hin Hl i Hi) as (f & Hp & Hd & Hm). cbn zeta in *.
    destruct (elf_each _ _ _ _ He sg Hin Hl) as (Hok & Hlo & Hhi & _).
    pose proof (seg_page sg i Hi (proj2 (seg_sizes _ _ (proj1 Hok)))) as Hpg.
    eexists. split; [apply translate_page; rewrite Hpte, (step_pte _ _ _ _ _ Hst4) by lia; exact Hp|].
    assert (Hd4 : data s4 f) by (by apply (grows_data _ _ (step_grows _ _ _ _ _ Hst4))).
    rewrite Hm6 by (rewrite frame_of by apply page_offset; auto). rewrite Hm5 by (by rewrite frame_of by apply page_offset).
    rewrite (step_mem _ _ _ _ _ Hst4) by (by rewrite frame_of by apply page_offset). exact Hm.
  - intros v Hv. destruct (Hfr (v / SIZE_4K)) as (Hp & _).
    { unfold stacktop in Hv. clear -Hv Hsa. page_lia. }
    eexists. apply translate_page. by rewrite Hpte, Hp.
  - intros a Ha. transitivity (translate s5 (offset + a)); [unfold translate; by rewrite Hp6, Hq6|by apply Hw5].
Qed.

(** ** A boot on the simulated machine *)
Module Example.
Import SimExample.

Definition kernel : list Z := replicate 5000 7.
Definition segments : list ProgramHeader.t := [text; note; rodata].
Definition mode : GraphicInfo.t := GraphicInfo.mk (1024, 768) Bgr 1024 0x80000000 (1024 * 768 * 4).
Definition gop : Gop.t := Gop.mk [mode] (fun _ => true) mode.
Definition mmap : list MemoryDescriptor.t := [MemoryDescriptor.mk CONVENTIONAL 0 256].

#[local] Instance firmware : Firmware Sim.t := {|
  volume path := if decide (path = str "\EFI\Boot\boot.conf") then Some boot_conf
    else if decide (path = str "\EFI\canyon\kernel.elf") then Some kernel else None;
  allocate_buffer n s :=
    if (0 <=? Sim.next s) && (Sim.next s + n <=? 2 ^ 40)
    then Ok (Some (Sim.next s * SIZE_4K), Sim.mk (Sim.ptes s) (Sim.pdes s) (Sim.memory s) (Sim.next s + n))
    else Ok (None, s);
  read_into a l s := Ok (tt, Sim.mk (Sim.ptes s) (Sim.pdes s)
    (fun x => if (a <=? x) && (x <? a + zlen l) then default 0 (l !! Z.to_nat (x - a)) else Sim.memory s x) (Sim.next s));
  exit_boot_services s := Ok (Some [MemoryDescriptor.mk CONVENTIONAL 0 250; MemoryDescriptor.mk OtherMemory 0xfa000 6], s);
  elf_new _ := Some (V, segments)
|}.

#[local] Instance firmware_laws : FirmwareLaws Sim.t.
Proof.
  refine {| block s n := 0 <= Sim.next s /\ Sim.next s + n <= 2 ^ 40 |}.
  - intros s n Hr [Hn Hb]. cbn in Hr |- *. rewrite (proj2 (Z.leb_le 0 _)) in Hr |- * by lia.
    rewrite (proj2 (Z.leb_le _ _)) by lia. cbn. eexists _, _. split; [done|]. cbn. rewrite (proj2 (Z.leb_le 0 (Sim.next s + n))) by lia.
    split; [lia|]. split; [lia|]. split; [lia|]. split; [lia|]. split; [apply Sim.same_refl; lia|]. split; [done|]. split; [done|]. lia.
  - intros s a l Hd. cbn. eexists. split; [done|]. cbn. split.
    + intros i Hi. rewrite (proj2 (Z.leb_le _ _)), (proj2 (Z.ltb_lt _ _)) by lia. cbn. do 3 f_equal. lia.
    + split; [|split; [done|split; [by apply Sim.same_refl|split; [done|done]]]]. intros x _ Hx.
      destruct (Z.leb_spec a x), (Z.ltb_spec x (a + zlen l)); cbn; try done; lia.
  - intros s. eexists _, s. done.
Defined.

Lemma segments_elf_ok : elf_ok kernel (V / SIZE_4K) (V / SIZE_4K + 3) segments.
Proof.
  split.
  - repeat constructor; eexists; reflexivity.
  - intros sg Hin Hl. unfold segments in Hin. rewrite !elem_of_cons in Hin. destruct Hin as [->|[->|[->|Hin]]].
    + split; [exact text_ok|]. zeval.
    + discriminate.
    + split; [exact rodata_ok|]. zeval.
    + by apply not_elem_of_nil in Hin.
  - repeat constructor; intros; discriminate.
Qed.

Lemma start_boot_ok : boot_ok boot_conf_config 0x100000 (V / SIZE_4K) (V / SIZE_4K + 3) boot_conf kernel segments start.
Proof.
  split.
  - split; [reflexivity|]. split; [zeval|]. right. zeval.
  - split; [zeval|]. split; [reflexivity|]. right. zeval.
  - right. zeval.
  - intros q q0 p0 Hq. assert (q = q0) as ->. { assert (0x100000 / SIZE_2M = 0) by reflexivity. lia. }
    split; [split; reflexivity|]. split; right; zeval.
  - intros. apply start_unmapped.
  - cbn. split; zeval.
  - zeval.
Qed.

Definition cpu : Cpu := mk_cpu true false 0 None.

Lemma boot_main_witness : exists s', main mmap gop (start, cpu) =
    Ok (tt, (s', mk_cpu true true V (Some (V, 0xffff8020001ffff8,
      BootInfo.mk [MemoryDescriptor.mk CONVENTIONAL 0 250; MemoryDescriptor.mk OtherMemory 0xfa000 6] 0xffff900000000000 mode)))) /\
  kernel_loaded kernel segments s'.
Proof.
  destruct (boot_main mmap gop boot_conf kernel boot_conf_config mode 0x100000 V (V / SIZE_4K) (V / SIZE_4K + 3) segments start cpu)
    as (s1 & s' & map & Em & _ & E & Hk & _); [reflexivity|reflexivity|vm_compute; reflexivity|vm_compute; reflexivity|reflexivity|reflexivity|
    exact segments_elf_ok|exact start_boot_ok|reflexivity|intros st map st' [= <- _]; cbn; lia|].
  injection Em as <- _. exists s'. split; [exact E|exact Hk].
Defined.
End Example.
