(* ===== verification/Screen.v ===== *)
(** What the logger draws: an abstract terminal ([Term]), a screen of pixels with a
    cursor that wraps and scrolls, which [Logger] refines; and that logging never
    leaves the frame buffer. *)
From S2P Require Import Prelude Machine Logger.
From Stdlib Require Import ZArith Lia.
From stdpp Require Import gmap functions sorting list_numbers list.
Local Open Scope Z_scope.

(** ** Windows of a list *)

Lemma lookup_splice {A} off (src l : list A) i : (off + length src <= length l)%nat ->
  splice off src l !! i =
    if bool_decide (off <= i < off + length src)%nat then src !! (i - off)%nat else l !! i.
Proof.
  intros Hl. unfold splice. case_bool_decide as Hi.
  - rewrite lookup_app_r, length_take, Nat.min_l by (rewrite ?length_take; lia).
    rewrite lookup_app_l by lia. done.
  - destruct (decide (i < off)%nat).
    + rewrite lookup_app_l, lookup_take_lt by (rewrite ?length_take; lia). done.
    + rewrite !lookup_app_r, length_take, lookup_drop by (rewrite ?length_take; lia). f_equal. lia.
Qed.

(** Four consecutive elements. *)
Definition window {A} (o : nat) (l : list A) : list A := take 4 (drop o l).

Lemma window_ext {A} o o' (l l' : list A) :
  (forall i, (i < 4)%nat -> l !! (o + i)%nat = l' !! (o' + i)%nat) -> window o l = window o' l'.
Proof.
  intros Hi. apply list_eq. intros i. unfold window. destruct (decide (i < 4)%nat).
  - rewrite !lookup_take_lt, !lookup_drop by done. auto.
  - by rewrite !lookup_take_ge by lia.
Qed.

Lemma offset_inj s y x y' x' : 0 <= x < s -> 0 <= x' < s -> y * s + x = y' * s + x' -> y = y' /\ x = x'.
Proof.
  intros Hx Hx' E. assert (y = y').
  { assert (Ey : (y * s + x) / s = y) by (rewrite Z.div_add_l, Z.div_small by lia; lia).
    assert (Ey' : (y' * s + x') / s = y') by (rewrite Z.div_add_l, Z.div_small by lia; lia).
    rewrite <- Ey, <- Ey'. rewrite E. done. }
  subst. lia.
Qed.

(** ** Colours *)

(** A channel between the background and the palette. *)
Definition mix (palette background intensity : Z) : Z :=
  (palette - background) * intensity / 255 + background.

Definition lit (p : RGB.t) : Prop :=
  RGB.r Logger.BACKGROUND_PIXEL <= RGB.r p < 256 /\ RGB.g Logger.BACKGROUND_PIXEL <= RGB.g p < 256 /\
  RGB.b Logger.BACKGROUND_PIXEL <= RGB.b p < 256.

Definition shade (format : PixelFormat) (p : RGB.t) (i : Z) : list Z :=
  let bg := Logger.BACKGROUND_PIXEL in
  let r := mix (RGB.r p) (RGB.r bg) i in
  let g := mix (RGB.g p) (RGB.g bg) i in
  let b := mix (RGB.b p) (RGB.b bg) i in
  match format with Rgb => [r; g; b; 0] | Bgr => [b; g; r; 0] | _ => [0; 0; 0; 0] end.

Lemma mix_bounds p b i : 0 <= b <= p -> p < 256 -> u8 i -> b <= mix p b i <= p.
Proof.
  unfold u8, mix. intros Hb Hp Hi. assert (0 <= (p - b) * i) by nia.
  assert ((p - b) * i / 255 <= p - b) by (apply Z.div_le_upper_bound; nia).
  assert (0 <= (p - b) * i / 255) by (apply Z.div_pos; lia). lia.
Qed.

Lemma channel_ok p b i : 0 <= b <= p -> p < 256 -> u8 i -> Logger.channel p b i = Ok (mix p b i).
Proof.
  intros Hb Hp Hi. pose proof (mix_bounds p b i Hb Hp Hi) as Hm. unfold u8 in *. unfold Logger.channel, sub8.
  assert (0 <= (p - b) * i <= 255 * 255) by nia.
  rewrite sub64_ok by lia. omon. rewrite i32_ok by lia. omon.
  rewrite Z.quot_div_nonneg by lia. fold (mix p b i). apply i32_ok. lia.
Qed.

Lemma get_color_ok g i : lit (Logger.palette g) -> u8 i ->
  Logger.get_color g i = Ok (shade (Logger.format g) (Logger.palette g) i).
Proof.
  intros (Hr & Hg & Hb) Hi. unfold Logger.get_color, shade. cbn in Hr, Hg, Hb |- *.
  assert (Mr := mix_bounds (RGB.r (Logger.palette g)) 40 i). assert (Mg := mix_bounds (RGB.g (Logger.palette g)) 44 i).
  assert (Mb := mix_bounds (RGB.b (Logger.palette g)) 52 i).
  rewrite !channel_ok by (auto; lia). omon.
  destruct (Logger.format g); try done; rewrite !Z.mod_small by (specialize (Mr ltac:(lia) ltac:(lia) Hi); specialize (Mg ltac:(lia) ltac:(lia) Hi); specialize (Mb ltac:(lia) ltac:(lia) Hi); lia); done.
Qed.

Lemma length_shade f p i : length (shade f p i) = 4%nat.
Proof. by destruct f. Qed.

Lemma set_palette_lit l g : lit (Logger.palette (Logger.set_palette l g)).
Proof. destruct l; unfold lit; cbn; lia. Qed.

(** ** The abstract terminal *)
Module Term.

(** The pixel at each row and column, and the cursor. *)
Record t := mk { scr : Z -> Z -> list Z; cx : Z; cy : Z }.

Definition cell (rows : list (list Z)) (y x : Z) : option Z :=
  if (0 <=? y) && (0 <=? x) then rows !! Z.to_nat y ≫= (fun row => row !! Z.to_nat x) else None.

(** A bitmap drawn with its corner at row [y0] and column [x0]. *)
Definition draw (color : Z -> list Z) (rows : list (list Z)) (y0 x0 : Z) (s : Z -> Z -> list Z) : Z -> Z -> list Z :=
  fun y x => match cell rows (y - y0) (x - x0) with Some i => color i | None => s y x end.

(** The upper [keep] rows show what was [k] rows below, the others are empty. *)
Definition scrolled (keep k : Z) (bg : list Z) (s : Z -> Z -> list Z) : Z -> Z -> list Z :=
  fun y x => if y <? keep then s (y + k) x else bg.

Section put.
Context `{Terminal} (hor ver : Z) (bg : list Z) (color : Z -> list Z).

Definition put (c : Z) (t : t) : Term.t :=
  if c =? 10 then mk (scr t) 0 (cy t + val)
  else if c =? 13 then mk (scr t) 0 (cy t)
  else match get_bitmap c with
    | None => t
    | Some b =>
        let '(x, y) := if hor <=? cx t + BitmapChar.width b then (0, cy t + val) else (cx t, cy t) in
        let bottom := ver - val in
        let '(s, y) := if bottom <? y then (scrolled bottom (y - bottom) bg (scr t), bottom) else (scr t, y) in
        mk (draw color (BitmapChar.bitmap b) y x s) (x + BitmapChar.width b) y
    end.

Definition print (s : list Z) (t : Term.t) : Term.t := fold_left (fun t c => put c t) s t.
End put.
End Term.

(** ** The frame buffer shows a screen *)

(** The terminal in the mode and the colour of a logger. *)
Abbreviation term_put g := (Term.put (Logger.hor_res g) (Logger.ver_res g) (Logger.background (Logger.format g))
  (shade (Logger.format g) (Logger.palette g))).
Abbreviation term_print g := (Term.print (Logger.hor_res g) (Logger.ver_res g) (Logger.background (Logger.format g))
  (shade (Logger.format g) (Logger.palette g))).

Section shows.
Context `{HT : Terminal} `{HL : !TerminalLaws}.
Implicit Types (g : Logger.t).

(** A frame buffer of 32-bit pixels that is large enough, with room for a letter,
    and a palette that has been set. *)
Record geometry g : Prop := {
  geo_bpp : Logger.bytes_per_pixel g = 4;
  geo_hor : font_width < Logger.hor_res g <= Logger.stride g;
  geo_ver : val < Logger.ver_res g;
  geo_size : Logger.ver_res g * Logger.stride g * 4 <= zlen (Logger.framebuffer g) < U64;
  geo_lit : lit (Logger.palette g)
}.

Definition offset g (y x : Z) : nat := Z.to_nat ((y * Logger.stride g + x) * 4).

Record shows g (t : Term.t) : Prop := {
  shows_geo : geometry g;
  shows_pixel y x : 0 <= y < Logger.ver_res g -> 0 <= x < Logger.stride g ->
    window (offset g y x) (Logger.framebuffer g) = Term.scr t y x;
  shows_cursor : Logger.x_pos g = Term.cx t /\ Logger.y_pos g = Term.cy t
}.

(** Where the cursor may be: on a line of the screen, or at the start of the line
    just below it. *)
Definition cursor_ok g : Prop :=
  0 <= Logger.x_pos g <= Logger.hor_res g /\ 0 <= Logger.y_pos g /\
  (Logger.y_pos g <= Logger.ver_res g - val \/ Logger.x_pos g = 0 /\ Logger.y_pos g <= Logger.ver_res g).

(** [g'] has the same screen as [g]. *)
Definition same_mode g g' : Prop :=
  Logger.hor_res g' = Logger.hor_res g /\ Logger.ver_res g' = Logger.ver_res g /\
  Logger.format g' = Logger.format g /\ Logger.stride g' = Logger.stride g /\
  Logger.palette g' = Logger.palette g.

Lemma pixel_in_range g y x : geometry g -> 0 <= y < Logger.ver_res g -> 0 <= x < Logger.stride g ->
  0 <= y * Logger.stride g + x < Logger.ver_res g * Logger.stride g.
Proof. intros Hg Hy Hx. nia. Qed.

(** Painting one pixel. *)
Lemma write_pixel_ok g t y x i : shows g t -> 0 <= y < Logger.ver_res g -> 0 <= x < Logger.stride g -> u8 i ->
  exists fb, Logger.write_pixel x y i g = Ok (Logger.with_framebuffer fb g) /\
    shows (Logger.with_framebuffer fb g)
      (Term.mk (Term.draw (shade (Logger.format g) (Logger.palette g)) [[i]] y x (Term.scr t)) (Term.cx t) (Term.cy t)).
Proof.
  intros [Hg Hp Hc] Hy Hx Hi. pose proof (pixel_in_range g y x Hg Hy Hx) as Hr.
  destruct Hg as [Hb Hh Hv Hs Hl]. unfold Logger.write_pixel.
  assert (0 <= y * Logger.stride g) by nia.
  rewrite mul64_ok by lia. omon. rewrite add64_ok by lia. omon.
  rewrite get_color_ok by done. omon. rewrite Hb. rewrite mul64_ok by lia. omon.
  rewrite add64_ok by lia. omon. rewrite !assert_ok by lia. omon.
  set (c := shade _ _ _). eexists. split; [done|].
  assert (Hlc : length (take (Z.to_nat 4) c) = 4%nat) by (rewrite length_take; subst c; by rewrite length_shade).
  assert (Ec : take (Z.to_nat 4) c = c) by (apply take_ge; subst c; by rewrite length_shade).
  rewrite Ec in *. split.
  - split; cbn; try done. rewrite length_splice by lia. done.
  - intros y' x' Hy' Hx'. cbn in Hy', Hx' |- *. pose proof (pixel_in_range g y' x' (Build_geometry g Hb Hh Hv Hs Hl) Hy' Hx') as Hr'.
    unfold Term.draw. destruct (decide (y' = y /\ x' = x)) as [[-> ->]|Hne].
    + rewrite !Z.sub_diag. cbn. unfold offset, window. cbn.
      rewrite <- Hlc at 1. apply splice_read. lia.
    + replace (Term.cell [[i]] (y' - y) (x' - x)) with (@None Z).
      * rewrite <- Hp by done. apply window_ext. intros j Hj.
        rewrite lookup_splice by lia. rewrite bool_decide_false; [done|].
        rewrite Hlc. unfold offset. cbn.
        assert (y' * Logger.stride g + x' <> y * Logger.stride g + x).
        { intros E. apply Hne. eapply offset_inj; [..|exact E]; lia. }
        lia.
      * unfold Term.cell. destruct (Z.leb_spec 0 (y' - y)), (Z.leb_spec 0 (x' - x)); try done. cbn.
        destruct (Z.to_nat (y' - y)) as [|n] eqn:E1; cbn; [|done].
        destruct (Z.to_nat (x' - x)) as [|n] eqn:E2; cbn; [|done]. exfalso. apply Hne. lia.
  - done.
Qed.

Lemma shows_ext g t t' : shows g t -> Term.cx t' = Term.cx t -> Term.cy t' = Term.cy t ->
  (forall y x, 0 <= y -> 0 <= x -> Term.scr t y x = Term.scr t' y x) -> shows g t'.
Proof.
  intros [Hg Hp [Hx Hy]] Ex Ey Hs. split; [done|..].
  - intros y x ??. rewrite <- Hs by lia. auto.
  - split; congruence.
Qed.

Lemma cell_snoc_row row (k : nat) b y x : row !! k = Some b ->
  Term.cell [take (S k) row] y x =
    match Term.cell [[b]] y (x - Z.of_nat k) with Some i => Some i | None => Term.cell [take k row] y x end.
Proof.
  intros Hk. unfold Term.cell. destruct (Z.leb_spec 0 y); [|done]. cbn.
  destruct (Z.to_nat y) as [|n]; cbn; [|by repeat case_match].
  destruct (Z.leb_spec 0 x), (Z.leb_spec 0 (x - Z.of_nat k)); try lia; try done; cbn.
  - destruct (decide (x = Z.of_nat k)) as [->|].
    + replace (Z.to_nat (Z.of_nat k - Z.of_nat k)) with 0%nat by lia. cbn.
      by rewrite lookup_take_lt by lia; rewrite Nat2Z.id.
    + destruct (Z.to_nat (x - Z.of_nat k)) eqn:E; [lia|]. cbn. rewrite !lookup_take_ge by lia. done.
  - by rewrite !lookup_take_lt by lia.
Qed.

Lemma cell_snoc rows (k : nat) row y x : rows !! k = Some row ->
  Term.cell (take (S k) rows) y x =
    match Term.cell [row] (y - Z.of_nat k) x with Some i => Some i | None => Term.cell (take k rows) y x end.
Proof.
  intros Hk. unfold Term.cell.
  destruct (Z.leb_spec 0 x); rewrite ?andb_true_r, ?andb_false_r; [|done].
  destruct (Z.leb_spec 0 y), (Z.leb_spec 0 (y - Z.of_nat k)); try lia; try done.
  - destruct (decide (y = Z.of_nat k)) as [->|].
    + replace (Z.to_nat (Z.of_nat k - Z.of_nat k)) with 0%nat by lia. rewrite Nat2Z.id.
      rewrite lookup_take_lt, lookup_take_ge, Hk by lia. cbn. by destruct (row !! _).
    + destruct (Z.to_nat (y - Z.of_nat k)) eqn:E; [lia|]. rewrite !lookup_take_ge by lia. done.
  - by rewrite !lookup_take_lt by lia.
Qed.

Lemma enumerate_lookup {A} (l : list A) k : enumerate l !! k = (fun x => (Z.of_nat k, x)) <$> l !! k.
Proof. unfold enumerate. by rewrite list_lookup_imap. Qed.

(** A loop over an enumerated list, as an invariant of the number of elements done. *)
Lemma foldO_enumerate {A B} (f : B -> Z * A -> outcome B) (I : nat -> B -> Prop) acc (l : list A) :
  (forall k x acc, l !! k = Some x -> I k acc -> exists acc', f acc (Z.of_nat k, x) = Ok acc' /\ I (S k) acc') ->
  I 0%nat acc -> exists acc', foldO f acc (enumerate l) = Ok acc' /\ I (length l) acc'.
Proof.
  intros Hstep H0.
  destruct (foldO_inv f (fun acc r => exists k, r = drop k (enumerate l) /\ (k <= length l)%nat /\ I k acc) acc (enumerate l))
    as (acc' & E & k & Hk & Hle & HI).
  - intros a x r (k & Hr & Hle & HI). assert (Hx : enumerate l !! k = Some x).
    { rewrite <- (Nat.add_0_r k), <- lookup_drop, <- Hr. done. }
    rewrite enumerate_lookup in Hx. destruct (l !! k) as [b|] eqn:Hb; cbn in Hx; [|done]. simplify_eq.
    destruct (Hstep k b a Hb HI) as (a' & E & HI'). exists a'. split; [done|]. exists (S k).
    split_and!; [|by apply lookup_lt_Some in Hb|done].
    replace (S k) with (k + 1)%nat by lia. rewrite <- drop_drop, <- Hr. done.
  - exists 0%nat. split_and!; [done|lia|done].
  - exists acc'. split; [done|]. assert (Hl : length (drop k (enumerate l)) = 0%nat) by (by rewrite <- Hk).
    unfold enumerate in Hl. rewrite length_drop, length_imap in Hl. by replace (length l) with k by lia.
Qed.

(** Painting a row, then a whole bitmap. *)
Lemma write_row_ok g t dy row : shows g t -> 0 <= Logger.y_pos g -> 0 <= dy ->
  Logger.y_pos g + dy < Logger.ver_res g -> 0 <= Logger.x_pos g ->
  Logger.x_pos g + zlen row <= Logger.stride g -> Forall u8 row ->
  exists fb, foldO (fun self '(x, byte) =>
      px ← add64 (Logger.x_pos self) x;
      py ← add64 (Logger.y_pos self) dy;
      Logger.write_pixel px py byte self) g (enumerate row) = Ok (Logger.with_framebuffer fb g) /\
    shows (Logger.with_framebuffer fb g)
      (Term.mk (Term.draw (shade (Logger.format g) (Logger.palette g)) [row] (Logger.y_pos g + dy) (Logger.x_pos g) (Term.scr t))
        (Term.cx t) (Term.cy t)).
Proof.
  intros Hs Hy0 Hdy Hy Hx0 Hx Hu. set (c := shade _ _).
  destruct (foldO_enumerate (fun self '(x, byte) =>
      px ← add64 (Logger.x_pos self) x;
      py ← add64 (Logger.y_pos self) dy;
      Logger.write_pixel px py byte self)
    (fun k a => exists fb, a = Logger.with_framebuffer fb g /\
      shows a (Term.mk (Term.draw c [take k row] (Logger.y_pos g + dy) (Logger.x_pos g) (Term.scr t)) (Term.cx t) (Term.cy t)))
    g row) as (a & E & fb & -> & Ha).
  - intros k b a Hb (fb & -> & Ha). pose proof (lookup_lt_Some _ _ _ Hb).
    pose proof (geo_size _ (shows_geo _ _ Hs)). pose proof (geo_hor _ (shows_geo _ _ Hs)).
    pose proof font_width_pos. pose proof (geo_ver _ (shows_geo _ _ Hs)).
    cbn. rewrite !add64_ok by nia. omon.
    destruct (write_pixel_ok _ _ (Logger.y_pos g + dy) (Logger.x_pos g + Z.of_nat k) b Ha) as (fb' & E & Ha');
      [cbn; lia..|by eapply Forall_lookup_1|]. rewrite E.
    eexists. split; [done|]. exists fb'. split; [done|]. eapply shows_ext; [exact Ha'|done..|].
    intros y x _ _. cbn. unfold Term.draw. rewrite (cell_snoc_row row k b) by done.
    fold c. rewrite (Z.sub_add_distr x). by destruct (Term.cell [[b]] _ _).
  - exists (Logger.framebuffer g). split; [by destruct g|]. rewrite take_0.
    eapply shows_ext; [exact Hs|done..|]. intros y x _ _. cbn. unfold Term.draw, Term.cell.
    destruct (_ && _); [|done]. by destruct (Z.to_nat (y - _)).
  - rewrite firstn_all in Ha. exists fb. done.
Qed.

Lemma write_bitmap_ok g t rows w : shows g t -> 0 <= Logger.y_pos g ->
  Logger.y_pos g + zlen rows <= Logger.ver_res g -> 0 <= Logger.x_pos g ->
  Logger.x_pos g + w <= Logger.stride g -> Forall (fun row => zlen row = w /\ Forall u8 row) rows ->
  exists fb, foldO (fun self '(y, row) =>
      foldO (fun self '(x, byte) =>
        px ← add64 (Logger.x_pos self) x;
        py ← add64 (Logger.y_pos self) y;
        Logger.write_pixel px py byte self) self (enumerate row)) g (enumerate rows) =
      Ok (Logger.with_framebuffer fb g) /\
    shows (Logger.with_framebuffer fb g)
      (Term.mk (Term.draw (shade (Logger.format g) (Logger.palette g)) rows (Logger.y_pos g) (Logger.x_pos g) (Term.scr t))
        (Term.cx t) (Term.cy t)).
Proof.
  intros Hs Hy0 Hy Hx0 Hx Hu. set (c := shade _ _).
  destruct (foldO_enumerate (fun self '(y, row) =>
      foldO (fun self '(x, byte) =>
        px ← add64 (Logger.x_pos self) x;
        py ← add64 (Logger.y_pos self) y;
        Logger.write_pixel px py byte self) self (enumerate row))
    (fun k a => exists fb, a = Logger.with_framebuffer fb g /\
      shows a (Term.mk (Term.draw c (take k rows) (Logger.y_pos g) (Logger.x_pos g) (Term.scr t)) (Term.cx t) (Term.cy t)))
    g rows) as (a & E & fb & -> & Ha).
  - intros k row a Hrow (fb & -> & Ha). pose proof (lookup_lt_Some _ _ _ Hrow).
    destruct (Forall_lookup_1 _ _ _ _ Hu Hrow) as [Hw Hb].
    destruct (write_row_ok _ _ (Z.of_nat k) row Ha) as (fb' & E & Ha'); [cbn; lia..|done|]. rewrite E.
    eexists. split; [done|]. exists fb'. split; [done|]. eapply shows_ext; [exact Ha'|done..|].
    intros y x _ _. cbn. unfold Term.draw. rewrite (cell_snoc rows k row) by done.
    fold c. rewrite (Z.sub_add_distr y). by destruct (Term.cell [row] _ _).
  - exists (Logger.framebuffer g). split; [by destruct g|]. rewrite take_0.
    eapply shows_ext; [exact Hs|done..|]. intros y x _ _. cbn. unfold Term.draw, Term.cell.
    by destruct (_ && _).
  - rewrite firstn_all in Ha. exists fb. done.
Qed.

Lemma write_rendered_char_ok g t c b : shows g t -> get_bitmap c = Some b -> 0 <= Logger.y_pos g <= Logger.ver_res g - val ->
  0 <= Logger.x_pos g -> Logger.x_pos g + font_width < Logger.hor_res g ->
  exists g', Logger.write_rendered_char b g = Ok g' /\ same_mode g g' /\ Logger.port g' = Logger.port g /\
    shows g' (Term.mk (Term.draw (shade (Logger.format g) (Logger.palette g)) (BitmapChar.bitmap b)
      (Term.cy t) (Term.cx t) (Term.scr t)) (Term.cx t + BitmapChar.width b) (Term.cy t)).
Proof.
  intros Hs Hc Hy Hx Hxw. destruct (bitmap_ok c b Hc) as (Hw & Hh & Hrows). unfold Logger.write_rendered_char.
  pose proof (geo_size _ (shows_geo _ _ Hs)). pose proof (geo_hor _ (shows_geo _ _ Hs)).
  pose proof font_width_pos. pose proof val_pos. pose proof (geo_ver _ (shows_geo _ _ Hs)).
  destruct (write_bitmap_ok g t (BitmapChar.bitmap b) font_width Hs) as (fb & E & Hs'); [lia..|done|].
  rewrite E. omon. cbn. rewrite Hw, add64_ok by nia. omon. eexists. split; [done|].
  destruct (shows_cursor _ _ Hs) as [Ex Ey].
  split; [done|]. split; [done|]. destruct Hs' as [Hg Hp Hcur]. split.
  - destruct Hg. split; done.
  - intros y x ??. cbn. rewrite <- Ex, <- Ey. apply Hp; done.
  - cbn in *. lia.
Qed.

(** Clearing from a pixel on. *)
Lemma window_fill g from y x : geometry g -> 0 <= y < Logger.ver_res g -> 0 <= x < Logger.stride g ->
  window (offset g y x) (Logger.framebuffer (Logger.fill (from * 4) g)) =
    if from <=? y * Logger.stride g + x then Logger.background (Logger.format g)
    else window (offset g y x) (Logger.framebuffer g).
Proof.
  intros Hg Hy Hx. pose proof (pixel_in_range g y x Hg Hy Hx) as Hr. pose proof (geo_size _ Hg).
  assert (Hlook : forall j, (j < 4)%nat -> Logger.framebuffer (Logger.fill (from * 4) g) !! (offset g y x + j)%nat =
    if from <=? y * Logger.stride g + x then Logger.background (Logger.format g) !! j
    else Logger.framebuffer g !! (offset g y x + j)%nat).
  { intros j Hj. unfold Logger.fill. cbn [Logger.framebuffer Logger.with_framebuffer]. rewrite list_lookup_imap.
    destruct (lookup_lt_is_Some_2 (Logger.framebuffer g) (offset g y x + j)) as [b Hb]; [unfold offset; lia|].
    rewrite Hb. cbn [fmap option_fmap option_map]. unfold offset in *. destruct (Z.leb_spec from (y * Logger.stride g + x)).
    - rewrite (proj2 (Z.leb_le _ _)) by lia.
      replace ((Z.to_nat ((y * Logger.stride g + x) * 4) + j) mod 4)%nat with j.
      + destruct (Logger.format g); do 4 (destruct j as [|j]; [done|]); lia.
      + rewrite Z2Nat.inj_mul, Nat.add_comm by lia. rewrite Nat.Div0.mod_add. by rewrite Nat.mod_small.
    - rewrite (proj2 (Z.leb_gt _ _)) by lia. done. }
  revert Hlook. destruct (Z.leb_spec from (y * Logger.stride g + x)); intros Hlook.
  - rewrite (window_ext _ 0 _ (Logger.background (Logger.format g))); [by destruct (Logger.format g)|]. done.
  - apply window_ext. done.
Qed.

Lemma length_fill g from : length (Logger.framebuffer (Logger.fill from g)) = length (Logger.framebuffer g).
Proof. cbn. apply length_imap. Qed.

Lemma scroll_ok g t : shows g t -> Logger.ver_res g - val < Logger.y_pos g <= Logger.ver_res g ->
  exists g', Logger.scroll g = Ok g' /\ same_mode g g' /\ Logger.port g' = Logger.port g /\
    shows g' (Term.mk (Term.scrolled (Logger.ver_res g - val) (Logger.y_pos g - (Logger.ver_res g - val))
      (Logger.background (Logger.format g)) (Term.scr t)) (Term.cx t) (Logger.ver_res g - val)).
Proof.
  intros [Hg Hp [Ex Ey]] Hy. pose proof val_pos. pose proof font_width_pos. destruct Hg as [Hb Hh Hv Hsz Hl]. unfold Logger.scroll. rewrite Hb.
  set (k := Logger.y_pos g - (Logger.ver_res g - val)). assert (Hk : 0 < k <= val) by lia.
  set (len := zlen (Logger.framebuffer g)) in *.
  assert (Hks : k * Logger.stride g + (Logger.ver_res g - val) * Logger.stride g <= Logger.ver_res g * Logger.stride g) by nia.
  assert (0 <= k * Logger.stride g) by nia. assert (0 <= (Logger.ver_res g - val) * Logger.stride g) by nia.
  assert (k * Logger.stride g < Logger.ver_res g * Logger.stride g) by nia.
  do 2 ostep. replace (val - (Logger.ver_res g - Logger.y_pos g)) with k by lia. do 6 ostep.
  rewrite (proj2 (Z.leb_le _ _)) by lia. omon. cbn. do 2 ostep.
  set (n := Z.to_nat ((Logger.ver_res g - val) * Logger.stride g * 4)).
  set (src := Z.to_nat (k * Logger.stride g * 4)).
  set (moved := splice 0 _ _).
  assert (Hcopy : length (take n (drop src (Logger.framebuffer g))) = n).
  { rewrite length_take, length_drop. unfold n, src. lia. }
  assert (Hlen : length moved = length (Logger.framebuffer g)).
  { apply length_splice. rewrite Hcopy. unfold n. lia. }
  set (g1 := Logger.with_cursor _ _ _).
  assert (Hg1 : geometry g1) by (split; cbn; try done; rewrite Hlen; done).
  eexists. split; [done|]. split; [done|]. split; [done|]. split.
  - destruct Hg1. split; try done. by rewrite length_fill.
  - intros y x Hy' Hx'. rewrite Hb. change (offset (Logger.fill _ g1) y x) with (offset g1 y x). rewrite (window_fill g1) by done. cbn. unfold Term.scrolled.
    change (offset g1 y x) with (offset g y x). cbn in Hy', Hx'.
    destruct (Z.ltb_spec y (Logger.ver_res g - val)).
    + assert (y * Logger.stride g + x < (Logger.ver_res g - val) * Logger.stride g) by nia.
      assert (0 <= y * Logger.stride g + x) by nia.
      rewrite (proj2 (Z.leb_gt _ _)) by lia. rewrite <- Hp by lia. apply window_ext. intros j Hj.
      unfold moved. rewrite lookup_splice by (rewrite Hcopy; unfold n; lia). rewrite Hcopy.
      unfold offset. rewrite bool_decide_true by (unfold n; lia).
      rewrite lookup_take_lt, lookup_drop by (unfold n; lia). f_equal. unfold src.
      rewrite Z.mul_add_distr_r. lia.
    + rewrite (proj2 (Z.leb_le _ _)) by nia. done.
  - done.
Qed.

(** ** Characters and lines *)

(** A character that can be shown within a line. *)
Definition printable (c : Z) : Prop := c <> 10 /\ (c = 13 \/ is_Some (get_bitmap c)).
(** On a line of the screen. *)
Definition on_screen g : Prop := Logger.y_pos g <= Logger.ver_res g - val.

Lemma shows_port g t p : shows g t -> shows (Logger.with_port p g) t.
Proof. intros [[] Hp Hc]. split; [split; done|exact Hp|done]. Qed.
Lemma shows_move g t x y : shows g t -> shows (Logger.with_cursor x y g) (Term.mk (Term.scr t) x y).
Proof. intros [[] Hp Hc]. split; [split; done|exact Hp|done]. Qed.

Lemma newline_ok g t : shows g t -> 0 <= Logger.y_pos g <= Logger.ver_res g ->
  exists g', Logger.newline g = Ok g' /\ same_mode g g' /\ Logger.port g' = Logger.port g /\
    shows g' (Term.mk (Term.scr t) 0 (Term.cy t + val)).
Proof.
  intros Hs Hy. destruct (shows_cursor _ _ Hs) as [Ex Ey]. unfold Logger.newline. pose proof val_pos. pose proof font_width_pos.
  destruct (shows_geo _ _ Hs) as [Hb Hh Hv Hsz Hl].
  assert (Logger.ver_res g * 1 <= Logger.ver_res g * Logger.stride g) by nia. ostep.
  eexists. split; [done|]. split; [done|]. split; [done|]. rewrite <- Ey.
  apply (shows_move _ _ 0 _ Hs).
Qed.

(** The line the character goes to, made visible. *)
Lemma make_room g t : shows g t -> 0 <= Logger.y_pos g <= Logger.ver_res g ->
  exists g', (if Logger.ver_res g - val <? Logger.y_pos g then Logger.scroll g else Ok g) = Ok g' /\
    same_mode g g' /\ Logger.port g' = Logger.port g /\ 0 <= Logger.y_pos g' /\ on_screen g' /\
    shows g' (let '(s, y) := if Logger.ver_res g - val <? Term.cy t
        then (Term.scrolled (Logger.ver_res g - val) (Term.cy t - (Logger.ver_res g - val))
               (Logger.background (Logger.format g)) (Term.scr t), Logger.ver_res g - val)
        else (Term.scr t, Term.cy t) in Term.mk s (Term.cx t) y).
Proof.
  intros Hs Hy. destruct (shows_cursor _ _ Hs) as [Ex Ey]. rewrite <- Ey.
  pose proof (geo_ver _ (shows_geo _ _ Hs)). unfold on_screen.
  destruct (Z.ltb_spec (Logger.ver_res g - val) (Logger.y_pos g)).
  - destruct (scroll_ok g t Hs) as (g' & E & Hm & Hport & Hs'); [lia|]. exists g'.
    destruct (shows_cursor _ _ Hs') as [Ex' Ey']. cbn in Ey'. pose proof Hm as (_ & Ev & _).
    split_and!; try done; lia.
  - exists g. split_and!; try done; try lia. rewrite Ey. eapply shows_ext; [exact Hs|done..].
Qed.

(** The line break before a character that does not fit the line. *)
Lemma wrap_ok g t : shows g t -> cursor_ok g ->
  exists g', (if Logger.hor_res g <=? Term.cx t + font_width then Logger.newline g else Ok g) = Ok g' /\
    same_mode g g' /\ Logger.port g' = Logger.port g /\ 0 <= Logger.y_pos g' <= Logger.ver_res g /\
    0 <= Logger.x_pos g' /\ Logger.x_pos g' + font_width < Logger.hor_res g /\
    shows g' (let '(x, y) := if Logger.hor_res g <=? Term.cx t + font_width then (0, Term.cy t + val)
      else (Term.cx t, Term.cy t) in Term.mk (Term.scr t) x y).
Proof.
  intros Hs (Hx & Hy0 & Hy). pose proof (geo_ver _ (shows_geo _ _ Hs)). pose proof (geo_hor _ (shows_geo _ _ Hs)).
  pose proof val_pos. destruct (shows_cursor _ _ Hs) as [Ex Ey].
  destruct (Z.leb_spec (Logger.hor_res g) (Term.cx t + font_width)).
  - destruct (newline_ok g t Hs) as (g' & E & Hm & Hp & Hs'); [lia|]. exists g'.
    destruct (shows_cursor _ _ Hs') as [Ex' Ey']. cbn in Ex', Ey'. split_and!; try done; lia.
  - exists g. split_and!; try done; try lia. eapply shows_ext; [exact Hs|done..].
Qed.

Lemma write_char_ok g t c : shows g t -> cursor_ok g -> (c = 10 /\ on_screen g \/ printable c) ->
  exists g', Logger.write_char c g = Ok g' /\ same_mode g g' /\ Logger.port g' = Logger.port g ++ [WriteChar c] /\
    shows g' (term_put g c t) /\ cursor_ok g' /\
    (c <> 10 -> on_screen g \/ c <> 13 -> on_screen g').
Proof.
  intros Hs (Hx & Hy0 & Hy) Hc. unfold Logger.write_char, Term.put.
  pose proof val_pos. pose proof font_width_pos. rewrite port_ok. omon. cbn [assert_]. omon.
  apply (shows_port g t (WriteChar c)) in Hs. set (g1 := Logger.with_port _ g) in *.
  pose proof (geo_ver _ (shows_geo _ _ Hs)) as Hv. cbn in Hv.
  pose proof (geo_hor _ (shows_geo _ _ Hs)) as Hh. cbn in Hh.
  pose proof (geo_size _ (shows_geo _ _ Hs)) as Hz. cbn in Hz.
  destruct (shows_cursor _ _ Hs) as [Ex Ey]. cbn in Ex, Ey.
  destruct (Z.eqb_spec c 10) as [->|Hc10].
  { destruct Hc as [[_ Hon]|[? _]]; [|done]. unfold on_screen in Hon.
    destruct (newline_ok g1 t Hs) as (g' & E & Hm & Hp & Hs'); [cbn; lia|].
    destruct (shows_cursor _ _ Hs') as [Ex' Ey']. cbn in Ex', Ey'. pose proof Hm as (Ehr & Ev & _). cbn in Ehr, Ev.
    exists g'. split_and!; try done. unfold cursor_ok. lia. }
  destruct Hc as [[? _]|[_ Hc]]; [done|].
  destruct (Z.eqb_spec c 13) as [->|Hc13].
  { eexists. split; [done|]. split; [done|]. split; [done|]. rewrite <- Ey. split; [apply (shows_move g1 t _ _ Hs)|].
    unfold cursor_ok, on_screen. cbn. split; [lia|]. intros _ [?|?]; [lia|done]. }
  destruct Hc as [?|[b Hb]]; [done|]. rewrite Hb. cbn [unwrap]. omon. destruct (bitmap_ok c b Hb) as (Hw & _).
  change (Logger.x_pos g1) with (Logger.x_pos g). rewrite Hw. rewrite add64_ok by nia. omon. rewrite Ex.
  destruct (wrap_ok g1 t Hs) as (g2 & -> & Hm2 & Hp2 & Hy2 & Hx2 & Hxw & Hs2); [done|]. omon.
  change (Logger.ver_res g1) with (Logger.ver_res g) in *. change (Logger.hor_res g1) with (Logger.hor_res g) in *.
  destruct Hm2 as (Eh & Ev & Ef & Est & Epal). cbn in Eh, Ev, Ef, Est, Epal. rewrite Ev. rewrite sub64_ok by lia. omon.
  destruct (if Logger.hor_res g <=? _ then _ else _) as [x y] eqn:Exy.
  destruct (make_room g2 _ Hs2) as (g3 & E3 & Hm3 & Hp3 & Hy3 & Hon3 & Hs3); [rewrite Ev; lia|].
  rewrite Ev in E3. rewrite E3. omon. cbn [Term.scr Term.cx Term.cy] in Hs3. rewrite Ev, Ef in Hs3.
  change (Logger.format g1) with (Logger.format g) in *.
  destruct (if Logger.ver_res g - val <? y then _ else _) as [s y'] eqn:Esy.
  destruct Hm3 as (Eh3 & Ev3 & Ef3 & Est3 & Epal3).
  destruct (shows_cursor _ _ Hs2) as [Ex2 Ey2]. destruct (shows_cursor _ _ Hs3) as [Ex3 Ey3]. cbn in Ex2, Ey2, Ex3, Ey3.
  destruct (write_rendered_char_ok g3 _ c b Hs3 Hb) as (g4 & E4 & Hm4 & Hp4 & Hs4); [unfold on_screen in Hon3; lia|lia|lia|].
  destruct Hm4 as (Eh4 & Ev4 & Ef4 & Est4 & Epal4). destruct (shows_cursor _ _ Hs4) as [Ex4 Ey4]. cbn in Ex4, Ey4.
  exists g4. rewrite E4. split; [done|]. split; [repeat split; etrans; eauto; etrans; eauto|].
  split; [rewrite Hp4, Hp3, Hp2; done|]. cbn in Hs4. rewrite Ef3, Ef, Epal3, Epal, Hw in Hs4. rewrite Hw in Ex4.
  split; [exact Hs4|]. unfold cursor_ok, on_screen in *. lia.
Qed.

(** Within a line the cursor stays on the screen. *)
Lemma write_chars_ok g t s : shows g t -> cursor_ok g -> on_screen g -> Forall printable s ->
  exists g', Logger.write_str s g = Ok g' /\ same_mode g g' /\ Logger.port g' = Logger.port g ++ (WriteChar <$> s) /\
    shows g' (term_print g s t) /\ cursor_ok g' /\ on_screen g'.
Proof.
  revert g t. induction s as [|c s IH]; intros g t Hs Hc Ho Hp.
  { exists g. rewrite app_nil_r. done. }
  apply Forall_cons in Hp as [Hpc Hp]. cbn [Logger.write_str foldO].
  destruct (write_char_ok g t c Hs Hc) as (g1 & -> & Hm1 & Hp1 & Hs1 & Hc1 & Ho1); [auto|]. omon.
  destruct (IH g1 _ Hs1 Hc1) as (g2 & E2 & Hm2 & Hp2 & Hs2 & Hc2 & Ho2); [apply Ho1; [apply Hpc|auto]|done|].
  exists g2. split; [exact E2|]. destruct Hm1 as (E1 & E1' & E1'' & Es & Ep). rewrite E1, E1', E1'', Ep in Hs2.
  split. { destruct Hm2 as (?&?&?&?&?). split_and!; congruence. }
  rewrite Hp2, Hp1, <- app_assoc. split_and!; done.
Qed.

(** A line whose first character is drawn, up to its end. *)
Lemma write_start_ok g t c s : shows g t -> cursor_ok g -> printable c -> c <> 13 -> Forall printable s ->
  exists g', Logger.write_str (c :: s) g = Ok g' /\ same_mode g g' /\
    Logger.port g' = Logger.port g ++ (WriteChar <$> c :: s) /\
    shows g' (term_print g (c :: s) t) /\ cursor_ok g' /\ on_screen g'.
Proof.
  intros Hs Hc Hpc H13 Hp. unfold Logger.write_str. cbn [foldO].
  destruct (write_char_ok g t c Hs Hc) as (g1 & -> & Hm1 & Hp1 & Hs1 & Hc1 & Ho1); [auto|]. omon.
  destruct (write_chars_ok g1 _ s Hs1 Hc1) as (g2 & E2 & Hm2 & Hp2 & Hs2 & Hc2 & Ho2); [apply Ho1; [apply Hpc|auto]|done|].
  exists g2. split; [exact E2|]. destruct Hm1 as (E1 & E1' & E1'' & Es & Ep). rewrite E1, E1', E1'', Ep in Hs2.
  split. { destruct Hm2 as (?&?&?&?&?). split_and!; congruence. }
  rewrite Hp2, Hp1, <- app_assoc. split_and!; done.
Qed.

(** The whole line ends at the start of the next one. *)
Lemma write_line_ok g t c s : shows g t -> cursor_ok g -> printable c -> c <> 13 -> Forall printable s ->
  exists g', Logger.write_str (c :: s ++ [10]) g = Ok g' /\ same_mode g g' /\
    Logger.port g' = Logger.port g ++ (WriteChar <$> c :: s ++ [10]) /\
    shows g' (term_print g (c :: s ++ [10]) t) /\ cursor_ok g'.
Proof.
  intros Hs Hc Hpc H13 Hp. unfold Logger.write_str. rewrite (app_comm_cons s [10] c), foldO_app.
  destruct (write_start_ok g t c s) as (g1 & E1 & Hm1 & Hp1 & Hs1 & Hc1 & Ho1); [done..|].
  unfold Logger.write_str in E1. rewrite E1. omon. cbn [foldO].
  destruct (write_char_ok g1 _ 10 Hs1 Hc1) as (g2 & -> & Hm2 & Hp2 & Hs2 & Hc2 & _); [auto|]. omon.
  exists g2. split; [done|]. destruct Hm1 as (?&?&?&?&?), Hm2 as (?&?&?&?&?).
  split; [split_and!; congruence|]. split; [by rewrite Hp2, Hp1, fmap_app, <- app_assoc|].
  split; [|done]. unfold Term.print in *. rewrite fold_left_app. cbn [fold_left].
  repeat match goal with H : ?f g1 = ?f g |- _ => rewrite H in Hs2 end. exact Hs2.
Qed.
End shows.
