(* ===== verification/Logging.v ===== *)
(** What the logger promises: every message whose characters the font has is drawn and
    sent to the serial port, line by line with its prefix, without leaving the frame
    buffer; colours lie between the background and the colour of the level; a character
    the font does not have stops the kernel in a deadlock. *)
From S2P Require Import Prelude Machine Logger Screen.
From Stdlib Require Import ZArith Lia.
From stdpp Require Import gmap functions sorting list_numbers list.
Local Open Scope Z_scope.

Section logging.
Context `{HT : Terminal} `{HL : !TerminalLaws}.
Implicit Types (g : Logger.t) (t : Term.t).

#[export] Instance printable_dec c : Decision (printable c).
Proof. unfold printable. apply _. Defined.

(** ** The text of a message *)

(** The lines of a message, at least one, and an empty one after a final line feed. *)
Definition message_lines (args : list Z) : list (list Z) :=
  match Logger.lines args with [] => [[]] | ls => ls end ++
  match last args with Some 10 => [[]] | _ => [] end.

Definition message_text (level : Level) (args file : list Z) (line : Z) : list Z :=
  mjoin ((fun l => Logger.prefix_str level file line ++ l ++ [10]) <$> message_lines args).

Lemma strip_cr_printable l : Forall printable l -> Forall printable (Logger.strip_cr l).
Proof.
  intros Hl. unfold Logger.strip_cr. destruct (last l) as [z|]; [|done].
  destruct (decide (z = 13)) as [->|]; [auto with canyon|]. by repeat case_match.
Qed.

Lemma lines_loop_printable line s : Forall printable line -> Forall (fun c => c = 10 \/ printable c) s ->
  Forall (Forall printable) (Logger.lines_loop line s).
Proof.
  revert line. induction s as [|c s IH]; intros line Hl Hs; cbn [Logger.lines_loop].
  { destruct line; [constructor|]. constructor; [done|constructor]. }
  apply Forall_cons in Hs as [Hc Hs]. destruct (Z.eqb_spec c 10).
  - constructor; [by apply strip_cr_printable|]. by apply IH.
  - apply IH; [|done]. apply Forall_app_2; [done|]. apply Forall_singleton. by destruct Hc.
Qed.

Lemma message_lines_printable args : Forall (fun c => c = 10 \/ printable c) args ->
  Forall (Forall printable) (message_lines args).
Proof.
  intros Ha. assert (Hl : Forall (Forall printable) (Logger.lines args)) by (by apply lines_loop_printable).
  unfold message_lines. apply Forall_app_2; [destruct (Logger.lines args); [by repeat constructor|done]|].
  repeat case_match; by repeat constructor.
Qed.

(** ** Messages on the screen *)

(** The frame buffer shows [t], whatever the level of the next message. *)
Definition ready g t : Prop := forall level, shows (Logger.set_palette level g) t.

Definition levels_palette (level : Level) : RGB.t :=
  match level with
  | Error => RGB.mk 210 114 119
  | Warn => RGB.mk 223 193 132
  | Info => RGB.mk 115 173 233
  | Debug => RGB.mk 161 193 129
  | Trace => RGB.mk 220 223 228
  end.

(** The terminal after printing [s] in the colour of [level]. *)
Abbreviation printed g level s t := (Term.print (Logger.hor_res g) (Logger.ver_res g)
  (Logger.background (Logger.format g)) (shade (Logger.format g) (levels_palette level)) s t).

Lemma prefix_str_cons level file line : exists rest, Logger.prefix_str level file line = 91 :: rest.
Proof. eexists. reflexivity. Qed.

Lemma write_line_prefix g t level file line l : shows g t -> cursor_ok g ->
  Forall printable (Logger.prefix_str level file line) -> Forall printable l ->
  let s := Logger.prefix_str level file line ++ l ++ [10] in
  exists g', Logger.write_str s g = Ok g' /\ same_mode g g' /\ Logger.port g' = Logger.port g ++ (WriteChar <$> s) /\
    shows g' (term_print g s t) /\ cursor_ok g'.
Proof.
  intros Hs Hc Hp Hl. destruct (prefix_str_cons level file line) as [rest E]. cbn zeta. rewrite E in *.
  apply Forall_cons in Hp as [H91 Hrest]. rewrite <- app_comm_cons, app_assoc.
  apply write_line_ok; auto with canyon.
Qed.

(** A sequence of lines. *)
Lemma write_lines_ok g t level file line ls : shows g t -> cursor_ok g ->
  Forall printable (Logger.prefix_str level file line) -> Forall (Forall printable) ls ->
  let s := mjoin ((fun l => Logger.prefix_str level file line ++ l ++ [10]) <$> ls) in
  exists g', foldO (fun g l => Logger.write_str (Logger.prefix_str level file line ++ l ++ [10]) g) g ls = Ok g' /\
    same_mode g g' /\ Logger.port g' = Logger.port g ++ (WriteChar <$> s) /\
    shows g' (term_print g s t) /\ cursor_ok g'.
Proof.
  revert g t. induction ls as [|l ls IH]; intros g t Hs Hc Hp Hls; cbn zeta.
  { exists g. cbn. rewrite app_nil_r. done. }
  apply Forall_cons in Hls as [Hl Hls]. cbn [foldO].
  destruct (write_line_prefix g t level file line l) as (g1 & -> & Hm1 & Hp1 & Hs1 & Hc1); [done..|]. omon.
  destruct (IH g1 _ Hs1 Hc1 Hp Hls) as (g2 & -> & Hm2 & Hp2 & Hs2 & Hc2). cbn zeta in *. exists g2. split; [done|].
  destruct Hm1 as (?&?&?&?&?), Hm2 as (?&?&?&?&?). split; [split_and!; congruence|].
  rewrite fmap_cons. cbn [mjoin list_join]. rewrite fmap_app, app_assoc, <- Hp1. split; [done|]. split; [|done].
  unfold Term.print in *. rewrite fold_left_app.
  repeat match goal with H : ?f g1 = ?f g |- _ => rewrite H in Hs2 end. exact Hs2.
Qed.

(** [write] prints the lines of the message in order. *)
Lemma write_as_lines level args file line g :
  Logger.write level args file line g =
    foldO (fun g l => Logger.write_str (Logger.prefix_str level file line ++ l ++ [10]) g)
      (Logger.set_palette level g) (message_lines args).
Proof.
  unfold Logger.write, message_lines. rewrite foldO_app.
  assert (E : forall g0,
    match last args with
    | Some 10 => Logger.write_str (Logger.prefix_str level file line ++ [10]) g0
    | _ => Ok g0 end =
    foldO (fun g l => Logger.write_str (Logger.prefix_str level file line ++ l ++ [10]) g) g0
      match last args with Some 10 => [[]] | _ => [] end).
  { intros g0. repeat case_match; try done. cbn [foldO app]. omon. by destruct (Logger.write_str _ _). }
  destruct (Logger.lines args) as [|l ls]; cbn [head tail default foldO app]; omon.
  - destruct (Logger.write_str _ (Logger.set_palette level g)) as [g1|]; omon; [apply E|done].
  - destruct (Logger.write_str _ (Logger.set_palette level g)) as [g1|]; omon; [|done].
    destruct (foldO _ g1 ls); omon; [apply E|done].
Qed.

Lemma ready_shows g t : shows g t -> ready g t.
Proof. intros [[] Hp Hc] level. split; [|exact Hp|done]. split; try done. apply set_palette_lit. Qed.

Lemma message_write_ok g t level args file line : ready g t -> cursor_ok g ->
  Forall printable (Logger.prefix_str level file line) -> Forall (fun c => c = 10 \/ printable c) args ->
  exists g', Logger.write level args file line g = Ok g' /\ same_mode (Logger.set_palette level g) g' /\
    Logger.port g' = Logger.port g ++ (WriteChar <$> message_text level args file line) /\
    ready g' (printed g level (message_text level args file line) t) /\ cursor_ok g'.
Proof.
  intros Hr Hc Hp Ha. rewrite write_as_lines.
  destruct (write_lines_ok (Logger.set_palette level g) t level file line (message_lines args))
    as (g' & -> & Hm & Hport & Hs & Hc'); [apply Hr|done|done|by apply message_lines_printable|].
  exists g'. split; [done|]. split; [done|]. split; [done|]. split; [|done].
  apply ready_shows. by destruct level.
Qed.

(** The screen after [clear]. *)
Lemma new_ok info contents hor ver : GraphicInfo.resolution info = (hor, ver) ->
  font_width < hor <= GraphicInfo.stride info -> val < ver ->
  ver * GraphicInfo.stride info * 4 <= GraphicInfo.fb_size info < U64 -> GraphicInfo.fb_size info < 5 * (hor * ver) ->
  zlen contents = GraphicInfo.fb_size info ->
  exists g, Logger.new info contents = Ok g /\ Logger.port g = [Send 10] /\ cursor_ok g /\
    Logger.hor_res g = hor /\ Logger.ver_res g = ver /\ Logger.format g = GraphicInfo.pixel_format info /\
    ready g (Term.mk (fun _ _ => Logger.background (GraphicInfo.pixel_format info)) 0 0).
Proof.
  intros Er Hh Hv Hs H5 Hl. unfold Logger.new. rewrite Er. pose proof font_width_pos. pose proof val_pos.
  assert (0 < hor * ver <= ver * GraphicInfo.stride info) by nia. do 2 ostep.
  assert (E4 : GraphicInfo.fb_size info / (hor * ver) = 4).
  { symmetry. apply (Z.div_unique _ _ 4 (GraphicInfo.fb_size info - 4 * (hor * ver))); lia. }
  rewrite E4. eexists. split; [done|]. split; [done|]. split; [unfold cursor_ok; cbn; lia|].
  do 3 (split; [done|]). intros level.
  unfold Logger.clear. set (g := Logger.with_cursor 0 0 _).
  assert (Hg : geometry (Logger.set_palette level g)) by (split; [done..|cbn; lia|apply (set_palette_lit level g)]).
  split; [|..|done].
  - destruct Hg. split; try done. cbn in *. rewrite length_imap. lia.
  - intros y x Hy Hx. pose proof (pixel_in_range _ y x Hg Hy Hx) as Hr.
    pose proof (window_fill _ 0 y x Hg Hy Hx) as W. rewrite (proj2 (Z.leb_le _ _)) in W by lia. exact W.
Qed.

(** A message as the kernel logs it. *)
Record message := Message { m_level : Level; m_args : list Z; m_file : list Z; m_line : Z }.

Definition m_text (m : message) : list Z := message_text (m_level m) (m_args m) (m_file m) (m_line m).
Definition m_printable (m : message) : Prop :=
  Forall printable (Logger.prefix_str (m_level m) (m_file m) (m_line m)) /\
  Forall (fun c => c = 10 \/ printable c) (m_args m).

Definition log_message (lg : LockedLogger.t) (m : message) : outcome LockedLogger.t :=
  LockedLogger.log (m_level m) (m_args m) (m_file m) (m_line m) lg.

(** Messages are printed one after the other, each in the colour of its level. *)
Lemma log_messages_ok g t ms : ready g t -> cursor_ok g -> Forall m_printable ms ->
  exists g', foldO log_message (LockedLogger.mk false g) ms = Ok (LockedLogger.mk false g') /\
    Logger.port g' = Logger.port g ++ (WriteChar <$> mjoin (m_text <$> ms)) /\ cursor_ok g' /\
    ready g' (fold_left (fun t m => printed g (m_level m) (m_text m) t) ms t).
Proof.
  revert g t. induction ms as [|m ms IH]; intros g t Hr Hc Hms.
  { exists g. cbn. rewrite app_nil_r. done. }
  apply Forall_cons in Hms as [[Hp Ha] Hms]. cbn [foldO].
  destruct (message_write_ok g t _ _ _ _ Hr Hc Hp Ha) as (g1 & E1 & Hm & Hport & Hr1 & Hc1).
  assert (log_message (LockedLogger.mk false g) m = Ok (LockedLogger.mk false g1)) as ->.
  { unfold log_message, LockedLogger.log, LockedLogger.lock. cbn [LockedLogger.locked LockedLogger.inner]. omon.
    cbn [LockedLogger.inner]. by rewrite E1. }
  omon.
  destruct (IH g1 _ Hr1 Hc1 Hms) as (g2 & E2 & Hport2 & Hc2 & Hr2). exists g2. split; [done|].
  destruct Hm as (Eh & Ev & Ef & _). cbn in Eh, Ev, Ef. rewrite Eh, Ev, Ef in Hr2.
  split; [|done]. rewrite Hport2, Hport. cbn [fmap list_fmap mjoin list_join]. by rewrite fmap_app, app_assoc.
Qed.

(** ** Messages in ASCII *)

(** A line of text the font of the kernel is expected to have. *)
Definition ascii (c : Z) : Prop := 32 <= c < 127.
Definition text (l : list Z) : Prop := Forall (fun c => c = 10 \/ ascii c) l.
#[export] Instance ascii_dec c : Decision (ascii c).
Proof. unfold ascii. apply _. Defined.
#[export] Instance text_dec l : Decision (text l).
Proof. unfold text. apply _. Defined.

Lemma text_app l k : text l -> text k -> text (l ++ k).
Proof. apply Forall_app_2. Qed.
Lemma ascii_text l : Forall ascii l -> text l.
Proof. intros Hl. eapply Forall_impl; [exact Hl|]. auto. Qed.

(** Numbers are printed in ASCII. *)
Lemma numeral_ascii c : numeral c -> ascii c.
Proof. unfold numeral, ascii. lia. Qed.
Lemma digits_text radix n : 2 <= radix <= 36 -> Forall ascii (digit_char <$> digits_upto 64 radix n).
Proof. intros Hr. eapply Forall_impl; [by apply digits_numeral|]. apply numeral_ascii. Qed.
Lemma decimal_ascii n : Forall ascii (decimal n).
Proof. by apply digits_text. Qed.
Lemma decimal_text n : text (decimal n).
Proof. apply ascii_text, decimal_ascii. Qed.
Lemma binary_text n : text (binary n).
Proof. by apply ascii_text, digits_text. Qed.
Lemma lower_hex_text n : text (lower_hex n).
Proof. by apply ascii_text, digits_text. Qed.
Lemma upper_hex_text n : text (upper_hex n).
Proof.
  apply Forall_fmap. eapply Forall_impl; [by apply (digits_upto_range 64 16 n)|].
  intros d Hd. cbn in Hd. right. change (ascii (upper_digit_char d)). unfold ascii, upper_digit_char. destruct (Z.ltb_spec d 10); lia.
Qed.

(** A message in ASCII. *)
Definition plain (m : message) : Prop := text (m_args m) /\ Forall ascii (m_file m).

Section plain.
Context (Hascii : forall c, ascii c -> is_Some (get_bitmap c)).

Lemma ascii_printable c : ascii c -> printable c.
Proof. intros Hc. unfold printable. unfold ascii in Hc. split; [lia|]. right. by apply Hascii. Qed.

Lemma prefix_printable level file line : Forall ascii file -> Forall printable (Logger.prefix_str level file line).
Proof.
  intros Hf. apply (Forall_impl ascii); [|apply ascii_printable]. unfold Logger.prefix_str, pad_left.
  repeat apply Forall_app_2; try done; try (apply Forall_replicate; unfold ascii; lia); try apply decimal_ascii; try destruct level; by apply (bool_decide_unpack _).
Qed.

Lemma plain_printable m : plain m -> m_printable m.
Proof.
  intros [Ha Hf]. split; [by apply prefix_printable|]. eapply Forall_impl; [exact Ha|].
  intros c [->|Hc]; [by left|]. right. by apply ascii_printable.
Qed.

Lemma message_printable level args file line : text args -> Forall ascii file ->
  m_printable (Message level args file line).
Proof. intros Ha Hf. by apply plain_printable. Qed.
End plain.

(** ** Characters the font does not have *)

Lemma lines_loop_first line s c rest : Forall (fun x => x <> 10) s -> c <> 10 -> c <> 13 ->
  exists r ls, Logger.lines_loop line (s ++ c :: rest) = (line ++ s ++ c :: r) :: ls.
Proof.
  intros Hs H10 H13. revert line Hs. induction s as [|x s IH]; intros line Hs; cbn [app Logger.lines_loop].
  - rewrite (proj2 (Z.eqb_neq c 10)) by done.
    enough (H : forall r, exists r' ls, Logger.lines_loop (line ++ c :: r) rest = (line ++ c :: r') :: ls) by apply (H []).
    induction rest as [|x rest IH]; intros r; cbn [Logger.lines_loop].
    + exists r, []. destruct (line ++ c :: r) eqn:E; [by destruct line|done].
    + destruct (Z.eqb_spec x 10); [|rewrite <- app_assoc; apply IH].
      assert (Hst : exists r', Logger.strip_cr (line ++ c :: r) = line ++ c :: r'); [|destruct Hst as [r' ->]; eauto].
      unfold Logger.strip_cr. destruct (last (line ++ c :: r)) as [z|] eqn:E; [|eauto].
      destruct (decide (z = 13)) as [->|]; [|exists r; by repeat case_match].
      destruct r as [|y r] using rev_ind; [rewrite last_app in E; cbn in E; congruence|].
      exists r. rewrite app_comm_cons, app_assoc, length_app. cbn.
      rewrite Nat.add_1_r. cbn. apply take_app_length.
  - apply Forall_cons in Hs as [Hx Hs]. rewrite (proj2 (Z.eqb_neq x 10)) by done.
    destruct (IH (line ++ [x]) Hs) as (r & ls & ->). exists r, ls. by rewrite <- app_assoc.
Qed.

Lemma write_unsupported g t level s c rest file line : ready g t -> cursor_ok g ->
  Forall printable (Logger.prefix_str level file line) -> Forall printable s ->
  c <> 10 -> c <> 13 -> get_bitmap c = None ->
  Logger.write level (s ++ c :: rest) file line g = Fault (Panic PUnwrap).
Proof.
  intros Hr Hc Hp Hs H10 H13 Hb. rewrite write_as_lines. unfold message_lines, Logger.lines.
  destruct (lines_loop_first [] s c rest) as (r & ls & ->); [|exact H10|exact H13|].
  { eapply Forall_impl; [exact Hs|]. by intros x [? _]. }
  cbn [app foldO]. unfold Logger.write_str. destruct (prefix_str_cons level file line) as [pre E]. rewrite E in *.
  apply Forall_cons in Hp as [H91 Hpre]. rewrite <- app_comm_cons, <- (app_assoc s), (app_assoc pre), app_comm_cons, foldO_app.
  destruct (write_start_ok (Logger.set_palette level g) t 91 (pre ++ s)) as (g1 & E1 & _); [apply Hr|exact Hc|exact H91|lia|by auto with canyon|].
  unfold Logger.write_str in E1. rewrite E1. omon. cbn [foldO app]. unfold Logger.write_char. rewrite (port_ok c). cbn [assert_]. omon.
  rewrite (proj2 (Z.eqb_neq c 10)), (proj2 (Z.eqb_neq c 13)), Hb by done. done.
Qed.
End logging.

(** ** Claims *)

(** C15: from [LockedLogger::new] on a frame buffer of 32-bit pixels that is larger than a
    letter, any sequence of messages whose characters the font has is logged: no write
    leaves the frame buffer and no arithmetic overflows; the screen shows the messages
    as the abstract terminal prints them, wrapped at the right edge and scrolled at the
    bottom, each line with its prefix and in the colour of its level; the serial port
    gets exactly the same text; and the lock is free afterwards. *)
Theorem logger_session `{HT : Terminal} `{HL : !TerminalLaws} (info : GraphicInfo.t) (contents : list Z)
    (hor ver : Z) (ms : list message) :
  GraphicInfo.resolution info = (hor, ver) -> font_width < hor <= GraphicInfo.stride info -> val < ver ->
  ver * GraphicInfo.stride info * 4 <= GraphicInfo.fb_size info < U64 -> GraphicInfo.fb_size info < 5 * (hor * ver) ->
  zlen contents = GraphicInfo.fb_size info -> Forall m_printable ms ->
  let bg := Logger.background (GraphicInfo.pixel_format info) in
  let blank := Term.mk (fun _ _ => bg) 0 0 in
  exists g, (lg ← LockedLogger.new info contents; foldO log_message lg ms) = Ok (LockedLogger.mk false g) /\
    Logger.port g = Send 10 :: (WriteChar <$> mjoin (m_text <$> ms)) /\
    ready g (fold_left (fun t m => Term.print hor ver bg
      (shade (GraphicInfo.pixel_format info) (levels_palette (m_level m))) (m_text m) t) ms blank).
Proof.
  intros Er Hh Hv Hs H5 Hl Hms. cbn zeta. unfold LockedLogger.new.
  destruct (new_ok info contents hor ver) as (g & -> & Hport & Hc & Eh & Ev & Ef & Hr); [done..|]. omon.
  destruct (log_messages_ok g _ ms Hr Hc Hms) as (g' & -> & Hport' & _ & Hr'). exists g'. split; [done|].
  rewrite Hport', Hport. split; [done|]. rewrite Eh, Ev, Ef in Hr'. exact Hr'.
Qed.

(** For every level and every intensity, the colour of a pixel is computed without
    overflow, and each channel lies between the background and the colour of the level:
    the background at intensity 0, the colour of the level at 255. *)
Theorem logger_color (g : Logger.t) (level : Level) (i : Z) : u8 i ->
  let p := levels_palette level in
  let bg := Logger.BACKGROUND_PIXEL in
  exists r gr b, Logger.get_color (Logger.set_palette level g) i =
      Ok match Logger.format g with Rgb => [r; gr; b; 0] | Bgr => [b; gr; r; 0] | _ => [0; 0; 0; 0] end /\
    RGB.r bg <= r <= RGB.r p /\ RGB.g bg <= gr <= RGB.g p /\ RGB.b bg <= b <= RGB.b p /\
    (i = 0 -> RGB.mk r gr b = bg) /\ (i = 255 -> RGB.mk r gr b = p).
Proof.
  intros Hi. cbn zeta. eexists _, _, _. split; [rewrite get_color_ok by (try done; apply set_palette_lit); unfold shade; reflexivity|].
  destruct level; cbn; (split; [apply mix_bounds; (done || lia)|]; split; [apply mix_bounds; (done || lia)|];
    split; [apply mix_bounds; (done || lia)|]; split; intros ->; reflexivity).
Qed.
Lemma logger_color_witness : u8 128 /\ exists r gr b,
  Logger.get_color (Logger.set_palette Warn (Logger.mk 1 1 Bgr 1 4 (RGB.mk 0 0 0) [] 0 0 [])) 128 = Ok [b; gr; r; 0].
Proof.
  assert (H : u8 128) by (unfold u8; lia). split; [exact H|].
  destruct (logger_color (Logger.mk 1 1 Bgr 1 4 (RGB.mk 0 0 0) [] 0 0 []) Warn 128 H) as (r & gr & b & E & _).
  exists r, gr, b. exact E.
Defined.

(** A message with a character the font does not have stops the kernel silently:
    [Logger::write] panics with the logger locked, and the panic handler, which logs the
    panic, waits for that lock forever. *)
Theorem logger_unsupported_deadlock `{HT : Terminal} `{HL : !TerminalLaws} (g : Logger.t) (t : Term.t)
    (level : Level) (s : list Z) (c : Z) (rest file : list Z) (line : Z) (info info_file : list Z) (info_line : Z) :
  ready g t -> cursor_ok g -> Forall printable (Logger.prefix_str level file line) -> Forall printable s ->
  c <> 10 -> c <> 13 -> get_bitmap c = None ->
  LockedLogger.log level (s ++ c :: rest) file line (LockedLogger.mk false g) = Fault (Panic PUnwrap) /\
  LockedLogger.kernel_log level (s ++ c :: rest) file line info info_file info_line (LockedLogger.mk false g) =
    Fault Deadlock.
Proof.
  intros Hr Hc Hp Hs H10 H13 Hb.
  assert (E : LockedLogger.log level (s ++ c :: rest) file line (LockedLogger.mk false g) = Fault (Panic PUnwrap)).
  { unfold LockedLogger.log, LockedLogger.lock. cbn [LockedLogger.locked LockedLogger.inner]. omon.
    cbn [LockedLogger.inner]. by erewrite write_unsupported. }
  split; [exact E|]. unfold LockedLogger.kernel_log. rewrite E. done.
Qed.

(** Unlocking the logger by force, as its comment says, prevents that deadlock: the message of the
    panic handler is logged. *)
Lemma logger_force_unlock `{HT : Terminal} `{HL : !TerminalLaws} (g : Logger.t) (t : Term.t) (m : message) :
  ready g t -> cursor_ok g -> m_printable m ->
  exists g', log_message (LockedLogger.force_unlock (LockedLogger.mk true g)) m = Ok (LockedLogger.mk false g') /\
    Logger.port g' = Logger.port g ++ (WriteChar <$> m_text m).
Proof.
  intros Hr Hc Hm. destruct (log_messages_ok g t [m] Hr Hc) as (g' & E & Hport & _); [by constructor|].
  exists g'. cbn [foldO] in E. unfold LockedLogger.force_unlock. cbn [LockedLogger.inner].
  destruct (log_message _ m); [|done]. injection E as ->. split; [done|]. rewrite Hport. cbn [fmap list_fmap mjoin list_join].
  by rewrite app_nil_r.
Qed.

(** ** A font of one column and two rows for the characters below 127 *)
#[local] Instance tiny : Terminal := {|
  val := 2;
  get_bitmap c := if c <? 127 then Some (BitmapChar.mk 1 [[255]; [100]]) else None;
  port_write_char _ := true
|}.
#[local] Instance tiny_laws : TerminalLaws.
Proof.
  refine {| font_width := 1 |}; [done|done| |done].
  intros c b. cbn. destruct (c <? 127); [|done]. intros [= <-]. split_and!; [done|done|].
  repeat constructor; unfold u8; lia.
Defined.

Definition tiny_info : GraphicInfo.t := GraphicInfo.mk (4, 5) Bgr 4 0 80.
(** "a<CR><LF>b" at "m.rs", line 7 *)
Definition tiny_message : message := Message Info [97; 13; 10; 98] [109; 46; 114; 115] 7.

Lemma logger_session_witness : Forall m_printable [tiny_message; tiny_message] /\
  exists g, (lg ← LockedLogger.new tiny_info (replicate 80 0); foldO log_message lg [tiny_message; tiny_message]) =
    Ok (LockedLogger.mk false g).
Proof.
  assert (H : Forall m_printable [tiny_message; tiny_message]).
  { apply (bool_decide_unpack _). vm_compute. exact I. }
  split; [exact H|].
  destruct (logger_session tiny_info (replicate 80 0) 4 5 [tiny_message; tiny_message] eq_refl) as (g & E & _);
    [zeval..|reflexivity|exact H|]. exists g. exact E.
Defined.

Lemma logger_unsupported_deadlock_witness : exists g,
  LockedLogger.new tiny_info (replicate 80 0) = Ok (LockedLogger.mk false g) /\
  LockedLogger.kernel_log Info [97; 8364] [109; 46; 114; 115] 7 [] [] 0 (LockedLogger.mk false g) = Fault Deadlock.
Proof.
  destruct (new_ok tiny_info (replicate 80 0) 4 5 eq_refl) as (g & E & _ & Hc & _ & _ & _ & Hr); [zeval..|reflexivity|].
  exists g. unfold LockedLogger.new. rewrite E. split; [reflexivity|].
  apply (logger_unsupported_deadlock g _ Info [97] 8364 [] [109; 46; 114; 115] 7 [] [] 0 Hr Hc);
    [apply (bool_decide_unpack _); vm_compute; exact I..|lia|lia|reflexivity].
Defined.
