(* ===== verification/Pci.v ===== *)
(** Enabling a PCI device: [enable] of kernel/src/drivers/pci.rs, which walks the list of
    capabilities of the device and programs its message signalled interrupts.

    The configuration space is reached through the pci crate, which is the parameter
    [ConfigSpace] with its laws. The messages that the code logs are recorded in order. *)
From S2P Require Import Prelude Machine Device Frame Cafs Vfs Logger Screen Logging.
From Stdlib Require Import ZArith Lia String.
From stdpp Require Import gmap functions sorting list_numbers list.
Local Open Scope Z_scope.

Definition PCI_COMMAND : Z := 0x04.
Definition PCI_CAP_PTR : Z := 0x34.
Definition PCI_MSI_CTRL_CAP : Z := 0x00.
Definition PCI_MSI_ADDR : Z := 0x04.
Definition PCI_MSI_DATA_32 : Z := 0x08.
Definition PCI_MSI_DATA_64 : Z := 0x0C.
Definition PCI_CAP_ID_MSI : Z := 0x05.

(** [CSpaceAccessMethod::IO] on [PortOpsImpl], for the device at a [Location]; the state
    [S] is that of the hardware. *)
Class ConfigSpace (S Location : Type) := {
  read8 : Location -> Z -> M S Z;
  read16 : Location -> Z -> M S Z;
  read32 : Location -> Z -> M S Z;
  write32 : Location -> Z -> Z -> M S unit
}.

(** The messages of the file, as [format!] makes their text. *)
Section messages.
(** The directory of the sources, in the paths that the macros of log record. *)
Context (src : list Z).
Definition pci_rs : list Z := src ++ str "/drivers/pci.rs".
Definition msi_message (orig_ctrl irq : Z) : message :=
  Message Debug (str "MSI control 0b" ++ binary (Z.shiftr orig_ctrl 16) ++ str ", enabling MSI interrupt " ++ decimal irq) pci_rs 114.
Definition cap_message (cap_id cap_ptr : Z) : message :=
  Message Debug (str "PCI device has cap id " ++ decimal cap_id ++ str " at 0x" ++ upper_hex cap_ptr) pci_rs 121.
Definition no_msi_message : message := Message Debug (str "MSI not found, using PCI interrupt") pci_rs 129.
Definition done_message : message := Message Info (str "pci device enable done") pci_rs 132.
End messages.

Section enable.
Context {S Location : Type} `{ConfigSpace S Location} (src : list Z).

(** The hardware, the static variable [MSI_IRQ] and the messages so far. *)
Record state := St { hw : S; MSI_IRQ : Z; logged : list message }.
Definition on_hw {A} (m : M S A) : M state A := zoom hw (fun s st => St s (MSI_IRQ st) (logged st)) m.
Definition log (m : message) : M state unit := fun st => Ok (tt, St (hw st) (MSI_IRQ st) (logged st ++ [m])).

(** [MSI_IRQ += 1; MSI_IRQ] *)
Definition next_irq : M state Z := fun st =>
  irq ← add32 (MSI_IRQ st) 1;
  Ok (irq, St (hw st) irq (logged st)).

(** The capability at [cap_ptr] is MSI: route it to the next interrupt. *)
Definition enable_msi (loc : Location) (cap_ptr : Z) : M state Z :=
  orig_ctrl ← on_hw (read32 loc (cap_ptr + PCI_MSI_CTRL_CAP));
  on_hw (write32 loc (cap_ptr + PCI_MSI_ADDR) (Z.lor 0xfee00000 (Z.shiftl 0 12))) ;;
  irq ← next_irq;
  data ← lift (add32 irq 32);
  (if negb (Z.land (Z.shiftr orig_ctrl 16) (Z.shiftl 1 7) =? 0)
   then on_hw (write32 loc (cap_ptr + PCI_MSI_DATA_64) data)
   else on_hw (write32 loc (cap_ptr + PCI_MSI_DATA_32) data)) ;;
  on_hw (write32 loc (cap_ptr + PCI_MSI_CTRL_CAP) (Z.lor orig_ctrl 0x10000)) ;;
  log (msi_message src orig_ctrl irq) ;;
  mret irq.

(** [while cap_ptr > 0 { .. }]: the interrupt assigned last, if any; [msi_found] says
    whether there is one. *)
Fixpoint walk (fuel : nat) (loc : Location) (cap_ptr : Z) (assigned_irq : option Z) : M state (option Z) :=
  match fuel with
  | O => throw Diverge
  | Datatypes.S fuel =>
      if 0 <? cap_ptr then
        cap_id ← on_hw (read8 loc cap_ptr);
        assigned_irq ← (if cap_id =? PCI_CAP_ID_MSI then irq ← enable_msi loc cap_ptr; mret (Some irq)
                        else mret assigned_irq);
        log (cap_message src cap_id cap_ptr) ;;
        cap_ptr ← on_hw (read8 loc (cap_ptr + 1));
        walk fuel loc cap_ptr assigned_irq
      else mret assigned_irq
  end.

Definition enable (fuel : nat) (loc : Location) : M state (option Z) :=
  orig ← on_hw (read16 loc PCI_COMMAND);
  on_hw (write32 loc PCI_COMMAND (Z.lor orig 0x40f)) ;;
  cap_ptr ← on_hw (read8 loc PCI_CAP_PTR);
  assigned_irq ← walk fuel loc cap_ptr None;
  (if assigned_irq is None
   then on_hw (write32 loc PCI_COMMAND (Z.lor orig 0xf)) ;; log (no_msi_message src)
   else mret tt) ;;
  log (done_message src) ;;
  mret assigned_irq.
End enable.
Arguments state S : clear implicits.

(** ** The capability list *)

(** What the code relies on: reading changes nothing; writes are recorded; the head of
    the list and the first two bytes of each capability, its id and the pointer to the
    next, are read only. *)
Class ConfigSpaceLaws (S Location : Type) `{ConfigSpace S Location} := {
  byte : S -> Location -> Z -> Z;
  word : S -> Location -> Z -> Z;
  long : S -> Location -> Z -> Z;
  written : S -> list (Location * Z * Z);
  read_only : Location -> Z -> Prop;
  read8_ok s loc off : read8 loc off s = Ok (byte s loc off, s);
  read16_ok s loc off : read16 loc off s = Ok (word s loc off, s);
  read32_ok s loc off : read32 loc off s = Ok (long s loc off, s);
  write32_ok s loc off v : exists s', write32 loc off v s = Ok (tt, s') /\
    written s' = written s ++ [(loc, off, v)] /\
    (forall loc' off', read_only loc' off' -> byte s' loc' off' = byte s loc' off')
}.

Section proofs.
Context {S Location : Type} `{HC : ConfigSpace S Location} `{HL : !ConfigSpaceLaws S Location}.
Context (src : list Z).
Implicit Types (s : S) (st : state S) (loc : Location).

(** The list of capabilities from [p] on: pointers and ids. *)
Inductive chain s loc : Z -> list (Z * Z) -> Prop :=
  | chain_end p : p <= 0 -> chain s loc p []
  | chain_cap p l : 0 < p -> read_only loc p -> read_only loc (p + 1) ->
      chain s loc (byte s loc (p + 1)) l -> chain s loc p ((p, byte s loc p) :: l).

Definition is_msi (c : Z * Z) : bool := c.2 =? PCI_CAP_ID_MSI.

(** The registers written for the MSI capability at [p] with interrupt [irq], when its
    control register reads [ctrl]. *)
Definition msi_writes loc (p ctrl irq : Z) : list (Location * Z * Z) :=
  [(loc, p + PCI_MSI_ADDR, 0xfee00000);
   (loc, p + (if Z.testbit ctrl 23 then PCI_MSI_DATA_64 else PCI_MSI_DATA_32), irq + 32);
   (loc, p + PCI_MSI_CTRL_CAP, Z.lor ctrl 0x10000)].

(** The hardware goes from [s] to [s'] by the writes [ws]. *)
Fixpoint performs (ws : list (Location * Z * Z)) s s' : Prop :=
  match ws with
  | [] => s' = s
  | (loc, off, v) :: ws => exists s1, write32 loc off v s = Ok (tt, s1) /\ performs ws s1 s'
  end.

(** The hardware goes from [s] to [s'] when the interrupts of the capabilities [caps] are
    programmed by the writes [ws]; interrupts are numbered from [irq + 1], and the messages
    [ms] tell of it. Each MSI capability is programmed by the value that its own control
    register has in the state the hardware is then in. *)
Inductive walk_writes loc : S -> Z -> list (Z * Z) -> list (Location * Z * Z) -> list message -> S -> Prop :=
  | walk_end s irq : walk_writes loc s irq [] [] [] s
  | walk_other s irq c caps ws ms s' : is_msi c = false -> walk_writes loc s irq caps ws ms s' ->
      walk_writes loc s irq (c :: caps) ws (cap_message src c.2 c.1 :: ms) s'
  | walk_msi s s1 irq c caps ws ms s' : is_msi c = true ->
      let ctrl := long s loc (c.1 + PCI_MSI_CTRL_CAP) in
      performs (msi_writes loc c.1 ctrl (irq + 1)) s s1 ->
      walk_writes loc s1 (irq + 1) caps ws ms s' ->
      walk_writes loc s irq (c :: caps) (msi_writes loc c.1 ctrl (irq + 1) ++ ws)
        (msi_message src ctrl (irq + 1) :: cap_message src c.2 c.1 :: ms) s'.

Lemma on_hw_ok {A} (m : M S A) st a s : m (hw st) = Ok (a, s) -> on_hw m st = Ok (a, St s (MSI_IRQ st) (logged st)).
Proof. intros E. unfold on_hw, zoom. by rewrite E. Qed.

Definition ro_same s s' : Prop := forall loc off, read_only loc off -> byte s' loc off = byte s loc off.

Lemma chain_same s s' loc p l : ro_same s s' -> chain s loc p l -> chain s' loc p l.
Proof.
  intros Hro. induction 1 as [p Hp|p l Hp H1 H2 Hc IH]; [by constructor|]. rewrite <- (Hro loc p H1).
  constructor; try done. by rewrite (Hro loc (p + 1) H2).
Qed.

Lemma bit23 ctrl : negb (Z.land (Z.shiftr ctrl 16) (Z.shiftl 1 7) =? 0) = Z.testbit ctrl 23.
Proof.
  change (Z.shiftl 1 7) with (2 ^ 7). pose proof (land_bit_pos (Z.shiftr ctrl 16) 7 ltac:(lia)) as Hl.
  rewrite Z.shiftr_spec in Hl by lia. change (7 + 16) with 23 in Hl. rewrite <- Hl.
  assert (0 <= Z.land (Z.shiftr ctrl 16) (2 ^ 7)) by (apply Z.land_nonneg; right; lia).
  destruct (Z.eqb_spec (Z.land (Z.shiftr ctrl 16) (2 ^ 7)) 0), (Z.ltb_spec 0 (Z.land (Z.shiftr ctrl 16) (2 ^ 7))); try done; lia.
Qed.

Lemma add32_ok a b : a + b < 2 ^ 32 -> add32 a b = Ok (a + b).
Proof. intros. unfold add32. by rewrite (proj2 (Z.ltb_lt _ _)). Qed.

Lemma enable_msi_ok st loc p : 0 <= MSI_IRQ st -> MSI_IRQ st + 33 < 2 ^ 32 ->
  let ctrl := long (hw st) loc (p + PCI_MSI_CTRL_CAP) in
  exists s', enable_msi src loc p st =
      Ok (MSI_IRQ st + 1, St s' (MSI_IRQ st + 1) (logged st ++ [msi_message src ctrl (MSI_IRQ st + 1)])) /\
    ro_same (hw st) s' /\ performs (msi_writes loc p ctrl (MSI_IRQ st + 1)) (hw st) s' /\
    written s' = written (hw st) ++ msi_writes loc p ctrl (MSI_IRQ st + 1).
Proof.
  intros H0 Hb ctrl. destruct st as [s n lg]. cbn [hw MSI_IRQ logged] in *. unfold enable_msi.
  rewrite (bind_ok _ _ _ _ _ (on_hw_ok _ (St s n lg) _ _ (read32_ok s loc _))). cbn [hw MSI_IRQ logged].
  fold ctrl. change (Z.lor 0xfee00000 (Z.shiftl 0 12)) with 0xfee00000.
  destruct (write32_ok s loc (p + PCI_MSI_ADDR) 0xfee00000) as (s1 & E1 & W1 & R1).
  rewrite (bind_ok _ _ _ _ _ (on_hw_ok _ (St s n lg) _ _ E1)). cbn [MSI_IRQ logged].
  rewrite (bind_ok _ _ _ (n + 1) (St s1 (n + 1) lg)).
  2:{ unfold next_irq. cbn [MSI_IRQ hw logged]. by rewrite add32_ok by lia. }
  rewrite (bind_lift _ _ _ _ (add32_ok (n + 1) 32 ltac:(lia))). rewrite bit23.
  destruct (write32_ok s1 loc (p + (if Z.testbit ctrl 23 then PCI_MSI_DATA_64 else PCI_MSI_DATA_32)) (n + 1 + 32)) as (s2 & E2 & W2 & R2).
  rewrite (bind_ok _ _ _ tt (St s2 (n + 1) lg)).
  2:{ destruct (Z.testbit ctrl 23); by apply (on_hw_ok _ (St s1 (n + 1) lg)). }
  destruct (write32_ok s2 loc (p + PCI_MSI_CTRL_CAP) (Z.lor ctrl 0x10000)) as (s3 & E3 & W3 & R3).
  rewrite (bind_ok _ _ _ _ _ (on_hw_ok _ (St s2 (n + 1) lg) _ _ E3)). cbn [MSI_IRQ logged].
  exists s3. split; [done|]. split; [intros loc' off' Hr; rewrite R3, R2, R1 by done; done|].
  split; [exists s1; split; [exact E1|]; exists s2; split; [exact E2|]; by exists s3|].
  rewrite W3, W2, W1, <- !app_assoc. done.
Qed.

Lemma walk_ok caps : forall fuel st loc p assigned, (length caps < fuel)%nat -> chain (hw st) loc p caps ->
  0 <= MSI_IRQ st -> MSI_IRQ st + zlen (filter (fun c => is_msi c = true) caps) + 32 < 2 ^ 32 ->
  let k := zlen (filter (fun c => is_msi c = true) caps) in
  exists s' ws ms, walk src fuel loc p assigned st =
      Ok (if 0 <? k then Some (MSI_IRQ st + k) else assigned, St s' (MSI_IRQ st + k) (logged st ++ ms)) /\
    ro_same (hw st) s' /\ written s' = written (hw st) ++ ws /\ walk_writes loc (hw st) (MSI_IRQ st) caps ws ms s'.
Proof.
  induction caps as [|c caps IH]; intros [|fuel] [s n lg] loc p assigned Hf Hc H0 Hb; cbn [length] in Hf; try lia; cbn [hw MSI_IRQ logged] in *.
  - inversion Hc as [? Hp|]; subst. exists s, [], []. cbn. rewrite (proj2 (Z.ltb_ge 0 p)) by lia. rewrite Z.add_0_r, !app_nil_r.
    split; [done|]. split; [done|]. split; [done|]. constructor.
  - inversion Hc as [|? ? Hp R1 R2 Hch]; subst. cbn [walk]. rewrite (proj2 (Z.ltb_lt 0 p)) by lia.
    rewrite (bind_ok _ _ _ _ _ (on_hw_ok _ (St s n lg) _ _ (read8_ok s loc p))). cbn [MSI_IRQ logged].
    change (byte s loc p =? PCI_CAP_ID_MSI) with (is_msi (p, byte s loc p)).
    set (cm := cap_message src (byte s loc p) p).
    destruct (is_msi (p, byte s loc p)) eqn:Eid.
    + rewrite filter_cons_True in Hb |- * by done. cbn [length] in *.
      destruct (enable_msi_ok (St s n lg) loc p) as (s1 & E1 & Hro & P1 & W1); cbn [MSI_IRQ]; [lia|lia|]. cbn [MSI_IRQ hw logged] in *.
      set (ctrl := long s loc (p + PCI_MSI_CTRL_CAP)) in *. set (mm := msi_message src ctrl (n + 1)) in *.
      rewrite (bind_ok _ _ _ (Some (n + 1)) (St s1 (n + 1) (lg ++ [mm]))) by (by rewrite (bind_ok _ _ _ _ _ E1)).
      rewrite (bind_ok _ _ _ tt (St s1 (n + 1) ((lg ++ [mm]) ++ [cm]))) by done.
      rewrite (bind_ok _ _ _ _ _ (on_hw_ok _ (St s1 (n + 1) _) _ _ (read8_ok s1 loc (p + 1)))). cbn [MSI_IRQ logged].
      rewrite (Hro loc (p + 1) R2).
      destruct (IH fuel (St s1 (n + 1) ((lg ++ [mm]) ++ [cm])) loc (byte s loc (p + 1)) (Some (n + 1))) as (s2 & ws & ms & E2 & Hro2 & W2 & Hws);
        cbn [hw MSI_IRQ logged] in *; [lia|by eapply chain_same|lia|lia|].
      exists s2, (msi_writes loc p ctrl (n + 1) ++ ws), (mm :: cm :: ms). split.
      { rewrite E2, <- !app_assoc. cbn [app]. set (k := zlen _). replace (Z.of_nat (Datatypes.S _)) with (1 + k) by lia.
        assert (0 <= k) by (unfold k; lia). rewrite (proj2 (Z.ltb_lt 0 (1 + k))) by lia.
        replace (n + 1 + k) with (n + (1 + k)) by lia. destruct (Z.ltb_spec 0 k); [done|].
        replace (n + (1 + k)) with (n + 1) by lia. done. }
      split; [intros loc' off' Hr; rewrite Hro2, Hro by done; done|]. split; [rewrite W2, W1, <- app_assoc; done|].
      by apply (walk_msi loc s s1 n (p, byte s loc p)).
    + rewrite filter_cons_False in Hb |- * by congruence. rewrite (bind_ok _ _ _ assigned (St s n lg)) by done.
      rewrite (bind_ok _ _ _ tt (St s n (lg ++ [cm]))) by done.
      rewrite (bind_ok _ _ _ _ _ (on_hw_ok _ (St s n _) _ _ (read8_ok s loc (p + 1)))). cbn [MSI_IRQ logged].
      destruct (IH fuel (St s n (lg ++ [cm])) loc (byte s loc (p + 1)) assigned) as (s2 & ws & ms & E2 & Hro2 & W2 & Hws);
        cbn [hw MSI_IRQ logged] in *; [lia|done|lia|lia|].
      exists s2, ws, (cm :: ms). split; [rewrite E2, <- app_assoc; done|]. split; [done|]. split; [done|].
      by apply (walk_other loc s n (p, byte s loc p)).
Qed.

(** What [enable] does, for the clients of this file. *)
Lemma enable_ok fuel st loc caps : chain (hw st) loc (byte (hw st) loc PCI_CAP_PTR) caps -> read_only loc PCI_CAP_PTR ->
  (length caps < fuel)%nat -> 0 <= MSI_IRQ st -> MSI_IRQ st + zlen (filter (fun c => is_msi c = true) caps) + 32 < 2 ^ 32 ->
  let k := zlen (filter (fun c => is_msi c = true) caps) in
  let orig := word (hw st) loc PCI_COMMAND in
  exists s1 s2 s' ws ms,
    enable src fuel loc st = Ok (if 0 <? k then Some (MSI_IRQ st + k) else None,
      St s' (MSI_IRQ st + k) (logged st ++ ms ++ (if 0 <? k then [] else [no_msi_message src]) ++ [done_message src])) /\
    performs [(loc, PCI_COMMAND, Z.lor orig 0x40f)] (hw st) s1 /\
    walk_writes loc s1 (MSI_IRQ st) caps ws ms s2 /\
    performs (if 0 <? k then [] else [(loc, PCI_COMMAND, Z.lor orig 0xf)]) s2 s' /\
    written s' = written (hw st) ++ [(loc, PCI_COMMAND, Z.lor orig 0x40f)] ++ ws ++
      (if 0 <? k then [] else [(loc, PCI_COMMAND, Z.lor orig 0xf)]).
Proof.
  intros Hc Hro Hf H0 Hb k orig. destruct st as [s n lg]. cbn [hw MSI_IRQ logged] in *. unfold enable.
  rewrite (bind_ok _ _ _ _ _ (on_hw_ok _ (St s n lg) _ _ (read16_ok s loc _))). cbn [MSI_IRQ logged]. fold orig.
  destruct (write32_ok s loc PCI_COMMAND (Z.lor orig 0x40f)) as (s1 & E1 & W1 & R1).
  rewrite (bind_ok _ _ _ _ _ (on_hw_ok _ (St s n lg) _ _ E1)). cbn [MSI_IRQ logged].
  rewrite (bind_ok _ _ _ _ _ (on_hw_ok _ (St s1 n lg) _ _ (read8_ok s1 loc _))). cbn [MSI_IRQ logged]. rewrite R1 by done.
  destruct (walk_ok caps fuel (St s1 n lg) loc (byte s loc PCI_CAP_PTR) None) as (s2 & ws & ms & E2 & _ & W2 & Hws);
    cbn [hw MSI_IRQ logged]; [done|by eapply chain_same|done|done|].
  cbn [hw MSI_IRQ logged] in *. fold k in E2. rewrite (bind_ok _ _ _ _ _ E2). destruct (Z.ltb_spec 0 k).
  - rewrite (bind_ok _ _ _ tt (St s2 (n + k) (lg ++ ms))) by done. exists s1, s2, s2, ws, ms.
    split; [cbn [app]; by rewrite app_assoc|]. split; [by exists s1|]. split; [done|]. split; [done|].
    rewrite W2, W1, <- app_assoc, app_nil_r. done.
  - destruct (write32_ok s2 loc PCI_COMMAND (Z.lor orig 0xf)) as (s3 & E3 & W3 & _).
    rewrite (bind_ok _ _ _ tt (St s3 (n + k) ((lg ++ ms) ++ [no_msi_message src])))
      by (by rewrite (bind_ok _ _ _ _ _ (on_hw_ok _ (St s2 (n + k) (lg ++ ms)) _ _ E3))).
    exists s1, s2, s3, ws, ms. split.
    { unfold log, mbind, M_bind. cbn [hw MSI_IRQ logged mret M_ret]. by rewrite <- !app_assoc. }
    split; [by exists s1|]. split; [done|]. split; [by exists s3|]. rewrite W3, W2, W1, <- !app_assoc. done.
Qed.

(** The messages of [enable] are in ASCII. *)
Lemma walk_plain loc s n caps ws ms s' : Forall ascii src -> walk_writes loc s n caps ws ms s' -> Forall plain ms.
Proof.
  intros Hs. assert (Hpci : Forall ascii (pci_rs src)) by (apply Forall_app_2; [done|]; by apply (bool_decide_unpack _)).
  assert (Hcap : forall c, plain (cap_message src c.2 c.1)).
  { intros c. split; [|done]. repeat apply text_app; try apply decimal_text; try apply upper_hex_text; by apply (bool_decide_unpack _). }
  induction 1 as [|? ? c ? ? ? ? ? _ IH|s s1 n c ? ? ? ? ? ctrl ? _ IH]; [done|by apply Forall_cons_2|].
  apply Forall_cons_2; [|by apply Forall_cons_2]. split; [|done].
  repeat apply text_app; try apply decimal_text; try apply binary_text; by apply (bool_decide_unpack _).
Qed.

Lemma enable_plain k : Forall ascii src -> Forall plain ((if 0 <? k then [] else [no_msi_message src]) ++ [done_message src]).
Proof.
  intros Hs. assert (Hpci : Forall ascii (pci_rs src)) by (apply Forall_app_2; [done|]; by apply (bool_decide_unpack _)).
  apply Forall_app_2; [destruct (0 <? k); [done|]|]; apply Forall_singleton; (split; [by apply (bool_decide_unpack _)|done]).
Qed.

(** The last MSI capability gets the interrupt that [enable] returns. *)
Lemma walk_writes_last loc s n caps ws ms s' : walk_writes loc s n caps ws ms s' ->
  let k := zlen (filter (fun c => is_msi c = true) caps) in 0 < k -> exists off, (loc, off, n + k + 32) ∈ ws.
Proof.
  cbn zeta. induction 1 as [|s irq c caps ws ms s' Hc _ IH|s s1 irq c caps ws ms s' Hc ctrl _ _ IH]; [done| |].
  - rewrite filter_cons_False by congruence. exact IH.
  - rewrite filter_cons_True by done. unfold zlen in *. cbn [length]. intros _.
    set (j := length (filter _ caps)) in *. destruct j as [|j].
    + eexists. apply elem_of_app. left. right. left.
    + destruct (IH ltac:(lia)) as [off Ho]. exists off. apply elem_of_app. right.
      revert Ho. match goal with |- (_, _, ?a) ∈ _ -> (_, _, ?b) ∈ _ => by replace a with b by lia end.
Qed.

(** ** Claims *)

(** C20: on a device whose list of capabilities ends, [enable] returns: it enables the
    device, then gives every MSI capability in the order of the list the next free
    interrupt number and programs it by exactly three writes: the address, the vector
    (number + 32) in the data register at the place that bit 23 of the capability's own
    control register announces, and the control register with the enable bit added to the
    value read from it; it falls back to legacy interrupts only if there is no MSI
    capability. It logs a message for each capability, and before it one with the control
    word and the interrupt number if it is MSI, and at its end whether the fallback was
    needed and that it is done. *)
Theorem pci_enable fuel st loc caps : chain (hw st) loc (byte (hw st) loc PCI_CAP_PTR) caps -> read_only loc PCI_CAP_PTR ->
  (length caps < fuel)%nat -> 0 <= MSI_IRQ st -> MSI_IRQ st + zlen (filter (fun c => is_msi c = true) caps) + 32 < 2 ^ 32 ->
  let k := zlen (filter (fun c => is_msi c = true) caps) in
  let orig := word (hw st) loc PCI_COMMAND in
  exists s1 s2 s' ws ms,
    enable src fuel loc st = Ok (if 0 <? k then Some (MSI_IRQ st + k) else None,
      St s' (MSI_IRQ st + k) (logged st ++ ms ++ (if 0 <? k then [] else [no_msi_message src]) ++ [done_message src])) /\
    performs [(loc, PCI_COMMAND, Z.lor orig 0x40f)] (hw st) s1 /\
    walk_writes loc s1 (MSI_IRQ st) caps ws ms s2 /\
    performs (if 0 <? k then [] else [(loc, PCI_COMMAND, Z.lor orig 0xf)]) s2 s' /\
    written s' = written (hw st) ++ [(loc, PCI_COMMAND, Z.lor orig 0x40f)] ++ ws ++
      (if 0 <? k then [] else [(loc, PCI_COMMAND, Z.lor orig 0xf)]).
Proof. apply enable_ok. Qed.

(** [enable] trusts the device to end its list: when the pointers lead round in a circle of
    capabilities other than MSI, it never returns, whatever the fuel. *)
Theorem pci_enable_endless fuel st loc (P : Z -> Prop) : read_only loc PCI_CAP_PTR -> P (byte (hw st) loc PCI_CAP_PTR) ->
  (forall p, P p -> 0 < p /\ read_only loc p /\ read_only loc (p + 1) /\ byte (hw st) loc p <> PCI_CAP_ID_MSI /\
    P (byte (hw st) loc (p + 1))) ->
  enable src fuel loc st = Fault Diverge.
Proof.
  intros Hro HP Hstep. destruct st as [s n lg]. cbn [hw MSI_IRQ] in *. unfold enable.
  rewrite (bind_ok _ _ _ _ _ (on_hw_ok _ (St s n lg) _ _ (read16_ok s loc _))). cbn [MSI_IRQ logged].
  destruct (write32_ok s loc PCI_COMMAND (Z.lor (word s loc PCI_COMMAND) 0x40f)) as (s1 & E1 & _ & R1).
  rewrite (bind_ok _ _ _ _ _ (on_hw_ok _ (St s n lg) _ _ E1)). cbn [MSI_IRQ logged].
  rewrite (bind_ok _ _ _ _ _ (on_hw_ok _ (St s1 n lg) _ _ (read8_ok s1 loc _))). cbn [MSI_IRQ logged]. rewrite R1 by done.
  apply bind_fault. revert HP. generalize (byte s loc PCI_CAP_PTR) as p. revert lg. induction fuel as [|fuel IH]; intros lg p HP; [done|].
  cbn [walk]. destruct (Hstep p HP) as (Hp & Hr1 & Hr2 & Hid & Hn). rewrite (proj2 (Z.ltb_lt 0 p)) by lia.
  rewrite (bind_ok _ _ _ _ _ (on_hw_ok _ (St s1 n lg) _ _ (read8_ok s1 loc p))). cbn [MSI_IRQ logged]. rewrite R1 by done.
  rewrite (proj2 (Z.eqb_neq _ _)) by done. rewrite (bind_ok _ _ _ None (St s1 n lg)) by done.
  rewrite (bind_ok _ _ _ tt (St s1 n (lg ++ [cap_message src (byte s loc p) p]))) by done.
  rewrite (bind_ok _ _ _ _ _ (on_hw_ok _ (St s1 n _) _ _ (read8_ok s1 loc (p + 1)))). cbn [MSI_IRQ logged]. rewrite R1 by done.
  by apply IH.
Qed.
End proofs.

(** ** A configuration space whose bytes do not change *)
Module FixedSpace.
Section fixed.
(** The bytes of each device; the state is the list of writes. *)
Context (bytes : Z -> Z -> Z).
Definition le (loc off : Z) (n : nat) : Z := from_le ((fun i => bytes loc (off + i)) <$> seqZ 0 (Z.of_nat n)).
Definition space : ConfigSpace (list (Z * Z * Z)) Z := {|
  read8 loc off s := Ok (bytes loc off, s);
  read16 loc off s := Ok (le loc off 2, s);
  read32 loc off s := Ok (le loc off 4, s);
  write32 loc off v s := Ok (tt, s ++ [(loc, off, v)])
|}.
Definition space_laws : @ConfigSpaceLaws (list (Z * Z * Z)) Z space.
Proof.
  refine {| byte _ := bytes; word _ loc off := le loc off 2; long _ loc off := le loc off 4;
    written s := s; read_only _ _ := True |}; try done.
  intros s loc off v. eexists. done.
Defined.
End fixed.

(** A device with a power management capability at 0x40 and MSI at 0x50, and one whose
    capability at 0x40 points to itself. *)
Definition msi_device (loc off : Z) : Z :=
  if off =? 0x34 then 0x40 else if off =? 0x40 then 1 else if off =? 0x41 then 0x50
  else if off =? 0x50 then 5 else 0.
Definition looping_device (loc off : Z) : Z :=
  if off =? 0x34 then 0x40 else if off =? 0x40 then 1 else if off =? 0x41 then 0x40 else 0.
End FixedSpace.

(** The control register of the capability at 0x50 reads 5: a 32-bit address. *)
Lemma pci_enable_witness :
  @enable _ _ (FixedSpace.space FixedSpace.msi_device) (str "kernel/src") 3 0 (St [] 23 []) =
    Ok (Some 24, St [(0, 0x04, 0x40f); (0, 0x54, 0xfee00000); (0, 0x58, 56); (0, 0x50, 0x10005)] 24
      [Message Debug (str "PCI device has cap id 1 at 0x40") (str "kernel/src/drivers/pci.rs") 121;
       Message Debug (str "MSI control 0b0, enabling MSI interrupt 24") (str "kernel/src/drivers/pci.rs") 114;
       Message Debug (str "PCI device has cap id 5 at 0x50") (str "kernel/src/drivers/pci.rs") 121;
       Message Info (str "pci device enable done") (str "kernel/src/drivers/pci.rs") 132]).
Proof.
  set (HC := FixedSpace.space FixedSpace.msi_device). set (HL := FixedSpace.space_laws FixedSpace.msi_device).
  destruct (@pci_enable _ _ HC HL (str "kernel/src") 3 (St [] 23 []) 0 [(0x40, 1); (0x50, 5)]) as (s1 & s2 & s' & ws & ms & E & P1 & HW & _ & W).
  - change (chain (HL := HL) ([] : list (Z * Z * Z)) 0 0x40 [(0x40, 1); (0x50, 5)]).
    apply (chain_cap (HL := HL) _ 0 0x40); [lia|exact I|exact I|].
    change (chain (HL := HL) ([] : list (Z * Z * Z)) 0 0x50 [(0x50, 5)]).
    apply (chain_cap (HL := HL) _ 0 0x50); [lia|exact I|exact I|]. apply chain_end. zeval.
  - exact I.
  - cbn. lia.
  - cbn. lia.
  - vm_compute. reflexivity.
  - rewrite E. inversion HW as [|? ? ? ? ws1 ms1 ? _ HW1|]; subst; [|discriminate].
    inversion HW1 as [| |? s3 ? ? ? ws2 ms2 ? _ ctrl _ HW2]; subst; [discriminate|].
    inversion HW2; subst. change (s' = written (ConfigSpaceLaws := HL) s') in W || change (written s') with s' in W.
    rewrite W. vm_compute. reflexivity.
Defined.

Lemma pci_enable_endless_witness :
  @enable _ _ (FixedSpace.space FixedSpace.looping_device) [] 1000 0 (St [] 23 []) = Fault Diverge.
Proof.
  set (HC := FixedSpace.space FixedSpace.looping_device). set (HL := FixedSpace.space_laws FixedSpace.looping_device).
  apply (@pci_enable_endless _ _ HC HL [] 1000 (St [] 23 []) 0 (fun p => p = 0x40)); [exact I|reflexivity|].
  intros p ->. split; [lia|]. split; [exact I|]. split; [exact I|]. split; [discriminate|reflexivity].
Defined.
