(* ===== verification/Startup.v ===== *)
(** The kernel finds its files: the AHCI driver (kernel/src/drivers/ahci.rs), the lookup of
    the partition and the mounting of the file system (init_driver, init_sata and init of
    kernel/src/drivers/pci.rs), and the process module (kernel/src/process/mod.rs).

    The AHCI controller (isomorphic_drivers), the partition table (gpt_disk_io) and the
    parser of GUIDs (uguid) are the parameters [Storage]. What the initialisation of the
    controller asks of the kernel, buffers for DMA and the logging of messages, is an
    argument of the model, the program [driver_code], which [run_driver] runs on the memory
    of the kernel with the functions of kernel/src/drivers/provider.rs. *)
From S2P Require Import Prelude Machine Device Block Manager Bitmap Layout Index Resize InodeNumber Utf8 Cafs Vfs Contents Files Inodes Directory Mount Paths Errors FileSystem Namespace Image Frame KernelMemory Logger Screen Logging Pci.
From Stdlib Require Import ZArith Lia String.
From stdpp Require Import gmap functions sorting list_numbers list.
Local Open Scope Z_scope.

(** ** [AHCIDriver] *)
Module AHCIDriver.
Section driver.
(** [AHCI] of isomorphic_drivers transfers sectors. *)
Context {A : Type} `{BlockDevice A}.

(** A controller behind a spin lock. *)
Record t := mk { locked : bool; ahci : A }.

Definition read_block (self : t) (block_id : Z) (buf : list Z) : outcome (list Z) :=
  if locked self then Fault Deadlock else Device.read_block (ahci self) block_id buf.
Definition write_block (self : t) (block_id : Z) (buf : list Z) : outcome t :=
  if locked self then Fault Deadlock else
    a ← Device.write_block (ahci self) block_id buf;
    Ok (mk false a).

#[export] Instance device : BlockDevice t := {|
  Device.read_block := read_block;
  Device.write_block := write_block
|}.
End driver.
Arguments t A : clear implicits.

Section laws.
Context {A : Type} `{HD : BlockDevice A} `{HL : !BlockDeviceLaws A}.
#[export] Program Instance laws : BlockDeviceLaws (t A) := {|
  dev_rep d n v := locked d = false /\ dev_rep (ahci d) n v
|}.
Next Obligation. intros d n v b [_ H] Hb. by eapply dev_block. Qed.
Next Obligation. intros d n v b buf [Hl H] Hb Hbuf. cbn. unfold read_block. rewrite Hl. by eapply dev_read. Qed.
Next Obligation.
  intros d n v b buf [Hl H] Hb Hbuf. cbn. unfold write_block. rewrite Hl.
  destruct (dev_write _ _ _ _ _ H Hb Hbuf) as (a & E & Ha). rewrite E. by eexists.
Qed.
Next Obligation. intros d n v w [Hl H] Hw. split; [done|]. by eapply dev_ext. Qed.
End laws.
End AHCIDriver.
#[export] Existing Instances AHCIDriver.device AHCIDriver.laws.

(** An entry of the partition table. *)
Module GptEntry.
Record t (Guid : Type) := mk { partition_type_guid : Guid; starting_lba : Z; ending_lba : Z; name : list Z }.
Arguments mk {Guid}.
Arguments partition_type_guid {Guid}.
Arguments starting_lba {Guid}.
Arguments ending_lba {Guid}.
Arguments name {Guid}.
End GptEntry.

Module Partition.
Record t (Guid : Type) := mk { starting_lba : Z; ending_lba : Z; name : list Z; guid : Guid }.
Arguments mk {Guid}.
Arguments starting_lba {Guid}.
End Partition.

(** Code of a driver crate, as the kernel sees it: it allocates and releases buffers
    through [Provider], which gives it their virtual and physical addresses, and it logs. *)
Inductive driver_code (B : Type) :=
  | Return (b : B)
  | AllocDma (size : Z) (k : Z -> Z -> driver_code B)
  | DeallocDma (vaddr size : Z) (k : driver_code B)
  | LogMessage (m : message) (k : driver_code B).
Arguments Return {B}.
Arguments AllocDma {B}.
Arguments DeallocDma {B}.
Arguments LogMessage {B}.

Class Storage (A Guid : Type) := {
  (** [AHCI::new] *)
  ahci_new : Z -> Z -> driver_code (option A);
  (** the entries of the primary partition table in the first blocks of a disk *)
  gpt_entries : list Z -> option (list (GptEntry.t Guid));
  (** [Guid::from_str] *)
  guid_from_str : list Z -> option Guid
}.

(** "0c421611-8e4a-464e-b683-96265fc14532" *)
Definition PARTITION_UUID : list Z := str "0c421611-8e4a-464e-b683-96265fc14532".

Section code.
Context {A Guid F : Type} `{BlockDevice A} `{EqDecision Guid} `{!Storage A Guid} `{PhysFrame F}.
(** The directory of the sources, in the paths that the macros of log record. *)
Context (src : list Z).

(** The messages of [virtio_dma_alloc] and [virtio_dma_dealloc]. *)
Definition provider_rs : list Z := src ++ str "/drivers/provider.rs".
Definition alloc_message (paddr pages : Z) : message :=
  Message Trace (str "alloc DMA: paddr=0x" ++ lower_hex paddr ++ str ", pages=" ++ decimal pages) provider_rs 29.
Definition dealloc_message (paddr pages : Z) : message :=
  Message Trace (str "dealloc DMA: paddr=0x" ++ lower_hex paddr ++ str ", pages=" ++ decimal pages) provider_rs 39.

(** The result of the code, the messages it logs and the memory it leaves. *)
Fixpoint run_driver {B} (code : driver_code B) (mem : Memory.t F) : outcome (B * list message * Memory.t F) :=
  match code with
  | Return b => Ok (b, [], mem)
  | AllocDma size k =>
      pages ← Provider.pages_of size;
      '((vaddr, paddr), mem) ← Provider.alloc_dma size mem;
      '(b, ms, mem) ← run_driver (k vaddr paddr) mem;
      Ok (b, alloc_message paddr pages :: ms, mem)
  | DeallocDma vaddr size k =>
      '(paddr, _) ← Memory.to_phys_addr vaddr mem;
      pages ← Provider.pages_of size;
      '(_, mem) ← Provider.dealloc_dma vaddr size mem;
      '(b, ms, mem) ← run_driver k mem;
      Ok (b, dealloc_message paddr pages :: ms, mem)
  | LogMessage m k =>
      '(b, ms, mem) ← run_driver k mem;
      Ok (b, m :: ms, mem)
  end.

(** [ahci::init] *)
Definition ahci_init (_irq : option Z) (header size : Z) (mem : Memory.t F) :
    outcome (option (AHCIDriver.t A) * list message * Memory.t F) :=
  '(r, ms, mem) ← run_driver (ahci_new header size) mem;
  Ok (match r with Some ahci => Some (AHCIDriver.mk false ahci) | None => None end, ms, mem).

(** The first 2048 blocks of the disk. *)
Definition read_gpt (driver : AHCIDriver.t A) : outcome (list Z) :=
  foldO (fun gpt_data i =>
    buf ← AHCIDriver.read_block driver i (replicate 512 0);
    Ok (gpt_data ++ buf)) [] (seqZ 0 2048).

(** The partitions of CAFS. *)
Definition find_partitions (entries : list (GptEntry.t Guid)) : outcome (list (Partition.t Guid)) :=
  foldO (fun partitions p =>
    uuid ← unwrap (guid_from_str PARTITION_UUID) PUnwrap;
    Ok (if decide (GptEntry.partition_type_guid p = uuid)
        then partitions ++ [Partition.mk (GptEntry.starting_lba p) (GptEntry.ending_lba p) (GptEntry.name p) (GptEntry.partition_type_guid p)]
        else partitions)) [] entries.

#[local] Instance blk : BlockDevice (Blk.t (AHCIDriver.t A)) := Blk.device AHCIDriver.read_block AHCIDriver.write_block.

(** The mounted file system of the static variable [fs::VFS]. *)
Abbreviation mounted := (CAFS.t * VFS.state (CacheManager.t (Blk.t (AHCIDriver.t A))))%type.

Section bus.
Context {S : Type}.

(** The hardware of the bus with the messages so far, and the static variables. *)
Record kernel := Kernel { pci : state S; vfs : option mounted; memory : Memory.t F }.

(** [fuel] bounds the depth of the directory tree that [VFS::new] reads. *)
Definition init_sata (fuel : nat) (irq : option Z) (bar_addr bar_len : Z) : M kernel unit := fun k =>
  '(vaddr, _) ← Memory.to_virt_addr bar_addr (memory k);
  '(driver, ms, memory) ← ahci_init irq vaddr bar_len (memory k);
  let pci := St (hw (pci k)) (MSI_IRQ (pci k)) (logged (pci k) ++ ms) in
  match driver with
  | Some driver =>
      gpt_data ← read_gpt driver;
      entries ← unwrap (gpt_entries gpt_data) PUnwrap;
      partitions ← find_partitions entries;
      p ← unwrap (partitions !! 0%nat) PIndex;
      let blk := Blk.mk (Partition.starting_lba p) driver in
      vfs ← VFS.new fuel blk;
      Ok (tt, Kernel pci (Some vfs) memory)
  | None => Ok (tt, Kernel pci (vfs k) memory)
  end.

(** ** Devices on the bus *)
Context {Location : Type} `{!ConfigSpace S Location}.

(** [BAR] and [PCIDevice] of the pci crate, the latter with what [{:?}] prints of it. *)
Inductive BAR := BarMemory (addr len : Z) | BarIO.
Record PCIDevice := mk_device { loc : Location; class : Z; subclass : Z; bar5 : option BAR; debug : list Z }.

Definition found_message (dev : PCIDevice) (addr : Z) : message :=
  Message Debug (str "Found AHCI dev " ++ debug dev ++ str " BAR5 " ++ lower_hex addr) (pci_rs src) 68.

Definition init_driver (caps fuel : nat) (dev : PCIDevice) : M kernel unit := fun k =>
  if (class dev =? 0x01) && (subclass dev =? 0x06) then
    match bar5 dev with
    | Some (BarMemory addr len) =>
        '(_, pci) ← log (found_message dev addr) (pci k);
        '(irq, pci) ← enable src caps (loc dev) pci;
        assert_ (len <=? PAGE_SIZE) PAssert ;;
        init_sata fuel irq addr len (Kernel pci (vfs k) (memory k))
    | _ => Ok (tt, k)
    end
  else Ok (tt, k).

(** [init], with the devices [scan_bus] finds. *)
Definition init (caps fuel : nat) (devices : list PCIDevice) : M kernel unit :=
  forM (init_driver caps fuel) devices.
End bus.

(** ** [process::init] and [process::next] *)

Definition hello_message (contents : list Z) : message :=
  Message Info (str "hello len: " ++ decimal (zlen contents)) (src ++ str "/process/mod.rs") 28.

(** [process::init] up to its assertion. *)
Definition hello `{Terminal} (vfs : option mounted) (lg : LockedLogger.t) : outcome LockedLogger.t :=
  '(fs, st) ← unwrap vfs PUnwrap;
  '(r, _) ← VFS.read_unstable fs (str "/hello") st;
  contents ← (match r with inr c => Ok c | inl _ => Fault (Panic PUnwrap) end);
  log_message lg (hello_message contents).

(** [process::init]; [align] is [align_of::<HeaderPt2_<P64>>()]. *)
Definition process_init `{Terminal} (align : Z) (vfs : option mounted) (lg : LockedLogger.t) : outcome LockedLogger.t :=
  lg ← hello vfs lg;
  m ← sub64 align 1;
  assert_ (Z.land 18446620929482082386 m =? 0) PAssert ;;
  Ok lg.
End code.
Arguments kernel A F S : clear implicits.

(** The state is [PROCESS_COUNT]. *)
Definition next : M Z Z := fun pc =>
  pc ← add64 pc 1;
  pid ← sub64 pc 1;
  Ok (pid, pc).

(** ** [map_elf] of process/elf.rs: the loop over the segments does nothing, and nothing calls
    it yet. [ptr] is where the contents of the file lie. *)
Module Elf.
Definition map_elf {F Segment} `{PhysFrame F} (ptr : Z) (program_iter : list Segment) : outcome unit :=
  user_start ← phys_new ptr;
  foldO (fun _ _ => Ok tt) tt program_iter.

(** It takes the virtual address of a buffer on the heap for a physical address, which is none:
    [PhysAddr::new] panics. *)
Lemma map_elf_panics {F Segment} `{PhysFrameLaws F} ptr (segments : list Segment) :
  Heap.START <= ptr -> exists p, map_elf ptr segments = Fault (Panic p).
Proof.
  intros Hp. destruct (phys_new_high (F := F) ptr) as [p E]; [unfold FRAMES, Heap.START in *; change PAGE_SIZE with 4096; lia|].
  exists p. unfold map_elf. by rewrite E.
Qed.
End Elf.

(** ** The code of a driver crate *)
Section run_driver.
Context {F : Type} `{PhysFrame F} (src : list Z).
Implicit Types (mem : Memory.t F).

(** The messages the code itself logs are in ASCII, whatever buffers it gets. *)
Fixpoint logs_plain {B} (code : driver_code B) : Prop :=
  match code with
  | Return _ => True
  | AllocDma _ k => forall vaddr paddr, logs_plain (k vaddr paddr)
  | DeallocDma _ _ k => logs_plain k
  | LogMessage m k => plain m /\ logs_plain k
  end.

(** The tables and the window onto the physical memory stay where they are. *)
Definition same_window mem mem' : Prop :=
  Memory.PHYSICAL_MEMORY_OFFSET mem' = Memory.PHYSICAL_MEMORY_OFFSET mem /\
  Memory.KERNEL_P4_TABLE mem' = Memory.KERNEL_P4_TABLE mem.

Lemma with_frame_window {B} (m : M (FrameAllocator.t F) B) mem b mem' :
  Memory.with_frame m mem = Ok (b, mem') -> same_window mem mem'.
Proof.
  unfold Memory.with_frame. destruct (unwrap _ _); [|done]. omon. destruct (m _) as [[b' fa]|]; [|done]. omon. by intros [= <- <-].
Qed.

Lemma alloc_dma_window size mem r mem' : Provider.alloc_dma size mem = Ok (r, mem') -> same_window mem mem'.
Proof.
  unfold Provider.alloc_dma, Provider.virtio_dma_alloc, Memory.to_virt_addr, lift, mbind, M_bind.
  destruct (Provider.pages_of size); [|done]. omon. destruct (Memory.alloc_range _ mem) as [[f mem1]|] eqn:E; [|done].
  apply with_frame_window in E. destruct (unwrap f _); [|done]. omon. destruct (phys_new _); [|done]. omon.
  destruct (add64 _ _); [|done]. omon. destruct (virt_new _); [|done]. omon. by intros [= <- <-].
Qed.

Lemma dealloc_from_window ids : forall frame mem u mem', Provider.dealloc_from frame ids mem = Ok (u, mem') -> same_window mem mem'.
Proof.
  induction ids as [|i ids IH]; intros frame mem u mem'; [by intros [= <- <-]|]. cbn [Provider.dealloc_from].
  unfold lift, mbind, M_bind. destruct (frame_add _ _); [|done]. omon.
  destruct (Memory.dealloc _ mem) as [[? mem1]|] eqn:E; [|done]. apply with_frame_window in E as [E1 E2]. omon.
  intros [E3 E4]%IH. split; congruence.
Qed.

Lemma dealloc_dma_window vaddr size mem u mem' : Provider.dealloc_dma vaddr size mem = Ok (u, mem') -> same_window mem mem'.
Proof.
  unfold Provider.dealloc_dma, Provider.virtio_dma_dealloc, Memory.to_phys_addr, lift, mbind, M_bind.
  destruct (sub64 _ _); [|done]. omon. destruct (phys_new _); [|done]. omon. destruct (Provider.pages_of _); [|done]. omon.
  destruct (containing_address _); [|done]. omon. apply dealloc_from_window.
Qed.

Lemma run_driver_ok {B} (code : driver_code B) : forall mem b ms mem', run_driver src code mem = Ok (b, ms, mem') ->
  same_window mem mem' /\ (Forall ascii src -> logs_plain code -> Forall plain ms).
Proof.
  assert (Hrs : Forall ascii src -> Forall ascii (provider_rs src)).
  { intros Hs. apply Forall_app_2; [done|]. by apply (bool_decide_unpack _). }
  induction code as [b|size k IH|vaddr size k IH|m k IH]; intros mem b' ms mem'; cbn [run_driver logs_plain].
  - intros [= <- <- <-]. done.
  - destruct (Provider.pages_of size) as [pages|]; [|done]. omon. destruct (Provider.alloc_dma size mem) as [[[v p] mem1]|] eqn:E; [|done]. omon.
    apply alloc_dma_window in E as [E1 E2]. destruct (run_driver _ _ mem1) as [[[? ms1] mem2]|] eqn:Er; [|done]. omon. intros [= <- <- <-].
    apply IH in Er as [[E3 E4] Hp]. split; [split; congruence|]. intros Hs Hk. apply Forall_cons_2; [|auto]. split; [|by apply Hrs].
    repeat apply text_app; try apply decimal_text; try apply lower_hex_text; by apply (bool_decide_unpack _).
  - destruct (Memory.to_phys_addr vaddr mem) as [[p ?]|]; [|done]. omon. destruct (Provider.pages_of size) as [pages|]; [|done]. omon.
    destruct (Provider.dealloc_dma vaddr size mem) as [[? mem1]|] eqn:E; [|done]. omon.
    apply dealloc_dma_window in E as [E1 E2]. destruct (run_driver _ _ mem1) as [[[? ms1] mem2]|] eqn:Er; [|done]. omon. intros [= <- <- <-].
    apply IH in Er as [[E3 E4] Hp]. split; [split; congruence|]. intros Hs Hk. apply Forall_cons_2; [|auto]. split; [|by apply Hrs].
    repeat apply text_app; try apply decimal_text; try apply lower_hex_text; by apply (bool_decide_unpack _).
  - destruct (run_driver _ k mem) as [[[? ms1] mem2]|] eqn:Er; [|done]. omon. intros [= <- <- <-].
    apply IH in Er as [Hw Hp]. split; [done|]. intros Hs [Hm Hk]. apply Forall_cons_2; auto.
Qed.

Lemma found_plain {Location} (dev : PCIDevice (Location := Location)) addr : Forall ascii src -> text (debug dev) -> plain (found_message src dev addr).
Proof.
  intros Hs Hd. split; [|apply Forall_app_2; [done|]; by apply (bool_decide_unpack _)].
  repeat apply text_app; try done; try apply lower_hex_text; by apply (bool_decide_unpack _).
Qed.
End run_driver.

(** ** What the kernel finds on the disk *)
Section proofs.
Context {A Guid F : Type} `{HD : BlockDevice A} `{HBL : !BlockDeviceLaws A} `{HE : EqDecision Guid} `{HS : !Storage A Guid}
  `{HPF : PhysFrame F}.
Context (src : list Z).

Lemma read_blocks_ok (driver : AHCIDriver.t A) m w k data : dev_rep driver m w -> Z.of_nat k <= m -> forall i, 0 <= i ->
  i + Z.of_nat k <= m ->
  foldO (fun gpt_data i => buf ← AHCIDriver.read_block driver i (replicate 512 0); Ok (gpt_data ++ buf)) data (seqZ i (Z.of_nat k)) =
    Ok (data ++ mjoin (w <$> seqZ i (Z.of_nat k))).
Proof.
  intros Hw _. revert data. induction k as [|k IH]; intros data i Hi Hm.
  { cbn. by rewrite app_nil_r. }
  rewrite seqZ_cons by lia. replace (Z.pred (Z.of_nat (S k))) with (Z.of_nat k) by lia. cbn [foldO fmap list_fmap mjoin list_join].
  assert (E : AHCIDriver.read_block driver i (replicate 512 0) = Ok (w i)) by (apply (dev_read driver m w i (replicate 512 0) Hw); [lia|done]).
  rewrite E. omon. rewrite IH by lia. by rewrite app_assoc.
Qed.

Lemma read_gpt_ok (driver : AHCIDriver.t A) m w : dev_rep driver m w -> 2048 <= m ->
  read_gpt driver = Ok (mjoin (w <$> seqZ 0 2048)).
Proof. intros Hw Hm. apply (read_blocks_ok driver m w 2048 []); [done|lia|lia|lia]. Qed.

(** The first partition of CAFS is the first entry with its type. *)
Lemma find_partitions_first uuid pre (e : GptEntry.t Guid) post : guid_from_str PARTITION_UUID = Some uuid ->
  Forall (fun p => GptEntry.partition_type_guid p <> uuid) pre -> GptEntry.partition_type_guid e = uuid ->
  exists ps p, find_partitions (pre ++ e :: post) = Ok (p :: ps) /\ Partition.starting_lba p = GptEntry.starting_lba e.
Proof.
  intros Hu Hpre He. unfold find_partitions. set (f := fun _ _ => _).
  assert (Hf : forall ps p, f ps p = Ok (if decide (GptEntry.partition_type_guid p = uuid) then
    ps ++ [Partition.mk (GptEntry.starting_lba p) (GptEntry.ending_lba p) (GptEntry.name p) (GptEntry.partition_type_guid p)] else ps)).
  { intros ps p. unfold f. by rewrite Hu. }
  clearbody f. rewrite foldO_app. assert (E1 : foldO f [] pre = Ok []).
  { induction Hpre as [|p pre Hp _ IH]; [done|]. cbn [foldO]. rewrite Hf, decide_False by done. exact IH. }
  rewrite E1. omon. cbn [foldO]. rewrite Hf, decide_True by done. omon. cbn [app].
  assert (E2 : forall ps p, exists ps', foldO f (p :: ps) post = Ok (p :: ps')).
  { induction post as [|q post IH]; intros ps p; [by exists ps|]. cbn [foldO]. rewrite Hf. omon.
    case_decide; [apply (IH (ps ++ _) p)|apply IH]. }
  destruct (E2 [] (Partition.mk (GptEntry.starting_lba e) (GptEntry.ending_lba e) (GptEntry.name e) (GptEntry.partition_type_guid e)))
    as [ps ->]. by eexists _, _.
Qed.

#[local] Existing Instance blk.
#[local] Instance blk_laws : BlockDeviceLaws (Blk.t (AHCIDriver.t A)) := Blk.laws (HD := AHCIDriver.device) (HL := AHCIDriver.laws).

(** An image of the image builder on the first partition of CAFS is mounted. *)
Lemma init_sata_ok {W} (s : W) n log size file img (memory memory' : Memory.t F) irq bar_addr bar_len vaddr (ahci : A) ms m w pre (e : GptEntry.t Guid) post uuid :
  23 <= size <= 1000000000 -> Forall u8 file -> zlen file <= L4_MAX -> 2 + need 0 (zlen file) <= data_count (img_fs size) ->
  Img.create_img size (Some file) = Ok img -> Memory.to_virt_addr bar_addr memory = Ok (vaddr, memory) ->
  run_driver src (ahci_new vaddr bar_len) memory = Ok (Some ahci, ms, memory') -> dev_rep ahci m w -> 2048 <= m <= U64 ->
  gpt_entries (mjoin (w <$> seqZ 0 2048)) = Some (pre ++ e :: post) -> guid_from_str PARTITION_UUID = Some uuid ->
  Forall (fun p => GptEntry.partition_type_guid p <> uuid) pre -> GptEntry.partition_type_guid e = uuid ->
  0 <= GptEntry.starting_lba e -> GptEntry.starting_lba e + 2048 * size <= m ->
  (forall b, 0 <= b < 2048 * size -> img !! Z.to_nat b = Some (w (b + GptEntry.starting_lba e))) ->
  exists fs st st1 st2, init_sata src 2 irq bar_addr bar_len (Kernel (St s n log) None memory) =
      Ok (tt, Kernel (St s n (log ++ ms)) (Some (fs, st)) memory') /\
    VFS.read_unstable fs (str "/hello") st = Ok (inr file, st1) /\
    VFS.read_unstable fs (str "/test.txt") st = Ok (inr (str "Test File"), st2).
Proof.
  intros Hs Hu Hm Hsp Hcreate Hva Hnew Hrep Hm2 Hgpt Huuid Hpre He Hoff Hend Himg.
  destruct (create_img_disk size file Hs Hu Hm Hsp) as (d & v & own & E & (Ht & Hlen & Hrd) & Hd).
  rewrite Hcreate in E. injection E as ->. destruct (img_geometry size file Hs) as (geo & _).
  set (driver := AHCIDriver.mk false ahci). assert (Hdrv : dev_rep driver m w) by done.
  set (off := GptEntry.starting_lba e) in *.
  assert (Hdev : dev_rep (Blk.mk off driver) (Image.total size) v).
  { split; [done|]. exists m, w. split; [done|]. split; [unfold Image.total; cbn; lia|]. split; [lia|]. intros b Hb. cbn.
    destruct (Hrd b Hb) as [Hv _]. rewrite Himg in Hv by exact Hb. by injection Hv. }
  destruct (vfs_new_ok (Image.total size) (img_fs size) (Blk.mk off driver) v _ own [1; 2] 0 geo Hdev Hd (img_flat file)) as (st & Enew & Hok & Hidle).
  destruct (img_find file) as [F1' F2'].
  assert (Hread : forall name i c, find_name (img_files file) [1; 2] name = Some i -> SLASH ∉ name -> img_files file !! i = Some c ->
    exists st', VFS.read_unstable (img_fs size) (root_path name) st = Ok (inr (f_data c), st')).
  { intros name i c Hf Hn Hi. destruct (vfs_read_ok _ _ st _ _ _ name Hok Hn) as (r & st' & Er & _ & _ & Hres);
      [intros; by apply idle_available|]. rewrite Hf in Hres. destruct Hres as (f & Hf' & ->). exists st'. rewrite Er. congruence. }
  destruct (Hread Img.hello 2 (set_data (new_file File Img.hello) file) F2') as [st1 E1]; [apply (bool_decide_unpack _); by vm_compute|reflexivity|].
  destruct (Hread Img.test_txt 1 F1 F1') as [st2 E2]; [apply (bool_decide_unpack _); by vm_compute|reflexivity|].
  exists (img_fs size), st, st1, st2. split; [|split; [exact E1|exact E2]].
  unfold init_sata. cbn [Startup.memory pci hw MSI_IRQ logged]. rewrite Hva. omon. unfold ahci_init. rewrite Hnew. omon. fold driver. rewrite (read_gpt_ok driver m w) by (done || lia). omon.
  rewrite Hgpt. cbn [unwrap]. omon. destruct (find_partitions_first uuid pre e post Huuid Hpre He) as (ps & p & -> & Hp). omon.
  cbn [lookup list_lookup unwrap]. omon. rewrite Hp. fold off.
  change (VFS.new 2 (Blk.mk off driver)) with (VFS.new (S (S 0)) (Blk.mk off driver)). rewrite Enew. done.
Qed.

(** C13: from the image builder to the running kernel. An AHCI disk whose partition table lists, as
    the first partition with the type of CAFS, the blocks written by [create_img], is
    mounted by [init_sata], and reading /hello and /test.txt through the kernel's file
    system gives exactly the files the image was built from. *)
Theorem kernel_mounts_image {W} (s : W) n log size file img (memory memory' : Memory.t F) irq bar_addr bar_len vaddr (ahci : A) ms m w pre (e : GptEntry.t Guid) post uuid :
  23 <= size <= 1000000000 -> Forall u8 file -> zlen file <= L4_MAX -> 2 + need 0 (zlen file) <= data_count (img_fs size) ->
  Img.create_img size (Some file) = Ok img -> Memory.to_virt_addr bar_addr memory = Ok (vaddr, memory) ->
  run_driver src (ahci_new vaddr bar_len) memory = Ok (Some ahci, ms, memory') -> dev_rep ahci m w -> 2048 <= m <= U64 ->
  gpt_entries (mjoin (w <$> seqZ 0 2048)) = Some (pre ++ e :: post) -> guid_from_str PARTITION_UUID = Some uuid ->
  Forall (fun p => GptEntry.partition_type_guid p <> uuid) pre -> GptEntry.partition_type_guid e = uuid ->
  0 <= GptEntry.starting_lba e -> GptEntry.starting_lba e + 2048 * size <= m ->
  (forall b, 0 <= b < 2048 * size -> img !! Z.to_nat b = Some (w (b + GptEntry.starting_lba e))) ->
  exists fs st st1 st2, init_sata src 2 irq bar_addr bar_len (Kernel (St s n log) None memory) =
      Ok (tt, Kernel (St s n (log ++ ms)) (Some (fs, st)) memory') /\
    VFS.read_unstable fs (str "/hello") st = Ok (inr file, st1) /\
    VFS.read_unstable fs (str "/test.txt") st = Ok (inr (str "Test File"), st2).
Proof. apply init_sata_ok. Qed.
End proofs.

#[local] Existing Instance blk.
(** [process::init] never returns: without a mounted file system, without /hello, or when the
    file system or the logger fails, it ends in a fault, and when it has read the file and logged
    its length, the assertion on a fixed address fails, because the header of an ELF file is
    aligned to 8 bytes. *)
Theorem process_init_fails `{HT : Terminal} {A : Type} `{HD : BlockDevice A} (src : list Z)
    (vfs : option (CAFS.t * VFS.state (CacheManager.t (Blk.t (AHCIDriver.t A))))) (lg : LockedLogger.t) :
  (exists f, process_init src 8 vfs lg = Fault f) /\
  forall lg', hello src vfs lg = Ok lg' -> process_init src 8 vfs lg = Fault (Panic PAssert).
Proof.
  unfold process_init. destruct (hello src vfs lg) as [lg1|f]; omon; (split; [by eexists|done]).
Qed.

#[local] Existing Instance tiny.
Lemma process_init_fails_witness : exists f, process_init (A := Disk.t) [] 8 None (LockedLogger.mk false (Logger.mk 1 1 Bgr 1 4 (RGB.mk 0 0 0) [] 0 0 [])) = Fault f.
Proof. apply (process_init_fails (A := Disk.t) [] None). Defined.

(** A disk given by its blocks. *)
Lemma disk_of_blocks (l : list (list Z)) : Forall block_ok l ->
  Disk.rep (Disk.mk (zlen l) l) (zlen l) (fun b => default zero_block (l !! Z.to_nat b)).
Proof.
  intros Hl. split; [done|]. split; [done|]. intros b Hb. cbn.
  destruct (lookup_lt_is_Some_2 l (Z.to_nat b)) as [x Hx]; [lia|]. rewrite Hx. split; [done|]. by eapply Forall_lookup_1.
Qed.

(** The image at block 2048 of a disk, in a partition of type 7, behind a controller that
    needs two buffers of a page and announces itself. *)
Definition example_storage (img : list (list Z)) : Storage Disk.t Z := {|
  ahci_new header _ :=
    AllocDma 4096 (fun _ _ => AllocDma 4096 (fun _ _ =>
      LogMessage (Message Debug (str "AHCI at 0x" ++ lower_hex header) (str "ahci.rs") 1)
        (Return (Some (Disk.mk (zlen (replicate 2048 zero_block ++ img)) (replicate 2048 zero_block ++ img))))));
  gpt_entries _ := Some [GptEntry.mk 3 34 2047 []; GptEntry.mk 7 2048 200000 []];
  guid_from_str _ := Some 7
|}.

(** The memory before and after the controller is initialised. *)
Definition example_frames (start pages : Z) : Memory.t Z :=
  Memory.mk (Some (FrameAllocator.mk [MemoryRange.mk start pages])) 0xffff900000000000 0.

(** The image of a file "hi" on that disk. *)
Lemma example_image : exists img, Img.create_img 50 (Some [104; 105]) = Ok img /\
  let l := replicate 2048 zero_block ++ img in
  Forall block_ok l /\ zlen l = 2048 + 2048 * 50 /\
  forall b, 0 <= b < 2048 * 50 -> img !! Z.to_nat b = Some (default zero_block (l !! Z.to_nat (b + 2048))).
Proof.
  destruct (create_img_disk 50 [104; 105]) as (d & v & own & E & (Ht & Hlen & Hrd) & _); [zeval..|].
  set (img := Disk.data d) in *. exists img. split; [exact E|]. cbn zeta. split; [|split].
  - apply Forall_app_2; [apply Forall_replicate, zero_block_ok|]. apply Forall_lookup_2. intros i x Hx.
    pose proof (lookup_lt_Some _ _ _ Hx). destruct (Hrd (Z.of_nat i)) as [Hv Hok]; [lia|].
    rewrite Nat2Z.id, Hx in Hv. by injection Hv as ->.
  - rewrite length_app, length_replicate. unfold Image.total in Hlen. lia.
  - intros b Hb. rewrite lookup_app_r by (rewrite length_replicate; lia).
    rewrite length_replicate. replace (Z.to_nat (b + 2048) - 2048)%nat with (Z.to_nat b) by lia.
    destruct (Hrd b) as [Hv _]; [unfold Image.total; lia|]. by rewrite Hv.
Qed.

Lemma kernel_mounts_image_witness : exists img fs st ms, Img.create_img 50 (Some [104; 105]) = Ok img /\
  @init_sata _ _ _ _ _ (example_storage img) Z_frame (str "kernel/src") unit 2 (Some 24) 0x1000 0x1000 (Kernel (St tt 24 []) None (example_frames 256 256)) =
    Ok (tt, Kernel (St tt 24 ms) (Some (fs, st)) (example_frames 258 254)).
Proof.
  destruct example_image as (img & E & Hl & Hlen' & Himg). set (l := replicate 2048 zero_block ++ img) in *.
  destruct (@kernel_mounts_image Disk.t Z Z _ _ _ (example_storage img) Z_frame (str "kernel/src") unit tt 24 [] 50 [104; 105] img
    (example_frames 256 256) (example_frames 258 254) (Some 24) 0x1000 0x1000 0xffff900000001000 (Disk.mk (zlen l) l)
    [Message Trace (str "alloc DMA: paddr=0x100000, pages=1") (str "kernel/src/drivers/provider.rs") 29;
     Message Trace (str "alloc DMA: paddr=0x101000, pages=1") (str "kernel/src/drivers/provider.rs") 29;
     Message Debug (str "AHCI at 0xffff900000001000") (str "ahci.rs") 1]
    (zlen l) (fun b => default zero_block (l !! Z.to_nat b))
    [GptEntry.mk 3 34 2047 []] (GptEntry.mk 7 2048 200000 []) [] 7) as (fs & st & _ & _ & Ei & _).
  - lia.
  - zeval.
  - zeval.
  - zeval.
  - exact E.
  - reflexivity.
  - reflexivity.
  - apply disk_of_blocks. exact Hl.
  - rewrite Hlen'. unfold U64. lia.
  - reflexivity.
  - reflexivity.
  - repeat constructor. discriminate.
  - reflexivity.
  - cbn. lia.
  - rewrite Hlen'. cbn. lia.
  - exact Himg.
  - exists img, fs, st. eexists. split; [exact E|exact Ei].
Defined.
