(* ===== verification/Timers.v ===== *)
(** Timers: kernel/src/arch/x64/device/pit.rs and timer.rs.

    The main program and the interrupt handlers share the counters and the lock of the
    local APIC. A run is a sequence of events: a step of the main program, a timer
    interrupt, a tick of the APIC timer. A handler runs to its end, unless it has to
    wait for a lock that the interrupted program holds: then nothing happens any more.
    The compiler is taken to read the counters on every turn of a waiting loop. *)
From S2P Require Import Prelude Machine.
From Stdlib Require Import ZArith Lia.
From stdpp Require Import gmap functions sorting list_numbers list.
Local Open Scope Z_scope.

(** ** The programmable interval timer *)
Module Pit.

Definition PERIOD_FS : Z := 838095110.
Definition CHAN0_DIVISOR : Z := 1193.
Definition RATE : Z := CHAN0_DIVISOR * PERIOD_FS / 1000000.

Definition CHAN0 : Z := 0x40.
Definition CONTROL : Z := 0x43.
Definition MODE_2 : Z := Z.shiftl 2 1.
Definition ACCESS_LATCH : Z := Z.shiftl 0 4.
Definition ACCESS_LOHI : Z := Z.shiftl 3 4.
Definition SELECT_CHAN0 : Z := Z.shiftl 0 6.

(** The writes of [init] to the ports, in order. *)
Definition init : list (Z * Z) :=
  [(CONTROL, Z.lor (Z.lor SELECT_CHAN0 ACCESS_LOHI) MODE_2);
   (CHAN0, CHAN0_DIVISOR mod 2 ^ 8);
   (CHAN0, Z.shiftr CHAN0_DIVISOR 8 mod 2 ^ 8)].

(** [read], with the two bytes that come back from the port. *)
Definition read (low high : Z) : Z :=
  let counter := Z.lor (Z.shiftl high 8 mod 2 ^ 16) low in
  Z.max 0 (CHAN0_DIVISOR - counter).
End Pit.

(** ** [sleep] *)
Module Sleep.

(** The loop of [sleep]: the counter of the timer and the end of the waiting period; the
    counter when the loop ended; an overflow of the counter in the interrupt handler. *)
Inductive t := Running (COUNT end_ : Z) | Returned (COUNT : Z) | Faulted.
Inductive event := Check | Tick.

(** [COUNT + (10 * sec) as usize]; the product is an [i32]. *)
Definition start (COUNT sec : Z) : outcome t :=
  d ← i32 (10 * sec);
  end_ ← add64 COUNT (d mod U64);
  Ok (Running COUNT end_).

(** [increment] *)
Definition increment (COUNT : Z) : outcome Z := add64 COUNT 1.

Definition step (s : t) (e : event) : t :=
  match s, e with
  | Running c end_, Check => if c <? end_ then Running c end_ else Returned c
  | Running c end_, Tick => match increment c with Ok c => Running c end_ | Fault _ => Faulted end
  | s, _ => s
  end.
End Sleep.

(** ** Progress under fair scheduling *)
Section fair.
Context {St Ev : Type} (step : St -> Ev -> St).

(** The state after the first [n] events of a schedule. *)
Fixpoint run (sched : nat -> Ev) (s : St) (n : nat) : St :=
  match n with O => s | S n => step (run sched s n) (sched n) end.

(** A measure that no event increases, and that some event decreases at every moment:
    if this event keeps coming, the measure reaches its end. *)
Lemma fair_progress (sched : nat -> Ev) s0 (I : St -> Prop) (done : St -> Prop) (mu : St -> nat) (useful : St -> Ev) :
  (forall e n, exists m, (n <= m)%nat /\ sched m = e) ->
  (forall n, I (run sched s0 n)) ->
  (forall s, I s -> done s \/ ~ done s) ->
  (forall s e, I s -> ~ done s -> I (step s e) -> (mu (step s e) < mu s)%nat \/
    (e <> useful s /\ mu (step s e) = mu s /\ useful (step s e) = useful s /\ ~ done (step s e)) \/ done (step s e)) ->
  exists n, done (run sched s0 n).
Proof.
  intros Hfair HI Hdec Hstep.
  enough (H : forall k n, (mu (run sched s0 n) <= k)%nat -> exists m, done (run sched s0 m)) by (eapply (H _ 0%nat); reflexivity).
  induction k as [k IH] using lt_wf_ind. intros n Hn.
  destruct (Hfair (useful (run sched s0 n)) n) as (m & Hm & Em).
  assert (Hd : exists d, m = (n + d)%nat) by (exists (m - n)%nat; lia). destruct Hd as [d ->].
  revert n Hn Hm Em. induction d as [|d IHd]; intros n Hn Hm Em.
  - rewrite Nat.add_0_r in Em. destruct (Hdec (run sched s0 n) (HI n)) as [Hd|Hnd]; [eauto|].
    destruct (Hstep (run sched s0 n) (sched n) (HI n) Hnd (HI (S n))) as [Hlt|[(Hne & _)|Hdone]].
    + eapply (IH (mu (run sched s0 (S n))) ltac:(cbn [run]; lia) (S n)). reflexivity.
    + by destruct Hne.
    + by exists (S n).
  - destruct (Hdec (run sched s0 n) (HI n)) as [Hd|Hnd]; [eauto|].
    destruct (Hstep (run sched s0 n) (sched n) (HI n) Hnd (HI (S n))) as [Hlt|[(_ & Hmu & Hus & _)|Hdone]].
    + eapply (IH (mu (run sched s0 (S n))) ltac:(cbn [run]; lia) (S n)). reflexivity.
    + apply (IHd (S n)); [cbn [run]; lia|lia|]. rewrite <- plus_n_Sm in Em. cbn [run]. rewrite Hus. exact Em.
    + by exists (S n).
Qed.
End fair.

(** ** [sleep] waits, and returns *)
Section sleep.
Context (sched : nat -> Sleep.event) (COUNT sec : Z).
Abbreviation state n := (run Sleep.step sched (Sleep.Running COUNT (COUNT + 10 * sec)) n).

(** The ticks among the first [n] events. *)
Fixpoint ticks (n : nat) : Z :=
  match n with O => 0 | S n => match sched n with Sleep.Tick => ticks n + 1 | Sleep.Check => ticks n end end.

Definition sleep_inv (n : nat) (s : Sleep.t) : Prop :=
  match s with
  | Sleep.Running c end_ => end_ = COUNT + 10 * sec /\ c = COUNT + ticks n /\ c < U64
  | Sleep.Returned c => COUNT + 10 * sec <= c <= COUNT + ticks n
  | Sleep.Faulted => U64 <= COUNT + ticks n
  end.

Lemma sleep_inv_run n : 0 <= COUNT < U64 -> sleep_inv n (state n).
Proof.
  intros HC. induction n as [|n IH]; [cbn; lia|]. cbn [run]. unfold sleep_inv in *. cbn [ticks].
  destruct (state n) as [c e|c|] eqn:E; destruct (sched n); cbn [Sleep.step]; try lia.
  - destruct IH as (-> & -> & H). destruct (Z.ltb_spec (COUNT + ticks n) (COUNT + 10 * sec)); lia.
  - unfold Sleep.increment, add64. destruct (Z.ltb_spec (c + 1) U64); lia.
Qed.
End sleep.

Definition sleeping (s : Sleep.t) : bool := match s with Sleep.Running _ _ => true | _ => false end.

(** The loop waits for ticks, then for its own turn. *)
Definition sleep_useful (s : Sleep.t) : Sleep.event :=
  match s with Sleep.Running c e => if c <? e then Sleep.Tick else Sleep.Check | _ => Sleep.Check end.
Definition sleep_measure (s : Sleep.t) : nat :=
  match s with Sleep.Running c e => S (Z.to_nat (e - c)) | _ => 0%nat end.

Lemma sleep_ends sched s0 : (forall e n, exists m, (n <= m)%nat /\ sched m = e) ->
  exists n, sleeping (run Sleep.step sched s0 n) = false.
Proof.
  intros Hf. eapply (fair_progress Sleep.step sched s0 (fun _ => True) (fun s => sleeping s = false) sleep_measure sleep_useful); try done.
  - intros s _. destruct (sleeping s); auto.
  - intros s e _ Hs _. destruct s as [c en|c|]; try done. clear Hs. destruct e; cbn [Sleep.step].
    + cbn [sleep_useful]. destruct (Z.ltb_spec c en) as [H|H]; [right; left|right; right; done]. cbn [sleep_useful]. rewrite (proj2 (Z.ltb_lt _ _) H). done.
    + unfold Sleep.increment, add64. destruct (c + 1 <? U64); [|right; right; done]. cbn [sleep_useful sleep_measure sleeping].
      destruct (Z.ltb_spec c en) as [H|H]; [left; lia|].
      destruct (Z.ltb_spec (c + 1) en); [lia|]. right; left. split_and!; try done. lia.
Qed.

(** C19: [sleep] is live. For every schedule in which the program and the timer interrupt
    both keep coming, a [sleep] of [sec] seconds ends: it returns, and not before ten
    ticks per second have been counted, or so many ticks came before the program's turn
    that the 64-bit counter overflowed in the interrupt handler. *)
Theorem sleep_returns (sched : nat -> Sleep.event) (COUNT sec : Z) :
  (forall e n, exists m, (n <= m)%nat /\ sched m = e) ->
  0 <= COUNT -> 0 <= sec -> 10 * sec < 2 ^ 31 -> COUNT + 10 * sec < U64 ->
  exists s n, Sleep.start COUNT sec = Ok s /\
    ((exists c, run Sleep.step sched s n = Sleep.Returned c /\
        COUNT + 10 * sec <= c <= COUNT + ticks sched n) \/
     (run Sleep.step sched s n = Sleep.Faulted /\ U64 - COUNT <= ticks sched n)).
Proof.
  intros Hf HC Hs Hi HU. exists (Sleep.Running COUNT (COUNT + 10 * sec)).
  destruct (sleep_ends sched (Sleep.Running COUNT (COUNT + 10 * sec)) Hf) as [n Hn]. exists n.
  pose proof (sleep_inv_run sched COUNT sec n ltac:(lia)) as HI. split.
  - unfold Sleep.start. rewrite i32_ok by lia. omon.
    rewrite Z.mod_small, add64_ok by lia. done.
  - destruct (run _ _ _ n) as [c e|c|]; [done| |]; cbn in HI; [left; exists c; split; [done|lia]|right; split; [done|lia]].
Qed.

Definition alternating (n : nat) : Sleep.event := if Nat.even n then Sleep.Tick else Sleep.Check.

Lemma sleep_returns_witness :
  exists s n, Sleep.start 5 2 = Ok s /\
    ((exists c, run Sleep.step alternating s n = Sleep.Returned c /\ 5 + 10 * 2 <= c <= 5 + ticks alternating n) \/
     (run Sleep.step alternating s n = Sleep.Faulted /\ U64 - 5 <= ticks alternating n)).
Proof.
  apply (sleep_returns alternating 5 2); try (by vm_compute).
  intros e n. unfold alternating. destruct e.
  - exists (S (2 * n)). split; [lia|]. rewrite Nat.even_succ, <- Nat.negb_even, Nat.even_even. done.
  - exists (2 * n)%nat. split; [lia|]. rewrite Nat.even_even. done.
Defined.

(** A negative number of seconds becomes a number of ticks near 2^64. *)
Lemma sleep_negative COUNT sec : -(2 ^ 31) <= 10 * sec < 0 -> - (10 * sec) <= COUNT < U64 ->
  Sleep.start COUNT sec = Fault (Panic POverflow).
Proof.
  intros Hs HC. unfold Sleep.start. rewrite i32_ok by lia. omon. unfold add64.
  rewrite <- (Z_mod_plus_full (10 * sec) 1 U64), Z.mod_small by (unfold U64 in *; lia).
  rewrite (proj2 (Z.ltb_ge _ _)) by lia. done.
Qed.

(** ** [timer::init] with its interrupts *)
Module Init.

(** The place in [init] with the values of its variables. *)
Inductive pc :=
  | Start | Enable (pit_start : Z)
  | Wait1 (pit_start : Z) | Lock1 (pit_start : Z) | Read1 (pit_start : Z) | Unlock1 (pit_start lapic_start : Z)
  | Wait2 (pit_start lapic_start : Z) | Lock2 (lapic_start : Z) | Read2 (lapic_start : Z) | Unlock2 (lapic_start lapic_end : Z)
  | Disable (lapic_start lapic_end : Z) | Count (lapic_start lapic_end : Z)
  | Lock3 (divisor : Z) | Set3 (divisor : Z) | Unlock3 | Done.

(** The interrupts that have a handler and are enabled. *)
Inductive irq := PIT | Timer | Keyboard.
Inductive event := Main | Irq (v : irq) | Clock.

Record t := mk {
  at_ : pc;
  COUNT : Z;             (* of pit.rs *)
  timer_COUNT : Z;       (* of timer.rs *)
  locked : bool;         (* the lock of LAPIC *)
  timer_current : Z;     (* the register of the local APIC, counting down *)
  periodic : option Z;   (* the initial count once the timer is periodic *)
  interrupts : bool;
  masked : bool;         (* the interrupt of the PIT at the IO APIC *)
  acknowledged : Z       (* the calls of [end_of_interrupt] *)
}.

Inductive status := Live (s : t) | Deadlock | Faulted.

Definition goto (p : pc) (s : t) : t := mk p (COUNT s) (timer_COUNT s) (locked s) (timer_current s) (periodic s) (interrupts s) (masked s) (acknowledged s).
Definition set_lock (b : bool) (s : t) : t := mk (at_ s) (COUNT s) (timer_COUNT s) b (timer_current s) (periodic s) (interrupts s) (masked s) (acknowledged s).
Definition set_counts (c tc : Z) (s : t) : t := mk (at_ s) c tc (locked s) (timer_current s) (periodic s) (interrupts s) (masked s) (acknowledged s).
Definition enable (s : t) : t := mk (at_ s) (COUNT s) (timer_COUNT s) (locked s) (timer_current s) (periodic s) true (masked s) (acknowledged s).
(** [pit::disable] *)
Definition disable (s : t) : t := mk (at_ s) (COUNT s) (timer_COUNT s) (locked s) (timer_current s) (periodic s) (interrupts s) true (acknowledged s).
(** The calls of [set_apic_timer] between taking and releasing the lock. *)
Definition set_apic_timer (divisor : Z) (s : t) : t := mk (at_ s) (COUNT s) (timer_COUNT s) (locked s) divisor (Some divisor) (interrupts s) (masked s) (acknowledged s).
Definition end_of_interrupt (s : t) : t := mk (at_ s) (COUNT s) (timer_COUNT s) (locked s) (timer_current s) (periodic s) (interrupts s) (masked s) (acknowledged s + 1).

(** [eoi], in a handler: the interrupted program cannot release the lock. *)
Definition eoi (s : t) : status := if locked s then Deadlock else Live (end_of_interrupt s).

Definition live (r : outcome t) (k : t -> status) : status := match r with Ok s => k s | Fault _ => Faulted end.

Definition pit_handler (s : t) : status :=
  live (c ← add64 (COUNT s) 1; Ok (set_counts c (timer_COUNT s) s)) eoi.
Definition timer_interrupt_handler (s : t) : status :=
  live (c ← add64 (timer_COUNT s) 1; Ok (set_counts (COUNT s) c s)) eoi.
(** The scan code that the handler reads from the port is dropped. *)
Definition keyboard_interrupt_handler (s : t) : status := eoi s.

Definition handler (v : irq) : t -> status :=
  match v with PIT => pit_handler | Timer => timer_interrupt_handler | Keyboard => keyboard_interrupt_handler end.

(** Whether the processor takes the interrupt. *)
Definition delivered (v : irq) (s : t) : bool :=
  interrupts s && match v with PIT => negb (masked s) | _ => true end.

(** [LAPIC.as_ref().unwrap().lock()] *)
Definition lock (next : pc) (s : t) : status := Live (if locked s then s else set_lock true (goto next s)).

Definition main (s : t) : status :=
  match at_ s with
  | Start => Live (goto (Enable (COUNT s)) s)
  | Enable ps => Live (enable (goto (Wait1 ps) s))
  | Wait1 ps => live (e ← add64 ps 2; Ok (if COUNT s <? e then s else goto (Lock1 ps) s)) Live
  | Lock1 ps => lock (Read1 ps) s
  | Read1 ps => Live (goto (Unlock1 ps (timer_current s)) s)
  | Unlock1 ps ls => Live (set_lock false (goto (Wait2 ps ls) s))
  | Wait2 ps ls => live (e ← add64 ps 102; Ok (if COUNT s <? e then s else goto (Lock2 ls) s)) Live
  | Lock2 ls => lock (Read2 ls) s
  | Read2 ls => Live (goto (Unlock2 ls (timer_current s)) s)
  | Unlock2 ls le => Live (set_lock false (goto (Disable ls le) s))
  | Disable ls le => Live (disable (goto (Count ls le) s))
  | Count ls le => live (d ← sub64 ls le; Ok (goto (Lock3 d) s)) Live
  | Lock3 d => lock (Set3 d) s
  | Set3 d => Live (set_apic_timer d (goto Unlock3 s))
  | Unlock3 => Live (set_lock false (goto Done s))
  | Done => Live s
  end.

(** The timer of the local APIC counts down to zero; a periodic one starts again. *)
Definition clock (s : t) : t :=
  let c := timer_current s in
  let c' := if c =? 0 then match periodic s with Some d => d | None => 0 end else c - 1 in
  mk (at_ s) (COUNT s) (timer_COUNT s) (locked s) c' (periodic s) (interrupts s) (masked s) (acknowledged s).

Definition step (st : status) (e : event) : status :=
  match st with
  | Live s => match e with
              | Main => main s
              | Irq v => if delivered v s then handler v s else st
              | Clock => Live (clock s)
              end
  | _ => st
  end.

Definition initial (c tc current : Z) : t := mk Start c tc false current None false false 0.
End Init.

Section init.
Import Init.
Context (c0 v0 : Z).

(** What holds at each place of [init]: who holds the lock, which interrupts can come,
    how far the counters are. *)
Definition holds (p : pc) : bool :=
  match p with Read1 _ | Unlock1 _ _ | Read2 _ | Unlock2 _ _ | Set3 _ | Unlock3 => true | _ => false end.
Definition started (p : pc) : bool := match p with Start | Enable _ => false | _ => true end.
Definition disabled (p : pc) : bool := match p with Count _ _ | Lock3 _ | Set3 _ | Unlock3 | Done => true | _ => false end.
Definition place (s : t) : Prop :=
  match at_ s with
  | Start => COUNT s = c0 /\ periodic s = None
  | Enable ps => COUNT s = c0 /\ ps = c0 /\ periodic s = None
  | Wait1 ps => c0 <= COUNT s /\ ps = c0 /\ periodic s = None
  | Lock1 ps | Read1 ps => c0 + 2 <= COUNT s /\ ps = c0 /\ periodic s = None
  | Unlock1 ps ls | Wait2 ps ls => c0 + 2 <= COUNT s /\ ps = c0 /\ periodic s = None /\ timer_current s <= ls <= v0
  | Lock2 ls | Read2 ls => c0 + 102 <= COUNT s /\ periodic s = None /\ timer_current s <= ls <= v0
  | Unlock2 ls le | Disable ls le | Count ls le => c0 + 102 <= COUNT s /\ periodic s = None /\ 0 <= le <= ls /\ ls <= v0
  | Lock3 d | Set3 d => c0 + 102 <= COUNT s /\ periodic s = None /\ 0 <= d <= v0
  | Unlock3 | Done => c0 + 102 <= COUNT s /\ exists d, periodic s = Some d /\ 0 <= d <= v0 /\ 0 <= timer_current s <= d
  end.
Record init_inv (s : t) : Prop := InitInv {
  inv_locked : locked s = holds (at_ s);
  inv_interrupts : interrupts s = started (at_ s);
  inv_masked : masked s = disabled (at_ s);
  inv_current : 0 <= timer_current s <= v0;
  inv_place : place s }.
Definition status_inv (st : status) : Prop := match st with Live s => init_inv s | _ => True end.

Lemma handler_inv v s : init_inv s -> delivered v s = true -> status_inv (handler v s).
Proof.
  intros [Hl Hi Hm Hc Hp] Hd. unfold delivered in Hd. rewrite Hi, Hm in Hd. unfold place in Hp.
  destruct v; unfold handler, pit_handler, timer_interrupt_handler, keyboard_interrupt_handler, eoi, add64; [destruct (_ <? U64); [|done]..|]; cbn; destruct (locked s) eqn:El; try done;
    cbn; constructor; cbn; rewrite ?El; try done; unfold place; cbn -[Z.add]; destruct (at_ s); cbn in Hd; try done; cbn -[Z.add] in *; intuition lia.
Qed.

Lemma clock_inv s : init_inv s -> init_inv (clock s).
Proof.
  intros [Hl Hi Hm Hc Hp]. unfold place in Hp. unfold clock. constructor; cbn; try done; unfold place; cbn -[Z.add Z.sub Z.eqb];
    destruct (Z.eqb_spec (timer_current s) 0); destruct (at_ s); cbn -[Z.add Z.sub] in *;
    repeat match goal with H : _ /\ _ |- _ => destruct H | H : exists _, _ |- _ => destruct H
      | H : periodic s = _ |- _ => rewrite H end; try lia; repeat split; try done; try lia; eexists; split; try done; lia.
Qed.

Lemma main_inv s : c0 + 102 < U64 -> init_inv s -> exists s', main s = Live s' /\ init_inv s'.
Proof.
  intros HU [Hl Hi Hm Hc Hp]. unfold place in Hp. unfold main, lock, live, sub64.
  destruct (at_ s) eqn:Ea; cbn [holds started disabled] in *; rewrite ?Hl;
    repeat match goal with H : _ /\ _ |- _ => destruct H end; subst;
    try (rewrite add64_ok by lia); try (rewrite (proj2 (Z.leb_le _ _)) by lia); omon;
    try (destruct (Z.ltb_spec (COUNT s) (c0 + 2))); try (destruct (Z.ltb_spec (COUNT s) (c0 + 102)));
    (eexists; split; [reflexivity|]); constructor; cbn; rewrite ?Ea; cbn; try done; try lia; unfold place; cbn -[Z.add Z.sub]; rewrite ?Ea;
    repeat split; try done; try lia; eauto with lia.
Qed.

Lemma step_inv e st : c0 + 102 < U64 -> status_inv st -> status_inv (step st e).
Proof.
  intros HU. destruct st as [s| |]; [|done..]. cbn. intros HI. destruct e as [|v|].
  - destruct (main_inv s HU HI) as (s' & -> & H'). done.
  - destruct (delivered v s) eqn:Ed; [by apply handler_inv|done].
  - by apply clock_inv.
Qed.

(** The steps of [init] that are left, and the ticks it still waits for. *)
Definition rank (p : pc) : nat :=
  match p with
  | Start => 15 | Enable _ => 14 | Wait1 _ => 13 | Lock1 _ => 12 | Read1 _ => 11 | Unlock1 _ _ => 10 | Wait2 _ _ => 9
  | Lock2 _ => 8 | Read2 _ => 7 | Unlock2 _ _ => 6 | Disable _ _ => 5 | Count _ _ => 4 | Lock3 _ => 3 | Set3 _ => 2 | Unlock3 => 1 | Done => 0
  end.
Definition init_measure (st : status) : nat :=
  match st with Live s => rank (at_ s) + Z.to_nat (c0 + 102 - COUNT s) | _ => 0%nat end.
Definition init_useful (st : status) : event :=
  match st with
  | Live s => match at_ s with
              | Wait1 _ => if COUNT s <? c0 + 2 then Irq PIT else Main
              | Wait2 _ _ => if COUNT s <? c0 + 102 then Irq PIT else Main
              | _ => Main
              end
  | _ => Main
  end.
Definition ended (st : status) : bool := match st with Live s => match at_ s with Done => true | _ => false end | _ => true end.

Lemma main_progress s : c0 + 102 < U64 -> init_inv s -> ended (Live s) = false ->
  (init_useful (Live s) = Main /\ (init_measure (main s) < init_measure (Live s))%nat) \/ (init_useful (Live s) = Irq PIT /\ main s = Live s).
Proof.
  intros HU [Hl Hi Hm Hc Hp] He. unfold place in Hp. unfold main, lock, live, sub64, init_useful.
  destruct (at_ s) eqn:Ea; cbn [holds] in *; cbn in He; rewrite ?Ea in He; try done; rewrite ?Hl;
    repeat match goal with H : _ /\ _ |- _ => destruct H end; subst;
    try (rewrite add64_ok by lia); try (rewrite (proj2 (Z.leb_le _ _)) by lia); omon;
    try (destruct (Z.ltb_spec (COUNT s) (c0 + 2))); try (destruct (Z.ltb_spec (COUNT s) (c0 + 102)));
    try (right; done); left; (split; [done|]); cbn -[Z.add Z.sub]; rewrite ?Ea; cbn -[Z.add Z.sub]; lia.
Qed.

(** An interrupt handler does not move the interrupted program. *)
Lemma handler_progress v s s' : handler v s = Live s' ->
  at_ s' = at_ s /\ COUNT s' = (match v with PIT => COUNT s + 1 | _ => COUNT s end) /\ locked s = false.
Proof.
  unfold handler, pit_handler, timer_interrupt_handler, keyboard_interrupt_handler, live, eoi, add64. intros H. destruct v.
  - destruct (_ <? U64); [|done]. cbn in H. destruct (locked s); [done|]. by injection H as <-.
  - destruct (_ <? U64); [|done]. cbn in H. destruct (locked s); [done|]. by injection H as <-.
  - destruct (locked s); [done|]. by injection H as <-.
Qed.

Lemma init_progress st e : c0 + 102 < U64 -> status_inv st -> ended st <> true ->
  (init_measure (step st e) < init_measure st)%nat \/
  (e <> init_useful st /\ init_measure (step st e) = init_measure st /\ init_useful (step st e) = init_useful st /\ ended (step st e) <> true) \/
  ended (step st e) = true.
Proof.
  intros HU HI He. destruct st as [s| |]; [|done..]. apply not_true_iff_false in He. cbn in HI. destruct e as [|v|]; cbn [step].
  - destruct (main_progress s HU HI He) as [[_ H]|[Hu ->]]; [auto|]. right; left. rewrite Hu, He. done.
  - destruct (delivered v s) eqn:Ed.
    + destruct (handler v s) as [s'| |] eqn:Eh; [|auto..]. destruct (handler_progress v s s' Eh) as (Ha & Hc & _).
      destruct HI as [_ _ _ _ Hp]. cbn [init_measure init_useful ended] in *. rewrite Ha, Hc in *. unfold place in Hp.
      destruct v; [|right; left; (split_and!; [by repeat case_match|done|done|by rewrite He])..].
      destruct (Z.ltb_spec (COUNT s) (c0 + 102)); [left; lia|]. right; left.
      rewrite !(proj2 (Z.ltb_ge (COUNT s) _)), !(proj2 (Z.ltb_ge (COUNT s + 1) _)) by lia.
      split_and!; [by case_match|lia|done|by rewrite He].
    + right; left. split_and!; try done; [|by rewrite He]. destruct HI as [_ Hi Hm _ _].
      unfold delivered in Ed. rewrite Hi, Hm in Ed. cbn. destruct (at_ s); try done; cbn in Ed; by destruct v, (COUNT s <? _).
  - right; left. cbn. unfold clock; cbn. split_and!; try done; [by repeat case_match|by cbn in He; rewrite He].
Qed.
End init.

Section schedules.
Import Init.
Context (sched : nat -> event) (s0 : status).
Abbreviation state n := (run step sched s0 n).

(** How a run comes to a bad end. *)
Lemma handler_deadlock v s : handler v s = Deadlock -> locked s = true.
Proof.
  unfold handler, pit_handler, timer_interrupt_handler, keyboard_interrupt_handler, eoi, live, add64.
  destruct v; [destruct (_ <? U64)..|]; cbn; by destruct (locked s).
Qed.
Lemma handler_faulted v s : handler v s = Faulted ->
  (v = PIT /\ U64 <= COUNT s + 1) \/ (v = Timer /\ U64 <= timer_COUNT s + 1).
Proof.
  unfold handler, pit_handler, timer_interrupt_handler, keyboard_interrupt_handler, eoi, live, add64.
  destruct v; [destruct (Z.ltb_spec (COUNT s + 1) U64)|destruct (Z.ltb_spec (timer_COUNT s + 1) U64)|]; cbn; destruct (locked s); auto; done.
Qed.

Lemma main_deadlock s : main s <> Deadlock.
Proof. unfold main, lock, live. destruct (at_ s); try done; by destruct (_ ≫= _). Qed.

Lemma run_deadlock n : s0 <> Deadlock -> state n = Deadlock ->
  exists m v s, (m < n)%nat /\ state m = Live s /\ sched m = Irq v /\ delivered v s = true /\ locked s = true.
Proof.
  intros H0. induction n as [|n IH]; [done|]. cbn [run]. intros H.
  destruct (state n) as [s| |] eqn:E; [|destruct (IH eq_refl) as (m & v & s & ? & ?); exists m, v, s; split; [lia|done]|done].
  exists n. cbn in H. destruct (sched n) as [|v|]; [by apply main_deadlock in H| |done].
  exists v, s. destruct (delivered v s) eqn:Ed; [|done]. split_and!; try done; [lia|]. by eapply handler_deadlock.
Qed.

Lemma run_faulted c0 v0 n : c0 + 102 < U64 -> (forall m, status_inv c0 v0 (state m)) -> s0 <> Faulted -> state n = Faulted ->
  exists m s, (m < n)%nat /\ state m = Live s /\
    ((sched m = Irq PIT /\ U64 <= COUNT s + 1) \/ (sched m = Irq Timer /\ U64 <= timer_COUNT s + 1)).
Proof.
  intros HU HI H0. induction n as [|n IH]; [done|]. cbn [run]. intros H. specialize (HI n).
  destruct (state n) as [s| |] eqn:E; [|done|destruct (IH eq_refl) as (m & s & ? & ?); exists m, s; split; [lia|done]].
  exists n, s. split_and!; [lia|done|]. cbn in H. destruct (sched n) as [|v|]; [|destruct (delivered v s); [|done]|done].
  - destruct (main_inv c0 v0 s HU HI) as (s' & Hs' & _). by rewrite Hs' in H.
  - destruct (handler_faulted v s H) as [[-> ?]|[-> ?]]; auto.
Qed.
End schedules.

(** ** What [init] has measured *)

(** The ticks of the APIC timer among the first [n] events. *)
Fixpoint clocks (sched : nat -> Init.event) (n : nat) : Z :=
  match n with O => 0 | S n => match sched n with Init.Clock => clocks sched n + 1 | _ => clocks sched n end end.

Lemma clocks_mono sched n m : (n <= m)%nat -> clocks sched n <= clocks sched m.
Proof. induction 1 as [|m _ IH]; [lia|]. cbn [clocks]. destruct (sched m); lia. Qed.

Section history.
Import Init.
Context (sched : nat -> event) (c tc current : Z).
Abbreviation state n := (run step sched (Live (initial c tc current)) n).

(** Step [n] of the run is the first (the second) reading of the timer; it gives [v], what
    the ticks so far have left of the count; so many interrupts of the PIT came before. *)
Definition reading1 (n : nat) (v : Z) : Prop :=
  exists s ps, state n = Live s /\ sched n = Main /\ at_ s = Read1 ps /\ timer_current s = v /\
    v = Z.max 0 (current - clocks sched n) /\ c + 2 <= COUNT s.
Definition reading2 (n : nat) (v : Z) : Prop :=
  exists s ls, state n = Live s /\ sched n = Main /\ at_ s = Read2 ls /\ timer_current s = v /\
    v = Z.max 0 (current - clocks sched n) /\ c + 102 <= COUNT s.
(** [d] is the difference of the readings made before step [n]. *)
Definition measured (n : nat) (d : Z) : Prop :=
  exists m1 m2 ls le, (m1 < m2 < n)%nat /\ reading1 m1 ls /\ reading2 m2 le /\ d = ls - le.

Definition past (n : nat) (st : status) : Prop :=
  match st with
  | Live s =>
    (periodic s = None -> timer_current s = Z.max 0 (current - clocks sched n)) /\
    match at_ s with
    | Unlock1 _ ls | Wait2 _ ls | Lock2 ls | Read2 ls => exists m, (m < n)%nat /\ reading1 m ls
    | Unlock2 ls le | Disable ls le | Count ls le => measured n (ls - le)
    | Lock3 d | Set3 d => measured n d
    | Unlock3 | Done => exists d, periodic s = Some d /\ measured n d
    | _ => True
    end
  | _ => True
  end.

Lemma measured_S n d : measured n d -> measured (S n) d.
Proof. intros (m1 & m2 & ls & le & ? & ?). exists m1, m2, ls, le. split; [lia|done]. Qed.
Lemma earlier_S n ls : (exists m, (m < n)%nat /\ reading1 m ls) -> exists m, (m < S n)%nat /\ reading1 m ls.
Proof. intros (m & ? & ?). exists m. split; [lia|done]. Qed.
#[local] Hint Resolve measured_S earlier_S : core.

(** What does not move the program keeps its history. *)
Lemma past_same n s s' : at_ s' = at_ s -> periodic s' = periodic s ->
  (periodic s = None -> timer_current s' = Z.max 0 (current - clocks sched (S n))) ->
  past n (Live s) -> past (S n) (Live s').
Proof.
  intros Ha Hp Ht [_ Hx]. split; [rewrite Hp; exact Ht|]. rewrite Ha, Hp. destruct (at_ s); auto.
  all: destruct Hx as (d & ? & ?); eauto.
Qed.

Lemma handler_keeps v s s' : handler v s = Live s' ->
  at_ s' = at_ s /\ periodic s' = periodic s /\ timer_current s' = timer_current s.
Proof.
  unfold handler, pit_handler, timer_interrupt_handler, keyboard_interrupt_handler, live, eoi, add64. intros H. destruct v.
  - destruct (_ <? U64); [|done]. cbn in H. destruct (locked s); [done|]. by injection H as <-.
  - destruct (_ <? U64); [|done]. cbn in H. destruct (locked s); [done|]. by injection H as <-.
  - destruct (locked s); [done|]. by injection H as <-.
Qed.

(** The steps of the program: the readings are remembered. *)
Lemma past_main n s : c + 102 < U64 -> state n = Live s -> sched n = Main -> init_inv c current s ->
  past n (Live s) -> past (S n) (main s).
Proof.
  intros HU Es Em [Hl _ _ _ Hp] Hpast. pose proof Hpast as [Ht Hx]. unfold place in Hp.
  assert (Hck : clocks sched (S n) = clocks sched n) by (cbn [clocks]; by rewrite Em).
  assert (Hsame : past (S n) (Live s)) by (apply (past_same n s s); [done|done|by rewrite Hck|done]).
  unfold main, lock, live, sub64. destruct (at_ s) eqn:Ea; rewrite ?Hl; cbn [holds] in *;
    repeat match goal with H : _ /\ _ |- _ => destruct H end; subst;
    try (rewrite add64_ok by lia); try (rewrite (proj2 (Z.leb_le _ _)) by lia); omon;
    try match goal with |- context [?a <? ?b] => destruct (Z.ltb_spec a b) end;
    try exact Hsame; (split; [cbn [periodic timer_current goto set_lock enable disable set_apic_timer]; rewrite ?Hck; try done|]);
    cbn [at_ goto set_lock enable disable set_apic_timer]; auto.
  - exists n. split; [lia|]. exists s, c. split_and!; auto; lia.
  - destruct Hx as (m & Hm & Hr). exists m, n. eexists _, _. split; [lia|]. split; [exact Hr|]. split; [|reflexivity].
    eexists s, _. split_and!; eauto.
  - eexists. split; [reflexivity|]. auto.
  - destruct Hx as (d & ? & ?). eauto.
Qed.

Lemma past_clock n s : sched n = Clock -> init_inv c current s -> past n (Live s) -> past (S n) (Live (clock s)).
Proof.
  intros Em [_ _ _ Hc _] Hpast. pose proof Hpast as [Ht _]. apply (past_same n s); [done|done| |done].
  intros Hn. unfold clock. cbn [timer_current]. rewrite Hn. cbn [clocks]. rewrite Em. specialize (Ht Hn).
  destruct (Z.eqb_spec (timer_current s) 0); lia.
Qed.

Lemma history n : c + 102 < U64 -> 0 <= c -> 0 <= current -> status_inv c current (state n) /\ past n (state n).
Proof.
  intros HU Hc Hcur. induction n as [|n [HI IH]].
  { split; [constructor; cbn; try done; lia|]. split; [|done]. intros _. cbn. lia. }
  split; [by apply step_inv|]. cbn [run]. destruct (state n) as [s| |] eqn:Es; [|done..]. cbn [step].
  destruct (sched n) as [|v|] eqn:Em.
  - by apply past_main.
  - assert (Hck : clocks sched (S n) = clocks sched n) by (cbn [clocks]; by rewrite Em). destruct IH as [Ht Hx].
    destruct (delivered v s); [|by apply (past_same n s s); [done|done|by rewrite Hck|]].
    destruct (handler v s) as [s'| |] eqn:Eh; [|done..]. destruct (handler_keeps v s s' Eh) as (Ha & Hp & Hcu).
    by apply (past_same n s s'); [done|done|rewrite Hck, Hcu|].
  - by apply past_clock.
Qed.

(** The timer when [init] has ended. *)
Definition calibrated (n : nat) (s : t) (d : Z) : Prop :=
  at_ s = Done /\ periodic s = Some d /\ measured n d /\ 0 <= d <= current /\ c + 102 <= COUNT s /\
  masked s = true /\ locked s = false.

Lemma init_done n s : c + 102 < U64 -> 0 <= c -> 0 <= current -> state n = Live s -> at_ s = Done ->
  exists d, calibrated n s d.
Proof.
  intros HU Hc Hcur Es Ea. destruct (history n HU Hc Hcur) as [HI Hx]. rewrite Es in HI, Hx.
  destruct HI as [Hl _ Hm _ Hp]. destruct Hx as [_ Hx]. unfold place in Hp. rewrite Ea in Hp, Hx.
  destruct Hp as (HC & d & Hd & ? & _), Hx as (d' & Hd' & Hx). rewrite Hd in Hd'. injection Hd' as <-.
  exists d. unfold calibrated. by rewrite Ea, Hm, Hl, Hd, Ea.
Qed.
End history.

(** No interrupt disturbs the calibration: while [init] runs, none comes when it holds the
    lock, and the counters are far from their bounds. *)
Definition calm (sched : nat -> Init.event) (c tc current : Z) : Prop :=
  forall n s v, run Init.step sched (Init.Live (Init.initial c tc current)) n = Init.Live s -> Init.at_ s <> Init.Done ->
    sched n = Init.Irq v -> Init.delivered v s = true ->
    Init.locked s = false /\ Init.COUNT s + 1 < U64 /\ Init.timer_COUNT s + 1 < U64.

Lemma calm_handler v s : Init.locked s = false -> Init.COUNT s + 1 < U64 -> Init.timer_COUNT s + 1 < U64 ->
  exists s', Init.handler v s = Init.Live s'.
Proof.
  intros Hl Hc Ht. destruct v; unfold Init.handler, Init.pit_handler, Init.timer_interrupt_handler, Init.keyboard_interrupt_handler;
    rewrite ?add64_ok by lia; omon; unfold Init.live, Init.eoi; cbn [Init.locked Init.set_counts]; rewrite Hl; by eexists.
Qed.

Lemma calm_live sched c tc current n : c + 102 < U64 -> 0 <= c -> 0 <= current -> calm sched c tc current ->
  let state n := run Init.step sched (Init.Live (Init.initial c tc current)) n in
  (exists s, state n = Init.Live s) \/ exists k s, state k = Init.Live s /\ Init.at_ s = Init.Done.
Proof.
  intros HU Hc Hcur Hcalm state. induction n as [|n [[s Es]|]]; [by left; eexists| |by right].
  assert (HI : status_inv c current (state n)) by (apply history; lia). rewrite Es in HI.
  destruct (Init.at_ s) eqn:Ea; try (right; by exists n, s); left.
  all: change (state (S n)) with (Init.step (state n) (sched n)); rewrite Es; destruct (sched n) as [|v|] eqn:Em; cbn [Init.step].
  all: try (eexists; reflexivity).
  all: try (destruct (main_inv c current s HU HI) as (s' & Hs' & _); by exists s').
  all: destruct (Init.delivered v s) eqn:Ed; [|by eexists];
    destruct (Hcalm n s v Es) as (? & ? & ?); [by rewrite Ea|done|done|]; by apply calm_handler.
Qed.

Lemma calm_calibrates sched c tc current : (forall e n, exists m, (n <= m)%nat /\ sched m = e) ->
  0 <= c -> c + 102 < U64 -> 0 <= current -> calm sched c tc current ->
  exists n s d, run Init.step sched (Init.Live (Init.initial c tc current)) n = Init.Live s /\ calibrated sched c tc current n s d.
Proof.
  intros Hf Hc HU Hcur Hcalm. set (state n := run Init.step sched (Init.Live (Init.initial c tc current)) n).
  assert (HI : forall n, status_inv c current (state n)) by (intros n; apply history; lia).
  destruct (fair_progress Init.step sched (Init.Live (Init.initial c tc current)) (status_inv c current) (fun st => ended st = true)
    (init_measure c) (init_useful c) Hf HI) as [n Hn].
  { intros st _. destruct (ended st); auto. }
  { intros st e HIs He _. by eapply init_progress. }
  assert (Hd : exists k s, state k = Init.Live s /\ Init.at_ s = Init.Done).
  { destruct (calm_live sched c tc current n HU Hc Hcur Hcalm) as [[s Es]|]; [|done]. exists n, s. split; [done|].
    unfold state in Hn. rewrite Es in Hn. cbn in Hn. by destruct (Init.at_ s). }
  destruct Hd as (k & s & Es & Ea). destruct (init_done sched c tc current k s HU Hc Hcur Es Ea) as [d Hd]. by exists k, s, d.
Qed.

(** A finite run is the beginning of an endless one. *)
Lemma run_foldl {St Ev} (step : St -> Ev -> St) (d : Ev) (l : list Ev) s :
  run step (fun i => nth i l d) s (length l) = foldl step s l.
Proof.
  induction l as [|e l IH] using rev_ind; [done|]. rewrite length_app, Nat.add_comm. cbn [length Nat.add run].
  rewrite foldl_app. cbn [foldl]. rewrite app_nth2, Nat.sub_diag by lia. cbn [nth]. rewrite <- IH. f_equal.
  enough (H : forall n, (n <= length l)%nat -> run step (fun i => nth i (l ++ [e]) d) s n = run step (fun i => nth i l d) s n)
    by (by apply H).
  induction n as [|n IHn]; [done|]. intros Hn. cbn [run]. rewrite IHn, app_nth1 by lia. done.
Qed.

(** C18: [timer::init] calibrates the timer of the local APIC. For every schedule in which
    the program, the ticks of the timers and the interrupts keep coming, [init] ends in one
    of three ways. It has made the timer periodic, with the period it measured: the
    difference of the two readings it made of the count-down register, the first when at
    least 2 interrupts of the PIT had come since its start, the second when at least 102
    had; each reading is the initial count less the timer's ticks before it, so that the
    period is the number of ticks between the readings as long as the register does not
    run out; it has masked the PIT and released the lock. Or an interrupt came while [init]
    held the lock of the local APIC (the only way to a deadlock). Or a 64-bit counter
    overflowed in an interrupt handler. The subtraction of the readings never overflows. *)
Theorem timer_init (sched : nat -> Init.event) (c tc current : Z) :
  (forall e n, exists m, (n <= m)%nat /\ sched m = e) ->
  0 <= c -> c + 102 < U64 -> 0 <= current < 2 ^ 32 ->
  let state n := run Init.step sched (Init.Live (Init.initial c tc current)) n in
  exists n,
    (exists s d, state n = Init.Live s /\ Init.at_ s = Init.Done /\ Init.periodic s = Some d /\ 0 <= d <= current /\
       (exists m1 m2 s1 s2 ps ls, (m1 < m2 < n)%nat /\
          state m1 = Init.Live s1 /\ sched m1 = Init.Main /\ Init.at_ s1 = Init.Read1 ps /\ c + 2 <= Init.COUNT s1 /\
          Init.timer_current s1 = Z.max 0 (current - clocks sched m1) /\
          state m2 = Init.Live s2 /\ sched m2 = Init.Main /\ Init.at_ s2 = Init.Read2 ls /\ c + 102 <= Init.COUNT s2 /\
          Init.timer_current s2 = Z.max 0 (current - clocks sched m2) /\
          d = Init.timer_current s1 - Init.timer_current s2 /\
          (clocks sched m2 <= current -> d = clocks sched m2 - clocks sched m1)) /\
       c + 102 <= Init.COUNT s /\ Init.masked s = true /\ Init.locked s = false) \/
    (state n = Init.Deadlock /\ exists m v s, (m < n)%nat /\ state m = Init.Live s /\ sched m = Init.Irq v /\
       Init.delivered v s = true /\ Init.locked s = true) \/
    (state n = Init.Faulted /\ exists m s, (m < n)%nat /\ state m = Init.Live s /\
       ((sched m = Init.Irq Init.PIT /\ U64 <= Init.COUNT s + 1) \/ (sched m = Init.Irq Init.Timer /\ U64 <= Init.timer_COUNT s + 1))).
Proof.
  intros Hf Hc HU Hcur state.
  assert (HI : forall n, status_inv c current (state n)) by (intros n; apply history; lia).
  destruct (fair_progress Init.step sched (Init.Live (Init.initial c tc current)) (status_inv c current) (fun st => ended st = true)
    (init_measure c) (init_useful c) Hf HI) as [n Hn].
  { intros st _. destruct (ended st); auto. }
  { intros st e HIs He _. by eapply init_progress. }
  exists n. change (run _ _ _ n) with (state n) in Hn. destruct (state n) as [s| |] eqn:E; cbn in Hn.
  - left. destruct (Init.at_ s) eqn:Ea; try done.
    destruct (init_done sched c tc current n s) as (d & _ & Hd & (m1 & m2 & v1 & v2 & Hm & R1 & R2 & Ed) & Hb & HC & Hk & Hl); [lia..|exact E|exact Ea|].
    destruct R1 as (s1 & ps & ? & ? & ? & Ev1 & V1 & ?), R2 as (s2 & ls & ? & ? & ? & Ev2 & V2 & ?).
    exists s, d. split_and!; try done; [lia..|]. exists m1, m2, s1, s2, ps, ls. split_and!; try done; try congruence; try lia.
    pose proof (clocks_mono sched m1 m2 ltac:(lia)). lia.
  - right; left. split; [done|]. by apply run_deadlock.
  - right; right. split; [done|]. by eapply run_faulted.
Qed.

(** A schedule that calibrates, and then repeats all events. *)
Definition quiet : list Init.event :=
  [Init.Main; Init.Main; Init.Irq Init.PIT; Init.Irq Init.PIT; Init.Main; Init.Main; Init.Main; Init.Main]
  ++ replicate 100 (Init.Irq Init.PIT) ++ replicate 7 Init.Clock ++ replicate 9 Init.Main.
Definition all_events : list Init.event :=
  [Init.Main; Init.Clock; Init.Irq Init.PIT; Init.Irq Init.Timer; Init.Irq Init.Keyboard].
Definition quiet_schedule (n : nat) : Init.event :=
  if (n <? length quiet)%nat then nth n quiet Init.Main else nth (n mod 5) all_events Init.Main.

Lemma quiet_fair e n : exists m, (n <= m)%nat /\ quiet_schedule m = e.
Proof.
  assert (Hk : exists k, (k < 5)%nat /\ nth k all_events Init.Main = e).
  { destruct e as [|[]|]; [exists 0%nat|exists 2%nat|exists 3%nat|exists 4%nat|exists 1%nat]; (split; [lia|done]). }
  destruct Hk as (k & Hk & <-). exists (k + (n + 100) * 5)%nat. split; [lia|]. unfold quiet_schedule.
  change (length quiet) with 124%nat. rewrite (proj2 (Nat.ltb_ge _ _)) by lia.
  by rewrite Nat.Div0.mod_add, Nat.mod_small by lia.
Qed.

Lemma timer_init_witness :
  let state n := run Init.step quiet_schedule (Init.Live (Init.initial 3 0 1000)) n in
  exists n,
    (exists s d m1 m2, state n = Init.Live s /\ Init.at_ s = Init.Done /\ Init.periodic s = Some d /\ (m1 < m2 < n)%nat /\
       (clocks quiet_schedule m2 <= 1000 -> d = clocks quiet_schedule m2 - clocks quiet_schedule m1)) \/
    state n = Init.Deadlock \/ state n = Init.Faulted.
Proof.
  destruct (timer_init quiet_schedule 3 0 1000 quiet_fair) as
    (n & [(s & d & E & Ea & Ep & _ & (m1 & m2 & _ & _ & _ & _ & Hm & _ & _ & _ & _ & _ & _ & _ & _ & _ & _ & _ & Hd) & _)|[[E _]|[E _]]]);
    [by vm_compute..|split; by vm_compute| | |]; exists n.
  - left. exists s, d, m1, m2. split_and!; [exact E|exact Ea|exact Ep|lia|lia|exact Hd].
  - right; left. exact E.
  - right; right. exact E.
Defined.

(** On this schedule the period is the seven ticks between the two readings. *)
Example quiet_calibrates : exists s, run Init.step quiet_schedule (Init.Live (Init.initial 3 0 1000)) 124 = Init.Live s /\
  Init.at_ s = Init.Done /\ Init.periodic s = Some 7.
Proof. eexists. split; [vm_compute; reflexivity|]. done. Qed.

(** Nothing disturbs it. *)
Lemma done_stays s e s' : Init.at_ s = Init.Done -> Init.step (Init.Live s) e = Init.Live s' -> Init.at_ s' = Init.Done.
Proof.
  intros Ha. destruct e as [|v|]; cbn [Init.step].
  - unfold Init.main. rewrite Ha. by intros [= <-].
  - destruct (Init.delivered v s); [|by intros [= <-]]. intros E. destruct (handler_keeps v s s' E) as [-> _]. done.
  - by intros [= <-].
Qed.

(** The same for a given run, by computation. *)
Definition calmly (st : Init.status) (e : Init.event) : bool :=
  match st, e with
  | Init.Live s, Init.Irq v =>
      negb (Init.delivered v s) || (negb (Init.locked s) && (Init.COUNT s + 1 <? U64) && (Init.timer_COUNT s + 1 <? U64))
  | _, _ => true
  end.
Fixpoint calm_run (st : Init.status) (events : list Init.event) : bool :=
  match events with
  | [] => match st with Init.Live s => match Init.at_ s with Init.Done => true | _ => false end | _ => false end
  | e :: events => calmly st e && calm_run (Init.step st e) events
  end.

Lemma run_shift {St Ev} (step : St -> Ev -> St) sched s n : run step sched s (S n) = run step (fun i => sched (S i)) (step s (sched 0%nat)) n.
Proof. induction n as [|n IH]; [done|]. change (run step sched s (S (S n))) with (step (run step sched s (S n)) (sched (S n))). by rewrite IH. Qed.

Lemma calm_run_ok events : forall sched st, calm_run st events = true -> (forall i, (i < length events)%nat -> sched i = nth i events Init.Main) ->
  forall n s v, run Init.step sched st n = Init.Live s -> Init.at_ s <> Init.Done -> sched n = Init.Irq v -> Init.delivered v s = true ->
  Init.locked s = false /\ Init.COUNT s + 1 < U64 /\ Init.timer_COUNT s + 1 < U64.
Proof.
  induction events as [|e events IH]; intros sched st Hr Hs n s v En Ha Ev Hd.
  - exfalso. apply Ha. cbn in Hr. destruct st as [s0| |]; [|done..].
    assert (Ha0 : Init.at_ s0 = Init.Done) by (by destruct (Init.at_ s0)). clear Ha Hr Ev Hd. revert s En.
    induction n as [|n IHn]; intros s En; [by injection En as <-|]. cbn [run] in En.
    destruct (run Init.step sched (Init.Live s0) n) as [s1| |]; [|done..]. by eapply done_stays; [apply (IHn s1)|].
  - cbn [calm_run] in Hr. apply andb_prop in Hr as [H1 H2]. destruct n as [|n].
    + cbn [run] in En. subst st. pose proof (Hs 0%nat ltac:(cbn; lia)) as Hs0. cbn in Hs0. rewrite Hs0 in Ev. subst e. cbn in H1. rewrite Hd in H1.
      cbn in H1. apply andb_prop in H1 as [[Hl Hc]%andb_prop Ht]. apply Z.ltb_lt in Hc, Ht. by destruct (Init.locked s).
    + rewrite run_shift, (Hs 0%nat) in En by (cbn; lia). eapply (IH (fun i => sched (S i))); [exact H2| |exact En|done|done|done].
      intros i Hi. apply (Hs (S i)). cbn. lia.
Qed.

Lemma quiet_calm : calm quiet_schedule 0 0 (2 ^ 32 - 1).
Proof.
  unfold calm. apply (calm_run_ok quiet); [vm_compute; reflexivity|]. intros i Hi. unfold quiet_schedule.
  by rewrite (proj2 (Nat.ltb_lt _ _)).
Qed.

(** Some steps of a run. *)
Lemma step_pit s : Init.interrupts s = true -> Init.masked s = false -> Init.locked s = false -> Init.COUNT s + 1 < U64 ->
  Init.step (Init.Live s) (Init.Irq Init.PIT) = Init.Live (Init.end_of_interrupt (Init.set_counts (Init.COUNT s + 1) (Init.timer_COUNT s) s)).
Proof.
  intros Hi Hm Hl Hc. cbn [Init.step]. unfold Init.delivered. rewrite Hi, Hm. cbn [negb andb Init.handler]. unfold Init.pit_handler.
  rewrite add64_ok by done. omon. unfold Init.live, Init.eoi. cbn [Init.locked Init.set_counts]. by rewrite Hl.
Qed.
Lemma step_wait1 s ps : Init.at_ s = Init.Wait1 ps -> ps + 2 <= Init.COUNT s -> ps + 2 < U64 ->
  Init.step (Init.Live s) Init.Main = Init.Live (Init.goto (Init.Lock1 ps) s).
Proof.
  intros Ha Hc Hu. cbn [Init.step]. unfold Init.main. rewrite Ha, add64_ok by done. omon. by rewrite (proj2 (Z.ltb_ge _ _)).
Qed.
(** Whatever interrupt comes while the lock is held, its handler waits for ever. *)
Lemma step_held s v : Init.interrupts s = true -> Init.masked s = false -> Init.locked s = true ->
  Init.COUNT s + 1 < U64 -> Init.timer_COUNT s + 1 < U64 ->
  Init.step (Init.Live s) (Init.Irq v) = Init.Deadlock.
Proof.
  intros Hi Hm Hl Hc Ht. cbn [Init.step]. unfold Init.delivered. rewrite Hi, Hm.
  unfold Init.handler, Init.pit_handler, Init.timer_interrupt_handler, Init.keyboard_interrupt_handler.
  destruct v; cbn [negb andb]; rewrite ?add64_ok by done; omon; unfold Init.live, Init.eoi; cbn [Init.locked Init.set_counts]; by rewrite Hl.
Qed.

(** [timer::init] can hang. With the interrupts enabled it takes the lock of the local
    APIC twice to read its counter; whatever the counters are, a timer, PIT or keyboard
    interrupt that comes at one of these moments makes its handler wait in [eoi] for the
    lock for ever, whatever happens afterwards. *)
Theorem timer_init_deadlock (c tc current : Z) (v : Init.irq) (later : list Init.event) :
  0 <= c -> c + 103 < U64 -> 0 <= tc -> tc + 1 < U64 ->
  foldl Init.step (Init.Live (Init.initial c tc current))
    ([Init.Main; Init.Main; Init.Irq Init.PIT; Init.Irq Init.PIT; Init.Main; Init.Main; Init.Irq v] ++ later) = Init.Deadlock.
Proof.
  intros Hc HU Ht HV. rewrite foldl_app. cbn [foldl].
  set (w := fun n k => Init.mk (Init.Wait1 c) n tc false current None true false k).
  change (Init.step (Init.step (Init.Live (Init.initial c tc current)) Init.Main) Init.Main) with (Init.Live (w c 0)).
  rewrite (step_pit (w c 0)) by (done || (cbn [w Init.COUNT]; lia)).
  change (Init.end_of_interrupt _) with (w (c + 1) 1).
  rewrite (step_pit (w (c + 1) 1)) by (done || (cbn [w Init.COUNT]; lia)).
  change (Init.end_of_interrupt _) with (w (c + 1 + 1) 2).
  rewrite (step_wait1 (w (c + 1 + 1) 2) c) by (done || (cbn [w Init.COUNT]; lia)).
  change (Init.step (Init.Live (Init.goto (Init.Lock1 c) (w (c + 1 + 1) 2))) Init.Main)
    with (Init.Live (Init.mk (Init.Read1 c) (c + 1 + 1) tc true current None true false 2)).
  rewrite step_held by (done || (cbn [Init.COUNT Init.timer_COUNT]; lia)).
  by induction later.
Qed.

Lemma timer_init_deadlock_witness :
  foldl Init.step (Init.Live (Init.initial 0 0 9))
    ([Init.Main; Init.Main; Init.Irq Init.PIT; Init.Irq Init.PIT; Init.Main; Init.Main; Init.Irq Init.Keyboard] ++ [Init.Main]) = Init.Deadlock.
Proof. apply (timer_init_deadlock 0 0 9 Init.Keyboard [Init.Main]); by vm_compute. Defined.
