(* ===== verification/Interrupts.v ===== *)
(** Interrupts: kernel/src/arch/x64/interrupt (mod.rs, idt.rs, apic.rs) with the devices
    that are connected to them (device/mod.rs, keyboard.rs, and enable and disable of pit.rs)
    and the segments with the stack of the double fault handler (gdt.rs).

    The descriptor tables of the crate x86_64 and the IO APIC and local APIC of the crate
    x2apic are the parameters [InterruptDescriptorTable], [GlobalDescriptorTable], [IoApic] and [LocalApic]; what
    the code relies on are their laws. *)
From S2P Require Import Prelude Machine Frame KernelMemory Logger Screen Logging Timers.
From Stdlib Require Import ZArith Lia String.
From stdpp Require Import gmap functions sorting list_numbers list.
Local Open Scope Z_scope.

(** ** Vectors *)
Module IrqVector.

Inductive t := Keyboard | PIT | Timer | Error | Spurious.

Definition as_u8 (self : t) : Z :=
  match self with Keyboard => 1 | PIT => 2 | Timer => 16 | Error => 28 | Spurious => 29 end.

Definition IOAPIC_OFFSET : Z := 0x20.

Definition with_offset (self : t) : outcome Z := add8 (as_u8 self) IOAPIC_OFFSET.
End IrqVector.

(** ** The descriptor table *)

(** The types of the handler functions: with or without an error code, returning or not. *)
Inductive signature :=
  HandlerFunc | HandlerFuncWithErrCode | PageFaultHandlerFunc | DivergingHandlerFunc | DivergingHandlerFuncWithErrCode.

(** The fields of [InterruptDescriptorTable] that the kernel sets, with their types. *)
Inductive exception :=
  | divide_error | debug | non_maskable_interrupt | breakpoint | overflow | bound_range_exceeded | invalid_opcode
  | device_not_available | double_fault | invalid_tss | segment_not_present | stack_segment_fault
  | general_protection_fault | page_fault | x87_floating_point | alignment_check | machine_check
  | simd_floating_point | virtualization | vmm_communication_exception | security_exception.

Definition field_type (f : exception) : signature :=
  match f with
  | double_fault => DivergingHandlerFuncWithErrCode
  | machine_check => DivergingHandlerFunc
  | page_fault => PageFaultHandlerFunc
  | invalid_tss | segment_not_present | stack_segment_fault | general_protection_fault | alignment_check
  | vmm_communication_exception | security_exception => HandlerFuncWithErrCode
  | _ => HandlerFunc
  end.

Inductive gate := Exception (f : exception) | Interrupt (v : Z).
Definition gate_type (g : gate) : signature := match g with Exception f => field_type f | Interrupt _ => HandlerFunc end.

#[export] Instance exception_eq_dec : EqDecision exception.
Proof. solve_decision. Defined.
#[export] Instance gate_eq_dec : EqDecision gate.
Proof. solve_decision. Defined.

(** The handlers of the kernel, by their type. *)
Inductive handler : signature -> Set :=
  | divide_error_handler : handler HandlerFunc
  | debug_handler : handler HandlerFunc
  | non_maskable_interrupt_handler : handler HandlerFunc
  | breakpoint_handler : handler HandlerFunc
  | overflow_handler : handler HandlerFunc
  | bound_range_exceeded_handler : handler HandlerFunc
  | invalid_opcode_handler : handler HandlerFunc
  | device_not_available_handler : handler HandlerFunc
  | double_fault_handler : handler DivergingHandlerFuncWithErrCode
  | invalid_tss_handler : handler HandlerFuncWithErrCode
  | segment_not_present_handler : handler HandlerFuncWithErrCode
  | stack_segment_fault_handler : handler HandlerFuncWithErrCode
  | general_protection_fault_handler : handler HandlerFuncWithErrCode
  | page_fault_handler : handler PageFaultHandlerFunc
  | x87_floating_point_handler : handler HandlerFunc
  | alignment_check_handler : handler HandlerFuncWithErrCode
  | machine_check_handler : handler DivergingHandlerFunc
  | simd_floating_point_handler : handler HandlerFunc
  | virtualization_handler : handler HandlerFunc
  | vmm_communication_exception_handler : handler HandlerFuncWithErrCode
  | security_exception_handler : handler HandlerFuncWithErrCode
  | apic_error_handler : handler HandlerFunc
  | spurious_interrupt_handler : handler HandlerFunc
  | timer_interrupt_handler : handler HandlerFunc
  | keyboard_interrupt_handler : handler HandlerFunc
  | pit_handler : handler HandlerFunc.

(** [InterruptDescriptorTable]: a gate takes a handler of its own type only; [index_mut]
    is [idt[..]], which panics on a vector that has a field. *)
Class InterruptDescriptorTable (T : Type) := {
  idt_new : T;
  index_mut : Z -> outcome gate;
  set_handler_fn (g : gate) (h : handler (gate_type g)) : T -> T;
  set_stack_index : gate -> Z -> T -> T;
  handler_of (t : T) (g : gate) : option (handler (gate_type g));
  stack_of : T -> gate -> option Z
}.

Class InterruptDescriptorTableLaws (T : Type) `{InterruptDescriptorTable T} := {
  index_mut_ok v : 32 <= v < 256 -> index_mut v = Ok (Interrupt v);
  handler_of_new g : handler_of idt_new g = None;
  stack_of_new g : stack_of idt_new g = None;
  handler_of_set t g h : handler_of (set_handler_fn g h t) g = Some h;
  handler_of_set_ne t g h g' : g <> g' -> handler_of (set_handler_fn g h t) g' = handler_of t g';
  stack_of_set t g h g' : stack_of (set_handler_fn g h t) g' = stack_of t g';
  handler_of_stack t g i g' : handler_of (set_stack_index g i t) g' = handler_of t g';
  stack_of_stack t g i : 0 <= i < 7 -> stack_of (set_stack_index g i t) g = Some i;
  stack_of_stack_ne t g i g' : g <> g' -> stack_of (set_stack_index g i t) g' = stack_of t g'
}.

(** ** The segments *)

(** [Descriptor]: the kernel's code segment, or the task state segment in [TSS]. *)
Inductive Descriptor := kernel_code_segment | tss_segment.

(** [GlobalDescriptorTable] of x86_64: [add_entry] returns the selector of the new
    descriptor and panics when the table is full; [descriptor_of] is what a selector
    selects. *)
Class GlobalDescriptorTable (G : Type) := {
  gdt_new : G;
  add_entry : Descriptor -> G -> outcome (Z * G);
  descriptor_of : G -> Z -> option Descriptor
}.

(** A new table has room for these two descriptors, and an entry stays where it is. *)
Class GlobalDescriptorTableLaws (G : Type) `{GlobalDescriptorTable G} := {
  slots : G -> Z;
  slots_new : 3 <= slots gdt_new;
  add_entry_ok d g : match d with kernel_code_segment => 1 | tss_segment => 2 end <= slots g ->
    exists sel g', add_entry d g = Ok (sel, g') /\ descriptor_of g' sel = Some d /\
      (forall sel' d', descriptor_of g sel' = Some d' -> descriptor_of g' sel' = Some d') /\
      slots g - match d with kernel_code_segment => 1 | tss_segment => 2 end <= slots g'
}.

Module Gdt.
Definition DOUBLE_FAULT_IST_INDEX : Z := 0.

(** [TaskStateSegment]: its stack table. *)
Record TaskStateSegment := mk_tss { interrupt_stack_table : list Z }.
Definition tss_new : TaskStateSegment := mk_tss (replicate 7 0).

Section code.
Context {G : Type} `{GlobalDescriptorTable G}.

(** The heap, the static variables and the registers. *)
Record state := State {
  heap : Z;
  TSS : option TaskStateSegment;
  GDT : option G;
  gdtr : option G;
  CS : Z;
  SS : Z;
  TR : Z
}.

(** The entry of the interrupt stack table: [Vec::with_capacity(n).leak()] has the length
    of the vector, not its capacity. The state is that of the heap. *)
Definition double_fault_stack : M Z Z :=
  let capacity := 4096 * 5 in
  let len := 0 in
  stack_start ← Heap.alloc (Heap.mk_layout capacity 1);
  lift (add64 stack_start len).

Definition init : M state unit := fun st =>
  let tss := tss_new in
  '(stack_end, heap) ← double_fault_stack (heap st);
  assert_ (DOUBLE_FAULT_IST_INDEX <? zlen (interrupt_stack_table tss)) PIndex ;;
  let tss := mk_tss (<[Z.to_nat DOUBLE_FAULT_IST_INDEX := stack_end]> (interrupt_stack_table tss)) in
  let gdt := gdt_new in
  '(code_selector, gdt) ← add_entry kernel_code_segment gdt;
  '(tss_selector, gdt) ← add_entry tss_segment gdt;
  Ok (tt, State heap (Some tss) (Some gdt) (Some gdt) code_selector 0 tss_selector).

(** The stack pointer the processor loads for a gate with stack index [i]: from the table
    of the task state segment that the task register selects. *)
Definition stack_pointer (st : state) (i : Z) : option Z :=
  gdt ← gdtr st;
  d ← descriptor_of gdt (TR st);
  match d with
  | tss_segment => tss ← TSS st; interrupt_stack_table tss !! Z.to_nat i
  | kernel_code_segment => None
  end.
End code.
Arguments state : clear implicits.

(** [init] returns: the code segment is the kernel's, and the stack table is in force. *)
Lemma gdt_init_ok {G} `{GlobalDescriptorTableLaws G} (st : state G) : 0 <= heap st -> heap st + 20481 < U64 ->
  exists q st', init st = Ok (tt, st') /\ heap st < q <= heap st + 1 /\ heap st' = q + 20480 /\
    stack_pointer st' DOUBLE_FAULT_IST_INDEX = Some q /\
    (gdtr st' ≫= fun g => descriptor_of g (CS st')) = Some kernel_code_segment /\ SS st' = 0.
Proof.
  intros Hh Hb. destruct (Heap.alloc_ok (Heap.mk_layout 20480 1) (heap st)) as (q & Eq & Hq & _); [done|done|cbn; lia|].
  cbn in Hq. pose proof slots_new. destruct (add_entry_ok kernel_code_segment gdt_new) as (cs & g1 & E1 & D1 & _ & R1); [lia|].
  destruct (add_entry_ok tss_segment g1) as (ts & g2 & E2 & D2 & K2 & _); [lia|].
  eexists q, _. split.
  - unfold init, double_fault_stack. change (4096 * 5) with 20480. rewrite (bind_ok _ _ _ _ _ Eq).
    unfold lift. rewrite add64_ok by (cbn; lia). cbn [mbind outcome_bind assert_]. rewrite assert_ok by done. omon.
    rewrite E1. omon. rewrite E2. omon. reflexivity.
  - cbn [heap SS]. split_and!; try done; try lia.
    + unfold stack_pointer. cbn [gdtr TR TSS mbind option_bind]. rewrite D2. cbn. by rewrite Z.add_0_r.
    + cbn [gdtr CS mbind option_bind]. by apply K2.
Qed.
End Gdt.

Module Idt.
Section idt.
Context {T : Type} `{InterruptDescriptorTable T}.

(** [idt[v.with_offset()].set_handler_fn(h)] *)
Definition set_vector (v : IrqVector.t) (h : handler HandlerFunc) (idt : T) : outcome T :=
  i ← IrqVector.with_offset v;
  g ← index_mut i;
  (match g as g return outcome T with
   | Interrupt n => Ok (set_handler_fn (Interrupt n) h idt)
   | Exception _ => Fault (Panic PUnreachable)
   end).

(** The handlers of the exceptions, in the order of the code. *)
Definition set_exceptions (idt : T) : T :=
  let idt := set_handler_fn (Exception divide_error) divide_error_handler idt in
  let idt := set_handler_fn (Exception debug) debug_handler idt in
  let idt := set_handler_fn (Exception non_maskable_interrupt) non_maskable_interrupt_handler idt in
  let idt := set_handler_fn (Exception breakpoint) breakpoint_handler idt in
  let idt := set_handler_fn (Exception overflow) overflow_handler idt in
  let idt := set_handler_fn (Exception bound_range_exceeded) bound_range_exceeded_handler idt in
  let idt := set_handler_fn (Exception invalid_opcode) invalid_opcode_handler idt in
  let idt := set_handler_fn (Exception device_not_available) device_not_available_handler idt in
  let idt := set_handler_fn (Exception double_fault) double_fault_handler idt in
  let idt := set_stack_index (Exception double_fault) Gdt.DOUBLE_FAULT_IST_INDEX idt in
  let idt := set_handler_fn (Exception invalid_tss) invalid_tss_handler idt in
  let idt := set_handler_fn (Exception segment_not_present) segment_not_present_handler idt in
  let idt := set_handler_fn (Exception stack_segment_fault) stack_segment_fault_handler idt in
  let idt := set_handler_fn (Exception general_protection_fault) general_protection_fault_handler idt in
  let idt := set_handler_fn (Exception page_fault) page_fault_handler idt in
  let idt := set_handler_fn (Exception x87_floating_point) x87_floating_point_handler idt in
  let idt := set_handler_fn (Exception alignment_check) alignment_check_handler idt in
  let idt := set_handler_fn (Exception machine_check) machine_check_handler idt in
  let idt := set_handler_fn (Exception simd_floating_point) simd_floating_point_handler idt in
  let idt := set_handler_fn (Exception virtualization) virtualization_handler idt in
  let idt := set_handler_fn (Exception vmm_communication_exception) vmm_communication_exception_handler idt in
  set_handler_fn (Exception security_exception) security_exception_handler idt.

Definition init : outcome T :=
  let idt := set_exceptions idt_new in
  idt ← set_vector IrqVector.PIT pit_handler idt;
  idt ← set_vector IrqVector.Timer timer_interrupt_handler idt;
  idt ← set_vector IrqVector.Keyboard keyboard_interrupt_handler idt;
  idt ← set_vector IrqVector.Error apic_error_handler idt;
  set_vector IrqVector.Spurious spurious_interrupt_handler idt.
End idt.
End Idt.

(** ** The handlers *)

(** How the values of other crates are printed: the stack frame and the error code of a
    page fault ([{:#?}]), and the report of a panic at a line of the file. *)
Class Format (Frame : Type) := {
  fmt_frame : Frame -> list Z;
  fmt_code : Z -> list Z;
  fmt_panic : list Z -> Z -> list Z
}.
Module Handlers.

(** The logger, and the counters with the local APIC. *)
Record cpu := Cpu { lg : LockedLogger.t; dev : Init.t }.

(** A handler returns to the interrupted program, or stops the processor. *)
Inductive fate := Returns | Halts.

Section handlers.
Context `{Terminal} {Frame : Type} `{Format Frame}.
(** The files idt.rs and lib.rs as [file!()] names them. *)
Context (idt_rs lib_rs : list Z).

Definition log_at (file : list Z) (line : Z) (args : list Z) : M cpu unit := fun s =>
  lg' ← log_message (lg s) (Message Error args file line);
  Ok (tt, Cpu lg' (dev s)).
Definition error (line : Z) (args : list Z) : M cpu unit := log_at idt_rs line args.

(** [panic!] and the panic handler of lib.rs *)
Definition panic (line : Z) (msg : list Z) : M cpu fate :=
  log_at lib_rs 32 (fmt_panic msg line) ;; mret Halts.

Definition on_dev (f : Init.t -> Init.status) : M cpu unit := fun s =>
  match f (dev s) with
  | Init.Live d => Ok (tt, Cpu (lg s) d)
  | Init.Deadlock => Fault Deadlock
  | Init.Faulted => Fault (Panic POverflow)
  end.

(** [error!("..\n{:#?}", stack_frame)] *)
Definition report (line : Z) (name : string) (frame : Frame) : M cpu unit :=
  error line (str name ++ [10] ++ fmt_frame frame).
Definition error_code (line : Z) (code : list Z) : M cpu unit := error line (str "error_code: " ++ code).

Definition handle {sig} (h : handler sig) (stack_frame : Frame) (code : Z) : M cpu fate :=
  match h with
  | divide_error_handler => report 66 "EXCEPTION: DIVIDE_ERROR" stack_frame ;; mret Returns
  | debug_handler => report 70 "EXCEPTION: DEBUG" stack_frame ;; mret Returns
  | non_maskable_interrupt_handler => report 74 "EXCEPTION: NON_MASKABLE_INTERRUPT" stack_frame ;; mret Returns
  | breakpoint_handler => report 78 "EXCEPTION: BREAKPOINT" stack_frame ;; mret Returns
  | overflow_handler => report 82 "EXCEPTION: OVERFLOW" stack_frame ;; mret Returns
  | bound_range_exceeded_handler => report 86 "EXCEPTION: BOUND_RANGE_EXCEEDED" stack_frame ;; mret Returns
  | invalid_opcode_handler => report 90 "EXCEPTION: INVALID_OPCODE" stack_frame ;; mret Returns
  | device_not_available_handler => report 94 "EXCEPTION: DEVICE_NOT_AVAILABLE" stack_frame ;; mret Returns
  | double_fault_handler =>
      error 101 (str "EXCEPTION: DOUBLE_FAULT") ;; error_code 102 (decimal code) ;; panic 103 (fmt_frame stack_frame)
  | invalid_tss_handler =>
      error 107 (str "EXCEPTION: INVALID_TSS") ;; error_code 108 (decimal code) ;; error 109 (fmt_frame stack_frame) ;; mret Returns
  | segment_not_present_handler =>
      error 116 (str "EXCEPTION: SEGMENT_NOT_PRESENT") ;; error_code 117 (decimal code) ;; error 118 (fmt_frame stack_frame) ;; mret Returns
  | stack_segment_fault_handler =>
      error 125 (str "EXCEPTION: STACK_SEGMENT_FAULT") ;; error_code 126 (decimal code) ;; error 127 (fmt_frame stack_frame) ;; mret Returns
  | general_protection_fault_handler =>
      error 134 (str "EXCEPTION: GENERAL_PROTECTION_FAULT") ;; error_code 135 (decimal code) ;; error 136 (fmt_frame stack_frame) ;; mret Returns
  | page_fault_handler => report 143 "EXCEPTION: PAGE_FAULT" stack_frame ;; error_code 144 (fmt_code code) ;; mret Returns
  | x87_floating_point_handler => report 148 "EXCEPTION: X87_FLOATING_POINT" stack_frame ;; mret Returns
  | alignment_check_handler => report 155 "EXCEPTION: ALIGNMENT_CHECK" stack_frame ;; mret Returns
  | machine_check_handler => panic 159 (str "EXCEPTION: MACHINE_CHECK" ++ [10] ++ fmt_frame stack_frame)
  | simd_floating_point_handler => report 163 "EXCEPTION: SIMD_FLOATING_POINT" stack_frame ;; mret Returns
  | virtualization_handler => report 167 "EXCEPTION: VIRTUALIZATION" stack_frame ;; mret Returns
  | vmm_communication_exception_handler =>
      report 174 "EXCEPTION: VMM_COMMUNICATION_EXCEPTION" stack_frame ;; error_code 175 (decimal code) ;; mret Returns
  | security_exception_handler => report 182 "EXCEPTION: SECURITY_EXCEPTION" stack_frame ;; error_code 183 (decimal code) ;; mret Returns
  | apic_error_handler => report 187 "EXCEPTION: APIC_ERROR" stack_frame ;; mret Returns
  | spurious_interrupt_handler => report 191 "EXCEPTION: SPURIOUS_INTERRUPT" stack_frame ;; mret Returns
  | timer_interrupt_handler => on_dev Init.timer_interrupt_handler ;; mret Returns
  | keyboard_interrupt_handler => on_dev Init.keyboard_interrupt_handler ;; mret Returns
  | pit_handler => on_dev Init.pit_handler ;; mret Returns
  end.
End handlers.
End Handlers.

(** ** The interrupt controllers *)

(** [IrqMode], [IrqFlags], [TimerMode] of the crate x2apic, as far as the code names them. *)
Inductive IrqMode := Fixed | OtherMode.
Inductive IrqFlags := NoFlags | MASKED.
Inductive TimerMode := OneShot | Periodic.

(** The IO APIC with its redirection table: one entry for every interrupt line. *)
Class IoApic (I E : Type) := {
  ioapic_new : Z -> I;
  ioapic_init : Z -> I -> I;
  table_entry : I -> Z -> E;
  set_table_entry : Z -> E -> I -> I;
  enable_irq : Z -> I -> I;
  disable_irq : Z -> I -> I;
  set_mode : IrqMode -> E -> E;
  set_flags : IrqFlags -> E -> E;
  set_dest : Z -> E -> E;
  entry_vector : E -> Z;
  entry_mode : E -> IrqMode;
  entry_masked : E -> bool;
  entry_dest : E -> Z
}.

(** [init] sends line [n] to vector [offset + n] and masks it; the other calls change the one
    entry, and of it the one field, they name. *)
Class IoApicLaws (I E : Type) `{IoApic I E} := {
  lines : Z;
  lines_enough : 3 <= lines;
  init_vector offset i n : 0 <= n < lines -> entry_vector (table_entry (ioapic_init offset i) n) = offset + n;
  init_masked offset i n : 0 <= n < lines -> entry_masked (table_entry (ioapic_init offset i) n) = true;
  table_entry_set i n e : 0 <= n < lines -> table_entry (set_table_entry n e i) n = e;
  table_entry_set_ne i n e k : n <> k -> table_entry (set_table_entry n e i) k = table_entry i k;
  table_entry_enable_ne i n k : n <> k -> table_entry (enable_irq n i) k = table_entry i k;
  table_entry_disable_ne i n k : n <> k -> table_entry (disable_irq n i) k = table_entry i k;
  enable_entry i n : 0 <= n < lines -> let e := table_entry i n in let e' := table_entry (enable_irq n i) n in
    entry_masked e' = false /\ entry_vector e' = entry_vector e /\ entry_mode e' = entry_mode e /\ entry_dest e' = entry_dest e;
  disable_entry i n : 0 <= n < lines -> let e := table_entry i n in let e' := table_entry (disable_irq n i) n in
    entry_masked e' = true /\ entry_vector e' = entry_vector e /\ entry_mode e' = entry_mode e /\ entry_dest e' = entry_dest e;
  mode_entry e m : let e' := set_mode m e in
    entry_mode e' = m /\ entry_vector e' = entry_vector e /\ entry_dest e' = entry_dest e;
  flags_entry e f : let e' := set_flags f e in
    entry_mode e' = entry_mode e /\ entry_vector e' = entry_vector e /\ entry_dest e' = entry_dest e;
  dest_entry e d : let e' := set_dest d e in
    entry_dest e' = d /\ entry_vector e' = entry_vector e /\ entry_mode e' = entry_mode e
}.

(** The local APIC, built from the settings of [LocalApicBuilder]. *)
Module LapicConfig.
Record t := mk {
  timer_vector : Z; error_vector : Z; spurious_vector : Z; xapic_base : Z; timer_initial : Z; timer_mode : TimerMode }.
End LapicConfig.
Class LocalApic (L : Type) := {
  build : LapicConfig.t -> option L;
  lapic_enable : L -> L;
  lapic_id : L -> Z
}.

Module Apic.
Section apic.
Context {I E L F : Type} `{IoApic I E} `{LocalApic L} `{PhysFrame F}.

(** [init]; [base] is the result of [xapic_base()]. *)
Definition init (base : Z) : M (Memory.t F) (L * I) :=
  apic_virtual_address ← Memory.to_virt_addr base;
  timer_vector ← lift (IrqVector.with_offset IrqVector.Timer);
  error_vector ← lift (IrqVector.with_offset IrqVector.Error);
  spurious_vector ← lift (IrqVector.with_offset IrqVector.Spurious);
  lapic ← lift (unwrap (build (LapicConfig.mk timer_vector error_vector spurious_vector apic_virtual_address
                                (2 ^ 32 - 1) OneShot)) PUnwrap);
  ioapic_virtual_address ← Memory.to_virt_addr 0xFEC00000;
  mret (lapic_enable lapic, ioapic_init IrqVector.IOAPIC_OFFSET (ioapic_new ioapic_virtual_address)).

(** [keyboard::init] *)
Definition keyboard_init (apic_id : Z) (ioapic : I) : I :=
  let irq := IrqVector.as_u8 IrqVector.Keyboard in
  let entry := table_entry ioapic irq in
  let entry := set_mode Fixed entry in
  let entry := set_flags MASKED entry in
  let entry := set_dest apic_id entry in
  let ioapic := set_table_entry irq entry ioapic in
  enable_irq irq ioapic.

(** [pit::enable] and [pit::disable] *)
Definition pit_enable (lapic_id : Z) (ioapic : I) : I :=
  let irq := IrqVector.as_u8 IrqVector.PIT in
  let entry := table_entry ioapic irq in
  let entry := set_mode Fixed entry in
  let entry := set_flags MASKED entry in
  let entry := set_dest lapic_id entry in
  let ioapic := set_table_entry irq entry ioapic in
  enable_irq irq ioapic.
Definition pit_disable (ioapic : I) : I := disable_irq (IrqVector.as_u8 IrqVector.PIT) ioapic.

(** [device::init] before it calls [timer::init]: the interrupts are still off, so the
    locks it takes are free; the writes are those to the ports of the PIT. *)
Definition device_init (lapic : L) (ioapic : I) : I * list (Z * Z) :=
  let ioapic := keyboard_init (lapic_id lapic mod 2 ^ 8) ioapic in
  let writes := Pit.init in
  (pit_enable (lapic_id lapic mod 2 ^ 8) ioapic, writes).
End apic.
End Apic.
