(* ===== verification/Dispatch.v ===== *)
(** From a signal to its handler: the descriptor table has for every exception the handler
    that reports it, the controllers send the lines of the keyboard and the PIT to the
    vectors of their handlers, and the handlers log or acknowledge what they handle. The
    interrupts that PCI devices are given have no handler, and the double fault handler
    does not run on the stack that was allocated for it. *)
From S2P Require Import Prelude Machine Frame KernelMemory Logger Screen Logging Pci Timers Interrupts.
From Stdlib Require Import ZArith Lia String.
From stdpp Require Import gmap functions sorting list_numbers list.
Local Open Scope Z_scope.

(** ** The table after [init] *)

(** What the kernel calls an exception. *)
Definition exception_name (f : exception) : string :=
  match f with
  | divide_error => "DIVIDE_ERROR" | debug => "DEBUG" | non_maskable_interrupt => "NON_MASKABLE_INTERRUPT"
  | breakpoint => "BREAKPOINT" | overflow => "OVERFLOW" | bound_range_exceeded => "BOUND_RANGE_EXCEEDED"
  | invalid_opcode => "INVALID_OPCODE" | device_not_available => "DEVICE_NOT_AVAILABLE" | double_fault => "DOUBLE_FAULT"
  | invalid_tss => "INVALID_TSS" | segment_not_present => "SEGMENT_NOT_PRESENT" | stack_segment_fault => "STACK_SEGMENT_FAULT"
  | general_protection_fault => "GENERAL_PROTECTION_FAULT" | page_fault => "PAGE_FAULT"
  | x87_floating_point => "X87_FLOATING_POINT" | alignment_check => "ALIGNMENT_CHECK" | machine_check => "MACHINE_CHECK"
  | simd_floating_point => "SIMD_FLOATING_POINT" | virtualization => "VIRTUALIZATION"
  | vmm_communication_exception => "VMM_COMMUNICATION_EXCEPTION" | security_exception => "SECURITY_EXCEPTION"
  end.

(** The handler of an exception has the type of its field. *)
Definition exception_handler (f : exception) : handler (field_type f) :=
  match f with
  | divide_error => divide_error_handler | debug => debug_handler | non_maskable_interrupt => non_maskable_interrupt_handler
  | breakpoint => breakpoint_handler | overflow => overflow_handler | bound_range_exceeded => bound_range_exceeded_handler
  | invalid_opcode => invalid_opcode_handler | device_not_available => device_not_available_handler
  | double_fault => double_fault_handler | invalid_tss => invalid_tss_handler
  | segment_not_present => segment_not_present_handler | stack_segment_fault => stack_segment_fault_handler
  | general_protection_fault => general_protection_fault_handler | page_fault => page_fault_handler
  | x87_floating_point => x87_floating_point_handler | alignment_check => alignment_check_handler
  | machine_check => machine_check_handler | simd_floating_point => simd_floating_point_handler
  | virtualization => virtualization_handler | vmm_communication_exception => vmm_communication_exception_handler
  | security_exception => security_exception_handler
  end.

Section table.
Context {T : Type} `{HT : InterruptDescriptorTable T} `{HL : !InterruptDescriptorTableLaws T}.

Lemma with_offset_ok v : IrqVector.with_offset v = Ok (IrqVector.as_u8 v + 32).
Proof. by destruct v. Qed.

Lemma set_vector_ok v h (t : T) : Idt.set_vector v h t = Ok (set_handler_fn (Interrupt (IrqVector.as_u8 v + 32)) h t).
Proof.
  unfold Idt.set_vector. rewrite with_offset_ok. omon. rewrite index_mut_ok; [done|]. destruct v; cbn; lia.
Qed.

(** The handler of a vector above the exceptions. *)
Definition vector_handler (n : Z) : option (handler HandlerFunc) :=
  if n =? 34 then Some pit_handler else if n =? 48 then Some timer_interrupt_handler
  else if n =? 33 then Some keyboard_interrupt_handler else if n =? 60 then Some apic_error_handler
  else if n =? 61 then Some spurious_interrupt_handler else None.

Ltac table := repeat first [rewrite handler_of_set | rewrite handler_of_set_ne by congruence | rewrite handler_of_stack].

Lemma idt_init_ok : exists t : T, Idt.init = Ok t /\ (forall f, handler_of t (Exception f) = Some (exception_handler f)) /\
  (forall n, handler_of t (Interrupt n) = vector_handler n) /\
  (forall g, stack_of t g = if decide (g = Exception double_fault) then Some 0 else None).
Proof.
  unfold Idt.init. do 5 (rewrite set_vector_ok; omon). eexists. split; [reflexivity|].
  change (IrqVector.as_u8 IrqVector.PIT + 32) with 34. change (IrqVector.as_u8 IrqVector.Timer + 32) with 48.
  change (IrqVector.as_u8 IrqVector.Keyboard + 32) with 33. change (IrqVector.as_u8 IrqVector.Error + 32) with 60.
  change (IrqVector.as_u8 IrqVector.Spurious + 32) with 61.
  split; [|split].
  - intros f. unfold Idt.set_exceptions. destruct f; table; done.
  - intros n. unfold vector_handler.
    destruct (Z.eqb_spec n 34) as [->|]; [by table|]. destruct (Z.eqb_spec n 48) as [->|]; [by table|].
    destruct (Z.eqb_spec n 33) as [->|]; [by table|]. destruct (Z.eqb_spec n 60) as [->|]; [by table|].
    destruct (Z.eqb_spec n 61) as [->|]; [by table|]. unfold Idt.set_exceptions. table. by rewrite handler_of_new.
  - intros g. unfold Idt.set_exceptions. rewrite !stack_of_set. case_decide as Hg.
    + subst. by rewrite stack_of_stack.
    + rewrite stack_of_stack_ne by done. rewrite stack_of_set. rewrite !stack_of_set. by rewrite stack_of_new.
Qed.
End table.

(** ** Reports of the handlers *)
Definition infix (x l : list Z) : Prop := exists a b, l = a ++ x ++ b.
Lemma infix_refl x : infix x x.
Proof. exists [], []. by rewrite app_nil_r. Qed.
Lemma infix_app_l x y : infix x (x ++ y).
Proof. by exists [], y. Qed.
Lemma infix_app_r x y z : infix x z -> infix x (y ++ z).
Proof. intros (a & b & ->). exists (y ++ a), b. by rewrite <- app_assoc. Qed.
Lemma infix_cons x c z : infix x z -> infix x (c :: z).
Proof. apply (infix_app_r x [c]). Qed.
Lemma infix_trans x y z : infix x y -> infix y z -> infix x z.
Proof. intros (a & b & ->) (a' & b' & ->). exists (a' ++ a), (b ++ b'). by rewrite <- !app_assoc. Qed.
Create HintDb infix.
#[export] Hint Resolve infix_refl infix_app_l infix_app_r : infix.

Lemma str_append s1 s2 : str (String.append s1 s2) = str s1 ++ str s2.
Proof. induction s1 as [|c s1 IH]; [done|].
  change (str (String.append (String c s1) s2)) with (Z.of_N (Ascii.N_of_ascii c) :: str (String.append s1 s2)). by rewrite IH. Qed.

#[export] Hint Resolve text_app decimal_text : infix.

Section reports.
Context `{HT : Terminal} `{HL : !TerminalLaws} (Hascii : forall c, ascii c -> is_Some (get_bitmap c)).

(** [m] logs the messages [ms], gives [a] and changes nothing else. *)
Definition reports {A} (m : M Handlers.cpu A) (a : A) (ms : list message) : Prop :=
  (forall g t d, ready g t -> cursor_ok g -> exists g' t',
    m (Handlers.Cpu (LockedLogger.mk false g) d) = Ok (a, Handlers.Cpu (LockedLogger.mk false g') d) /\
    Logger.port g' = Logger.port g ++ (WriteChar <$> mjoin (m_text <$> ms)) /\ cursor_ok g' /\ ready g' t') /\
  (forall g d, ms <> [] -> m (Handlers.Cpu (LockedLogger.mk true g) d) = Fault Deadlock).

Lemma reports_log file line args : text args -> Forall ascii file -> 0 <= line ->
  reports (Handlers.log_at file line args) tt [Message Error args file line].
Proof.
  intros Ha Hf Hl. split; [|done]. intros g t d Hr Hc.
  destruct (log_messages_ok g t [Message Error args file line] Hr Hc) as (g' & E & Hp & Hc' & Hr').
  { apply Forall_singleton. by apply message_printable. }
  exists g'. eexists. unfold Handlers.log_at. cbn [Handlers.lg Handlers.dev]. cbn [foldO] in E.
  destruct (log_message _ _) as [lg|]; [|done]. injection E as ->. split; [done|]. split; [done|]. split; done.
Qed.

Lemma reports_ret {A} (a : A) : reports (mret a) a [].
Proof. split; [|done]. intros g t d Hr Hc. exists g, t. cbn. by rewrite app_nil_r. Qed.

Lemma reports_bind {A B} (m : M Handlers.cpu A) (k : A -> M Handlers.cpu B) a b ms ms' : ms <> [] ->
  reports m a ms -> reports (k a) b ms' -> reports (m ≫= k) b (ms ++ ms').
Proof.
  intros Hne [Hm Hm'] [Hk _]. split.
  - intros g t d Hr Hc. destruct (Hm g t d Hr Hc) as (g1 & t1 & E1 & P1 & C1 & R1).
    destruct (Hk g1 t1 d R1 C1) as (g2 & t2 & E2 & P2 & C2 & R2). exists g2, t2. rewrite (bind_ok _ _ _ _ _ E1).
    split; [done|]. split; [|done]. by rewrite P2, P1, fmap_app, join_app, fmap_app, app_assoc.
  - intros g d _. apply bind_fault. by apply Hm'.
Qed.
End reports.

(** Frames, error codes and panics are printed as text, and the report of a panic
    contains its message. *)
Class FormatLaws (Frame : Type) `{Format Frame} := {
  fmt_frame_text frame : text (fmt_frame frame);
  fmt_code_text code : text (fmt_code code);
  fmt_panic_text msg line : text msg -> text (fmt_panic msg line);
  fmt_panic_contains msg line : infix msg (fmt_panic msg line)
}.

(** The exceptions after which the kernel stops. *)
Definition fatal (f : exception) : Handlers.fate :=
  match f with double_fault | machine_check => Handlers.Halts | _ => Handlers.Returns end.

Section handlers.
Context `{HT : Terminal} `{HL : !TerminalLaws} (Hascii : forall c, ascii c -> is_Some (get_bitmap c)).
Context {Frame : Type} `{HF : Format Frame} `{HFL : !FormatLaws Frame}.
Context (idt_rs lib_rs : list Z) (Hidt : Forall ascii idt_rs) (Hlib : Forall ascii lib_rs).

(** How the error code of an exception is printed, if its handler gets and prints one. *)
Definition code_text (f : exception) (code : Z) : option (list Z) :=
  match f with
  | page_fault => Some (fmt_code code)
  | double_fault | invalid_tss | segment_not_present | stack_segment_fault | general_protection_fault
  | vmm_communication_exception | security_exception => Some (decimal code)
  | _ => None
  end.

Definition complete (f : exception) (frame : Frame) (code : Z) (ms : list message) : Prop :=
  ms <> [] /\ Forall (fun m => m_level m = Error) ms /\
  Exists (fun m => infix (str "EXCEPTION: " ++ str (exception_name f)) (m_args m)) ms /\
  Exists (fun m => infix (fmt_frame frame) (m_args m)) ms /\
  forall c, code_text f code = Some c -> Exists (fun m => infix c (m_args m)) ms.


Lemma report_ok line name frame : text (str name) -> 0 <= line ->
  reports (Handlers.report idt_rs line name frame) tt [Message Error (str name ++ [10] ++ fmt_frame frame) idt_rs line].
Proof.
  intros Hn Hl. apply reports_log; try done. apply text_app; [done|]. apply text_app; [|apply fmt_frame_text].
  apply Forall_singleton. by left.
Qed.
Lemma error_ok line args : text args -> 0 <= line ->
  reports (Handlers.error idt_rs line args) tt [Message Error args idt_rs line].
Proof. intros. by apply reports_log. Qed.
Lemma error_code_ok line code : text code -> 0 <= line ->
  reports (Handlers.error_code idt_rs line code) tt [Message Error (str "error_code: " ++ code) idt_rs line].
Proof. intros. apply reports_log; try done. apply text_app; [|done]. by apply (bool_decide_unpack _). Qed.
Lemma panic_ok line msg : text msg -> reports (Handlers.panic lib_rs line msg) Handlers.Halts [Message Error (fmt_panic msg line) lib_rs 32].
Proof.
  intros Hm. apply (reports_bind _ _ tt Handlers.Halts [Message Error (fmt_panic msg line) lib_rs 32] []); [done| |apply reports_ret].
  apply reports_log; try done. by apply fmt_panic_text.
Qed.

Ltac reported := lazymatch goal with
  | |- reports (mret _) _ _ => apply reports_ret
  | |- reports (Handlers.panic _ _ _) _ _ => apply panic_ok
  | |- reports (Handlers.report _ _ _ _) _ _ => apply report_ok
  | |- reports (Handlers.error _ _ _) _ _ => apply error_ok
  | |- reports (Handlers.error_code _ _ _) _ _ => apply error_code_ok
  | |- reports (mbind _ _) _ _ => eapply reports_bind; [| |cbn beta]; [|reported|reported]; [done|..]
  end.
Ltac text_solver := first [ apply fmt_frame_text | apply fmt_code_text | by apply decimal_text | done
  | apply (bool_decide_unpack _); vm_compute; exact I
  | apply text_app; text_solver | apply Forall_singleton; by left ].

(** A part of the text of one of the messages. *)
Ltac found_in := first
  [ apply infix_refl | apply infix_app_l | lazymatch goal with |- infix _ (_ :: _) => apply infix_cons end; found_in
  | apply infix_app_r; found_in
  | eapply infix_trans; [|apply fmt_panic_contains]; found_in ].
Ltac found := first [ apply Exists_cons_hd; cbn [m_args]; found_in | apply Exists_cons_tl; found ].

Lemma handle_exception f frame code : 0 <= code -> exists ms,
  reports (Handlers.handle idt_rs lib_rs (exception_handler f) frame code) (fatal f) ms /\ complete f frame code ms.
Proof.
  intros Hc. destruct f; cbn [exception_handler Handlers.handle fatal]; (eexists; split; [reported; text_solver|]).
  all: cbn [app]; split; [done|]; split; [by repeat constructor|]; cbn [exception_name].
  all: split; [rewrite <- str_append; lazy beta iota zeta delta [String.append]; found|]; split; [found|].
  all: intros c; cbn [code_text]; first [discriminate|intros [= <-]; found].
Qed.
End handlers.

(** ** Lines and vectors *)
Section routing.
Context {I E : Type} `{HI : IoApic I E} `{HIL : !IoApicLaws I E}.

(** A line that is sent to its vector on the processor [dest]. *)
Definition routed (io : I) (n dest : Z) : Prop :=
  let e := table_entry io n in
  entry_masked e = false /\ entry_vector e = 32 + n /\ entry_mode e = Fixed /\ entry_dest e = dest.

Lemma route_entry dest n (io : I) : 0 <= n < lines -> entry_vector (table_entry io n) = 32 + n ->
  let io' := enable_irq n (set_table_entry n (set_dest dest (set_flags MASKED (set_mode Fixed (table_entry io n)))) io) in
  routed io' n dest /\ forall k, k <> n -> table_entry io' k = table_entry io k.
Proof.
  intros Hn Hv io'. split; [|intros k Hk; unfold io'; by rewrite table_entry_enable_ne, table_entry_set_ne by done].
  unfold routed, io'. destruct (enable_entry (set_table_entry n (set_dest dest (set_flags MASKED (set_mode Fixed (table_entry io n)))) io) n Hn)
    as (-> & -> & -> & ->). rewrite table_entry_set by done. set (e := table_entry io n) in *.
  destruct (dest_entry (set_flags MASKED (set_mode Fixed e)) dest) as (-> & -> & ->).
  destruct (flags_entry (set_mode Fixed e) MASKED) as (-> & -> & _). destruct (mode_entry e Fixed) as (-> & -> & _). done.
Qed.

Context {L : Type} `{HLA : LocalApic L}.

(** After the set-up the keyboard and the PIT are routed, the other lines are masked. *)
Lemma device_init_routes (lapic : L) (io0 : I) :
  let '(io, writes) := Apic.device_init lapic (ioapic_init IrqVector.IOAPIC_OFFSET io0) in
  routed io 1 (lapic_id lapic mod 256) /\ routed io 2 (lapic_id lapic mod 256) /\ writes = Pit.init /\
  (forall k, 0 <= k < lines -> k <> 1 -> k <> 2 -> entry_masked (table_entry io k) = true).
Proof.
  pose proof lines_enough as H3. unfold Apic.device_init.
  destruct (route_entry (lapic_id lapic mod 256) 1 (ioapic_init IrqVector.IOAPIC_OFFSET io0)) as [R1 O1]; [lia|by rewrite init_vector by lia|].
  change (enable_irq 1 _) with (Apic.keyboard_init (lapic_id lapic mod 256) (ioapic_init IrqVector.IOAPIC_OFFSET io0)) in R1, O1.
  set (io1 := Apic.keyboard_init _ _) in *.
  destruct (route_entry (lapic_id lapic mod 256) 2 io1) as [R2 O2]; [lia|rewrite O1 by lia; by rewrite init_vector by lia|].
  change (enable_irq 2 _) with (Apic.pit_enable (lapic_id lapic mod 256) io1) in R2, O2.
  change (2 ^ 8) with 256. split_and!; [|done|done|].
  - unfold routed. rewrite O2 by lia. exact R1.
  - intros k Hk H1 H2. rewrite O2, O1 by done. by apply init_masked.
Qed.
End routing.

(** The three handlers of the devices. *)
Lemma handler_device v s : (match v with Init.PIT => Init.COUNT s | Init.Timer => Init.timer_COUNT s | Init.Keyboard => 0 end) + 1 < U64 ->
  Init.locked s = false ->
  Init.handler v s = Init.Live (Init.end_of_interrupt
    (match v with
     | Init.PIT => Init.set_counts (Init.COUNT s + 1) (Init.timer_COUNT s) s
     | Init.Timer => Init.set_counts (Init.COUNT s) (Init.timer_COUNT s + 1) s
     | Init.Keyboard => s
     end)).
Proof.
  intros Hc Hl. unfold Init.handler, Init.pit_handler, Init.timer_interrupt_handler, Init.keyboard_interrupt_handler.
  destruct v; rewrite ?add64_ok by done; omon; unfold Init.live, Init.eoi; cbn [Init.set_counts Init.locked]; by rewrite Hl.
Qed.

Lemma to_virt_ok {F : Type} `{HPF : PhysFrame F} `{HPL : !PhysFrameLaws F} (mem : Memory.t F) (a : Z) :
  a + Memory.PHYSICAL_MEMORY_OFFSET mem < U64 -> canonical_address (a + Memory.PHYSICAL_MEMORY_OFFSET mem) ->
  Memory.to_virt_addr a mem = Ok (a + Memory.PHYSICAL_MEMORY_OFFSET mem, mem).
Proof. intros HU Hc. unfold Memory.to_virt_addr. rewrite add64_ok by done. omon. by rewrite virt_new_ok. Qed.

Section apic.
Context {I E L F : Type} `{HI : IoApic I E} `{HIL : !IoApicLaws I E} `{HLA : LocalApic L} `{HPF : PhysFrame F} `{HPL : !PhysFrameLaws F}.

Lemma apic_init_ok (mem : Memory.t F) base (l : L) :
  let off := Memory.PHYSICAL_MEMORY_OFFSET mem in
  base + off < U64 -> 0xFEC00000 + off < U64 -> canonical_address (base + off) -> canonical_address (0xFEC00000 + off) ->
  build (LapicConfig.mk 48 60 61 (base + off) (2 ^ 32 - 1) OneShot) = Some l ->
  Apic.init base mem = Ok ((lapic_enable l, ioapic_init IrqVector.IOAPIC_OFFSET (ioapic_new (0xFEC00000 + off))), mem).
Proof.
  intros off HU1 HU2 Hc1 Hc2 Hbuild. unfold Apic.init. rewrite !with_offset_ok. rewrite (bind_ok _ _ _ _ _ (to_virt_ok mem base HU1 Hc1)).
  do 3 (erewrite bind_lift by reflexivity). change (IrqVector.as_u8 IrqVector.Timer + 32) with 48.
  change (IrqVector.as_u8 IrqVector.Error + 32) with 60. change (IrqVector.as_u8 IrqVector.Spurious + 32) with 61.
  fold off. rewrite Hbuild. cbn [unwrap]. erewrite bind_lift by reflexivity. by rewrite (bind_ok _ _ _ _ _ (to_virt_ok mem 0xFEC00000 HU2 Hc2)).
Qed.

Lemma pit_disable_ok (io : I) dest : routed io 1 dest ->
  routed (Apic.pit_disable io) 1 dest /\ entry_masked (table_entry (Apic.pit_disable io) 2) = true.
Proof.
  intros R. pose proof lines_enough as H3. unfold Apic.pit_disable. split.
  - unfold routed. by rewrite table_entry_disable_ne.
  - by destruct (disable_entry io (IrqVector.as_u8 IrqVector.PIT)) as (Hd & _); [cbn; lia|].
Qed.
End apic.

(** ** Claims *)

(** C16: for every exception of the processor, [idt::init] puts a handler into the table whose
    type is that of the field: it takes an error code exactly when there is one, and does
    not return exactly for double faults and machine checks. When the exception comes
    while the logger is free, the handler logs error messages that name this very
    exception, show its stack frame and, where the handler has one and the code prints it, the error
    code; it then returns, or stops the processor. Only the double fault handler has a stack of
    its own. When the exception comes while a message is being logged, the handler waits for ever. *)
Theorem idt_exceptions {T : Type} `{HT : InterruptDescriptorTable T} `{HTL : !InterruptDescriptorTableLaws T}
    `{HTe : Terminal} `{HL : !TerminalLaws} {Frame : Type} `{HF : Format Frame} `{HFL : !FormatLaws Frame}
    (idt_rs lib_rs : list Z) (f : exception) (frame : Frame) (code : Z) :
  (forall c, ascii c -> is_Some (get_bitmap c)) -> Forall ascii idt_rs -> Forall ascii lib_rs -> 0 <= code ->
  exists (t : T) (h : handler (field_type f)) ms,
    Idt.init = Ok t /\ handler_of t (Exception f) = Some h /\
    stack_of t (Exception f) = (if decide (f = double_fault) then Some Gdt.DOUBLE_FAULT_IST_INDEX else None) /\
    complete f frame code ms /\
    (forall g term d, ready g term -> cursor_ok g -> exists g' term',
      Handlers.handle idt_rs lib_rs h frame code (Handlers.Cpu (LockedLogger.mk false g) d) =
        Ok (fatal f, Handlers.Cpu (LockedLogger.mk false g') d) /\
      Logger.port g' = Logger.port g ++ (WriteChar <$> mjoin (m_text <$> ms)) /\ cursor_ok g' /\ ready g' term') /\
    (forall g d, Handlers.handle idt_rs lib_rs h frame code (Handlers.Cpu (LockedLogger.mk true g) d) = Fault Deadlock).
Proof.
  intros Ha Hi Hl Hc. destruct (idt_init_ok (T := T)) as (t & Et & He & _ & Hs).
  destruct (handle_exception Ha idt_rs lib_rs Hi Hl f frame code Hc) as (ms & [Hr Hd] & Hm).
  exists t, (exception_handler f), ms. split_and!; try done.
  - rewrite Hs. destruct (decide (f = double_fault)) as [->|Hf]; [done|]. rewrite decide_False; [done|congruence].
  - intros g d. apply Hd, Hm.
Qed.

(** C17: signals and handlers meet. After the set-up of the IO APIC, the lines of the keyboard and of the PIT
    are unmasked and sent to this processor, on the vectors where the table has their
    handlers, and every other line is masked; disabling the PIT masks its line and no other; the vectors that
    the local APIC is built with have handlers too. *)
Theorem irq_routing {T I E L F : Type} `{HT : InterruptDescriptorTable T} `{HTL : !InterruptDescriptorTableLaws T}
    `{HI : IoApic I E} `{HIL : !IoApicLaws I E} `{HLA : LocalApic L} `{HPF : PhysFrame F} `{HPL : !PhysFrameLaws F}
    (mem : Memory.t F) (base : Z) (l : L) :
  let off := Memory.PHYSICAL_MEMORY_OFFSET mem in
  0 <= base -> base + off < U64 -> 0xFEC00000 + off < U64 -> canonical_address (base + off) -> canonical_address (0xFEC00000 + off) ->
  build (LapicConfig.mk 48 60 61 (base + off) (2 ^ 32 - 1) OneShot) = Some l ->
  let id := lapic_id (lapic_enable l) mod 256 in
  exists (t : T) (io io' : I),
    Idt.init = Ok t /\ Apic.init base mem = Ok ((lapic_enable l, io), mem) /\
    Apic.device_init (lapic_enable l) io = (io', Pit.init) /\
    routed io' 1 id /\ handler_of t (Interrupt (entry_vector (table_entry io' 1))) = Some keyboard_interrupt_handler /\
    routed io' 2 id /\ handler_of t (Interrupt (entry_vector (table_entry io' 2))) = Some pit_handler /\
    (forall k, 0 <= k < lines -> k <> 1 -> k <> 2 -> entry_masked (table_entry io' k) = true) /\
    routed (Apic.pit_disable io') 1 id /\ entry_masked (table_entry (Apic.pit_disable io') 2) = true /\
    handler_of t (Interrupt 48) = Some timer_interrupt_handler /\
    handler_of t (Interrupt 60) = Some apic_error_handler /\ handler_of t (Interrupt 61) = Some spurious_interrupt_handler.
Proof.
  intros off Hb HU1 HU2 Hc1 Hc2 Hbuild id. destruct (idt_init_ok (T := T)) as (t & Et & _ & Hv & _).
  pose proof lines_enough as H3.
  pose proof (device_init_routes (lapic_enable l) (ioapic_new (0xFEC00000 + off))) as Hd.
  set (io := ioapic_init IrqVector.IOAPIC_OFFSET (ioapic_new (0xFEC00000 + off))) in *.
  destruct (Apic.device_init (lapic_enable l) io) as [io' writes] eqn:Ed. destruct Hd as (R1 & R2 & -> & Hm). fold id in R1, R2.
  destruct (pit_disable_ok io' id R1) as [R1' M2'].
  exists t, io, io'. rewrite !Hv. destruct R1 as (M1 & V1 & R1), R2 as (M2 & V2 & R2). rewrite V1, V2. split_and!; try done; try (by split_and!).
  by apply apic_init_ok.
Qed.

(** Interrupts of PCI devices go astray. The first four interrupt numbers that [pci::enable] hands
    out select vectors without a handler, and the fifth the handler of APIC errors: on a device with
    an MSI capability, [enable] programs a vector that the table of the kernel does not serve. *)
Theorem msi_without_handler {T S Location : Type} `{HT : InterruptDescriptorTable T} `{HTL : !InterruptDescriptorTableLaws T}
    `{HC : ConfigSpace S Location} `{HCL : !ConfigSpaceLaws S Location} src fuel (st : state S) (loc : Location) caps :
  chain (hw st) loc (byte (hw st) loc PCI_CAP_PTR) caps -> read_only loc PCI_CAP_PTR -> (length caps < fuel)%nat ->
  let k := zlen (filter (fun c => is_msi c = true) caps) in
  23 <= MSI_IRQ st -> 0 < k -> MSI_IRQ st + k <= 28 ->
  exists (t : T) irq st' off, Idt.init = Ok t /\ enable src fuel loc st = Ok (Some irq, st') /\
    (loc, off, irq + 32) ∈ written (hw st') /\
    handler_of t (Interrupt (irq + 32)) = if irq =? 28 then Some apic_error_handler else None.
Proof.
  intros Hch Hro Hf k Hm Hk Hb. destruct (idt_init_ok (T := T)) as (t & Et & _ & Hv & _).
  destruct (enable_ok src fuel st loc caps Hch Hro Hf) as (s1 & s2 & s' & ws & ms & E & _ & Hws & _ & W); [lia|fold k; lia|]. fold k in E, W.
  rewrite (proj2 (Z.ltb_lt 0 k)) in E, W by done. destruct (walk_writes_last _ _ _ _ _ _ _ _ Hws Hk) as [off Ho]. fold k in Ho.
  eexists t, (MSI_IRQ st + k), (St s' (MSI_IRQ st + k) _), off. split; [done|]. split; [done|]. split; [cbn [hw]; rewrite W; apply elem_of_app; right; right; by apply elem_of_app; left|].
  rewrite Hv. unfold vector_handler. rewrite !(proj2 (Z.eqb_neq _ 34)), !(proj2 (Z.eqb_neq _ 48)), !(proj2 (Z.eqb_neq _ 33)) by lia.
  destruct (Z.eqb_spec (MSI_IRQ st + k) 28) as [->|]; [done|].
  by rewrite (proj2 (Z.eqb_neq _ 60)), (proj2 (Z.eqb_neq _ 61)) by lia.
Qed.

(** The stack of the double fault handler is not the one that [gdt::init] allocates. [gdt::init]
    returns with the task state segment in force, but its stack pointer for double faults is the lower
    end of the buffer, since the leaked vector has length 0: whatever the processor pushes for a double
    fault (six words below the aligned top) lies outside of the buffer, in the block that was allocated
    before it when that has 64 bytes (or the byte behind it). *)
Theorem double_fault_stack_misplaced {G : Type} `{GlobalDescriptorTableLaws G} (l : Heap.Layout) (st : Gdt.state G) (v : Z) :
  Heap.layout_ok l -> 64 <= Heap.size l -> 0 <= v -> v + Heap.align l + Heap.size l + 20481 < U64 ->
  exists block v' st' stack_end, Heap.alloc l v = Ok (block, v') /\
    Gdt.init (Gdt.State v' (Gdt.TSS st) (Gdt.GDT st) (Gdt.gdtr st) (Gdt.CS st) (Gdt.SS st) (Gdt.TR st)) = Ok (tt, st') /\
    Gdt.stack_pointer st' Gdt.DOUBLE_FAULT_IST_INDEX = Some stack_end /\ stack_end + 20480 = Gdt.heap st' /\
    let top := Z.land stack_end (Z.lnot 15) in
    forall a, top - 48 <= a < top -> block <= a <= block + Heap.size l /\ ~ (stack_end <= a < Gdt.heap st').
Proof.
  intros Hl H64 Hv Hb. destruct (Heap.alloc_ok l v Hl Hv) as (p & Ep & Hp & _); [destruct Hl; lia|].
  destruct (Gdt.gdt_init_ok (Gdt.State (p + Heap.size l) (Gdt.TSS st) (Gdt.GDT st) (Gdt.gdtr st) (Gdt.CS st) (Gdt.SS st) (Gdt.TR st)))
    as (q & st' & Eq & Hq & Hh & Hsp & _); [cbn; lia|cbn; lia|]. cbn [Gdt.heap] in Hq.
  exists p, (p + Heap.size l), st', q. split_and!; [done|exact Eq|exact Hsp|lia|]. intros top a Ha.
  assert (Ht : top = q - q mod 16).
  { unfold top. change 15 with (Z.ones 4). rewrite <- Z.ldiff_land, Z.ldiff_ones_r, Z.shiftl_mul_pow2, Z.shiftr_div_pow2 by lia.
    change (2 ^ 4) with 16. pose proof (Z.div_mod q 16). lia. }
  pose proof (Z.mod_pos_bound q 16). lia.
Qed.

(** ** A table, a printer and an IO APIC to run the claims on *)
Module Example.

(** The table as a function from gates to handlers. *)
Record table := Table { fns : forall g, option (handler (gate_type g)); stacks : gate -> option Z }.
Definition table_idt : InterruptDescriptorTable table := {|
  idt_new := Table (fun _ => None) (fun _ => None);
  index_mut v := if (32 <=? v) && (v <? 256) then Ok (Interrupt v) else Fault (Panic PIndex);
  set_handler_fn g h t := Table (fun g' => match decide (g = g') with
    | left e => Some (eq_rect g (fun g => handler (gate_type g)) h g' e) | right _ => fns t g' end) (stacks t);
  set_stack_index g i t := Table (fns t) (fun g' => if decide (g = g') then Some i else stacks t g');
  handler_of t g := fns t g;
  stack_of t g := stacks t g
|}.
Definition table_laws : @InterruptDescriptorTableLaws table table_idt.
Proof.
  split; try done.
  - intros v Hv. cbn. rewrite (proj2 (Z.leb_le _ _)), (proj2 (Z.ltb_lt _ _)) by lia. done.
  - intros t g h. cbn. destruct (decide (g = g)) as [e|]; [|done]. by rewrite (proof_irrel e eq_refl).
  - intros t g h g' Hg. cbn. by destruct (decide (g = g')).
  - intros t g i Hi. cbn. by destruct (decide (g = g)).
  - intros t g i g' Hg. cbn. by destruct (decide (g = g')).
Defined.

Definition number_format : Format Z := {| fmt_frame n := decimal (Z.abs n); fmt_code n := decimal (Z.abs n); fmt_panic msg _ := str "panic: " ++ msg |}.
Definition number_format_laws : @FormatLaws Z number_format.
Proof.
  split; cbn [fmt_frame fmt_code fmt_panic number_format].
  - intros n. apply decimal_text.
  - intros n. apply decimal_text.
  - intros msg _ Hm. apply text_app; [by apply (bool_decide_unpack _)|done].
  - intros msg _. apply (infix_app_r msg (str "panic: ")), infix_refl.
Defined.

(** Redirection tables as functions from lines to entries. *)
Record redirection := Redirection { r_vector : Z; r_mode : IrqMode; r_masked : bool; r_dest : Z }.
Definition set_entry (n : Z) (e : redirection) (t : Z -> redirection) : Z -> redirection := fun k => if n =? k then e else t k.
Definition table_ioapic : IoApic (Z -> redirection) redirection := {|
  ioapic_new _ _ := Redirection 0 OtherMode true 0;
  ioapic_init offset _ n := Redirection (offset + n) OtherMode true 0;
  table_entry t n := t n;
  set_table_entry := set_entry;
  enable_irq n t := set_entry n (Redirection (r_vector (t n)) (r_mode (t n)) false (r_dest (t n))) t;
  disable_irq n t := set_entry n (Redirection (r_vector (t n)) (r_mode (t n)) true (r_dest (t n))) t;
  set_mode m e := Redirection (r_vector e) m (r_masked e) (r_dest e);
  set_flags f e := Redirection (r_vector e) (r_mode e) (match f with MASKED => true | NoFlags => false end) (r_dest e);
  set_dest d e := Redirection (r_vector e) (r_mode e) (r_masked e) d;
  entry_vector := r_vector; entry_mode := r_mode; entry_masked := r_masked; entry_dest := r_dest
|}.
Definition table_ioapic_laws : @IoApicLaws (Z -> redirection) redirection table_ioapic.
Proof.
  refine {| lines := 24 |}; try done; cbn; unfold set_entry.
  - intros i n e Hn. by rewrite Z.eqb_refl.
  - intros i n e k Hk. by rewrite (proj2 (Z.eqb_neq n k)).
  - intros i n k Hk. by rewrite (proj2 (Z.eqb_neq n k)).
  - intros i n k Hk. by rewrite (proj2 (Z.eqb_neq n k)).
  - intros i n Hn. by rewrite Z.eqb_refl.
  - intros i n Hn. by rewrite Z.eqb_refl.
Defined.
Definition any_lapic : LocalApic LapicConfig.t := {| build c := Some c; lapic_enable l := l; lapic_id _ := 3 |}.

Lemma tiny_ascii c : ascii c -> is_Some (@get_bitmap tiny c).
Proof. intros [_ Hc]. unfold get_bitmap, tiny. rewrite (proj2 (Z.ltb_lt _ _)) by done. by eexists. Qed.

Definition idt_rs : list Z := str "kernel/src/arch/x64/interrupt/idt.rs".
Definition lib_rs : list Z := str "kernel/src/lib.rs".
End Example.

Lemma idt_exceptions_witness : exists (t : Example.table) (h : handler PageFaultHandlerFunc) ms,
  @Idt.init _ Example.table_idt = Ok t /\ @handler_of _ Example.table_idt t (Exception page_fault) = Some h /\
  @complete _ Example.number_format page_fault 4711 2 ms.
Proof.
  destruct (@idt_exceptions _ Example.table_idt Example.table_laws tiny tiny_laws _ Example.number_format Example.number_format_laws
    Example.idt_rs Example.lib_rs page_fault 4711 2 Example.tiny_ascii) as (t & h & ms & Et & Eh & _ & Hm & _);
    [apply (bool_decide_unpack _); vm_compute; exact I..|lia|].
  exists t, h, ms. split; [exact Et|]. split; [exact Eh|exact Hm].
Defined.

Definition example_memory : Memory.t Z := Memory.mk None 0xffff900000000000 0.
Lemma irq_routing_witness : exists (t : Example.table) l io io',
  @Idt.init _ Example.table_idt = Ok t /\
  Apic.init (H := Example.table_ioapic) (H0 := Example.any_lapic) 0xfee00000 example_memory = Ok ((l, io), example_memory) /\
  Apic.device_init (H := Example.table_ioapic) (H0 := Example.any_lapic) l io = (io', Pit.init) /\
  routed (HI := Example.table_ioapic) io' 1 3 /\ routed (HI := Example.table_ioapic) io' 2 3 /\
  @handler_of _ Example.table_idt t (Interrupt 33) = Some keyboard_interrupt_handler.
Proof.
  destruct (@irq_routing _ _ _ _ Z Example.table_idt Example.table_laws Example.table_ioapic Example.table_ioapic_laws
    Example.any_lapic _ _ example_memory 0xfee00000 (LapicConfig.mk 48 60 61 (0xfee00000 + 0xffff900000000000) (2 ^ 32 - 1) OneShot))
    as (t & io & io' & Et & E1 & E2 & R1 & H1 & R2 & _); [zeval|zeval|zeval|right; zeval|right; zeval|reflexivity|].
  exists t, (LapicConfig.mk 48 60 61 (0xfee00000 + 0xffff900000000000) (2 ^ 32 - 1) OneShot), io, io'. split; [exact Et|].
  split; [exact E1|]. split; [exact E2|]. split; [exact R1|]. split; [exact R2|]. destruct R1 as (_ & V & _).
  change (entry_vector _) with (Example.r_vector (io' 1)) in H1. change (Example.r_vector (io' 1) = 33) in V. rewrite V in H1. exact H1.
Defined.

Lemma msi_without_handler_witness : exists (t : Example.table) st',
  @Idt.init _ Example.table_idt = Ok t /\
  @enable _ _ (FixedSpace.space FixedSpace.msi_device) [] 3 0 (St [] 23 []) = Ok (Some 24, st') /\
  @handler_of _ Example.table_idt t (Interrupt 56) = None.
Proof.
  set (HC := FixedSpace.space FixedSpace.msi_device). set (HL := FixedSpace.space_laws FixedSpace.msi_device).
  destruct (@msi_without_handler _ _ _ Example.table_idt Example.table_laws HC HL [] 3 (St [] 23 []) 0 [(0x40, 1); (0x50, 5)])
    as (t & irq & st' & off & Et & E & _ & Eh).
  - change (chain (HL := HL) ([] : list (Z * Z * Z)) 0 0x40 [(0x40, 1); (0x50, 5)]).
    apply (chain_cap (HL := HL) _ 0 0x40); [lia|exact I|exact I|].
    change (chain (HL := HL) ([] : list (Z * Z * Z)) 0 0x50 [(0x50, 5)]).
    apply (chain_cap (HL := HL) _ 0 0x50); [lia|exact I|exact I|]. apply chain_end. zeval.
  - exact I.
  - cbn. lia.
  - cbn. lia.
  - vm_compute. reflexivity.
  - zeval.
  - assert (Hirq : irq = 24) by (vm_compute in E; congruence). subst irq. exists t, st'. split; [exact Et|]. split; [exact E|exact Eh].
Defined.

(** A table of descriptors: the selector is eight times the index. *)
Definition list_gdt : GlobalDescriptorTable (list (option Descriptor)) := {|
  gdt_new := [None];
  add_entry d g := let n := match d with kernel_code_segment => 1 | tss_segment => 2 end in
    if zlen g + n <=? 8 then Ok (8 * zlen g, g ++ Some d :: replicate (Z.to_nat (n - 1)) None)
    else Fault (Panic PExpect);
  descriptor_of g sel := mjoin (g !! Z.to_nat (sel / 8))
|}.
#[local] Existing Instance list_gdt.

#[local] Instance list_gdt_laws : GlobalDescriptorTableLaws (list (option Descriptor)).
Proof.
  refine {| slots g := 8 - zlen g |}.
  - cbn. lia.
  - intros d g Hs. cbn [add_entry descriptor_of list_gdt]. rewrite (proj2 (Z.leb_le _ _)) by lia.
    eexists _, _. split; [reflexivity|]. split_and!.
    + rewrite Z.mul_comm, Z.div_mul by lia. rewrite Nat2Z.id, lookup_app_r, Nat.sub_diag by lia. done.
    + intros sel' d' Hd. destruct (g !! Z.to_nat (sel' / 8)) as [o|] eqn:E; [|done].
      by rewrite (lookup_app_l_Some _ _ _ _ E).
    + rewrite length_app. cbn [length]. rewrite length_replicate. destruct d; lia.
Qed.

Definition gdt_blank : Gdt.state (list (option Descriptor)) := Gdt.State 0 None None None 0 0 0.

Lemma double_fault_stack_misplaced_witness : exists block v' st' stack_end,
  Heap.alloc (Heap.mk_layout 160 8) Heap.START = Ok (block, v') /\
  Gdt.init (Gdt.State v' None None None 0 0 0) = Ok (tt, st') /\
  Gdt.stack_pointer st' Gdt.DOUBLE_FAULT_IST_INDEX = Some stack_end /\ stack_end + 20480 = Gdt.heap st' /\
  let top := Z.land stack_end (Z.lnot 15) in
  forall a, top - 48 <= a < top -> block <= a <= block + 160 /\ ~ (stack_end <= a < Gdt.heap st').
Proof.
  apply (double_fault_stack_misplaced (Heap.mk_layout 160 8) gdt_blank Heap.START); [split; cbn; lia|cbn; lia|zeval|zeval].
Defined.
