(* ===== verification/Kernel.v ===== *)
(** The initialisation of the kernel: [init] of kernel/src/lib.rs, from the information of the boot
    loader to the mounted file system, and what happens at its end.

    The hardware and the crates are the parameters of the components. The frame buffer's
    contents, the register CR3, the base of the local APIC and the count of its timer, the
    devices on the bus and the interrupts that come while the timer is set up are arguments; so is the state of the heap
    when [gdt::init] runs, because the messages before it use the heap too.

    Every message that the code logs on the way is drawn and sent to the serial port: those
    of lib.rs, arch/x64/device/mod.rs, arch/x64/device/timer.rs, drivers/pci.rs,
    drivers/provider.rs and process/mod.rs, and those of the AHCI driver. The messages of
    the drivers are recorded in order by the model of pci.rs and are drawn when
    [drivers::pci::init] has returned; nothing else uses the logger in between. *)
From S2P Require Import Prelude Machine Device Block Manager Bitmap Layout Index Resize InodeNumber Utf8 Cafs Vfs Contents Files Inodes Directory Mount Paths Errors FileSystem Namespace Image Frame KernelMemory Config Paging PageTables Logger Boot Screen Logging Pci Startup Timers Interrupts Dispatch.
From Stdlib Require Import ZArith Lia String.
From stdpp Require Import gmap functions sorting list_numbers list.
Local Open Scope Z_scope.

Section code.
Context `{Terminal}.
Context {T G I E L : Type} `{InterruptDescriptorTable T} `{GlobalDescriptorTable G} `{IoApic I E} `{LocalApic L}.
Context {A Guid F : Type} `{BlockDevice A} `{EqDecision Guid} `{!Storage A Guid} `{PhysFrame F}.
Context {S Location : Type} `{ConfigSpace S Location}.

(** The static variables of the kernel after [init]; the memory and the mounted file system
    are in [drivers]. *)
Record machine := Machine {
  LOGGER : LockedLogger.t;
  gdt : Gdt.state G;
  IDT : T;
  LAPIC : L;
  IOAPIC : I;
  timers : Init.t;
  drivers : kernel A F S
}.

(** The messages of [init] itself, of [device::init] and of [timer::init]. *)
Section messages.
Context (src : list Z).
Definition enter_messages : list message :=
  [Message Info (str "enter kernel") (src ++ str "/lib.rs") 61;
   Message Info (str "logger initialized" ++ [10]) (src ++ str "/lib.rs") 62].
Definition device_messages : list message :=
  [Message Info (str "pit set up") (src ++ str "/arch/x64/device/mod.rs") 20].
Definition timer_messages (count : Z) : list message :=
  let timer_rs := src ++ str "/arch/x64/device/timer.rs" in
  [Message Trace (str "pit disabled") timer_rs 23;
   Message Trace (str "lapic count " ++ decimal count ++ str " in 100ms") timer_rs 26;
   Message Info (str "set apic timer") timer_rs 28].
End messages.

(** [memory::init] of the boot information *)
Definition memory_init (boot_info : BootInfo.t) (cr3 : Z) : outcome (Memory.t F) :=
  '(_, mem) ← Memory.init (fun x => match MemoryDescriptor.ty x with CONVENTIONAL => true | OtherMemory => false end)
    MemoryDescriptor.phys_start MemoryDescriptor.page_count
    (BootInfo.physical_memory_offset boot_info) cr3 (BootInfo.memory_map boot_info) (Memory.mk None 0 0);
  Ok mem.

(** [timer::init], interleaved with the events that come in the meantime, and the period it
    has set; the timer of the local APIC has counted down to [current]. *)
Definition timer_init_run (current : Z) (events : list Init.event) : outcome (Init.t * Z) :=
  match foldl Init.step (Init.Live (Init.initial 0 0 current)) events with
  | Init.Live s => match Init.at_ s, Init.periodic s with Init.Done, Some count => Ok (s, count) | _, _ => Fault Diverge end
  | Init.Deadlock => Fault Deadlock
  | Init.Faulted => Fault (Panic POverflow)
  end.

(** [init] up to the call of [process::init]. *)
Definition start_up (boot_info : BootInfo.t) (fb : list Z) (src : list Z) (cr3 base heap current : Z) (events : list Init.event)
    (caps fuel : nat) (hw : S) (devices : list (PCIDevice (Location := Location))) : outcome machine :=
  '(_, log) ← Log.init (BootInfo.graphic_info boot_info) fb (Log.Statics false None false);
  lg ← unwrap (Log.LOGGER log) PUnwrap;
  lg ← foldO log_message lg (enter_messages src);
  mem ← memory_init boot_info cr3;
  '(_, gdt) ← Gdt.init (Gdt.State heap None None None 0 0 0);
  idt ← Idt.init;
  '((lapic, ioapic), mem) ← Apic.init base mem;
  let '(ioapic, _) := Apic.device_init lapic ioapic in
  lg ← foldO log_message lg (device_messages src);
  '(timers, count) ← timer_init_run current events;
  let ioapic := Apic.pit_disable ioapic in
  lg ← foldO log_message lg (timer_messages src count);
  '(_, k) ← Startup.init src caps fuel devices (Kernel (St hw 23 []) None mem);
  lg ← foldO log_message lg (logged (pci k));
  Ok (Machine lg gdt idt lapic ioapic timers k).

(** [init]; the kernel's ELF headers are aligned to 8 bytes. *)
Definition init (boot_info : BootInfo.t) (fb : list Z) (src : list Z) (cr3 base heap current : Z) (events : list Init.event)
    (caps fuel : nat) (hw : S) (devices : list (PCIDevice (Location := Location))) : outcome LockedLogger.t :=
  m ← start_up boot_info fb src cr3 base heap current events caps fuel hw devices;
  process_init src 8 (vfs (drivers m)) (LOGGER m).
End code.

Section proofs.
Context `{HT : Terminal} `{HTL : !TerminalLaws}.
Context {T G I E L : Type} `{HI : InterruptDescriptorTable T} `{HIL : !InterruptDescriptorTableLaws T}
  `{HG : GlobalDescriptorTable G} `{HGL : !GlobalDescriptorTableLaws G}
  `{HO : IoApic I E} `{HOL : !IoApicLaws I E} `{HLA : LocalApic L}.
Context {A Guid F : Type} `{HD : BlockDevice A} `{HDL : !BlockDeviceLaws A} `{HE : EqDecision Guid} `{HS : !Storage A Guid}
  `{HF : PhysFrame F} `{HFL : !PhysFrameLaws F}.
Context {S Location : Type} `{HC : ConfigSpace S Location} `{HCL : !ConfigSpaceLaws S Location}.
#[local] Existing Instance blk.
Context (src : list Z).

(** The free memory of the kernel is the conventional memory of the memory map. *)
Definition conventional (x : MemoryDescriptor.t) : bool :=
  match MemoryDescriptor.ty x with CONVENTIONAL => true | OtherMemory => false end.
Definition range_rep (x : MemoryDescriptor.t) (r : MemoryRange.t F) : Prop :=
  Frame.number (MemoryRange.start r) = MemoryDescriptor.phys_start x / PAGE_SIZE /\ MemoryRange.pages r = MemoryDescriptor.page_count x.
Definition map_ok (l : list MemoryDescriptor.t) : Prop :=
  Forall (fun x => conventional x = true -> 0 <= MemoryDescriptor.phys_start x < FRAMES * PAGE_SIZE) l.

Lemma ranges_ok l : map_ok l -> exists vec,
  Memory.ranges conventional MemoryDescriptor.phys_start MemoryDescriptor.page_count l = Ok vec /\
  Forall2 range_rep (filter (fun x => conventional x = true) l) vec.
Proof.
  induction 1 as [|x l Hx _ (vec & E1 & Hv)]; [exists []; split; [done|constructor]|]. cbn [Memory.ranges].
  destruct (conventional x) eqn:Ec; [|exists vec; by rewrite filter_cons_False by congruence].
  specialize (Hx eq_refl). destruct (containing_address_eq (F := F) _ Hx) as (f & Ef & Hf).
  exists (MemoryRange.mk f (MemoryDescriptor.page_count x) :: vec). unfold Memory.range_of. rewrite phys_new_ok by done. omon. rewrite Ef. omon. rewrite E1. split; [done|].
  rewrite filter_cons_True by done. by constructor.
Qed.

Lemma memory_init_ok boot_info cr3 : map_ok (BootInfo.memory_map boot_info) -> exists vec,
  memory_init (F := F) boot_info cr3 = Ok (Memory.mk (Some (FrameAllocator.new vec)) (BootInfo.physical_memory_offset boot_info) cr3) /\
  Forall2 range_rep (filter (fun x => conventional x = true) (BootInfo.memory_map boot_info)) vec.
Proof.
  intros Hm. destruct (ranges_ok _ Hm) as (vec & Ev & Hv). exists vec. split; [|done].
  unfold memory_init, Memory.init. fold conventional. rewrite Ev. done.
Qed.

(** Devices other than SATA controllers are passed over. *)
Definition not_sata (dev : PCIDevice (Location := Location)) : Prop := class dev <> 1 \/ subclass dev <> 6.

Lemma init_cons caps fuel dev devices (k : kernel A F S) :
  Startup.init src caps fuel (dev :: devices) k = (init_driver src caps fuel dev ≫= fun _ => Startup.init src caps fuel devices) k.
Proof. unfold Startup.init, forM. cbn [foldM]. unfold mbind, M_bind. destruct (init_driver _ _ _ _ k) as [[[] k']|f]; done. Qed.

Lemma init_other caps fuel dev (k : kernel A F S) : not_sata dev -> init_driver src caps fuel dev k = Ok (tt, k).
Proof.
  intros Hd. unfold init_driver. destruct (Z.eqb_spec (class dev) 1), (Z.eqb_spec (subclass dev) 6); try done. destruct Hd; done.
Qed.

Lemma init_others caps fuel before devices (k : kernel A F S) : Forall not_sata before ->
  Startup.init src caps fuel (before ++ devices) k = Startup.init src caps fuel devices k.
Proof.
  induction 1 as [|dev before Hd _ IH]; [done|]. cbn [app]. rewrite init_cons. by rewrite (bind_ok _ _ _ _ _ (init_other _ _ _ _ Hd)).
Qed.

(** One SATA controller, whose disk is mounted. *)
Lemma init_sata_device caps fuel (mem : Memory.t F) before after loc_ addr len debug s n st' irq (k : kernel A F S) :
  let dev := mk_device loc_ 1 6 (Some (BarMemory addr len)) debug in
  Forall not_sata before -> Forall not_sata after -> len <= PAGE_SIZE ->
  enable src caps loc_ (St s n [found_message src dev addr]) = Ok (irq, st') ->
  init_sata src fuel irq addr len (Kernel st' None mem) = Ok (tt, k) ->
  Startup.init src caps fuel (before ++ dev :: after) (Kernel (St s n []) None mem) = Ok (tt, k).
Proof.
  intros dev Hb Ha Hl He Hs. rewrite init_others by done. rewrite init_cons.
  rewrite (bind_ok _ _ _ tt k).
  - rewrite <- (app_nil_r after), init_others by done. done.
  - unfold init_driver, Pci.log. cbn [class subclass bar5 dev loc Startup.pci vfs Startup.memory hw MSI_IRQ logged app Z.eqb Pos.eqb andb]. omon.
    rewrite He. omon. rewrite (proj2 (Z.leb_le _ _)) by done. cbn [assert_]. omon. exact Hs.
Qed.

(** ** What the kernel needs to start *)

(** The screen holds more than a letter, with 32 bits per pixel. *)
Record screen_ok (info : GraphicInfo.t) (fb : list Z) : Prop := {
  screen_hor : font_width < (GraphicInfo.resolution info).1 <= GraphicInfo.stride info;
  screen_ver : val < (GraphicInfo.resolution info).2;
  screen_size : (GraphicInfo.resolution info).2 * GraphicInfo.stride info * 4 <= GraphicInfo.fb_size info < U64;
  screen_depth : GraphicInfo.fb_size info < 5 * ((GraphicInfo.resolution info).1 * (GraphicInfo.resolution info).2);
  screen_fb : zlen fb = GraphicInfo.fb_size info
}.

(** The controllers can be reached through the window onto physical memory. *)
Record apic_ok (off base : Z) (l : L) : Prop := {
  apic_base : 0 <= base;
  apic_local : base + off < U64 /\ canonical_address (base + off);
  apic_io : 0xFEC00000 + off < U64 /\ canonical_address (0xFEC00000 + off);
  apic_build : build (LapicConfig.mk 48 60 61 (base + off) (2 ^ 32 - 1) OneShot) = Some l
}.

(** The disk behind the controller at [addr] has [size] MB of CAFS as [create_img] writes
    them for [file], and the controller comes up with the memory [mem] for its buffers. *)
Record image_disk (mem : Memory.t F) (size addr len : Z) (file : list Z) : Prop := {
  disk_size : 23 <= size <= 1000000000;
  disk_file : Forall u8 file /\ zlen file <= L4_MAX /\ 2 + need 0 (zlen file) <= data_count (img_fs size);
  disk_bar : let off := Memory.PHYSICAL_MEMORY_OFFSET mem in len <= PAGE_SIZE /\ addr + off < U64 /\ canonical_address (addr + off);
  disk_image : exists img ahci ms mem' m w pre e post uuid, Img.create_img size (Some file) = Ok img /\
    run_driver src (ahci_new (addr + Memory.PHYSICAL_MEMORY_OFFSET mem) len) mem = Ok (Some ahci, ms, mem') /\
    logs_plain (ahci_new (addr + Memory.PHYSICAL_MEMORY_OFFSET mem) len) /\ dev_rep ahci m w /\ 2048 <= m <= U64 /\
    gpt_entries (mjoin (w <$> seqZ 0 2048)) = Some (pre ++ e :: post) /\ guid_from_str PARTITION_UUID = Some uuid /\
    Forall (fun p => GptEntry.partition_type_guid p <> uuid) pre /\ GptEntry.partition_type_guid e = uuid /\
    0 <= GptEntry.starting_lba e /\ GptEntry.starting_lba e + 2048 * size <= m /\
    forall b, 0 <= b < 2048 * size -> img !! Z.to_nat b = Some (w (b + GptEntry.starting_lba e))
}.

(** The controller's list of capabilities [l] ends. *)
Record bus_ok (hw : S) (caps : nat) (loc_ : Location) (l : list (Z * Z)) : Prop := {
  bus_caps : chain hw loc_ (byte hw loc_ PCI_CAP_PTR) l;
  bus_length : (length l < caps)%nat /\ zlen l < 2 ^ 31;
  bus_head : read_only loc_ PCI_CAP_PTR
}.

(** What enabling the controller does to the hardware of the bus, and the messages of it. *)
Definition bus_enabled (loc_ : Location) (l : list (Z * Z)) (hw hw' : S) (irq : Z) (ms : list message) : Prop :=
  let k := zlen (filter (fun c => is_msi c = true) l) in
  let orig := word hw loc_ PCI_COMMAND in
  exists s1 s2 ws cs,
    performs [(loc_, PCI_COMMAND, Z.lor orig 0x40f)] hw s1 /\
    walk_writes src loc_ s1 23 l ws cs s2 /\
    performs (if 0 <? k then [] else [(loc_, PCI_COMMAND, Z.lor orig 0xf)]) s2 hw' /\
    irq = 23 + k /\ ms = cs ++ (if 0 <? k then [] else [no_msi_message src]) ++ [done_message src].

Lemma bus_enable hw caps loc_ l log : bus_ok hw caps loc_ l -> exists r hw' irq ms,
  enable src caps loc_ (St hw 23 log) = Ok (r, St hw' irq (log ++ ms)) /\ bus_enabled loc_ l hw hw' irq ms /\
  (Forall ascii src -> Forall plain ms).
Proof.
  intros [Hl [Hc Hb] Hh]. pose proof (length_filter (fun c => is_msi c = true) l) as Hlen.
  destruct (enable_ok src caps (St hw 23 log) loc_ l Hl Hh Hc) as (s1 & s2 & s' & ws & cs & Ee & P1 & Hws & P2 & _);
    [cbn [MSI_IRQ]; lia|cbn [MSI_IRQ]; lia|].
  eexists _, s', _, _. split; [exact Ee|]. split; [by exists s1, s2, ws, cs|]. intros Ha.
  apply Forall_app_2; [by eapply walk_plain|by apply enable_plain].
Qed.

(** ** The messages *)

(** The logger shows something. *)
Definition live (g : Logger.t) : Prop := cursor_ok g /\ exists t, ready g t.

Lemma screen_live info fb : screen_ok info fb -> exists g, Logger.new info fb = Ok g /\ Logger.port g = [Send 10] /\ live g.
Proof.
  intros [Hh Hv Hs Hd Hf]. destruct (GraphicInfo.resolution info) as [hor ver] eqn:Er. cbn [fst snd] in *.
  destruct (new_ok info fb hor ver) as (g & Eg & Hport & Hc & _ & _ & _ & Hr); [done..|]. exists g. split; [done|]. split; [done|].
  split; [done|]. eauto.
Qed.

Lemma log_plain g ms : (forall c, ascii c -> is_Some (get_bitmap c)) -> live g -> Forall plain ms ->
  exists g', foldO log_message (LockedLogger.mk false g) ms = Ok (LockedLogger.mk false g') /\
    Logger.port g' = Logger.port g ++ (WriteChar <$> mjoin (m_text <$> ms)) /\ live g'.
Proof.
  intros Ha [Hc [t Hr]] Hms. destruct (log_messages_ok g t ms Hr Hc) as (g' & Eg & Hp & Hc' & Hr').
  { eapply Forall_impl; [exact Hms|]. intros m. by apply plain_printable. }
  exists g'. split; [done|]. split; [done|]. split; [done|]. eauto.
Qed.

Lemma texts_app (ms ms' : list message) :
  WriteChar <$> mjoin (m_text <$> ms ++ ms') = (WriteChar <$> mjoin (m_text <$> ms)) ++ (WriteChar <$> mjoin (m_text <$> ms')).
Proof. by rewrite fmap_app, join_app, fmap_app. Qed.

Ltac plain_message := split; [apply (bool_decide_unpack _); vm_compute; exact Logic.I|
  apply Forall_app_2; [done|]; apply (bool_decide_unpack _); vm_compute; exact Logic.I].

Lemma own_messages_plain count : Forall ascii src ->
  Forall plain (enter_messages src) /\ Forall plain (device_messages src) /\ Forall plain (timer_messages src count).
Proof.
  intros Hs. split; [|split].
  - repeat apply Forall_cons_2; [plain_message..|done].
  - apply Forall_singleton. plain_message.
  - apply Forall_cons_2; [plain_message|]. apply Forall_cons_2; [|apply Forall_singleton; plain_message].
    split; [|apply Forall_app_2; [done|by apply (bool_decide_unpack _)]].
    repeat apply text_app; try apply decimal_text; by apply (bool_decide_unpack _).
Qed.

Lemma hello_plain contents : Forall ascii src -> plain (hello_message src contents).
Proof.
  intros Hs. split; [|apply Forall_app_2; [done|by apply (bool_decide_unpack _)]].
  apply text_app; [by apply (bool_decide_unpack _)|apply decimal_text].
Qed.

(** ** The parts of the initialisation *)

Lemma run_events {St Ev} (step : St -> Ev -> St) sched s n : foldl step s (sched <$> seq 0 n) = run step sched s n.
Proof. induction n as [|n IH]; [done|]. by rewrite seq_S, fmap_app, foldl_app, IH. Qed.

Lemma timer_runs sched current n s d : run Init.step sched (Init.Live (Init.initial 0 0 current)) n = Init.Live s ->
  calibrated sched 0 0 current n s d -> timer_init_run current (sched <$> seq 0 n) = Ok (s, d).
Proof. intros En (Ha & Hp & _). unfold timer_init_run. by rewrite run_events, En, Ha, Hp. Qed.

Lemma disk_mounts (hw : S) irq log r mem size addr len file : image_disk mem size addr len file -> exists ahci ms mem' fs st st',
  run_driver src (ahci_new (addr + Memory.PHYSICAL_MEMORY_OFFSET mem) len) mem = Ok (Some ahci, ms, mem') /\
  same_window mem mem' /\ (Forall ascii src -> Forall plain ms) /\
  init_sata src 2 r addr len (Kernel (St hw irq log) None mem) = Ok (tt, Kernel (St hw irq (log ++ ms)) (Some (fs, st)) mem') /\
  VFS.read_unstable fs (str "/hello") st = Ok (inr file, st').
Proof.
  intros [Hs (Hu & Hm & Hsp) (_ & HU & Hc) (img & ahci & ms & mem' & m & w & pre & e & post & uuid & Ei & Hn & Hp & Hr & H2 & Hg & Hid & Hpre & He & H0 & Hend & Himg)].
  destruct (run_driver_ok src _ _ _ _ _ Hn) as [Hw Hpl]. set (off := Memory.PHYSICAL_MEMORY_OFFSET mem) in *.
  destruct (init_sata_ok src hw irq log size file img mem mem' r addr len (addr + off) ahci ms m w pre e post uuid) as (fs & st & st1 & _ & E1 & E2 & _);
    try done; [by apply to_virt_ok|]. exists ahci, ms, mem', fs, st, st1. split; [done|]. split; [done|]. split; [auto|]. done.
Qed.

(** C14: the kernel starts, and then stops. With a screen, reachable interrupt controllers, interrupts
    that do not disturb the calibration of the timer, and one SATA controller with the disk that the
    image builder made, [init] runs all its parts in order. The frame allocator gets exactly the
    conventional memory of the boot information, and the memory is in the end what the buffers of the
    AHCI driver have left of it; double faults have a stack pointer; the keyboard has its route and the
    PIT is masked; the timer is periodic, and its period is the difference of the two readings of its
    count-down that were made after at least 2 and at least 102 interrupts of the PIT; the controller is enabled
    on the bus, with an interrupt for each of its MSI capabilities; and the file system is mounted, with /hello as
    the image builder stored it. The serial port has got every
    message that the code logs on this way, in order, and nothing else. Then [process::init] logs the
    length of /hello and fails its assertion: [init] never returns. *)
Theorem kernel_init
    (boot_info : BootInfo.t) (fb : list Z) (cr3 base heap current : Z) (sched : nat -> Init.event) (caps : nat) (hw : S)
    (before after : list (PCIDevice (Location := Location))) (loc_ : Location) (debug : list Z) (bus : list (Z * Z))
    (addr len size : Z) (file : list Z) (l : L) (mem : Memory.t F) :
  let off := BootInfo.physical_memory_offset boot_info in
  let dev := mk_device loc_ 1 6 (Some (BarMemory addr len)) debug in
  let devices := before ++ dev :: after in
  (forall c, ascii c -> is_Some (get_bitmap c)) -> Forall ascii src -> text debug -> screen_ok (BootInfo.graphic_info boot_info) fb ->
  map_ok (BootInfo.memory_map boot_info) -> memory_init boot_info cr3 = Ok mem ->
  0 <= heap -> heap + 20481 < U64 -> apic_ok off base l ->
  (forall e n, exists m, (n <= m)%nat /\ sched m = e) -> 0 <= current -> calm sched 0 0 current ->
  Forall not_sata before -> Forall not_sata after -> bus_ok hw caps loc_ bus -> image_disk mem size addr len file ->
  exists n m vec g count bus_ms ahci dma_ms fs st st' g',
    let events := sched <$> seq 0 n in
    start_up (T := T) (G := G) (I := I) (E := E) (L := L) (F := F) (A := A) (Guid := Guid) boot_info fb src cr3 base heap current events caps 2 hw devices = Ok m /\
    LOGGER m = LockedLogger.mk false g /\
    Logger.port g = Send 10 :: (WriteChar <$> mjoin (m_text <$> enter_messages src ++ device_messages src ++ timer_messages src count ++
      found_message src dev addr :: bus_ms ++ dma_ms)) /\
    mem = Memory.mk (Some (FrameAllocator.new vec)) off cr3 /\
    Forall2 range_rep (filter (fun x => conventional x = true) (BootInfo.memory_map boot_info)) vec /\
    run_driver src (ahci_new (addr + off) len) mem = Ok (Some ahci, dma_ms, memory (drivers m)) /\ same_window mem (memory (drivers m)) /\
    (exists stack, Gdt.stack_pointer (gdt m) Gdt.DOUBLE_FAULT_IST_INDEX = Some stack) /\ Idt.init = Ok (IDT m) /\
    routed (IOAPIC m) 1 (lapic_id (LAPIC m) mod 256) /\ entry_masked (table_entry (IOAPIC m) 2) = true /\
    calibrated sched 0 0 current n (timers m) count /\
    bus_enabled loc_ bus hw (Pci.hw (pci (drivers m))) (MSI_IRQ (pci (drivers m))) bus_ms /\
    vfs (drivers m) = Some (fs, st) /\ VFS.read_unstable fs (str "/hello") st = Ok (inr file, st') /\
    hello src (vfs (drivers m)) (LOGGER m) = Ok (LockedLogger.mk false g') /\
    Logger.port g' = Logger.port g ++ (WriteChar <$> m_text (hello_message src file)) /\
    init (T := T) (G := G) (I := I) (E := E) (L := L) (F := F) (A := A) (Guid := Guid) boot_info fb src cr3 base heap current events caps 2 hw devices = Fault (Panic PAssert).
Proof.
  intros off dev devices Ha Hsrc Hdbg Hscr Hmap Emem Hh0 Hh [Hb0 [Hl1 Hl2] [Hi1 Hi2] Hbuild] Hfair Hcur Hcalm Hbef Haft Hbus Hdisk.
  destruct (calm_calibrates sched 0 0 current Hfair) as (n & tm & count & Erun & Hcal); [lia|unfold U64; lia|lia|done|].
  pose proof (timer_runs sched current n tm count Erun Hcal) as Htm.
  destruct (memory_init_ok boot_info cr3 Hmap) as (vec & Emem' & Hvec). rewrite Emem in Emem'. injection Emem' as ->. fold off in Emem, Hdisk |- *.
  set (mem := Memory.mk (Some (FrameAllocator.new vec)) off cr3) in *.
  destruct (Gdt.gdt_init_ok (G := G) (Gdt.State heap None None None 0 0 0)) as (q & gd & Egdt & _ & _ & Hsp & _); [done|done|].
  destruct (idt_init_ok (T := T)) as (t & Et & _).
  pose proof (apic_init_ok (I := I) (E := E) mem base l Hl1 Hi1 Hl2 Hi2 Hbuild) as Eapic.
  pose proof (device_init_routes (lapic_enable l) (ioapic_new (0xFEC00000 + off))) as Hdev.
  change (ioapic_init IrqVector.IOAPIC_OFFSET (ioapic_new (0xFEC00000 + Memory.PHYSICAL_MEMORY_OFFSET mem)))
    with (ioapic_init IrqVector.IOAPIC_OFFSET (ioapic_new (0xFEC00000 + off))) in Eapic.
  destruct (Apic.device_init _ _) as [io' writes] eqn:Edev in Hdev. destruct Hdev as (R1 & _).
  destruct (pit_disable_ok io' _ R1) as [R1' M2].
  destruct (bus_enable hw caps loc_ bus [found_message src dev addr] Hbus) as (irq & hw' & n' & bus_ms & Een & Hen & Hbp).
  destruct (disk_mounts hw' n' ([found_message src dev addr] ++ bus_ms) irq mem size addr len file Hdisk)
    as (ahci & dma_ms & mem' & fs & st & st' & Edma & Hwin & Hdp & Emnt & Eread).
  pose proof (init_sata_device caps 2 mem before after loc_ addr len debug hw 23 _ irq _ Hbef Haft
    (proj1 (disk_bar _ _ _ _ _ Hdisk)) Een Emnt) as Epci. fold dev devices in Epci.
  destruct (own_messages_plain count Hsrc) as (P1 & P2 & P3).
  destruct (screen_live _ _ Hscr) as (g0 & Eg0 & Q0 & V0).
  destruct (log_plain g0 _ Ha V0 P1) as (g1 & E1 & Q1 & V1).
  destruct (log_plain g1 _ Ha V1 P2) as (g2 & E2 & Q2 & V2).
  destruct (log_plain g2 _ Ha V2 P3) as (g3 & E3 & Q3 & V3).
  destruct (log_plain g3 (([found_message src dev addr] ++ bus_ms) ++ dma_ms) Ha V3) as (g & E4 & Q4 & V4).
  { apply Forall_app_2; [|by apply Hdp]. apply Forall_app_2; [|by apply Hbp]. apply Forall_singleton. by apply found_plain. }
  destruct (log_plain g [hello_message src file] Ha V4) as (g' & E5 & Q5 & _); [by apply Forall_singleton, hello_plain|].
  set (k := Kernel _ (Some (fs, st)) mem') in Epci.
  set (m := Machine (LockedLogger.mk false g) gd t (lapic_enable l) (Apic.pit_disable io') tm k).
  assert (Es : start_up (T := T) (G := G) (I := I) (E := E) (L := L) (F := F) (A := A) (Guid := Guid) boot_info fb src cr3 base heap current
    (sched <$> seq 0 n) caps 2 hw devices = Ok m).
  { unfold start_up. unfold Log.init, LockedLogger.new. rewrite Eg0. cbn [mbind outcome_bind Log.logger_set negb assert_ Log.LOGGER unwrap].
    omon. rewrite E1. omon. rewrite Emem. omon. rewrite Egdt. omon. rewrite Et. omon. rewrite Eapic. omon. rewrite Edev.
    rewrite E2. omon. rewrite Htm. omon. rewrite E3. omon. rewrite Epci. omon. cbn [k pci logged]. rewrite E4. done. }
  assert (Eh : hello src (vfs (drivers m)) (LOGGER m) = Ok (LockedLogger.mk false g')).
  { unfold hello. cbn [m k drivers vfs LOGGER unwrap]. omon. rewrite Eread. omon. cbn [foldO] in E5. by destruct (log_message _ _). }
  exists n, m, vec, g, count, bus_ms, ahci, dma_ms, fs, st, st', g'. cbn zeta. split_and!; try done.
  - rewrite Q4, Q3, Q2, Q1, Q0, <- !app_assoc. cbn [app]. by rewrite !texts_app.
  - by exists q.
  - rewrite Q5. cbn [fmap list_fmap mjoin list_join]. by rewrite app_nil_r.
  - unfold init. rewrite Es. omon. unfold process_init. rewrite Eh. done.
Qed.
End proofs.

(** ** A machine that starts *)
Definition example_boot_info : BootInfo.t :=
  BootInfo.mk [MemoryDescriptor.mk OtherMemory 0 16; MemoryDescriptor.mk CONVENTIONAL 0x100000 256] 0xffff900000000000 tiny_info.

(** The image of a file "hi" behind a controller at 0x1000, which takes its buffers from the conventional memory. *)
Lemma example_disk : exists img, Img.create_img 50 (Some [104; 105]) = Ok img /\
  @image_disk Disk.t Z Z _ _ (example_storage img) Z_frame (str "kernel/src") (example_frames 256 256) 50 0x1000 0x1000 [104; 105].
Proof.
  destruct example_image as (img & E & Hl & Hlen' & Himg). set (l := replicate 2048 zero_block ++ img) in *. exists img. split; [exact E|].
  split; [lia|split; [zeval|zeval]|split; [zeval|]; split; [zeval|right; zeval]|].
  eexists img, (Disk.mk (zlen l) l), _, (example_frames 258 254), (zlen l), (fun b => default zero_block (l !! Z.to_nat b)), [GptEntry.mk 3 34 2047 []],
    (GptEntry.mk 7 2048 200000 []), [], 7. split; [exact E|]. split; [reflexivity|]. split; [intros _ _ _ _; split; [|exact Logic.I];
      split; [apply (text_app (str "AHCI at 0x")); [by apply (bool_decide_unpack _)|apply lower_hex_text]|by apply (bool_decide_unpack _)]|].
  split; [apply disk_of_blocks; exact Hl|].
  split; [rewrite Hlen'; unfold U64; lia|]. split; [reflexivity|]. split; [reflexivity|].
  split; [repeat constructor; discriminate|]. split; [reflexivity|]. cbn [GptEntry.starting_lba]. split; [lia|]. split; [rewrite Hlen'; lia|].
  exact Himg.
Qed.

Lemma kernel_init_witness : exists img n m, Img.create_img 50 (Some [104; 105]) = Ok img /\
  @start_up tiny Example.table (list (option Descriptor)) (Z -> Example.redirection) Example.redirection LapicConfig.t Example.table_idt list_gdt Example.table_ioapic Example.any_lapic
    Disk.t Z Z _ _ (example_storage img) Z_frame (list (Z * Z * Z)) Z (FixedSpace.space FixedSpace.msi_device)
    example_boot_info (replicate 80 0) (str "kernel/src") 0 0xfee00000 Heap.START (2 ^ 32 - 1) (quiet_schedule <$> seq 0 n) 3 2 []
    ([] ++ mk_device 0 1 6 (Some (BarMemory 0x1000 0x1000)) (str "PCIDevice") :: []) = Ok m /\
  memory (drivers m) = example_frames 258 254.
Proof.
  destruct example_disk as (img & Ei & Hd). exists img.
  set (HC := FixedSpace.space FixedSpace.msi_device). set (HL := FixedSpace.space_laws FixedSpace.msi_device).
  destruct (@kernel_init tiny tiny_laws Example.table (list (option Descriptor)) (Z -> Example.redirection) Example.redirection LapicConfig.t Example.table_idt Example.table_laws
    list_gdt list_gdt_laws
    Example.table_ioapic Example.table_ioapic_laws Example.any_lapic Disk.t Z Z _ _ _ (example_storage img) Z_frame Z_frame_laws
    (list (Z * Z * Z)) Z HC HL (str "kernel/src") example_boot_info (replicate 80 0) 0 0xfee00000 Heap.START (2 ^ 32 - 1) quiet_schedule 3 [] [] [] 0
    (str "PCIDevice") [(0x40, 1); (0x50, 5)] 0x1000 0x1000 50 [104; 105]
    (LapicConfig.mk 48 60 61 (0xfee00000 + 0xffff900000000000) (2 ^ 32 - 1) OneShot) (example_frames 256 256))
    as (n & m & _ & _ & _ & _ & ahci & ms & _ & _ & _ & _ & Es & _ & _ & _ & _ & Edma & _).
  - exact Example.tiny_ascii.
  - apply (bool_decide_unpack _); vm_compute; exact Logic.I.
  - apply (bool_decide_unpack _); vm_compute; exact Logic.I.
  - split; try zeval; reflexivity.
  - unfold map_ok. repeat constructor; zeval.
  - reflexivity.
  - zeval.
  - zeval.
  - split; [zeval|split; [zeval|right; zeval]|split; [zeval|right; zeval]|reflexivity].
  - exact quiet_fair.
  - zeval.
  - exact quiet_calm.
  - constructor.
  - constructor.
  - split; [|split; [cbn; lia|cbn; lia]|exact Logic.I].
    change (chain (HL := HL) ([] : list (Z * Z * Z)) 0 0x40 [(0x40, 1); (0x50, 5)]).
    apply (chain_cap (HL := HL) _ 0 0x40); [lia|exact Logic.I|exact Logic.I|].
    change (chain (HL := HL) ([] : list (Z * Z * Z)) 0 0x50 [(0x50, 5)]).
    apply (chain_cap (HL := HL) _ 0 0x50); [lia|exact Logic.I|exact Logic.I|]. apply chain_end. zeval.
  - exact Hd.
  - exists n, m. split; [exact Ei|]. split; [exact Es|].
    pose proof (f_equal (fun r => match r with Ok (_, mem) => mem | Fault _ => example_frames 0 0 end) Edma) as Em. cbn beta iota in Em.
    rewrite <- Em. reflexivity.
Defined.
