(* ===== verification/Testing.v ===== *)
(** The test harness of the kernel: kernel/src/testing.rs, the panic handlers and the entry
    points of kernel/src/lib.rs and main.rs.

    A program is described by what it makes visible, its log messages and its writes to
    ports in order, and by how it goes on: it returns with a state, or faults. The tests
    themselves are parameters; so are the text of a panic and the exit status QEMU gives
    for a value written to its debug port. *)
From S2P Require Import Prelude Machine Device Block Manager Cafs Vfs Frame KernelMemory Config Logger Boot Screen Logging Pci Startup Timers Interrupts Dispatch Kernel.
From Stdlib Require Import ZArith Lia String.
From stdpp Require Import gmap functions sorting list_numbers list.
Local Open Scope Z_scope.

(** ** What is visible *)
Inductive event := Log (level : Level) (text : list Z) | Out (port value : Z) | Hlt.

Definition T (W A : Type) : Type := list event * outcome (A * W).

Definition emit {W} (es : list event) (w : W) : T W unit := (es, Ok (tt, w)).
Definition bind_T {W A B} (m : T W A) (f : A -> W -> T W B) : T W B :=
  match m with
  | (es, Ok (a, w)) => let '(es', r) := f a w in (es ++ es', r)
  | (es, Fault e) => (es, Fault e)
  end.

(** ** testing.rs *)

(** [Testable]: the type name and the function. *)
Record Testable (W : Type) := Test { name : list Z; call : W -> outcome W }.
Arguments Test {W}.
Arguments name {W}.
Arguments call {W}.

Inductive QemuExitCode := Success | Failed.
Definition QemuExitCode_u32 (c : QemuExitCode) : Z := match c with Success => 0x10 | Failed => 0x11 end.

(** [str::contains] *)
Fixpoint starts_with (p s : list Z) : bool :=
  match p, s with
  | [], _ => true
  | x :: p, y :: s => (x =? y) && starts_with p s
  | _ :: _, [] => false
  end.
Fixpoint contains (s p : list Z) : bool :=
  starts_with p s || match s with [] => false | _ :: s => contains s p end.

Section testing.
Context {W : Type}.

Definition exit_qemu (exit_code : QemuExitCode) (w : W) : T W unit := emit [Out 0xf4 (QemuExitCode_u32 exit_code)] w.

Definition test_complete (w : W) : T W unit := exit_qemu Success w.

Definition run (self : Testable W) (w : W) : T W unit :=
  bind_T (emit [Log Info (str "testing " ++ name self ++ str "...")] w) (fun _ w =>
  bind_T ([], w' ← call self w; Ok (tt, w')) (fun _ w =>
  emit [Log Info (str "[ok]")] w)).

Fixpoint run_all (tests : list (Testable W)) (w : W) : T W unit :=
  match tests with
  | [] => emit [] w
  | t :: tests => bind_T (run t w) (fun _ w => run_all tests w)
  end.

(** [test_func] is the contents of target/test-func. *)
Definition selected (test_func : list Z) (tests : list (Testable W)) : list (Testable W) :=
  let fn_name := trim test_func in
  match fn_name with [] => tests | _ => filter (fun t => contains (name t) fn_name = true) tests end.

Definition test_runner (test_func : list Z) (tests : list (Testable W)) (w : W) : T W unit :=
  let tests := selected test_func tests in
  bind_T (emit [Log Info (str "Running " ++ decimal (zlen tests) ++ str " tests")] w) (fun _ w =>
  bind_T (run_all tests w) (fun _ w =>
  bind_T (emit [Log Info (str "test result: ok.")] w) (fun _ w =>
  test_complete w))).

(** ** lib.rs and main.rs *)

(** The text of a panic. *)
Variable panic_info : panic -> list Z.

(** The panic handlers, without and with [cfg(test)]; both end in a loop. *)
Definition panic_handler (info : list Z) : list event := [Log Error info; Hlt].
Definition panic_handler_test (info : list Z) : list event :=
  [Log Error (str "[failed]"); Log Error (str "Error: " ++ info); Out 0xf4 (QemuExitCode_u32 Failed)].

(** What a program shows when a panic ends in [handler]. *)
Definition shown {A} (handler : list Z -> list event) (m : T W A) : list event :=
  match m with
  | (es, Fault (Panic p)) => es ++ handler (panic_info p)
  | (es, _) => es
  end.

(** [_start] of main.rs; [init] is the kernel's. *)
Definition _start (init : T W unit) : list event := shown panic_handler (bind_T init (fun _ w => emit [Hlt] w)).

(** [_start] for [cargo test] *)
Definition _start_test (init : T W unit) (test_func : list Z) (tests : list (Testable W)) : list event :=
  shown panic_handler_test
    (bind_T init (fun _ w => bind_T (test_runner test_func tests w) (fun _ w => emit [Hlt] w))).

(** The exit status of QEMU: that of the first write to the debug port. *)
Fixpoint exit_value (es : list event) : option Z :=
  match es with
  | [] => None
  | Out port v :: es => if port =? 0xf4 then Some v else exit_value es
  | _ :: es => exit_value es
  end.

(** ** What the harness does *)

Lemma exit_value_app es es' : exit_value (es ++ es') = match exit_value es with Some v => Some v | None => exit_value es' end.
Proof. induction es as [|[l s|p v|] es IH]; [done|exact IH| |exact IH]. cbn. by destruct (p =? 0xf4). Qed.

(** The messages of tests that pass. *)
Definition passed (ts : list (Testable W)) : list event :=
  mjoin ((fun t => [Log Info (str "testing " ++ name t ++ str "..."); Log Info (str "[ok]")]) <$> ts).

Lemma exit_passed ts : exit_value (passed ts) = None.
Proof. induction ts as [|t ts IH]; [done|]. exact IH. Qed.

(** Running the tests one after the other, up to the first that does not return. *)
Definition tests_run (ts : list (Testable W)) (w : W) : outcome W := foldO (fun w t => call t w) w ts.

Lemma run_all_ok ts w w' : tests_run ts w = Ok w' -> run_all ts w = (passed ts, Ok (tt, w')).
Proof.
  revert w. induction ts as [|t ts IH]; intros w E; [by injection E as ->|]. cbn in E.
  unfold tests_run in IH. cbn [run_all]. unfold run, emit. destruct (call t w) as [w1|] eqn:Ec; [|done].
  cbn [bind_T mbind outcome_bind] in *. rewrite Ec. cbn. by rewrite (IH w1 E).
Qed.

Lemma run_all_fault ts w e : tests_run ts w = Fault e -> exists pre t post, ts = pre ++ t :: post /\
  run_all ts w = (passed pre ++ [Log Info (str "testing " ++ name t ++ str "...")], Fault e).
Proof.
  revert w. induction ts as [|t ts IH]; intros w E; [done|]. unfold tests_run in *. cbn [foldO] in E.
  cbn [run_all]. unfold run, emit. cbn [bind_T mbind outcome_bind] in *. destruct (call t w) as [w1|e'] eqn:Ec.
  - destruct (IH w1 E) as (pre & t' & post & Ets & Er). exists (t :: pre), t', post. split; [by rewrite Ets|].
    cbn [bind_T mbind outcome_bind]. rewrite Er. done.
  - injection E as ->. exists [], t, ts. split; [done|]. done.
Qed.

Lemma run_all_exit ts w : exit_value (run_all ts w).1 = None /\
  (run_all ts w).2 = w' ← tests_run ts w; Ok (tt, w').
Proof.
  destruct (tests_run ts w) as [w'|e] eqn:E.
  - rewrite (run_all_ok _ _ _ E). split; [apply exit_passed|done].
  - destruct (run_all_fault _ _ _ E) as (pre & t & post & _ & ->). split; [|done]. cbn [fst].
    by rewrite exit_value_app, exit_passed.
Qed.

(** What QEMU sees of a run of the tests. *)
Lemma verdict init test_func tests : exit_value init.1 = None ->
  exit_value (_start_test init test_func tests) =
    match init.2 with
    | Ok (_, w) => match tests_run (selected test_func tests) w with
      | Ok _ => Some (QemuExitCode_u32 Success)
      | Fault (Panic _) => Some (QemuExitCode_u32 Failed)
      | Fault _ => None
      end
    | Fault (Panic _) => Some (QemuExitCode_u32 Failed)
    | Fault _ => None
    end.
Proof.
  intros Hi. unfold _start_test. destruct init as [es [[[] w]|e]]; cbn [fst snd] in *.
  - unfold test_runner, test_complete, exit_qemu, emit. cbn [bind_T].
    pose proof (run_all_exit (selected test_func tests) w) as [Hr1 Hr2].
    destruct (run_all (selected test_func tests) w) as [es' r]. cbn [fst snd] in *. subst r.
    destruct (tests_run (selected test_func tests) w) as [w'|f]; cbn [mbind outcome_bind bind_T app].
    + unfold shown. rewrite exit_value_app, Hi. cbn [exit_value app]. by rewrite !exit_value_app, Hr1.
    + unfold shown. destruct f as [p| | |]; rewrite ?exit_value_app, ?Hi; cbn [exit_value app]; by rewrite ?exit_value_app, Hr1.
  - unfold bind_T, shown. destruct e as [p| | |]; [rewrite exit_value_app, Hi; done|done..].
Qed.
End testing.

(** ** What a developer can rely on *)

(** C35: the test harness tells QEMU the truth. When the start of the kernel does not itself write to
    the debug port, the harness reports success exactly when the kernel starts and every selected test
    returns, each run in the state the one before it left; it reports failure exactly when the start or
    one of these tests panics; and the tests are those whose name contains the trimmed filter. *)
Theorem test_harness {W : Type} (panic_info : panic -> list Z) (init : T W unit) (test_func : list Z) (tests : list (Testable W)) :
  exit_value init.1 = None ->
  let run := _start_test panic_info init test_func tests in
  (exit_value run = Some (QemuExitCode_u32 Success) <->
    exists w w', init.2 = Ok (tt, w) /\ tests_run (selected test_func tests) w = Ok w') /\
  (exit_value run = Some (QemuExitCode_u32 Failed) <->
    (exists p, init.2 = Fault (Panic p)) \/
    exists w p, init.2 = Ok (tt, w) /\ tests_run (selected test_func tests) w = Fault (Panic p)) /\
  (forall t, t ∈ selected test_func tests <-> t ∈ tests /\ contains (name t) (trim test_func) = true).
Proof.
  intros Hi run. unfold run. rewrite verdict by done. split_and!.
  - destruct init.2 as [[[] w]|e]; [destruct (tests_run (selected test_func tests) w) as [w'|e] eqn:E|].
    + split; [eauto|done].
    + split; [by destruct e|]. intros (w1 & w2 & [= <-] & E'). congruence.
    + split; [by destruct e|]. by intros (w1 & w2 & [=] & _).
  - destruct init.2 as [[[] w]|e]; [destruct (tests_run (selected test_func tests) w) as [w'|e] eqn:E|].
    + split; [done|]. intros [[p [=]]|(w1 & p & [= <-] & E')]. congruence.
    + split; [destruct e as [p| | |]; [|done..]; intros _; right; eauto|].
      intros [[p [=]]|(w1 & p & [= <-] & E')]. rewrite E in E'. by injection E' as ->.
    + split; [destruct e as [p| | |]; [|done..]; eauto|]. intros [[p [= ->]]|(w1 & p & [=] & _)]. done.
  - intros t. unfold selected. destruct (trim test_func) as [|c s] eqn:E; [|by rewrite list_elem_of_filter; tauto].
    split; [|tauto]. intros Ht. split; [done|]. by destruct (name t).
Qed.

Lemma test_harness_witness : exit_value (_start_test (W := Z) (fun _ => []) ([Log Info []], Ok (tt, 0)) (str " one ")
    [Test (str "one") (fun w => Ok (w + 1)); Test (str "two") (fun _ => Fault (Panic PAssert))]) = Some 16.
Proof.
  apply (test_harness (W := Z) (fun _ => []) ([Log Info []], Ok (tt, 0)) (str " one ")
    [Test (str "one") (fun w => Ok (w + 1)); Test (str "two") (fun _ => Fault (Panic PAssert))] eq_refl).
  exists 0, 1. split; reflexivity.
Defined.

Section kernel.
Context `{HT : Terminal}.
Context {Idt G I E L : Type} `{HI : InterruptDescriptorTable Idt} `{HG : GlobalDescriptorTable G} `{HO : IoApic I E} `{HLA : LocalApic L}.
Context {A Guid F : Type} `{HD : BlockDevice A} `{HE : EqDecision Guid} `{HS : !Storage A Guid} `{HF : PhysFrame F}.
Context {S Location : Type} `{HC : ConfigSpace S Location}.

Lemma init_faults boot_info fb src cr3 base heap current events caps fuel (hw : S) (devices : list (PCIDevice (Location := Location))) :
  exists f, Kernel.init (T := Idt) (G := G) (I := I) (E := E) (L := L) (F := F) (A := A) (Guid := Guid)
    boot_info fb src cr3 base heap current events caps fuel hw devices = Fault f.
Proof.
  unfold Kernel.init. destruct (start_up _ _ _ _ _ _ _ _ _ _ _ _) as [m|f]; omon; [|by exists f].
  destruct (process_init_fails src (vfs (drivers m)) (LOGGER m)) as [[f Ef] _]. rewrite Ef. by exists f.
Qed.
End kernel.

(** C40: no test of the kernel can pass. The entry point for tests starts the kernel first, and that
    always ends in a fault, at the latest in the assertion of [process::init]: whatever the machine, the
    tests and the filter, no test is run, what is visible does not depend on the tests, and QEMU is
    never told that they succeeded. *)
Theorem kernel_tests_never_pass `{HT : Terminal} {Idt G I E L : Type} `{HI : InterruptDescriptorTable Idt}
    `{HG : GlobalDescriptorTable G} `{HO : IoApic I E} `{HLA : LocalApic L} {A Guid F : Type} `{HD : BlockDevice A}
    `{HE : EqDecision Guid} `{HS : !Storage A Guid} `{HF : PhysFrame F} {S Location : Type} `{HC : ConfigSpace S Location}
    {W : Type} (panic_info : panic -> list Z) (es : list event) (w0 : W)
    boot_info fb src cr3 base heap current events caps fuel (hw : S) (devices : list (PCIDevice (Location := Location)))
    (test_func : list Z) (tests : list (Testable W)) :
  exit_value es = None ->
  let start : T W unit := (es, _ ← Kernel.init (T := Idt) (G := G) (I := I) (E := E) (L := L) (F := F) (A := A) (Guid := Guid)
    boot_info fb src cr3 base heap current events caps fuel hw devices; Ok (tt, w0)) in
  _start_test panic_info start test_func tests = shown panic_info panic_handler_test start /\
  exit_value (_start_test panic_info start test_func tests) <> Some (QemuExitCode_u32 Success).
Proof.
  intros Hes start.
  destruct (init_faults (Idt := Idt) (G := G) (I := I) (E := E) (L := L) (F := F) (A := A) (Guid := Guid)
    boot_info fb src cr3 base heap current events caps fuel hw devices) as [f Ef].
  assert (Es : start = (es, Fault f)) by (unfold start; by rewrite Ef). rewrite Es. split; [done|].
  rewrite verdict by done. cbn [snd]. by destruct f.
Qed.

Lemma kernel_tests_never_pass_witness : exit_value (_start_test (fun _ => []) ([], _ ← @Kernel.init tiny Example.table (list (option Descriptor)) (Z -> Example.redirection)
      Example.redirection LapicConfig.t Example.table_idt list_gdt Example.table_ioapic Example.any_lapic
      Disk.t Z Z _ _ (example_storage []) Z_frame (list (Z * Z * Z)) Z (FixedSpace.space FixedSpace.msi_device)
      example_boot_info (replicate 80 0) (str "kernel/src") 0 0xfee00000 Heap.START (2 ^ 32 - 1) quiet 3 2 [] []; Ok (tt, 0)) [] [Test (str "one") (fun w => Ok w)]) <> Some 16.
Proof.
  apply (@kernel_tests_never_pass tiny Example.table (list (option Descriptor)) (Z -> Example.redirection)
      Example.redirection LapicConfig.t Example.table_idt list_gdt Example.table_ioapic Example.any_lapic
      Disk.t Z Z _ _ (example_storage []) Z_frame (list (Z * Z * Z)) Z (FixedSpace.space FixedSpace.msi_device) Z
      (fun _ => []) [] 0). reflexivity.
Defined.
