(* ===== verification/Tests.v ===== *)
(** The repository's own tests, run on the model: those of fs/src/lib.rs, fs/src/main.rs,
    fs/src/cafs/mod.rs and kernel/src/memory/frame.rs, and the table of
    [Meta::index_blocks] in fs/src/cafs/layout.rs. A test is a computation that ends in a
    panic when an assertion fails; the theorems show that each of them returns. The tests
    on trees of index blocks are in [IndexTests]. *)
From S2P Require Import Prelude Device Block Manager Bitmap Layout Index Resize InodeNumber Utf8 Cafs Vfs Contents Files Inodes Directory Mount Paths Errors FileSystem Namespace Machine Tree Hierarchy Image Frame.
From Stdlib Require Import ZArith Lia.
From stdpp Require Import gmap functions sorting list_numbers list.
Local Open Scope Z_scope.

(** [assert_eq!] *)
Definition assert_eq {A} `{EqDecision A} (a b : A) : outcome unit := assert_ (bool_decide (a = b)) PAssert.

Lemma assert_eq_ok {A} `{EqDecision A} (a b : A) : a = b -> assert_eq a b = Ok tt.
Proof. intros ->. unfold assert_eq. by rewrite bool_decide_true. Qed.

(** ** fs/src/lib.rs *)

Definition test_read_write_block : outcome unit :=
  let disk := Disk.mk 5 (replicate 5 zero_block) in
  x ← unwrap (Disk.data disk !! 2%nat) PIndex;
  assert_eq x zero_block ;;
  let data := replicate 512 5 in
  disk ← write_block disk 2 data;
  out ← read_block disk 2 zero_block;
  assert_eq out data.

(** ** kernel/src/memory/frame.rs *)
Module FrameTest.
Section test.
Context {F : Type} `{PhysFrame F}.
Abbreviation allocator := (FrameAllocator.t F).

Definition range (start pages : Z) : outcome (MemoryRange.t F) :=
  a ← phys_new (Z.shiftl start 12); f ← containing_address a; Ok (MemoryRange.mk f pages).

Definition ranges (l : list (Z * Z)) : outcome (list (MemoryRange.t F)) :=
  foldO (fun acc '(start, pages) => r ← range start pages; Ok (acc ++ [r])) [] l.

(** [assert_eq!(fa.segments[i], ..)]: [PartialEq] of the two fields *)
Definition segment_is (i : nat) (start pages : Z) : M allocator unit := fun fa =>
  seg ← unwrap (FrameAllocator.segments fa !! i) PIndex;
  r ← range start pages;
  assert_ (frame_eqb (MemoryRange.start seg) (MemoryRange.start r) && (MemoryRange.pages seg =? MemoryRange.pages r)) PAssert ;;
  Ok (tt, fa).

Definition give_back (frame : Z) : M allocator unit :=
  a ← lift (phys_new (Z.shiftl frame 12)); f ← lift (containing_address a); FrameAllocator.deallocate f.

(** [fa.segments[i].start = ..; fa.segments[i].pages -= 1;] *)
Definition shorten (i : nat) (start : Z) : M allocator unit := fun fa =>
  seg ← unwrap (FrameAllocator.segments fa !! i) PIndex;
  r ← range start 0;
  pages ← sub64 (MemoryRange.pages seg) 1;
  Ok (tt, FrameAllocator.mk (<[i := MemoryRange.mk (MemoryRange.start r) pages]> (FrameAllocator.segments fa))).

Definition allocate : M allocator unit := FrameAllocator.allocate ;; mret tt.

(** The last segment. *)
Definition last_is (start pages : Z) : M allocator unit := fun fa =>
  last ← sub64 (zlen (FrameAllocator.segments fa)) 1; segment_is (Z.to_nat last) start pages fa.

(** The allocator of the test and the calls on it. *)
Definition start : outcome allocator :=
  segments ← ranges [(1, 10); (200, 1); (203, 218); (500, 101); (602, 1); (1000, 31)];
  Ok (FrameAllocator.mk segments).
Definition steps : M allocator unit :=
  allocate ;;
  segment_is 0 2 9 ;;
  give_back 11 ;;
  segment_is 0 2 10 ;;
  give_back 1 ;;
  segment_is 0 1 11 ;;
  give_back 0 ;;
  segment_is 0 0 12 ;;
  allocate ;;
  allocate ;;
  give_back 0 ;;
  segment_is 0 0 1 ;;
  segment_is 1 2 10 ;;
  allocate ;;
  give_back 199 ;;
  segment_is 1 199 2 ;;
  shorten 1 200 ;;
  give_back 201 ;;
  segment_is 1 200 2 ;;
  give_back 202 ;;
  segment_is 1 200 221 ;;
  segment_is 2 500 101 ;;
  give_back 450 ;;
  give_back 601 ;;
  segment_is 3 500 103 ;;
  segment_is 4 1000 31 ;;
  give_back 2000 ;;
  last_is 2000 1.

Definition case_1 : outcome unit := fa ← start; '(_, _) ← steps fa; Ok tt.
End test.
End FrameTest.

(** ** [test_index_blocks] of fs/src/cafs/layout.rs *)
#[export] Instance level_info_eq_dec : EqDecision LevelInfo.t.
Proof. solve_decision. Defined.

Definition index_blocks_are (size l4 l3 block_directory block_table direct : Z) : outcome unit :=
  info ← Meta.index_blocks size; assert_eq info (LevelInfo.mk l4 l3 block_directory block_table direct).

Definition test_index_blocks : outcome unit :=
  index_blocks_are 0 0 0 0 0 0 ;;
  index_blocks_are 10 0 0 0 0 1 ;;
  index_blocks_are (BLOCK_SIZE - 1) 0 0 0 0 1 ;;
  index_blocks_are BLOCK_SIZE 0 0 0 0 1 ;;
  index_blocks_are (BLOCK_SIZE + 1) 0 0 0 0 2 ;;
  index_blocks_are (DIRECT_MAX - 10) 0 0 0 0 DIRECT_COUNT ;;
  index_blocks_are DIRECT_MAX 0 0 0 0 DIRECT_COUNT ;;
  index_blocks_are (DIRECT_MAX + 1) 0 0 0 1 DIRECT_COUNT ;;
  index_blocks_are BLOCK_TABLE_MAX 0 0 0 1 DIRECT_COUNT ;;
  index_blocks_are (BLOCK_TABLE_MAX + 1) 0 0 1 2 DIRECT_COUNT ;;
  (let size := L3_MAX in
   index_blocks_are size 0 1
     ((size - DIRECT_MAX + BLOCK_DIRECTORY_INDIRECT_MAX - 1) / BLOCK_DIRECTORY_INDIRECT_MAX)
     ((size - DIRECT_MAX + BLOCK_TABLE_INDIRECT_MAX - 1) / BLOCK_TABLE_INDIRECT_MAX) DIRECT_COUNT) ;;
  let size := L3_MAX + 1 in
  index_blocks_are size 1 2
    ((size - DIRECT_MAX + BLOCK_DIRECTORY_INDIRECT_MAX - 1) / BLOCK_DIRECTORY_INDIRECT_MAX)
    ((size - DIRECT_MAX + BLOCK_TABLE_INDIRECT_MAX - 1) / BLOCK_TABLE_INDIRECT_MAX) DIRECT_COUNT.

(** The tests without state to set up. *)
Lemma unit_tests_pass : test_read_write_block = Ok tt /\ FrameTest.case_1 (F := Z) = Ok tt /\ test_index_blocks = Ok tt.
Proof. split_and!; vm_compute; reflexivity. Qed.

(** ** fs/src/cafs/mod.rs *)

Definition fake_fs : outcome (CAFS.t * CAFS.state (CacheManager.t Disk.t)) :=
  let total_blocks := Z.shiftl 20 10 in
  let inode_bitmap_blocks := 2 in
  CAFS.init (Disk.new total_blocks) total_blocks inode_bitmap_blocks.

(** [(0..u32::MAX >> 10).flat_map(|x| x.to_le_bytes())] *)
Definition u32s (n : Z) : list Z := concat (to_le 4 <$> seqZ 0 n).

(** The test with [n] numbers; the test itself takes [2 ^ 22 - 1]. *)
Definition inode_meta_data (n : Z) : outcome unit :=
  let contents := u32s n in
  let total_blocks := Z.shiftl 128 10 in
  let inode_bitmap_blocks := 2 in
  let disk := Disk.mk total_blocks (replicate (Z.to_nat total_blocks) zero_block) in
  '(fs, st) ← CAFS.init disk total_blocks inode_bitmap_blocks;
  '(data, _) ← (meta ← CAFS.create fs 0 Img.test_txt;
                i ← CAFS.deref meta;
                CAFS.write fs (CaInode.inode_number i) contents ;;
                i ← CAFS.deref meta;
                CAFS.cached (CaInode.data i)) st;
  assert_eq data contents.
Definition test_inode_meta_data : outcome unit := inode_meta_data (Z.shiftr (2 ^ 32 - 1) 10).

(** ** fs/src/main.rs: the image, read back *)

(** [String::from_utf8_lossy] of what is printed, after the names of [ls_root]. *)
Definition test_cafs (data : list Z) : outcome (list (list Z) * list Z) :=
  let num_chunks := zlen data / BLOCK_SIZE in
  let vec_u8_array := (fun i => take (Z.to_nat BLOCK_SIZE) (drop (Z.to_nat (i * BLOCK_SIZE)) data)) <$> seqZ 0 num_chunks in
  let disk := Disk.mk (zlen vec_u8_array) vec_u8_array in
  '(cafs, st) ← VFS.new 2 disk;
  '(root, st) ← VFS.ls_root st;
  '(r, _) ← VFS.read_unstable cafs (root_path Img.test_txt) st;
  contents ← (match r with inr c => Ok c | inl _ => Fault (Panic PUnwrap) end);
  Ok (root, from_utf8_lossy contents).

(** ** [FakeDisk] of the tests in fs/src/cafs/layout.rs *)
Module FakeDisk.
Record t := mk { total_blocks : Z; data : gmap Z (list Z) }.

Definition new (total_blocks : Z) : t := mk total_blocks ∅.

Definition read_block (self : t) (block_id : Z) (buf : list Z) : outcome (list Z) :=
  assert_ (block_id <? total_blocks self) PAssert ;;
  assert_ (zlen buf =? BLOCK_SIZE) PAssert ;;
  Ok (match data self !! block_id with Some b => b | None => zero_block end).

Definition write_block (self : t) (block_id : Z) (buf : list Z) : outcome t :=
  assert_ (block_id <? total_blocks self) PAssert ;;
  assert_ (zlen buf =? BLOCK_SIZE) PAssert ;;
  Ok (mk (total_blocks self) (<[block_id := buf]> (data self))).

#[export] Instance device : BlockDevice t := {|
  Device.read_block := read_block;
  Device.write_block := write_block
|}.

Definition block (d : t) (b : Z) : list Z := default zero_block (data d !! b).

Definition rep (d : t) (n : Z) (v : Z -> list Z) : Prop :=
  total_blocks d = n /\ forall b, 0 <= b < n -> block d b = v b /\ block_ok (v b).

(** It is a block device like [fake::Disk]: it keeps only what was written. *)
#[export] Program Instance laws : BlockDeviceLaws t := {| dev_rep := rep |}.
Next Obligation. intros d n v b (_ & H) Hb. by apply H. Qed.
Next Obligation.
  intros d n v b buf (Ht & H) Hb Hl. cbn. unfold read_block. destruct (H b Hb) as [Hv _]. unfold block in Hv.
  rewrite !assert_ok by lia. cbn. by destruct (data d !! b); cbn in Hv; rewrite Hv.
Qed.
Next Obligation.
  intros d n v b buf (Ht & H) Hb Hbuf. pose proof (proj1 Hbuf). cbn. unfold write_block. rewrite !assert_ok by lia.
  eexists. split; [done|]. split; [done|]. intros b' Hb'. unfold block. cbn [data].
  destruct (decide (b = b')) as [->|Hne].
  - by rewrite lookup_insert_eq, fn_lookup_insert.
  - rewrite lookup_insert_ne, fn_lookup_insert_ne by done. by apply H.
Qed.
Next Obligation. intros d n v w (Ht & H) Hvw. split; [done|]. intros b Hb. rewrite <- Hvw by done. auto. Qed.

Lemma new_fake_rep n : rep (new n) n (fun _ => zero_block).
Proof. split; [done|]. intros b _. unfold block. cbn [data new]. rewrite lookup_empty. auto with canyon. Qed.
End FakeDisk.
#[export] Existing Instances FakeDisk.device FakeDisk.laws.

(** ** They pass *)

Lemma u32s_length l : zlen (concat (to_le 4 <$> l)) = 4 * zlen l.
Proof.
  induction l as [|x l IH]; [done|]. rewrite fmap_cons. cbn [concat]. rewrite length_app, length_to_le.
  cbn [length]. lia.
Qed.

Lemma u32s_u8 l : Forall u8 (concat (to_le 4 <$> l)).
Proof.
  induction l as [|x l IH]; [constructor|]. rewrite fmap_cons. cbn [concat]. apply Forall_app.
  split; [apply to_le_u8|done].
Qed.

Lemma fake_fs_ok : exists st, fake_fs = Ok (layout 20480 2, st) /\
  fs_ok 20480 (layout 20480 2) st {[0 := root_dir]} (data_count (layout 20480 2)).
Proof.
  destruct (init_ok (Disk.new 20480) 20480 2 (fun _ => zero_block)) as (st & E & Hok & _);
    [apply Disk.new_rep; lia|unfold BLOCK_BITS, BLOCK_SIZE, U64; lia..|].
  exists st. split; [|exact Hok]. unfold fake_fs. change (Z.shiftl 20 10) with 20480. cbv zeta. exact E.
Qed.

(** An inode that a variable holds reads as its file, whatever happened since. *)
Lemma held_reads {D} `{BlockDeviceLaws D} n fs (st : CAFS.state (CacheManager.t D)) files fr h c f : fs_ok n fs st files fr ->
  h ∈ CAFS.refs st -> CAFS.heap st !! h = Some c -> files !! CaInode.inode_number c = Some f ->
  exists st', (i ← CAFS.deref h; CAFS.cached (CaInode.data i)) st = Ok (f_data f, st').
Proof.
  intros [geo (v & own & Hinv & _)] Hh Hc Hf. pose proof (fi_mem _ _ _ _ _ Hinv) as Hm.
  destruct (mo_cached _ _ _ _ Hm h (mo_refs _ _ _ _ Hm h Hh)) as (i & f' & Hf' & Hi).
  assert (c = inode_view fs i f' own) as -> by congruence. cbn [inode_view CaInode.inode_number] in Hf.
  assert (f' = f) as -> by congruence.
  destruct (file_data_spec fs geo st v files own i f Hinv Hf) as (d & st' & E & -> & _).
  exists st'. unfold mbind, M_bind, CAFS.deref. rewrite Hc. omon. exact E.
Qed.

(** [test_inode_meta_data] with any amount of data that fits. *)
Lemma inode_meta_data_ok n : 0 <= n <= 4194303 -> inode_meta_data n = Ok tt.
Proof.
  intros Hn. unfold inode_meta_data. change (Z.shiftl 128 10) with 131072. set (c := u32s n).
  assert (Hl : zlen c = 4 * n) by (unfold c, u32s; rewrite u32s_length, length_seqZ; lia).
  assert (Hu : Forall u8 c) by apply u32s_u8. set (fs := layout 131072 2).
  assert (Hd : data_count fs = 118784) by reflexivity.
  destruct (init_ok (Disk.new 131072) 131072 2 (fun _ => zero_block)) as (st & E & Hok & Hr & Hlen);
    [apply Disk.new_rep; lia|unfold BLOCK_BITS, BLOCK_SIZE, U64; lia..|]. fold fs in E, Hok.
  change (Disk.mk 131072 _) with (Disk.new 131072). rewrite E. cbn [mbind outcome_bind]. rewrite Hd in Hok.
  destruct (create_ok 131072 fs st {[0 := root_dir]} _ 0 root_dir Img.test_txt 1 Hok) as
    (i & h & st1 & inode & E1 & Hnone & Hi & Hfirst & Hok1 & Hh & Hnum & Hr1 & Hl1).
  - reflexivity.
  - change (inode_count fs) with 8192. lia.
  - reflexivity.
  - rewrite Hlen. unfold INODE_CACHE_SIZE. lia.
  - zeval.
  - zeval.
  - zeval.
  - zeval.
  - assert (i <> 0) by (intros ->; by rewrite lookup_singleton_eq in Hnone).
    assert (Hneed : need 0 (4 * n) <= 40000).
    { transitivity (need 0 16777212); [|vm_compute; discriminate]. unfold need.
      destruct (index_blocks_shape (4 * n)) as (i1 & I1 & S1); [unfold_sizes; lia|].
      destruct (index_blocks_shape 16777212) as (i2 & I2 & S2); [unfold_sizes; lia|].
      rewrite (index_need_ok _ _ I1), (index_need_ok _ _ I2).
      assert (Hc : cdiv (4 * n) 512 <= cdiv 16777212 512) by (unfold cdiv; apply Z.div_le_mono; lia).
      pose proof (shape_mono (4 * n) 16777212 i1 i2) as Hm. pose proof (index_need_ok _ _ I1). clear -Hm Hc S1 S2 Hn.
      assert (index_count i1 <= index_count i2) by (apply Hm; [unfold_sizes; lia|unfold_sizes; lia|done..]). lia. }
    destruct (write_ok 131072 fs st1 _ _ i (new_file File Img.test_txt) c Hok1) as (st2 & E2 & Hok2 & Hr2 & _ & Hnk).
    + rewrite lookup_insert_ne by done. apply lookup_insert_eq.
    + right. left. unfold INODE_CACHE_SIZE. lia.
    + exact Hu.
    + rewrite Hl. unfold_sizes. lia.
    + cbn [new_file f_data length]. change (cdiv (Z.of_nat 0) 512) with 0. unfold cdiv. apply Z.div_pos; lia.
    + cbn [new_file f_data length]. change (Z.of_nat 0) with 0. rewrite Hl.
      assert (need (zlen (f_data root_dir)) (entry_size (f_data root_dir)) = 1) as -> by (vm_compute; reflexivity). lia.
    + destruct (Hnk h inode Hh) as (inode2 & Hh2 & Hnum2).
      destruct (held_reads 131072 fs st2 _ _ h inode2 (set_data (new_file File Img.test_txt) c) Hok2) as (st3 & E3);
        [rewrite Hr2, Hr1; by left|exact Hh2|rewrite Hnum2, Hnum; apply lookup_insert_eq|].
      unfold mbind at 2, M_bind at 1. rewrite E1. unfold mbind at 2, M_bind at 1. unfold CAFS.deref at 1. rewrite Hh.
      cbn [unwrap mbind outcome_bind]. rewrite Hnum. unfold mbind at 2, M_bind at 1. rewrite E2, E3.
      cbn [mbind outcome_bind]. by apply assert_eq_ok.
Qed.

(** Cutting the contents of cafs.bin into blocks. *)
Lemma chunks img : Forall block_ok img ->
  (fun i => take (Z.to_nat BLOCK_SIZE) (drop (Z.to_nat (i * BLOCK_SIZE)) (concat img))) <$>
    seqZ 0 (zlen (concat img) / BLOCK_SIZE) = img.
Proof.
  intros Hok. assert (Hl : zlen (concat img) = zlen img * BLOCK_SIZE).
  { clear -Hok. induction Hok as [|b img [Hb _] _ IH]; [done|]. cbn [concat]. rewrite length_app. cbn [length]. lia. }
  rewrite Hl, Z.div_mul by done. clear Hl. induction Hok as [|b img [Hb _] _ IH]; [done|].
  assert (Hb' : length b = Z.to_nat BLOCK_SIZE) by lia.
  rewrite seqZ_cons by (cbn [length]; lia). rewrite fmap_cons. cbn [concat]. f_equal.
  - rewrite Z.mul_0_l, drop_0, <- Hb'. apply take_app_length.
  - rewrite <- IH at 2. replace (Z.pred (zlen (b :: img))) with (zlen img) by (cbn [length]; lia).
    rewrite <- (fmap_add_seqZ 1 0). rewrite <- list_fmap_compose. apply list_fmap_ext. intros k i Hi.
    apply list_elem_of_lookup_2, elem_of_seqZ in Hi. unfold compose. f_equal.
    replace (Z.to_nat ((1 + i) * BLOCK_SIZE)) with (length b + Z.to_nat (i * BLOCK_SIZE))%nat by (unfold BLOCK_SIZE in *; lia).
    by rewrite <- drop_drop, drop_app_length.
Qed.

(** C36: the repository's tests of the block device, the file system, the image and the frame allocator
    pass: their assertions hold, also the one that writes 16 MB through the cache and reads them through
    a handle that it took before, and the test of the image builder finds both names and the text in
    any image that the builder makes. *)
Theorem repository_tests_pass (size : Z) (file : list Z) :
  23 <= size <= 1000000000 -> Forall u8 file -> zlen file <= L4_MAX -> 2 + need 0 (zlen file) <= data_count (img_fs size) ->
  test_read_write_block = Ok tt /\ FrameTest.case_1 (F := Z) = Ok tt /\ test_index_blocks = Ok tt /\
  (exists st, fake_fs = Ok (layout 20480 2, st)) /\ test_inode_meta_data = Ok tt /\
  exists img, Img.create_img size (Some file) = Ok img /\
    test_cafs (concat img) = Ok ([SLASH] :: [Img.test_txt; Img.hello], Img.test_file).
Proof.
  intros Hs Hu Hm Hsp. destruct unit_tests_pass as (T1 & T2 & T3). split_and!; [exact T1|exact T2|exact T3|..].
  - destruct fake_fs_ok as (st & E & _). by exists st.
  - unfold test_inode_meta_data. change (Z.shiftr (2 ^ 32 - 1) 10) with 4194303. apply inode_meta_data_ok. lia.
  - destruct (img_contents size file Hs Hu Hm Hsp) as (img & fs & st & E & [Hlen Hok] & En & Els & (st' & Er) & _).
    exists img. split; [exact E|]. unfold test_cafs. rewrite (chunks img Hok), Hlen, En. cbn [mbind outcome_bind].
    rewrite Els. cbn [mbind outcome_bind]. rewrite Er. cbn [mbind outcome_bind]. do 2 f_equal.
Qed.

Lemma repository_tests_pass_witness : test_inode_meta_data = Ok tt /\ exists img, Img.create_img 50 (Some [104; 105]) = Ok img /\
    test_cafs (concat img) = Ok ([SLASH] :: [Img.test_txt; Img.hello], Img.test_file).
Proof.
  destruct (repository_tests_pass 50 [104; 105]) as (_ & _ & _ & _ & T & Hi); [zeval..|]. split; [exact T|exact Hi].
Defined.
