(* ===== verification/FakeInode.v ===== *)
(** The inodes of the tests in fs/src/cafs/layout.rs. [fake_inode] builds an inode with its
    index blocks on a [FakeDisk], from the top down and independently of [Meta::forward];
    the inode it builds owns its blocks in the sense of [inode_ok] ([built]), so that the
    operations on it do what [Index] and [Resize] prove of them. *)
From S2P Require Import Prelude Device Machine Block Manager Layout Index Resize Tests.
From Stdlib Require Import ZArith Lia.
From stdpp Require Import gmap functions sorting list_numbers list.
Local Open Scope Z_scope.

(** ** [fake_inode] *)

(** [(100..3_000_000_000)] as the next number, and [by_ref().take(k)]. *)
Definition take_ids (k next : Z) : list Z * Z :=
  let k := Z.min k (3000000000 - next) in (seqZ next k, next + k).

(** [write_block] of an index block *)
Definition write_index (disk : FakeDisk.t) (id : Z) (entries : list Z) (type_ : IndirectBlockType) : outcome FakeDisk.t :=
  write_block disk id (to_bytes [] (IndirectBlock.mk entries (IndirectBlockType_u64 type_))).

(** The nested loops below the L4 block. Every block of a level takes the next 63 numbers
    of the iterator of that level, padded with zeros; the blocks below it are written
    first. [its] holds what is left of the iterators, one for each of the [lv] levels. *)
Definition level_type (lv : nat) : IndirectBlockType :=
  match lv with O => BlockTable | S O => BlockDirectory | _ => L3 end.

Fixpoint write_tree (lv : nat) (ids : list Z) (disk : FakeDisk.t) (its : list (list Z)) :
    outcome (FakeDisk.t * list (list Z)) :=
  match lv with
  | S lv =>
      foldO (fun '(disk, its) id =>
        match its with
        | [] => Ok (disk, its)
        | it :: below =>
            let '(entries, it) := Meta.next_n INDIRECT_LEN it in
            '(disk, below) ← write_tree lv entries disk below;
            disk ← write_index disk id entries (level_type lv);
            Ok (disk, it :: below)
        end) (disk, its) ids
  | O => Ok (disk, its)
  end.

(** [for l4_entry in l4_entries { if l4_entry == 0 { break; } .. }] *)
Fixpoint before_zero (l : list Z) : list Z :=
  match l with [] => [] | x :: l => if x =? 0 then [] else x :: before_zero l end.

(** The indirect part: the root, the index blocks, the data blocks. *)
Definition fake_indirect (size indirect_size : Z) (disk : FakeDisk.t) (next : Z) :
    outcome (Z * list Z * list Z * FakeDisk.t * Z) :=
  l3_counts ← Meta.div_up indirect_size L3_INDIRECT_MAX;
  let '(l3_indexes, next) := take_ids l3_counts next in
  let l4_entries := (Meta.next_n INDIRECT_LEN l3_indexes).1 in
  l3_root ← unwrap (l4_entries !! 0%nat) PIndex;
  let l4_root := 11 in
  disk ← write_index disk l4_root l4_entries L4;
  block_directory_counts ← Meta.div_up indirect_size BLOCK_DIRECTORY_INDIRECT_MAX;
  let '(block_directory_indexes, next) := take_ids block_directory_counts next in
  block_directory_root ← unwrap (block_directory_indexes !! 0%nat) PIndex;
  block_table_counts ← Meta.div_up indirect_size BLOCK_TABLE_INDIRECT_MAX;
  let '(block_table_indexes, next) := take_ids block_table_counts next in
  block_table_root ← unwrap (block_table_indexes !! 0%nat) PIndex;
  blocks_count ← Meta.div_up indirect_size BLOCK_SIZE;
  let '(block_ids, next) := take_ids blocks_count next in
  '(disk, _) ← write_tree 3 (before_zero l4_entries) disk [block_directory_indexes; block_table_indexes; block_ids];
  info ← Meta.index_blocks size;
  let '(root, indexes) := match LevelInfo.root_level info with
    | Some BlockTable => (block_table_root, [block_table_root])
    | Some BlockDirectory => (block_directory_root, [block_directory_root] ++ block_table_indexes)
    | Some L3 => (l3_root, [l3_root] ++ block_directory_indexes ++ block_table_indexes)
    | Some L4 => (l4_root, [l4_root] ++ l3_indexes ++ block_directory_indexes ++ block_table_indexes)
    | None => (0, [])
    end in
  Ok (root, indexes, block_ids, disk, next).

(** The inode, its index blocks, its data blocks, the cache, and the iterator. *)
Definition fake_inode (size : Z) : outcome (Meta.t * list Z * list Z * CacheManager.t FakeDisk.t * Z) :=
  let disk := FakeDisk.new (L4_MAX / BLOCK_SIZE) in
  let next := 100 in
  let indirect_size := if DIRECT_MAX <=? size then size - DIRECT_MAX else 0 in
  '(root, index_ids, block_ids, disk, next) ←
    (if negb (indirect_size =? 0) then fake_indirect size indirect_size disk next else Ok (0, [], [], disk, next));
  direct_size ← (if negb (root =? 0) then Ok DIRECT_COUNT else Meta.div_up size BLOCK_SIZE);
  let inode := Meta.mk size (Meta.next_n DIRECT_COUNT (seqZ 1 direct_size)).1 root (InodeType_u64 File) (replicate 200 0) in
  let ids := Meta.direct inode ++ block_ids in
  Ok (inode, merge_sort Z.le index_ids, ids, CacheManager.new disk, next).

(** ** The trees it writes *)

(** What is left of the iterators after [m] blocks. *)
Fixpoint drops (m : nat) (its : list (list Z)) : list (list Z) :=
  match its with [] => [] | it :: below => drop (63 * m) it :: drops (63 * m) below end.

(** The index blocks below and with [ids]. *)
Fixpoint used (lv : nat) (ids : list Z) (its : list (list Z)) : list Z :=
  match lv, its with
  | S lv, it :: below => ids ++ used lv (take (63 * length ids) it) below
  | _, _ => []
  end.

(** Every level lists the one below. *)
Fixpoint tree (v : Z -> list Z) (lv : nat) (ids : list Z) (its : list (list Z)) : Prop :=
  match lv, its with
  | S lv, it :: below => level_ok v (Z.of_nat lv) ids it /\ tree v lv (take (63 * length ids) it) below
  | _, _ => True
  end.

(** No level has more blocks than the one above can list. *)
Fixpoint fits (its : list (list Z)) : Prop :=
  match its with
  | it :: ((below :: _) as its) => (length below <= 63 * length it)%nat /\ fits its
  | _ => True
  end.

Lemma drops_drops a b its : drops a (drops b its) = drops (b + a) its.
Proof.
  revert a b. induction its as [|it its IH]; intros a b; [done|]. cbn [drops]. rewrite drop_drop, IH.
  f_equal; f_equal; lia.
Qed.

Lemma drops_0 its : drops 0 its = its.
Proof. induction its as [|it its IH]; [done|]. cbn [drops]. by rewrite Nat.mul_0_r, drop_0, IH. Qed.

Lemma drops_done m its : Forall (.= []) its -> drops m its = its.
Proof. intros H. revert m. induction H as [|it its -> H IH]; intros m; [done|]. cbn [drops]. by rewrite drop_nil, IH. Qed.

Lemma length_drops m its : length (drops m its) = length its.
Proof. revert m. induction its as [|it its IH]; intros m; [done|]. cbn. by rewrite IH. Qed.

Lemma Forall_drops (P : Z -> Prop) m its : Forall (Forall P) its -> Forall (Forall P) (drops m its).
Proof. intros H. revert m. induction H as [|it its Hi H IH]; intros m; [done|]. constructor; [by apply Forall_drop|apply IH]. Qed.

Lemma fits_drops m its : fits its -> fits (drops m its).
Proof.
  revert m. induction its as [|it [|below its] IH]; intros m; [done..|]. intros [Hl Hf].
  specialize (IH (63 * m)%nat Hf). cbn [drops fits] in *. split; [|exact IH]. rewrite !length_drop. lia.
Qed.

(** Below the last block of a level there is nothing left. *)
Lemma fits_done it its : fits (it :: its) -> (length it <= 63)%nat -> Forall (.= []) (drops (length it) its).
Proof.
  assert (Hg : forall its it k, fits (it :: its) -> (length it <= k)%nat -> Forall (.= []) (drops k its)).
  { clear. induction its as [|below its IH]; intros it k; [done|]. intros [Hl Hf] Hk. cbn [drops]. constructor.
    - apply drop_ge. lia.
    - apply (IH below); [exact Hf|lia]. }
  intros Hf _. by eapply Hg.
Qed.

Lemma used_nil lv its : used lv [] its = [].
Proof. revert its. induction lv as [|lv IH]; intros [|it its]; [done..|]. cbn. rewrite take_0. apply IH. Qed.

Lemma tree_nil v lv its : tree v lv [] its.
Proof.
  revert its. induction lv as [|lv IH]; intros [|it its]; [done..|]. cbn [tree length]. rewrite Nat.mul_0_r, take_0.
  split; [|apply IH]. intros j id Hj. by rewrite lookup_nil in Hj.
Qed.

Lemma take_more a b (it : list Z) : take (63 * (a + b)) it = take (63 * a) it ++ take (63 * b) (drop (63 * a) it).
Proof. rewrite take_take_drop. f_equal. lia. Qed.

(** A level is split like its blocks. *)
Lemma used_app lv ids1 ids2 its : used lv (ids1 ++ ids2) its ≡ₚ used lv ids1 its ++ used lv ids2 (drops (length ids1) its).
Proof.
  revert ids1 ids2 its. induction lv as [|lv IH]; intros ids1 ids2 [|it below]; [done..|]. cbn [used drops].
  rewrite length_app, take_more, IH. destruct (decide (63 * length ids1 <= length it)%nat) as [Hle|Hgt].
  - rewrite length_take_le by done. solve_Permutation.
  - rewrite (drop_ge it), take_nil, !used_nil by lia. solve_Permutation.
Qed.

Lemma tree_app v lv ids1 ids2 its : tree v lv ids1 its -> tree v lv ids2 (drops (length ids1) its) ->
  tree v lv (ids1 ++ ids2) its.
Proof.
  revert ids1 ids2 its. induction lv as [|lv IH]; intros ids1 ids2 [|it below]; [done..|]. cbn [tree drops].
  intros [H1 T1] [H2 T2]. split.
  - intros j id [Hj|[Hl Hj]]%lookup_app_Some; [by apply H1|]. rewrite (H2 _ _ Hj), drop_drop. do 3 f_equal. lia.
  - rewrite length_app, take_more. destruct (decide (63 * length ids1 <= length it)%nat) as [Hle|Hgt].
    + apply IH; [done|]. by rewrite length_take_le by done.
    + rewrite (drop_ge it) by lia. by rewrite take_nil, app_nil_r.
Qed.

Lemma tree_frame v v' lv ids its : (forall i, i ∈ used lv ids its -> v' i = v i) -> tree v lv ids its -> tree v' lv ids its.
Proof.
  revert ids its. induction lv as [|lv IH]; intros ids [|it below]; [done..|]. cbn [used tree]. intros Hv [Hl Ht]. split.
  - eapply level_ok_frame; [|exact Hl]. intros i Hi. apply Hv. set_solver.
  - apply IH; [|exact Ht]. intros i Hi. apply Hv. set_solver.
Qed.

Lemma used_Forall (P : Z -> Prop) lv ids its : Forall P ids -> Forall (Forall P) its -> Forall P (used lv ids its).
Proof.
  revert ids its. induction lv as [|lv IH]; intros ids [|it below] Hids Hits; [constructor..|].
  apply Forall_cons in Hits as [Hit Hbelow]. cbn [used]. apply Forall_app. split; [done|].
  apply IH; [by apply Forall_take|done].
Qed.

(** ** What [fake_inode] writes *)
Section writing.
Variable n : Z.

Lemma write_index_ok disk v id entries ty : FakeDisk.rep disk n v -> 0 <= id < n -> length entries = 63%nat ->
  Forall u64 entries -> exists disk' v', write_index disk id entries ty = Ok disk' /\ FakeDisk.rep disk' n v' /\
    peek IndirectBlock.t 0 (v' id) = IndirectBlock.mk entries (IndirectBlockType_u64 ty) /\ only [id] v v'.
Proof.
  intros Hrep Hid Hl Hu. set (x := IndirectBlock.mk entries (IndirectBlockType_u64 ty)).
  assert (Hwf : wf x) by (split_and!; [exact Hl|exact Hu|by destruct ty]).
  set (blk := to_bytes [] x).
  assert (Hz : zlen zero_block = 512) by apply zero_block_ok.
  assert (Hl' : zlen blk = 512) by (refine (length_to_bytes zero_block x _ Hwf); exact Hz).
  assert (Hblk : block_ok blk).
  { split; [exact Hl'|]. refine (to_bytes_u8 zero_block x _ Hwf). apply zero_block_ok. }
  assert (Hd : dev_rep (D := FakeDisk.t) disk n v) by exact Hrep.
  destruct (dev_write disk n v id blk Hd Hid Hblk) as (disk' & Ew & Hrep').
  exists disk', (<[id := blk]> v). split_and!; [exact Ew|exact Hrep'| |].
  - rewrite fn_lookup_insert. unfold peek. rewrite drop_0, take_ge.
    + refine (of_to_bytes zero_block x _ Hwf). exact Hz.
    + change (size_of IndirectBlock.t) with 512. lia.
  - intros i Hi. apply fn_lookup_insert_ne. by apply not_elem_of_cons in Hi as [? _].
Qed.

Lemma write_tree_cons lv id ids disk it below : write_tree (S lv) (id :: ids) disk (it :: below) =
  '(disk, below) ← write_tree lv (resize 63 0 it) disk below;
  disk ← write_index disk id (resize 63 0 it) (level_type lv);
  write_tree (S lv) ids disk (drop 63 it :: below).
Proof.
  cbn [write_tree foldO]. change (Meta.next_n INDIRECT_LEN it) with (resize 63 0 it, drop 63 it). cbn beta iota.
  destruct (write_tree lv _ disk below) as [[disk1 below1]|]; [|done]. cbn [mbind outcome_bind].
  by destruct (write_index disk1 id _ _).
Qed.

(** Zero stands for no block: with nothing left it only changes block 0. *)
Lemma write_zeros lv k : 0 < n -> forall disk v its, FakeDisk.rep disk n v -> length its = lv -> Forall (.= []) its ->
  exists disk' v', write_tree lv (replicate k 0) disk its = Ok (disk', its) /\ FakeDisk.rep disk' n v' /\ only [0] v v'.
Proof.
  intros Hn. revert k. induction lv as [|lv IHlv]; intros k disk v its Hrep Hlen Hits; [by exists disk, v|].
  destruct its as [|it below]; [done|]. apply Forall_cons in Hits as [-> Hbelow]. injection Hlen as Hlen.
  revert disk v Hrep. induction k as [|k IH]; intros disk v Hrep; [by exists disk, v|].
  destruct (IHlv 63%nat disk v below Hrep Hlen Hbelow) as (disk1 & v1 & E1 & Hrep1 & O1).
  destruct (write_index_ok disk1 v1 0 (replicate 63 0) (level_type lv) Hrep1) as (disk2 & v2 & E2 & Hrep2 & _ & O2);
    [lia|done|apply Forall_replicate; unfold u64, U64; lia|].
  destruct (IH disk2 v2 Hrep2) as (disk3 & v3 & E3 & Hrep3 & O3). exists disk3, v3. split_and!; [|exact Hrep3|].
  - change (replicate (S k) 0) with (0 :: replicate k 0). rewrite write_tree_cons. change (resize 63 0 []) with (replicate 63 0).
    rewrite E1. cbn [mbind outcome_bind]. rewrite E2. exact E3.
  - intros i Hi. by rewrite O3, O2, O1.
Qed.

Lemma write_tree_spec lv : 0 < n < U64 -> (lv <= 3)%nat -> forall ids k disk v its, FakeDisk.rep disk n v -> length its = lv -> fits its ->
  Forall (fun x => 0 < x < n) ids -> Forall (Forall (fun x => 0 < x < n)) its ->
  k = 0%nat \/ Forall (.= []) (drops (length ids) its) -> NoDup (used lv ids its) ->
  exists disk' v', write_tree lv (ids ++ replicate k 0) disk its = Ok (disk', drops (length ids + k) its) /\
    FakeDisk.rep disk' n v' /\ only (0 :: used lv ids its) v v' /\ tree v' lv ids its.
Proof.
  intros Hn. induction lv as [|lv IHlv]; intros Hlv ids k disk v its Hrep Hlen Hfits Hids Hits Hk Hnd.
  { destruct its; [|done]. exists disk, v. done. }
  revert disk v its Hrep Hlen Hfits Hits Hk Hnd.
  induction Hids as [|id ids Hid Hids IHids]; intros disk v its Hrep Hlen Hfits Hits Hk Hnd.
  { destruct Hk as [->|Hk].
    - exists disk, v. split_and!; [by rewrite drops_0|done|done|apply tree_nil].
    - rewrite drops_0 in Hk. destruct (write_zeros (S lv) k ltac:(lia) disk v its Hrep Hlen Hk) as (disk' & v' & E & Hrep' & O).
      exists disk', v'. split_and!; [by rewrite (drops_done _ its)|done| |apply tree_nil]. by rewrite used_nil. }
  destruct its as [|it below]; [done|]. injection Hlen as Hlen. apply Forall_cons in Hits as [Hit Hbelow].
  assert (Hp : used (S lv) (id :: ids) (it :: below) ≡ₚ
    (id :: used lv (take 63 it) below) ++ used (S lv) ids (drops 1 (it :: below))).
  { apply (used_app (S lv) [id] ids (it :: below)). }
  rewrite Hp in Hnd. apply NoDup_app in Hnd as (Hnd1 & Hdisj & Hnd2). apply NoDup_cons in Hnd1 as [Hni Hnd1].
  assert (Hfb : fits below) by (destruct below; [done|apply Hfits]).
  destruct (IHlv ltac:(lia) (take 63 it) (63 - length it)%nat disk v below Hrep Hlen Hfb) as (disk1 & v1 & E1 & Hrep1 & O1 & T1);
    [by apply Forall_take|done| |done|].
  { destruct (decide (63 <= length it)%nat); [left; lia|right]. rewrite take_ge by lia. by apply fits_done; [|lia]. }
  rewrite <- resize_spec in E1.
  replace (length (take 63 it) + (63 - length it))%nat with 63%nat in E1 by (rewrite length_take; lia).
  destruct (write_index_ok disk1 v1 id (resize 63 0 it) (level_type lv) Hrep1) as (disk2 & v2 & E2 & Hrep2 & Hpk & O2);
    [lia|apply length_resize|apply Forall_resize; [unfold u64; lia|]; eapply Forall_impl; [exact Hit|]; unfold u64; simpl; lia|].
  destruct (IHids disk2 v2 (drops 1 (it :: below)) Hrep2) as (disk3 & v3 & E3 & Hrep3 & O3 & T3).
  { rewrite length_drops. cbn [length]. by rewrite Hlen. }
  { by apply fits_drops. }
  { apply Forall_drops. by constructor. }
  { destruct Hk as [?|Hk]; [by left|right]. rewrite drops_drops. exact Hk. }
  { exact Hnd2. }
  exists disk3, v3. split_and!; [|exact Hrep3| |].
  - rewrite drops_drops in E3. cbn [app]. rewrite write_tree_cons, E1. cbn [mbind outcome_bind]. rewrite E2. exact E3.
  - intros i Hi. rewrite Hp, not_elem_of_cons, not_elem_of_app, not_elem_of_cons in Hi.
    rewrite O3, O2, O1; rewrite ?not_elem_of_cons, ?elem_of_nil; tauto.
  - apply (tree_app v3 (S lv) [id] ids (it :: below)); [|exact T3]. cbn [tree length].
    assert (Hty : IndirectBlockType_u64 (level_type lv) = Z.of_nat lv) by (do 3 (destruct lv as [|lv]; [done|]); lia).
    split.
    + apply level_ok_cons; [|intros j i Hj; by rewrite lookup_nil in Hj]. rewrite O3, Hpk, Hty; [done|].
      intros [->|Hi]%elem_of_cons; [lia|]. apply (Hdisj id); [by left|exact Hi].
    + apply (tree_frame v1); [|exact T1]. intros i Hi. rewrite O3, O2; [done|apply not_elem_of_cons; rewrite elem_of_nil; split; [|tauto]; by intros ->|].
      intros [->|Hi']%elem_of_cons; [|by apply (Hdisj i); [right|]].
      assert (Hu : Forall (fun x => 0 < x < n) (used lv (take 63 it) below)) by (apply used_Forall; [by apply Forall_take|done]).
      rewrite Forall_forall in Hu. specialize (Hu 0 Hi). lia.
Qed.
End writing.

(** The numbers of blocks of the levels, for files that fill at most half of the disk. *)
Definition BLOCKS : Z := L4_MAX / BLOCK_SIZE.

Lemma level_counts size : DIRECT_MAX < size <= L4_MAX / 2 ->
  let s := size - DIRECT_MAX in
  let c3 := cdiv s L3_INDIRECT_MAX in let c2 := cdiv s BLOCK_DIRECTORY_INDIRECT_MAX in
  let c1 := cdiv s BLOCK_TABLE_INDIRECT_MAX in let c0 := cdiv s BLOCK_SIZE in
  c0 = cdiv size 512 - 36 /\ 0 < c3 <= 63 /\ 63 * (c3 - 1) < c2 <= 63 * c3 /\ 63 * (c2 - 1) < c1 <= 63 * c2 /\
  63 * (c1 - 1) < c0 <= 63 * c1 /\ 100 + c3 + c2 + c1 + c0 <= BLOCKS.
Proof.
  intros Hs s c3 c2 c1 c0. unfold c3, c2, c1, c0, s, BLOCKS. change (L4_MAX / 2) with 4032767232 in Hs.
  change (L4_MAX / BLOCK_SIZE) with 15752997. clear s c3 c2 c1 c0.
  split_and!; size_lia.
Qed.

(** The root and the index blocks of a file, of which a smaller file uses only the lower levels. *)
Lemma root_of_size size info v l3s l2s l1s data r3 r2 r1 : DIRECT_MAX < size <= L4_MAX / 2 ->
  Meta.index_blocks size = Ok info ->
  zlen l3s = cdiv (size - DIRECT_MAX) L3_INDIRECT_MAX -> zlen l2s = cdiv (size - DIRECT_MAX) BLOCK_DIRECTORY_INDIRECT_MAX ->
  zlen l1s = cdiv (size - DIRECT_MAX) BLOCK_TABLE_INDIRECT_MAX -> zlen data = cdiv size 512 - 36 ->
  levels v [11] l3s l2s l1s data -> l3s !! 0%nat = Some r3 -> l2s !! 0%nat = Some r2 -> l1s !! 0%nat = Some r1 ->
  exists root index, (match LevelInfo.root_level info with
    | Some BlockTable => (r1, [r1])
    | Some BlockDirectory => (r2, [r2] ++ l1s)
    | Some L3 => (r3, [r3] ++ l2s ++ l1s)
    | Some L4 => (11, [11] ++ l3s ++ l2s ++ l1s)
    | None => (0, [])
    end) = (root, index) /\ root ∈ index /\ zlen index = index_count info /\
    index `suffix_of` [11] ++ l3s ++ l2s ++ l1s /\ (size <= L3_MAX -> index `suffix_of` l3s ++ l2s ++ l1s) /\
    exists lv index', (lv <= 3)%nat /\ index ≡ₚ root :: index' /\ index_rep v lv [root] index' data.
Proof.
  intros Hs E H3 H2 H1 H0 HL R3 R2 R1. destruct (level_counts size Hs) as (C0 & C3 & C2 & C1 & C & _).
  rewrite <- H3, <- H2, <- H1 in *. rewrite C0 in C. rewrite <- H0 in C. assert (Hsz : 0 <= size <= L4_MAX).
  { change (L4_MAX / 2) with 4032767232 in Hs. change L4_MAX with 8065534464. unfold_sizes. lia. }
  pose proof (index_shape size info Hsz E) as Hsh. assert (Hsh' := Hsh).
  assert (HL4 : forall s ty below, level_ok v ty s below -> level_ok v ty [] below).
  { intros s ty below _ j id Hj. by rewrite lookup_nil in Hj. }
  destruct HL as (L4' & L3' & L2' & L1').
  destruct Hsh as [Hd|m Hm Hm1|m n1 Hm Hm1 Hm2 Hm3 Hm4|m n1 n2 Hm Hm1 Hm2 Hm3 Hm4 Hm5 Hm6|m n1 n2 n3 Hm Hm1 Hm2 Hm3 Hm4 Hm5 Hm6 Hm7 Hm8];
    [lia|rewrite <- H0 in Hm; subst m..].
  - destruct (zlen_1 l1s) as [x ->]; [lia|]. injection R1 as ->. exists r1, [r1]. split_and!; [done|by left|done| | |].
    + by apply suffix_app_r, suffix_app_r, suffix_app_r.
    + intros _. by apply suffix_app_r, suffix_app_r.
    + apply (levels_tree v size _ [] [] [] [r1] data 0 Hsh'); try done; first [lia|cbn; lia|split_and!; eauto].
  - destruct (zlen_1 l2s) as [x ->]; [lia|]. injection R2 as ->. exists r2, (r2 :: l1s). split_and!; [done|by left| | | |].
    + unfold index_count. cbn. lia.
    + by apply suffix_app_r, suffix_app_r.
    + intros _. by apply suffix_app_r.
    + apply (levels_tree v size _ [] [] [r2] l1s data 0 Hsh'); try done; first [lia|cbn; lia|split_and!; eauto].
  - destruct (zlen_1 l3s) as [x ->]; [lia|]. injection R3 as ->. exists r3, (r3 :: l2s ++ l1s). split_and!; [done|by left| | | |].
    + unfold index_count. cbn. rewrite length_app. lia.
    + by apply suffix_app_r.
    + done.
    + apply (levels_tree v size _ [] [r3] l2s l1s data 0 Hsh'); try done; first [lia|cbn; lia|split_and!; eauto].
  - exists 11, (11 :: l3s ++ l2s ++ l1s). split_and!; [done|by left| |done| |].
    + unfold index_count. cbn. rewrite !length_app. lia.
    + intros Hle. exfalso. clear - Hle Hm1 H0. size_lia.
    + apply (levels_tree v size _ [11] l3s l2s l1s data 0 Hsh'); try done; first [lia|cbn; lia|split_and!; eauto].
Qed.

Lemma take_ids_ok k next : next + k <= 3000000000 -> take_ids k next = (seqZ next k, next + k).
Proof. intros. unfold take_ids. by rewrite Z.min_l by lia. Qed.

Lemma before_zero_ok (l : list Z) : Forall (fun x => 0 < x) l -> (length l <= 63)%nat -> before_zero (resize 63 0 l) = l.
Proof.
  intros Hl Hlen. rewrite resize_ge by done. clear Hlen. induction Hl as [|x l Hx Hl IH].
  - by destruct (63 - length [])%nat.
  - cbn [app before_zero length]. rewrite (proj2 (Z.eqb_neq x 0)) by lia. f_equal.
    destruct (63 - length l)%nat as [|k] eqn:E.
    + replace (63 - S (length l))%nat with 0%nat by lia. exact IH.
    + replace (63 - S (length l))%nat with k by lia. clear -Hl. induction Hl as [|x l Hx Hl IH]; [by destruct k|].
      cbn [app before_zero]. rewrite (proj2 (Z.eqb_neq x 0)) by lia. by f_equal.
Qed.

(** The tree on the disk: the loops write four levels of consecutive numbers. *)
Lemma fake_tree c3 c2 c1 c0 : 0 < c3 <= 63 -> 63 * (c3 - 1) < c2 <= 63 * c3 -> 63 * (c2 - 1) < c1 <= 63 * c2 ->
  63 * (c1 - 1) < c0 <= 63 * c1 -> 100 + c3 + c2 + c1 + c0 <= BLOCKS ->
  let l3s := seqZ 100 c3 in let l2s := seqZ (100 + c3) c2 in let l1s := seqZ (100 + c3 + c2) c1 in
  let data := seqZ (100 + c3 + c2 + c1) c0 in
  exists disk disk' v, write_index (FakeDisk.new BLOCKS) 11 (resize 63 0 l3s) L4 = Ok disk /\
    write_tree 3 l3s disk [l2s; l1s; data] = Ok (disk', drops (length l3s) [l2s; l1s; data]) /\
    FakeDisk.rep disk' BLOCKS v /\ levels v [11] l3s l2s l1s data.
Proof.
  intros H3 H2 H1 H0 Hn l3s l2s l1s data. assert (Hb : BLOCKS = 15752997) by reflexivity.
  assert (P3 : Forall (fun x => 0 < x < BLOCKS) l3s) by (apply Forall_seqZ; lia).
  assert (P2 : Forall (fun x => 0 < x < BLOCKS) l2s) by (apply Forall_seqZ; lia).
  assert (P1 : Forall (fun x => 0 < x < BLOCKS) l1s) by (apply Forall_seqZ; lia).
  assert (P0 : Forall (fun x => 0 < x < BLOCKS) data) by (apply Forall_seqZ; lia).
  assert (N3 : length l3s = Z.to_nat c3) by apply length_seqZ.
  assert (N2 : length l2s = Z.to_nat c2) by apply length_seqZ.
  assert (N1 : length l1s = Z.to_nat c1) by apply length_seqZ.
  assert (N0 : length data = Z.to_nat c0) by apply length_seqZ.
  destruct (write_index_ok BLOCKS (FakeDisk.new BLOCKS) (fun _ => zero_block) 11 (resize 63 0 l3s) L4) as
    (disk & v & E & Hrep & Hpk & O); [apply FakeDisk.new_fake_rep|lia|apply length_resize| |].
  { apply Forall_resize; [unfold u64, U64; lia|]. eapply Forall_impl; [exact P3|]. unfold u64, U64. simpl. lia. }
  assert (Hused : used 3 l3s [l2s; l1s; data] = seqZ 100 (c3 + c2 + c1)).
  { cbn [used]. rewrite (take_ge l2s), (take_ge l1s) by lia. rewrite app_nil_r, !seqZ_app by lia. by rewrite <- app_assoc, Z.add_assoc. }
  destruct (write_tree_spec BLOCKS 3 ltac:(unfold U64; lia) ltac:(lia) l3s 0 disk v [l2s; l1s; data] Hrep)
    as (disk' & v' & E' & Hrep' & O' & T); try done.
  - cbn [fits]. lia.
  - by repeat constructor.
  - by left.
  - rewrite Hused. apply NoDup_seqZ.
  - exists disk, disk', v'. rewrite app_nil_r, Nat.add_0_r in E'. split_and!; [exact E|exact E'|exact Hrep'|].
    cbn [tree] in T. rewrite (take_ge l2s), (take_ge l1s) in T by lia. destruct T as (T2 & T1 & T0 & _).
    split_and!; [|exact T2|exact T1|exact T0]. apply level_ok_cons; [|intros j i Hj; by rewrite lookup_nil in Hj].
    rewrite O', Hpk; [done|]. rewrite Hused, not_elem_of_cons, elem_of_seqZ. lia.
Qed.

Lemma fake_indirect_ok size : DIRECT_MAX < size <= L4_MAX / 2 ->
  exists root index data disk v next, fake_indirect size (size - DIRECT_MAX) (FakeDisk.new BLOCKS) 100 = Ok (root, index, data, disk, next) /\
    FakeDisk.rep disk BLOCKS v /\ zlen data = cdiv size 512 - 36 /\ root ∈ index /\
    (forall info, Meta.index_blocks size = Ok info -> zlen index = index_count info) /\
    (exists lv index', (lv <= 3)%nat /\ index ≡ₚ root :: index' /\ index_rep v lv [root] index' data) /\
    Forall (fun i => 0 < i < next) index /\ Forall (fun i => 100 <= i < next) data /\ 100 <= next <= BLOCKS /\
    (size <= L3_MAX -> NoDup (index ++ data) /\ Forall (fun i => 100 <= i) index).
Proof.
  intros Hs. destruct (level_counts size Hs) as (C0 & C3 & C2 & C1 & C & Cn). cbv zeta in *.
  assert (Hb : BLOCKS = 15752997) by reflexivity.
  assert (Hdiv : forall y, 0 < y <= L3_INDIRECT_MAX -> Meta.div_up (size - DIRECT_MAX) y = Ok (cdiv (size - DIRECT_MAX) y)).
  { intros y Hy. change (L4_MAX / 2) with 4032767232 in Hs. apply div_up_ok; unfold_sizes; unfold U64; lia. }
  destruct (index_blocks_shape size) as (info & E & _); [change (L4_MAX / 2) with 4032767232 in Hs; change L4_MAX with 8065534464; unfold_sizes; lia|].
  set (c3 := cdiv (size - DIRECT_MAX) L3_INDIRECT_MAX) in *. set (c2 := cdiv (size - DIRECT_MAX) BLOCK_DIRECTORY_INDIRECT_MAX) in *.
  set (c1 := cdiv (size - DIRECT_MAX) BLOCK_TABLE_INDIRECT_MAX) in *. set (c0 := cdiv (size - DIRECT_MAX) BLOCK_SIZE) in *.
  destruct (fake_tree c3 c2 c1 c0 C3 C2 C1 C Cn) as (disk0 & disk & v & E4 & E3 & Hrep & HL).
  assert (Hhead : forall a k, 0 < k -> seqZ a k !! 0%nat = Some a) by (intros; apply lookup_seqZ; lia).
  destruct (root_of_size size info v (seqZ 100 c3) (seqZ (100 + c3) c2) (seqZ (100 + c3 + c2) c1) (seqZ (100 + c3 + c2 + c1) c0)
    100 (100 + c3) (100 + c3 + c2) Hs E) as
    (root & index & Er & Hroot & Hlen & Hsuf & Hsuf3 & Htree);
    first [exact HL|rewrite length_seqZ; lia|apply Hhead; lia|idtac].
  exists root, index, (seqZ (100 + c3 + c2 + c1) c0), disk, v, (100 + c3 + c2 + c1 + c0).
  assert (Happ : seqZ 100 c3 ++ seqZ (100 + c3) c2 ++ seqZ (100 + c3 + c2) c1 = seqZ 100 (c3 + c2 + c1)).
  { rewrite !seqZ_app by lia. by rewrite <- app_assoc, Z.add_assoc. }
  rewrite Happ in Hsuf, Hsuf3. split_and!; [|exact Hrep|rewrite length_seqZ; lia|exact Hroot| |exact Htree| | |lia|lia|].
  - unfold fake_indirect. rewrite (Hdiv L3_INDIRECT_MAX) by (unfold_sizes; lia). fold c3. omon. rewrite take_ids_ok by lia. cbn beta iota.
    change (Meta.next_n INDIRECT_LEN (seqZ 100 c3)).1 with (resize 63 0 (seqZ 100 c3)).
    rewrite lookup_resize by (rewrite ?length_seqZ; lia). rewrite Hhead by lia. cbn [unwrap]. omon.
    rewrite E4. omon. rewrite (Hdiv BLOCK_DIRECTORY_INDIRECT_MAX) by (unfold_sizes; lia). fold c2. omon. rewrite take_ids_ok by lia. cbn beta iota.
    rewrite Hhead by lia. cbn [unwrap]. omon. rewrite (Hdiv BLOCK_TABLE_INDIRECT_MAX) by (unfold_sizes; lia). fold c1. omon. rewrite take_ids_ok by lia. cbn beta iota.
    rewrite Hhead by lia. cbn [unwrap]. omon. rewrite (Hdiv BLOCK_SIZE) by (unfold_sizes; lia). fold c0. omon. rewrite take_ids_ok by lia. cbn beta iota.
    rewrite before_zero_ok; [|apply Forall_seqZ; lia|rewrite length_seqZ; lia]. rewrite E3. omon. rewrite E. omon. by rewrite Er.
  - intros info' E'. rewrite E in E'. by injection E' as <-.
  - destruct Hsuf as [k Hk]. assert (Hall : Forall (fun i => 0 < i < 100 + c3 + c2 + c1 + c0) ([11] ++ seqZ 100 (c3 + c2 + c1))).
    { apply Forall_app. split; [repeat constructor; lia|apply Forall_seqZ; lia]. }
    rewrite Hk in Hall. by apply Forall_app in Hall as [_ ?].
  - apply Forall_seqZ. lia.
  - intros Hle. destruct (Hsuf3 Hle) as [k Hk]. split.
    + assert (Hnd : NoDup (seqZ 100 (c3 + c2 + c1 + c0))) by apply NoDup_seqZ. rewrite seqZ_app, Hk, <- app_assoc in Hnd by lia.
      apply NoDup_app in Hnd as (_ & _ & Hnd). by rewrite !Z.add_assoc in Hnd.
    + assert (Hall : Forall (fun i => 100 <= i) (seqZ 100 (c3 + c2 + c1))) by (apply Forall_seqZ; lia).
      rewrite Hk in Hall. by apply Forall_app in Hall as [_ ?].
Qed.

(** The inode [fake_inode] builds owns the blocks it returns; when it needs no L4 block, whose number
    11 is also that of a data block, they are all different. *)
Record built (size : Z) (m : Meta.t) (index data : list Z) (c : CacheManager.t FakeDisk.t) (v : Z -> list Z) (next : Z) : Prop := {
  b_rep : CacheManager.crep BLOCKS c v [];
  b_meta : meta_rep v m index data;
  b_size : Meta.size m = size;
  b_type : Meta.type_ m = InodeType_u64 File;
  b_direct : length (Meta.direct m) = 36%nat;
  b_count : zlen data = cdiv size 512;
  b_levels info : Meta.index_blocks size = Ok info -> zlen index = index_count info;
  b_index : Forall (fun i => 0 < i < next) index;
  b_data : Forall (fun i => 0 < i < next) data;
  b_next : 100 <= next <= BLOCKS;
  b_small : size <= DIRECT_MAX -> next = 100;
  b_own : size <= L3_MAX -> inode_ok v m index data
}.

(** What [fake_inode] returns of it. *)
Definition returned (m : Meta.t) (index data : list Z) (c : CacheManager.t FakeDisk.t) (next : Z) :
    Meta.t * list Z * list Z * CacheManager.t FakeDisk.t * Z :=
  (m, merge_sort Z.le index, resize (Nat.max 36 (length data)) 0 data, c, next).

Lemma max_size size : 0 <= size <= L4_MAX / 2 -> 0 <= size <= L4_MAX.
Proof. change (L4_MAX / 2) with 4032767232. change L4_MAX with 8065534464. lia. Qed.

Lemma built_direct size : 0 <= size <= DIRECT_MAX -> exists m index data c v next,
  fake_inode size = Ok (returned m index data c next) /\ built size m index data c v next.
Proof.
  intros Hs. assert (Hsz : 0 <= size <= L4_MAX) by (apply max_size; change (L4_MAX / 2) with 4032767232; unfold_sizes; lia).
  assert (Hb : BLOCKS = 15752997) by reflexivity.
  unfold fake_inode. change (L4_MAX / BLOCK_SIZE) with BLOCKS.
  assert (Ei : (if DIRECT_MAX <=? size then size - DIRECT_MAX else 0) = 0).
  { destruct (Z.leb_spec DIRECT_MAX size); lia. }
  rewrite Ei. cbn [Z.eqb negb]. omon. rewrite (div_up_ok size BLOCK_SIZE) by (unfold_sizes; unfold U64; lia). omon.
  assert (Hk : 0 <= cdiv size 512 <= 36) by size_lia. change (cdiv size BLOCK_SIZE) with (cdiv size 512).
  assert (Hk' : length (seqZ 1 (cdiv size 512)) = Z.to_nat (cdiv size 512)) by apply length_seqZ.
  set (data := seqZ 1 (cdiv size 512)) in *. change (Meta.next_n DIRECT_COUNT data).1 with (resize 36 0 data).
  assert (Pd : Forall (fun i => 0 < i < 100) data) by (apply Forall_seqZ; lia).
  set (m := Meta.mk size (resize 36 0 data) 0 (InodeType_u64 File) (replicate 200 0)).
  assert (Hm : meta_rep (fun _ => zero_block) m [] data).
  { split; [done|by eapply Forall_impl; [exact Pd|]; simpl; lia|]. left. split_and!; [apply drop_ge; lia|done|done]. }
  assert (Hix : forall info, Meta.index_blocks size = Ok info -> zlen (@nil Z) = index_count info).
  { intros info E. pose proof (index_shape size info Hsz E) as Hsh. destruct Hsh; subst; [done|exfalso; size_lia..]. }
  exists m, [], data, (CacheManager.new (FakeDisk.new BLOCKS)), (fun _ => zero_block), 100. split.
  { unfold returned. rewrite Nat.max_l by lia. change (negb (0 =? 0)) with false. cbv iota. omon. cbv zeta. by rewrite app_nil_r. }
  split; [by apply CacheManager.new_crep, FakeDisk.new_fake_rep|exact Hm|done|done|apply length_resize|lia|exact Hix|constructor|exact Pd|lia|done|].
  intros _. split; [exact Hm|exact Hsz|cbn; lia|exact Hix|apply NoDup_seqZ|].
  eapply Forall_impl; [exact Pd|]. unfold u64, U64. simpl. lia.
Qed.

Lemma built_indirect size : DIRECT_MAX < size <= L4_MAX / 2 -> exists m index data c v next,
  fake_inode size = Ok (returned m index data c next) /\ built size m index data c v next.
Proof.
  intros Hs. assert (Hsz : 0 <= size <= L4_MAX) by (apply max_size; unfold_sizes; lia).
  assert (Hb : BLOCKS = 15752997) by reflexivity.
  unfold fake_inode. change (L4_MAX / BLOCK_SIZE) with BLOCKS.
  rewrite (proj2 (Z.leb_le _ _)) by lia. rewrite (proj2 (Z.eqb_neq _ _)) by lia. cbn [negb].
  destruct (fake_indirect_ok size ltac:(lia)) as (root & index & ids & disk & v & next & E & Hrep & Hlen & Hroot & Hix & Htree & Pi & Pd & Hnext & Hown).
  assert (Hr : root <> 0).
  { pose proof (proj1 (Forall_forall _ _) Pi root Hroot) as Hp. simpl in Hp. lia. }
  rewrite E. omon. rewrite (proj2 (Z.eqb_neq _ _) Hr). cbn [negb]. omon.
  change (Meta.next_n DIRECT_COUNT (seqZ 1 DIRECT_COUNT)).1 with (seqZ 1 36). set (data := seqZ 1 36 ++ ids).
  assert (Hld : length data = (36 + length ids)%nat) by (unfold data; by rewrite length_app).
  assert (Pd' : Forall (fun i => 0 < i < next) data).
  { apply Forall_app. split; [apply Forall_seqZ; lia|]. eapply Forall_impl; [exact Pd|]. simpl. lia. }
  set (m := Meta.mk size (seqZ 1 36) root (InodeType_u64 File) (replicate 200 0)).
  assert (Hm : meta_rep v m index data).
  { split; [|by eapply Forall_impl; [exact Pd'|]; simpl; lia|].
    { cbn [Meta.direct m]. rewrite resize_le by lia. symmetry. by apply take_app_length'. }
    right.
    destruct Htree as (lv & index' & Hlv & Hp & Hr'). exists lv, index'.
    change (drop 36 data) with ids. split_and!; [done|done| |done].
    intros ->. cbn in Hlen. destruct Hs as [Hgt _]. revert Hlen Hgt. clear. intros. size_lia. }
  exists m, index, data, (CacheManager.new disk), v, next. split.
  { unfold returned. rewrite resize_le, take_ge by lia. done. }
  split; [by apply CacheManager.new_crep|exact Hm|done|done|done|lia|exact Hix|exact Pi|exact Pd'|lia|lia|].
  intros Hle. destruct (Hown Hle) as [Hnd P100]. split; [exact Hm|exact Hsz|cbn; lia|exact Hix| |].
  - unfold data. rewrite (Permutation_app_comm index), <- app_assoc. apply NoDup_app. split_and!; [apply NoDup_seqZ| |].
    + intros x Hx%elem_of_seqZ [Hi|Hi]%elem_of_app; [pose proof (proj1 (Forall_forall _ _) Pd x Hi) as Hp|
        pose proof (proj1 (Forall_forall _ _) P100 x Hi) as Hp]; simpl in Hp; lia.
    + by rewrite Permutation_app_comm.
  - eapply Forall_impl; [exact Pd'|]. unfold u64, U64. simpl. lia.
Qed.

Lemma fake_inode_ok size : 0 <= size <= L4_MAX / 2 -> exists m index data c v next,
  fake_inode size = Ok (returned m index data c next) /\ built size m index data c v next.
Proof.
  intros Hs. destruct (Z.le_gt_cases size DIRECT_MAX); [apply built_direct; lia|apply built_indirect; lia].
Qed.
