(* ===== verification/IndexTests.v ===== *)
(** The tests on the trees of index blocks in fs/src/cafs/layout.rs, on the inodes of
    [FakeInode]. A test is a computation that ends in a panic when an assertion fails; the
    theorem shows that each of them returns. *)
From S2P Require Import Prelude Device Machine Block Manager Layout Index Resize Tests FakeInode.
From Stdlib Require Import ZArith Lia.
From stdpp Require Import gmap functions sorting list_numbers list.
Local Open Scope Z_scope.

(** ** The tests *)

(** [v[i]] *)
Definition at_ (l : list Z) (i : Z) : outcome Z := unwrap (l !! Z.to_nat i) PIndex.

Section steps.
Context {S : Type} `{BlockCache S}.

(** [assert_eq!(inode.get_block_id(i, ..), Some(..))], and [None] *)
Definition finds (inode : Meta.t) (i : Z) (expected : outcome Z) : M S unit :=
  r ← Meta.get_block_id inode i; x ← lift expected; lift (assert_eq r (Some x)).
Definition finds_none (inode : Meta.t) (i : Z) : M S unit :=
  r ← Meta.get_block_id inode i; lift (assert_eq r None).

(** [assert_eq!(inode.blocks(..), (index_ids, block_ids))] *)
Definition blocks_are (inode : Meta.t) (index_ids block_ids : list Z) : M S unit :=
  r ← Meta.blocks inode; lift (assert_eq r (index_ids, block_ids)).

(** One turn of the loop of [test_shrink]; the state is the inode and [prev_size]. *)
Definition shrink_step (st : Meta.t * Z) (new_size : Z) : M S (Meta.t * Z) :=
  let '(inode, prev_size) := st in
  prev_info ← lift (Meta.index_blocks prev_size);
  '(index_ids, block_ids) ← Meta.blocks inode;
  count ← lift (LevelInfo.index_block_count prev_info);
  lift (assert_eq count (zlen index_ids)) ;;
  prev_index_blocks ← lift (LevelInfo.index_block_count prev_info);
  prev_data_blocks ← lift (Meta.data_blocks inode);
  '((dealloc_index_ids, dealloc_data_ids), inode) ← Meta.shrink inode new_size;
  new_info ← lift (Meta.index_blocks (Meta.size inode));
  new_index_blocks ← lift (LevelInfo.index_block_count new_info);
  new_data_blocks ← lift (Meta.data_blocks inode);
  '(index, blocks) ← Meta.blocks inode;
  count ← lift (LevelInfo.index_block_count new_info);
  lift (assert_eq (zlen index) count) ;;
  lift (assert_eq (zlen blocks) new_data_blocks) ;;
  x ← lift (add64 (zlen dealloc_index_ids) new_index_blocks);
  lift (assert_eq prev_index_blocks x) ;;
  x ← lift (add64 (zlen dealloc_data_ids) new_data_blocks);
  lift (assert_eq prev_data_blocks x) ;;
  mret (inode, new_size).

(** One turn of the loop of [test_expand]; the state is the inode and the iterator. *)
Definition expand_step (st : Meta.t * Z) (new_size : Z) : M S (Meta.t * Z) :=
  let '(inode, id_iter) := st in
  curr_info ← lift (Meta.index_blocks (Meta.size inode));
  new_info ← lift (Meta.index_blocks new_size);
  new_index_blocks ← lift (LevelInfo.index_block_count new_info);
  new_blocks ← lift (Meta._data_blocks new_size);
  old_blocks ← lift (Meta.data_blocks inode);
  k ← lift (sub64 new_blocks old_blocks);
  let '(data_blocks, id_iter) := take_ids k id_iter in
  new_count ← lift (LevelInfo.index_block_count new_info);
  curr_count ← lift (LevelInfo.index_block_count curr_info);
  k ← lift (sub64 new_count curr_count);
  let '(index_blocks, id_iter) := take_ids k id_iter in
  inode ← Meta.extend inode new_size new_info data_blocks index_blocks;
  '(index_ids, block_ids) ← Meta.blocks inode;
  lift (assert_eq new_index_blocks (zlen index_ids)) ;;
  blocks ← lift (Meta.data_blocks inode);
  lift (assert_eq blocks (zlen block_ids)) ;;
  mret (inode, id_iter).
End steps.

(** A computation on the blocks of a fake inode. *)
Definition with_inode (size : Z) (f : Meta.t -> list Z -> list Z -> Z -> M (CacheManager.t FakeDisk.t) unit) : outcome unit :=
  '(inode, index_ids, block_ids, cache_manager, id_iter) ← fake_inode size;
  '(_, _) ← f inode index_ids block_ids id_iter cache_manager;
  Ok tt.

Definition test_small_get_block_id : outcome unit :=
  with_inode (BLOCK_SIZE + 10) (fun small _ block_ids _ =>
    finds small 0 (at_ block_ids 0) ;;
    finds small 1 (at_ block_ids 1) ;;
    finds_none small 2).

Definition test_medium_get_block_id : outcome unit :=
  with_inode (DIRECT_MAX * 10) (fun medium _ block_ids _ =>
    finds medium (DIRECT_COUNT - 1) (at_ block_ids (DIRECT_COUNT - 1)) ;;
    finds medium DIRECT_COUNT (at_ block_ids DIRECT_COUNT) ;;
    finds medium (DIRECT_COUNT + 1) (at_ block_ids (DIRECT_COUNT + 1)) ;;
    k ← lift (sub64 (zlen block_ids) 1);
    finds medium k (at_ block_ids k) ;;
    finds_none medium (zlen block_ids) ;;
    k ← lift (add64 (zlen block_ids) 1);
    finds_none medium k).

Definition test_large_get_block_id : outcome unit :=
  with_inode (L3_MAX + BLOCK_DIRECTORY_MAX) (fun inode _ block_ids _ =>
    finds inode 100 (at_ block_ids 100) ;;
    finds inode 10000 (at_ block_ids 10000) ;;
    k ← lift (sub64 (zlen block_ids) 1);
    finds inode k (unwrap (last block_ids) PUnwrap) ;;
    finds_none inode (zlen block_ids)).

Definition test_inode_blocks : outcome unit :=
  '(small, index_ids_small, block_ids_small, cache_manager_small, _) ← fake_inode DIRECT_MAX;
  '(medium, index_ids_medium, block_ids_medium, cache_manager_medium, _) ← fake_inode (BLOCK_DIRECTORY_MAX - BLOCK_SIZE);
  '(large, index_ids_large, block_ids_large, cache_manager_large, _) ← fake_inode (2 * BLOCK_DIRECTORY_MAX);
  '(_, _) ← blocks_are small index_ids_small block_ids_small cache_manager_small;
  '(_, _) ← blocks_are medium index_ids_medium block_ids_medium cache_manager_medium;
  '(_, _) ← blocks_are large index_ids_large block_ids_large cache_manager_large;
  Ok tt.

Definition test_to_vec_filter : outcome unit :=
  with_inode (2 * BLOCK_DIRECTORY_MAX) (fun inode _ _ _ =>
    block_directory_id ← read_at IndirectBlock.t (Meta.indirect inode) 0 (fun block =>
      lift (at_ (IndirectBlock.entries block) 1));
    '(filtered_index, filtered_data) ← read_at IndirectBlock.t (Meta.indirect inode) 0 (fun block =>
      IndirectOps.to_vec block (Some [block_directory_id]));
    blocks ← lift (Meta.data_blocks inode);
    x ← lift (add64 (zlen filtered_data) DIRECT_COUNT);
    x ← lift (add64 x (INDIRECT_LEN * INDIRECT_LEN));
    lift (assert_eq blocks x) ;;
    info ← lift (Meta.index_blocks (Meta.size inode));
    count ← lift (LevelInfo.index_block_count info);
    x ← lift (add64 1 (zlen filtered_index));
    x ← lift (add64 x 64);
    lift (assert_eq count x)).

Definition shrink_sizes : list Z := [
  BLOCK_DIRECTORY_MAX; BLOCK_DIRECTORY_MAX - 10; BLOCK_DIRECTORY_MAX - BLOCK_SIZE; 10 * BLOCK_TABLE_MAX;
  3 * BLOCK_TABLE_MAX; BLOCK_TABLE_MAX; BLOCK_TABLE_MAX - BLOCK_SIZE + 10; BLOCK_TABLE_MAX - BLOCK_SIZE;
  BLOCK_TABLE_MAX - BLOCK_SIZE - 10; BLOCK_TABLE_MAX - 2 * BLOCK_SIZE; 2 * DIRECT_MAX + 10;
  DIRECT_MAX + 10 * BLOCK_SIZE + 20; DIRECT_MAX + BLOCK_SIZE; DIRECT_MAX; 10 * BLOCK_SIZE; 10 * BLOCK_SIZE;
  5 * BLOCK_SIZE - 10; 3 * BLOCK_SIZE + 200; BLOCK_SIZE; 300; 0].

Definition test_shrink : outcome unit :=
  let prev_size := 2 * BLOCK_DIRECTORY_MAX in
  with_inode prev_size (fun inode _ _ _ => foldM shrink_step (inode, prev_size) shrink_sizes ;; mret tt).

Definition extend_sizes : list Z := [
  300; BLOCK_SIZE; BLOCK_SIZE + 20; BLOCK_SIZE * 2; DIRECT_MAX - 50; DIRECT_MAX;
  DIRECT_MAX + 30; DIRECT_MAX + BLOCK_SIZE; DIRECT_MAX + BLOCK_SIZE + 10; DIRECT_MAX + BLOCK_SIZE * 2; DIRECT_MAX * 2;
  BLOCK_TABLE_MAX; BLOCK_TABLE_MAX + 10; BLOCK_TABLE_MAX + DIRECT_MAX; BLOCK_TABLE_MAX + BLOCK_TABLE_INDIRECT_MAX;
  BLOCK_TABLE_MAX * 2; BLOCK_TABLE_MAX * 2 + DIRECT_MAX; BLOCK_DIRECTORY_MAX; BLOCK_DIRECTORY_MAX + DIRECT_MAX - 20;
  L3_MAX; L3_MAX + BLOCK_DIRECTORY_MAX; L3_MAX * 2].

Definition test_expand : outcome unit :=
  with_inode 200 (fun inode _ _ id_iter => foldM expand_step (inode, id_iter) extend_sizes ;; mret tt).

Definition test_clear_size : outcome unit :=
  with_inode (BLOCK_TABLE_MAX * 2) (fun inode index_ids block_ids _ =>
    '(ids, _) ← Meta.clear_size inode;
    x ← lift (add64 (zlen index_ids) (zlen block_ids));
    lift (assert_eq (zlen ids) x)).

(** ** They pass *)

Lemma built_readable size m index data c v next : built size m index data c v next ->
  writable (n := BLOCKS) [] index /\ readable (n := BLOCKS) [] index.
Proof.
  intros Hb. assert (Hw : writable (n := BLOCKS) [] index).
  { eapply Forall_impl; [apply Hb|]. intros i Hi. simpl in Hi. pose proof (b_next _ _ _ _ _ _ _ Hb). split; [lia|by apply not_elem_of_nil]. }
  split; [exact Hw|by apply writable_readable].
Qed.

Lemma with_inode_ok size f : 0 <= size <= L4_MAX / 2 ->
  (forall m index data c v next, built size m index data c v next ->
    spec BLOCKS (f m (merge_sort Z.le index) (resize (Nat.max 36 (length data)) 0 data) next) v [] (fun _ _ => True)) ->
  with_inode size f = Ok tt.
Proof.
  intros Hs Hf. destruct (fake_inode_ok size Hs) as (m & index & data & c & v & next & E & Hb).
  unfold with_inode. rewrite E. omon. destruct (Hf _ _ _ _ _ _ Hb c (b_rep _ _ _ _ _ _ _ Hb)) as ([] & c' & v' & E' & _).
  unfold returned. cbn beta iota. by rewrite E'.
Qed.

Section steps.
Context {St : Type} {n : Z} `{HL : BlockCacheLaws St n}.

Lemma finds_ok m index data v i e x : meta_rep v m index data -> readable (n := n) [] index -> 0 <= Meta.size m <= L4_MAX ->
  zlen data = cdiv (Meta.size m) 512 -> 0 <= i -> e = Ok x -> data !! Z.to_nat i = Some x ->
  spec n (finds m i e) v [] (fun _ v' => v' = v).
Proof.
  intros Hm Hr Hs Hd Hi -> Hx. unfold finds. eapply spec_bind; [apply (get_block_id_spec m index data); auto; cbn; unfold CACHE_SIZE; lia|].
  intros r v' [-> ->]. eapply spec_bind_lift; [done|]. rewrite Hx. eapply spec_lift; [by apply assert_eq_ok|done].
Qed.

Lemma finds_none_ok m index data v i : meta_rep v m index data -> readable (n := n) [] index -> 0 <= Meta.size m <= L4_MAX ->
  zlen data = cdiv (Meta.size m) 512 -> zlen data <= i ->
  spec n (finds_none m i) v [] (fun _ v' => v' = v).
Proof.
  intros Hm Hr Hs Hd Hi. unfold finds_none. eapply spec_bind; [apply (get_block_id_spec m index data); auto; [cbn; unfold CACHE_SIZE; lia|lia]|].
  intros r v' [-> ->]. rewrite lookup_ge_None_2 by lia. eapply spec_lift; [by apply assert_eq_ok|done].
Qed.

Lemma blocks_are_ok m index data v : meta_rep v m index data -> readable (n := n) [] index ->
  spec n (blocks_are m (merge_sort Z.le index) data) v [] (fun _ v' => v' = v).
Proof.
  intros Hm Hr. unfold blocks_are. eapply spec_bind; [apply (blocks_spec m index data); auto; cbn; unfold CACHE_SIZE; lia|].
  intros r v' [-> ->]. eapply spec_lift; [by apply assert_eq_ok|done].
Qed.
End steps.

Lemma at_ok l i x : l !! Z.to_nat i = Some x -> at_ l i = Ok x.
Proof. intros E. unfold at_. by rewrite E. Qed.

Lemma returned_ids (data : list Z) : (36 <= length data)%nat -> resize (Nat.max 36 (length data)) 0 data = data.
Proof. intros. rewrite Nat.max_r, resize_all by lia. done. Qed.

Section built.
Context size m index data c v next (Hb : built size m index data c v next) (Hs : 0 <= size <= L4_MAX / 2).

Lemma built_find i : 0 <= i < zlen data ->
  spec BLOCKS (finds m i (at_ (resize (Nat.max 36 (length data)) 0 data) i)) v [] (fun _ v' => v' = v).
Proof.
  intros Hi. destruct (lookup_lt_is_Some_2 data (Z.to_nat i)) as [x Hx]; [lia|].
  destruct (built_readable _ _ _ _ _ _ _ Hb) as [_ Hr]. pose proof (max_size size Hs) as Hm.
  rewrite <- (b_size _ _ _ _ _ _ _ Hb) in Hm. eapply (finds_ok m index data); [apply Hb|exact Hr|exact Hm| |lia| |exact Hx].
  - rewrite (b_size _ _ _ _ _ _ _ Hb). apply Hb.
  - apply at_ok. by rewrite lookup_resize by lia.
Qed.

Lemma built_find_data i : (36 <= length data)%nat -> 0 <= i < zlen data ->
  spec BLOCKS (finds m i (at_ data i)) v [] (fun _ v' => v' = v).
Proof. intros Hl Hi. pose proof (built_find i Hi) as Hf. by rewrite returned_ids in Hf. Qed.

Lemma built_find_none i : zlen data <= i -> spec BLOCKS (finds_none m i) v [] (fun _ v' => v' = v).
Proof.
  intros Hi. destruct (built_readable _ _ _ _ _ _ _ Hb) as [_ Hr]. pose proof (max_size size Hs) as Hm.
  rewrite <- (b_size _ _ _ _ _ _ _ Hb) in Hm. apply (finds_none_ok m index data); [apply Hb|exact Hr|exact Hm| |exact Hi].
  rewrite (b_size _ _ _ _ _ _ _ Hb). apply Hb.
Qed.

Lemma built_blocks : (36 <= length data)%nat ->
  spec BLOCKS (blocks_are m (merge_sort Z.le index) (resize (Nat.max 36 (length data)) 0 data)) v [] (fun _ v' => v' = v).
Proof.
  intros Hl. destruct (built_readable _ _ _ _ _ _ _ Hb) as [_ Hr]. rewrite returned_ids by done.
  apply blocks_are_ok; [apply Hb|exact Hr].
Qed.
End built.

Ltac same_blocks := intros _ v' ->.

(** The tests of [get_block_id] *)
Lemma get_block_id_tests : test_small_get_block_id = Ok tt /\ test_medium_get_block_id = Ok tt /\ test_large_get_block_id = Ok tt.
Proof.
  split_and!; (apply with_inode_ok; [zeval|]); intros m index data c v next Hb; pose proof (b_count _ _ _ _ _ _ _ Hb) as Hc.
  - change (cdiv (BLOCK_SIZE + 10) 512) with 2 in Hc. eapply spec_bind; [eapply built_find; [exact Hb|zeval|lia]|]. same_blocks.
    eapply spec_bind; [eapply built_find; [exact Hb|zeval|lia]|]. same_blocks.
    eapply spec_conseq; [eapply built_find_none; [exact Hb|zeval|lia]|done].
  - change (cdiv (DIRECT_MAX * 10) 512) with 360 in Hc. change DIRECT_COUNT with 36. cbn [Z.sub Z.add].
    rewrite returned_ids by lia.
    do 3 (eapply spec_bind; [eapply built_find_data; [exact Hb|zeval|lia|lia]|]; same_blocks).
    eapply spec_bind_lift; [apply sub64_ok; lia|].
    eapply spec_bind; [eapply built_find_data; [exact Hb|zeval|lia|lia]|]. same_blocks.
    eapply spec_bind; [eapply built_find_none; [exact Hb|zeval|lia]|]. same_blocks.
    eapply spec_bind_lift; [apply add64_ok; unfold U64; lia|].
    eapply spec_conseq; [eapply built_find_none; [exact Hb|zeval|lia]|done].
  - change (cdiv (L3_MAX + BLOCK_DIRECTORY_MAX) 512) with 254088 in Hc. rewrite returned_ids by lia.
    do 2 (eapply spec_bind; [eapply built_find_data; [exact Hb|zeval|lia|lia]|]; same_blocks).
    eapply spec_bind_lift; [apply sub64_ok; lia|].
    assert (El : unwrap (last data) PUnwrap = at_ data (zlen data - 1)).
    { rewrite last_lookup. unfold at_. replace (Z.to_nat (zlen data - 1)) with (pred (length data)) by lia.
      by destruct (lookup_lt_is_Some_2 data (pred (length data))) as [x ->]; [lia|]. }
    rewrite El. eapply spec_bind; [eapply built_find_data; [exact Hb|zeval|lia|lia]|]. same_blocks.
    eapply spec_conseq; [eapply built_find_none; [exact Hb|zeval|lia]|done].
Qed.

(** The test of [blocks] *)
Lemma inode_blocks_test : test_inode_blocks = Ok tt.
Proof.
  unfold test_inode_blocks.
  destruct (fake_inode_ok DIRECT_MAX) as (m1 & i1 & d1 & c1 & v1 & x1 & -> & B1); [zeval|].
  destruct (fake_inode_ok (BLOCK_DIRECTORY_MAX - BLOCK_SIZE)) as (m2 & i2 & d2 & c2 & v2 & x2 & -> & B2); [zeval|].
  destruct (fake_inode_ok (2 * BLOCK_DIRECTORY_MAX)) as (m3 & i3 & d3 & c3 & v3 & x3 & -> & B3); [zeval|].
  pose proof (b_count _ _ _ _ _ _ _ B1) as L1. pose proof (b_count _ _ _ _ _ _ _ B2) as L2. pose proof (b_count _ _ _ _ _ _ _ B3) as L3.
  change (cdiv DIRECT_MAX 512) with 36 in L1. change (cdiv (BLOCK_DIRECTORY_MAX - BLOCK_SIZE) 512) with 4004 in L2.
  change (cdiv (2 * BLOCK_DIRECTORY_MAX) 512) with 8010 in L3.
  destruct (built_blocks _ _ _ _ _ _ _ B1 ltac:(lia) c1 (b_rep _ _ _ _ _ _ _ B1)) as ([] & c1' & v1' & E1 & _).
  destruct (built_blocks _ _ _ _ _ _ _ B2 ltac:(lia) c2 (b_rep _ _ _ _ _ _ _ B2)) as ([] & c2' & v2' & E2 & _).
  destruct (built_blocks _ _ _ _ _ _ _ B3 ltac:(lia) c3 (b_rep _ _ _ _ _ _ _ B3)) as ([] & c3' & v3' & E3 & _).
  unfold returned. omon. cbn beta iota. rewrite E1. omon. rewrite E2. omon. by rewrite E3.
Qed.

(** The test of [clear_size] *)
Lemma clear_size_test : test_clear_size = Ok tt.
Proof.
  apply with_inode_ok; [zeval|]. intros m index data c v next Hb.
  pose proof (b_count _ _ _ _ _ _ _ Hb) as Hc. change (cdiv (BLOCK_TABLE_MAX * 2) 512) with 198 in Hc.
  destruct (built_readable _ _ _ _ _ _ _ Hb) as [Hw _]. rewrite returned_ids by lia.
  pose proof (b_levels _ _ _ _ _ _ _ Hb (LevelInfo.mk 0 0 1 3 36) eq_refl) as Hl. change (index_count _) with 4 in Hl.
  eapply spec_bind.
  - apply (clear_size_spec m index data v [] File); [apply (b_own _ _ _ _ _ _ _ Hb); zeval|by rewrite (b_type _ _ _ _ _ _ _ Hb)|exact Hw|apply Hb|].
    cbn. unfold CACHE_SIZE. lia.
  - intros [ids m'] v' (_ & Hp & _). assert (Hs : zlen (merge_sort Z.le index) = 4) by (rewrite <- Hl; by rewrite merge_sort_Permutation).
    eapply spec_bind_lift; [apply add64_ok; unfold U64; lia|]. eapply spec_lift; [|done]. apply assert_eq_ok.
    rewrite Hp, length_app. lia.
Qed.

(** ** The loops *)
Section loops.
Context {St : Type} {n : Z} `{HL : BlockCacheLaws St n} (Hn : n <= U64).

Lemma shrink_step_ok m index data v new_size : inode_ok v m index data -> writable (n := n) [] index ->
  0 <= new_size <= Meta.size m ->
  spec n (shrink_step (m, Meta.size m) new_size) v [] (fun r v' => exists m' index' data',
    r = (m', new_size) /\ Meta.size m' = new_size /\ inode_ok v' m' index' data' /\ writable (n := n) [] index').
Proof.
  intros Hm Hw Hs. pose proof (io_size _ _ _ _ Hm) as Hsz.
  destruct (inode_index _ _ _ _ Hm) as (info & E & Hsh & Hix). pose proof (index_block_count_ok _ _ Hsz Hsh) as Ec.
  pose proof (shape_bounds _ _ Hsz Hsh) as Hbd.
  assert (Hmax : L4_MAX < U64) by (vm_compute; reflexivity).
  unfold shrink_step. eapply spec_bind_lift; [exact E|].
  eapply spec_bind; [apply (blocks_spec m index data); [apply Hm|by apply writable_readable|cbn; unfold CACHE_SIZE; lia]|].
  intros [i d] v' [-> [= -> ->]]. eapply spec_bind_lift; [exact Ec|].
  eapply spec_bind_lift; [apply assert_eq_ok; by rewrite merge_sort_Permutation|]. eapply spec_bind_lift; [exact Ec|].
  eapply spec_bind_lift; [by apply data_blocks_ok|].
  eapply spec_bind; [apply (shrink_spec m index data); auto; cbn; unfold CACHE_SIZE; lia|].
  intros [[di dd] m'] v' (index' & data' & Hp & Hd & Hm' & Hs' & _ & _ & _).
  destruct (inode_index _ _ _ _ Hm') as (info' & E' & Hsh' & Hix'). pose proof (io_size _ _ _ _ Hm') as Hsz'.
  pose proof (index_block_count_ok _ _ Hsz' Hsh') as Ec'. pose proof (shape_bounds _ _ Hsz' Hsh') as Hbd'.
  assert (Hw' : writable (n := n) [] index') by (rewrite Hp in Hw; by apply Forall_app in Hw as [? _]).
  pose proof (io_data _ _ _ _ Hm) as Hld. pose proof (io_data _ _ _ _ Hm') as Hld'.
  apply (f_equal length) in Hd. rewrite length_app, length_reverse in Hd.
  assert (Hli : length index = (length index' + length di)%nat) by (rewrite Hp; apply length_app).
  assert (Hdm : cdiv (Meta.size m) 512 <= L4_MAX) by size_lia.
  eapply spec_bind_lift; [exact E'|]. eapply spec_bind_lift; [exact Ec'|]. eapply spec_bind_lift; [by apply data_blocks_ok|].
  eapply spec_bind; [apply (blocks_spec m' index' data'); [apply Hm'|by apply writable_readable|cbn; unfold CACHE_SIZE; lia]|].
  intros [i d] v'' [-> [= -> ->]]. eapply spec_bind_lift; [exact Ec'|].
  eapply spec_bind_lift; [apply assert_eq_ok; by rewrite merge_sort_Permutation|].
  eapply spec_bind_lift; [apply assert_eq_ok; exact Hld'|].
  eapply spec_bind_lift; [apply add64_ok; lia|]. eapply spec_bind_lift; [apply assert_eq_ok; lia|].
  eapply spec_bind_lift; [apply add64_ok; lia|]. eapply spec_bind_lift; [apply assert_eq_ok; lia|].
  apply spec_ret. exists m', index', data'. auto.
Qed.

(** Sizes that only go down *)
Lemma shrink_loop sizes : forall m index data v, inode_ok v m index data -> writable (n := n) [] index ->
  StronglySorted Z.ge (Meta.size m :: sizes) -> Forall (fun s => 0 <= s) sizes ->
  spec n (foldM shrink_step (m, Meta.size m) sizes) v [] (fun _ _ => True).
Proof.
  induction sizes as [|s sizes IH]; intros m index data v Hm Hw Hs Hp; [by apply spec_ret|].
  apply StronglySorted_inv in Hs as [Hs Hge]. apply Forall_cons in Hge as [Hge _]. apply Forall_cons in Hp as [Hp Hps].
  cbn [foldM]. eapply spec_bind; [apply (shrink_step_ok m index data); auto; lia|].
  intros r v' (m' & index' & data' & -> & <- & Hm' & Hw'). by apply (IH m' index' data').
Qed.
End loops.

Lemma shrink_test : test_shrink = Ok tt.
Proof.
  apply with_inode_ok; [zeval|]. intros m index data c v next Hb.
  destruct (built_readable _ _ _ _ _ _ _ Hb) as [Hw _]. pose proof (b_size _ _ _ _ _ _ _ Hb) as Hs.
  eapply spec_bind; [|intros r v' _; by apply spec_ret]. rewrite <- Hs at 1. apply (shrink_loop (n := BLOCKS)) with index data.
  - zeval.
  - apply (b_own _ _ _ _ _ _ _ Hb). zeval.
  - exact Hw.
  - rewrite Hs. repeat constructor; vm_compute; discriminate.
  - repeat constructor; vm_compute; discriminate.
Qed.

(** ** Growing *)
Section growing.
Context {St : Type} {n : Z} `{HL : BlockCacheLaws St n}.

(** The numbers below [next] have been given out, all but [base] of them to the inode. *)
Record grown (base : Z) (m : Meta.t) (index data : list Z) (v : Z -> list Z) (next : Z) : Prop := {
  g_own : inode_ok v m index data;
  g_ids : Forall (fun i => 0 < i < next) (index ++ data);
  g_next : next = base + zlen index + zlen data
}.

(** There is room on the device for a file of [size] bytes. *)
Definition room (base size : Z) : Prop :=
  0 <= size <= L4_MAX /\ forall info, Meta.index_blocks size = Ok info -> base + index_count info + cdiv size 512 <= n.

Lemma expand_step_ok base m index data v next new_size : n <= 3000000000 -> 0 < base -> grown base m index data v next ->
  Meta.size m <= new_size -> room base new_size ->
  spec n (expand_step (m, next) new_size) v [] (fun r v' => exists m' index' data' next',
    r = (m', next') /\ Meta.size m' = new_size /\ grown base m' index' data' v' next').
Proof.
  intros Hn Hbase [Hm Hids Hnext] Hge [Hsz' Hroom]. pose proof (io_size _ _ _ _ Hm) as Hsz.
  destruct (inode_index _ _ _ _ Hm) as (info & E & Hsh & Hix). pose proof (io_data _ _ _ _ Hm) as Hd.
  destruct (index_blocks_shape new_size Hsz') as (info' & E' & Hsh'). specialize (Hroom info' E').
  assert (Hc : cdiv (Meta.size m) 512 <= cdiv new_size 512) by (clear - Hge; size_lia).
  pose proof (shape_mono _ _ _ _ Hsz Hsz' Hc Hsh Hsh') as Hi.
  pose proof (index_block_count_ok _ _ Hsz Hsh) as Ec. pose proof (index_block_count_ok _ _ Hsz' Hsh') as Ec'.
  set (k := cdiv new_size 512 - cdiv (Meta.size m) 512). set (j := index_count info' - index_count info).
  set (new_data := seqZ next k). set (new_index := seqZ (next + k) j).
  assert (Lk : zlen new_data = k) by (unfold new_data; rewrite length_seqZ; lia).
  assert (Lj : zlen new_index = j) by (unfold new_index; rewrite length_seqZ; lia).
  assert (Hall : Forall (fun i => 0 < i < next + k + j) ((index ++ new_index) ++ data ++ new_data)).
  { apply Forall_app in Hids as [Hi1 Hi2]. apply Forall_app; split; (apply Forall_app; split);
      [eapply Forall_impl; [exact Hi1|]; simpl; lia|apply Forall_seqZ; lia|eapply Forall_impl; [exact Hi2|]; simpl; lia|apply Forall_seqZ; lia]. }
  assert (Hnd : NoDup ((index ++ new_index) ++ data ++ new_data)).
  { assert (Hp : (index ++ new_index) ++ data ++ new_data ≡ₚ (index ++ data) ++ seqZ next (k + j)).
    { rewrite seqZ_app by lia. fold new_data new_index. solve_Permutation. }
    rewrite Hp. apply NoDup_app. split_and!; [apply Hm| |apply NoDup_seqZ].
    intros x Hx Hx'%elem_of_seqZ. pose proof (proj1 (Forall_forall _ _) Hids x Hx) as Hx1. simpl in Hx1. lia. }
  assert (Hw : writable (n := n) [] (index ++ new_index)).
  { apply Forall_app in Hall as [Hall _]. eapply Forall_impl; [exact Hall|]. intros i Hi'. simpl in Hi'.
    split; [lia|by apply not_elem_of_nil]. }
  unfold expand_step. eapply spec_bind_lift; [exact E|]. eapply spec_bind_lift; [exact E'|]. eapply spec_bind_lift; [exact Ec'|].
  eapply spec_bind_lift; [by apply data_blocks_ok|]. eapply spec_bind_lift; [by apply data_blocks_ok|].
  eapply spec_bind_lift; [apply sub64_ok; lia|]. fold k. rewrite take_ids_ok by lia. fold new_data. cbn beta iota.
  eapply spec_bind_lift; [exact Ec'|]. eapply spec_bind_lift; [exact Ec|]. eapply spec_bind_lift; [apply sub64_ok; lia|]. fold j.
  rewrite take_ids_ok by lia. fold new_index. cbn beta iota.
  eapply spec_bind.
  { apply (extend_spec m index data new_size info' new_data new_index); [unfold U64; lia|exact Hm|lia|exact E'|rewrite length_app; lia|
      rewrite length_app; lia|exact Hnd|exact Hw|apply Forall_seqZ; unfold U64; lia|cbn; unfold CACHE_SIZE; lia]. }
  intros m' v' (Hm' & Hs' & _ & _ & _). eapply spec_bind; [apply (blocks_spec m' (index ++ new_index) (data ++ new_data) v'); [apply Hm'|by apply writable_readable|cbn; unfold CACHE_SIZE; lia]|].
  intros [i d] v'' [-> [= -> ->]].
  eapply spec_bind_lift; [apply assert_eq_ok; rewrite merge_sort_Permutation, length_app; lia|].
  eapply spec_bind_lift; [apply data_blocks_ok; lia|]. eapply spec_bind_lift; [apply assert_eq_ok; rewrite length_app, Hs'; lia|].
  apply spec_ret. exists m', (index ++ new_index), (data ++ new_data), (next + k + j).
  split_and!; [done|done|]. split; [exact Hm'|exact Hall|rewrite !length_app; lia].
Qed.

Lemma expand_loop base sizes : n <= 3000000000 -> 0 < base -> forall m index data v next, grown base m index data v next ->
  StronglySorted Z.le (Meta.size m :: sizes) -> Forall (room base) sizes ->
  spec n (foldM expand_step (m, next) sizes) v [] (fun _ _ => True).
Proof.
  intros Hn Hbase. induction sizes as [|s sizes IH]; intros m index data v next Hg Hs Hp; [by apply spec_ret|].
  apply StronglySorted_inv in Hs as [Hs Hge]. apply Forall_cons in Hge as [Hge _]. apply Forall_cons in Hp as [Hp Hps].
  cbn [foldM]. eapply spec_bind; [apply (expand_step_ok base m index data); auto|].
  intros r v' (m' & index' & data' & next' & -> & <- & Hg'). by eapply (IH m' index' data').
Qed.
End growing.

(** Half of the disk is enough for the data, the other half for the index blocks. *)
Lemma half_room size : 0 <= size <= L4_MAX / 2 -> room (n := BLOCKS) 99 size.
Proof.
  intros Hs. split; [by apply max_size|]. intros info E. pose proof (index_shape size info (max_size size Hs) E) as Hsh.
  change BLOCKS with 15752997. change (L4_MAX / 2) with 4032767232 in Hs. unfold index_count.
  destruct Hsh; subst; cbn [LevelInfo.l4 LevelInfo.l3 LevelInfo.block_directory LevelInfo.block_table]; clear E; size_lia.
Qed.

Lemma expand_test : test_expand = Ok tt.
Proof.
  apply with_inode_ok; [zeval|]. intros m index data c v next Hb.
  eapply spec_bind; [|intros r v' _; by apply spec_ret].
  pose proof (b_size _ _ _ _ _ _ _ Hb) as Hs. apply (expand_loop (n := BLOCKS) 99) with index data.
  - zeval.
  - lia.
  - split.
    + apply (b_own _ _ _ _ _ _ _ Hb). zeval.
    + apply Forall_app. split; apply Hb.
    + rewrite (b_small _ _ _ _ _ _ _ Hb) by zeval. rewrite (b_count _ _ _ _ _ _ _ Hb).
      by rewrite (b_levels _ _ _ _ _ _ _ Hb (LevelInfo.mk 0 0 0 0 1) eq_refl).
  - rewrite Hs. repeat constructor; vm_compute; discriminate.
  - repeat constructor; apply half_room; zeval.
Qed.

(** ** The filter of [to_vec] *)

(** The tree of a file whose root is an L3 block with three children. *)
Lemma three_directories size m index data c v next : built size m index data c v next ->
  size = 2 * BLOCK_DIRECTORY_MAX -> exists d0 d1 d2 l1s,
    index ≡ₚ Meta.indirect m :: [d0; d1; d2] ++ l1s /\ length l1s = 127%nat /\ zlen (drop 36 data) = 7974 /\
    level_ok v 2 [Meta.indirect m] [d0; d1; d2] /\ level_ok v 1 [d0; d1; d2] l1s /\ level_ok v 0 l1s (drop 36 data).
Proof.
  intros Hb Hs. pose proof (b_count _ _ _ _ _ _ _ Hb) as Hc. rewrite Hs in Hc. change (cdiv (2 * BLOCK_DIRECTORY_MAX) 512) with 8010 in Hc.
  assert (E : Meta.index_blocks size = Ok (LevelInfo.mk 0 1 3 127 36)) by (rewrite Hs; reflexivity).
  pose proof (b_levels _ _ _ _ _ _ _ Hb _ E) as Hi. change (index_count _) with 131 in Hi.
  assert (Hd : zlen (drop 36 data) = 7974) by (rewrite length_drop; lia).
  destruct (mr_tree _ _ _ _ (b_meta _ _ _ _ _ _ _ Hb)) as [(Hn & _)|(lv & index' & Hlv & Hp & _ & Hr)];
    [rewrite Hn in Hd; done|].
  assert (Hi' : length index' = 130%nat) by (apply Permutation_length in Hp; cbn in Hp; lia).
  set (ds := drop 36 data) in *. clearbody ds.
  destruct lv as [|[|[|[|lv]]]]; [| | | |lia]; cbn [index_rep] in Hr.
  - destruct Hr as (_ & _ & Hl). cbn in Hl. lia.
  - destruct Hr as (b & i & _ & _ & Hl & _ & _ & Hl'). cbn in Hl. lia.
  - destruct Hr as (l2s & i2 & Hp2 & K2 & Hl2 & l1s & i1 & Hp1 & K1 & Hl1 & -> & K0 & Hl0). cbn in Hl2.
    rewrite Hp1, app_nil_r in Hp2. apply Permutation_length in Hp2 as Hlen. rewrite length_app in Hlen.
    assert (length l2s = 3%nat /\ length l1s = 127%nat) as [L2 L1] by lia.
    destruct l2s as [|d0 [|d1 [|d2 [|]]]]; try done. exists d0, d1, d2, l1s. split_and!; [by rewrite Hp, Hp2|exact L1|exact Hd|exact K2|exact K1|exact K0].
  - destruct Hr as (l3s & i3 & Hp3 & _ & Hl3 & l2s & i2 & Hp2 & _ & Hl2 & l1s & i1 & Hp1 & _ & Hl1 & -> & _ & Hl0).
    rewrite Hp2, Hp1, app_nil_r in Hp3. apply Permutation_length in Hp3 as Hlen. rewrite !length_app in Hlen. lia.
Qed.

(** The children of the first and of the last directory. *)
Lemma first_and_last v d0 d1 d2 l1s ds : length l1s = 127%nat -> zlen ds = 7974 ->
  level_ok v 1 [d0; d1; d2] l1s -> level_ok v 0 l1s ds ->
  index_rep v 1 [d0] (take 63 l1s ++ []) (take (63 * 63) ds) /\
  index_rep v 1 [d2] (drop 126 l1s ++ []) (drop (63 * 126) ds).
Proof.
  intros L1 Ld K1 K0. apply (level_ok_app v 1 [d0] [d1; d2]) in K1 as [K1a K1]. apply (level_ok_app v 1 [d1] [d2]) in K1 as [_ K1b].
  rewrite <- (take_drop 63 l1s) in K0. apply level_ok_app in K0 as [K0a K0].
  rewrite <- (take_drop 63 (drop 63 l1s)) in K0. apply level_ok_app in K0 as [_ K0b].
  assert (La : length (take 63 l1s) = 63%nat) by (rewrite length_take; lia).
  assert (Lb : length (take 63 (drop 63 l1s)) = 63%nat) by (rewrite length_take, length_drop; lia).
  rewrite La in K0a, K0b. rewrite Lb in K0b. change (63 * length [_])%nat with 63%nat in *. rewrite !drop_drop in *.
  change (63 + 63)%nat with 126%nat in *. replace (63 * 63 + 63 * 63)%nat with (63 * 126)%nat in K0b by lia. split.
  - apply index_rep_S; [exact K1a|cbn; lia|]. apply index_rep_O; [exact K0a|rewrite length_take; lia].
  - apply index_rep_S; [exact K1b|rewrite length_drop; cbn; lia|]. apply index_rep_O; [exact K0b|rewrite !length_drop; lia].
Qed.

(** No block of the file but [d1] is left out by the filter [d1]. *)
Lemma kept_others size m index data c v next d0 d1 d2 l1s : built size m index data c v next -> size <= L3_MAX ->
  index ≡ₚ Meta.indirect m :: [d0; d1; d2] ++ l1s -> kept (Some [d1]) (d0 :: d2 :: l1s ++ drop 36 data).
Proof.
  intros Hb Hs Hp. pose proof (io_own _ _ _ _ (b_own _ _ _ _ _ _ _ Hb Hs)) as Hnd.
  assert (Hpos : Forall (fun x => x <> 0) (index ++ data)).
  { apply Forall_app. split; [eapply Forall_impl; [apply Hb|]; simpl; lia|eapply Forall_impl; [apply (b_data _ _ _ _ _ _ _ Hb)|]; simpl; lia]. }
  assert (Hall : index ++ data ≡ₚ d1 :: (d0 :: d2 :: l1s ++ drop 36 data) ++ Meta.indirect m :: take 36 data).
  { rewrite <- (take_drop 36 data) at 1. rewrite Hp. cbn [app]. solve_Permutation. }
  rewrite Hall in Hnd, Hpos. apply NoDup_cons in Hnd as [Hd1 _]. apply Forall_cons in Hpos as [_ Hpos].
  apply Forall_app in Hpos as [Hpos _]. rewrite not_elem_of_app in Hd1. destruct Hd1 as [Hd1 _].
  apply Forall_forall. intros x Hx. pose proof (proj1 (Forall_forall _ _) Hpos x Hx) as Hx0. simpl in Hx0. unfold keep.
  rewrite (proj2 (Z.eqb_neq _ _) Hx0). apply bool_decide_eq_true_2. rewrite list_elem_of_singleton. by intros ->.
Qed.

(** Reading the second directory from the root, and [to_vec] without it. *)
Lemma filtered m index data c v next : built (2 * BLOCK_DIRECTORY_MAX) m index data c v next -> exists d1,
  spec BLOCKS (read_at IndirectBlock.t (Meta.indirect m) 0 (fun block => lift (at_ (IndirectBlock.entries block) 1))) v []
    (fun r v' => v' = v /\ r = d1) /\
  spec BLOCKS (read_at IndirectBlock.t (Meta.indirect m) 0 (fun block => IndirectOps.to_vec block (Some [d1]))) v []
    (fun r v' => v' = v /\ zlen r.1 = 66 /\ zlen r.2 = 4005).
Proof.
  intros Hb. destruct (three_directories _ _ _ _ _ _ _ Hb eq_refl) as (d0 & d1 & d2 & l1s & Hp & L1 & Ld & K2 & K1 & K0).
  destruct (built_readable _ _ _ _ _ _ _ Hb) as [_ Hrd]. rewrite Hp in Hrd.
  pose proof (kept_others _ _ _ _ _ _ _ _ _ _ _ Hb ltac:(zeval) Hp) as Hk.
  destruct (first_and_last v d0 d1 d2 l1s (drop 36 data) L1 Ld K1 K0) as [R0 R2].
  set (ds := drop 36 data) in *. clearbody ds. unfold kept in Hk.
  apply Forall_cons in Hrd as [[Hroot Hnw] Hrd]. rewrite !app_nil_r in R0, R2. exists d1. split.
  { apply (spec_read_at IndirectBlock.t); [lia|done|cbn; unfold CACHE_SIZE; lia|done|done|].
    rewrite (K2 0%nat _ eq_refl). eapply spec_lift; [reflexivity|done]. }
  eapply spec_conseq.
  - apply (to_vec_without 1 (Meta.indirect m) [d0] d1 [d2] (take 63 l1s) (drop 126 l1s) (take (63 * 63) ds) (drop (63 * 126) ds));
      [lia|cbn; unfold CACHE_SIZE; lia|exact K2|cbn; lia|exact R0|exact R2|unfold kept..|unfold readable];
      rewrite ?Forall_cons, ?Forall_app, ?Forall_cons in *; intuition auto using Forall_take, Forall_drop.
  - intros [fi fd] v' (-> & Ed & Ei). simpl in Ed, Ei |- *. split_and!; [done| |].
    + apply Permutation_length in Ei. cbn [app length] in Ei. rewrite length_app, length_take in Ei.
      cbn [length] in Ei. rewrite length_drop, L1 in Ei. cbn in Ei. lia.
    + rewrite Ed, length_app, length_take, length_drop. lia.
Qed.

Lemma to_vec_filter_test : test_to_vec_filter = Ok tt.
Proof.
  apply with_inode_ok; [zeval|]. intros m index data c v next Hb. pose proof (b_size _ _ _ _ _ _ _ Hb) as Hs.
  destruct (filtered _ _ _ _ _ _ Hb) as (d1 & H1 & H2). eapply spec_bind; [exact H1|]. intros r v' [-> ->].
  eapply spec_bind; [exact H2|]. intros [fi fd] v' (-> & Lfi & Lfd). simpl in Lfi, Lfd.
  rewrite Hs. eapply spec_bind_lift; [unfold Meta.data_blocks; rewrite Hs; reflexivity|].
  do 2 (eapply spec_bind_lift; [apply add64_ok; rewrite Lfd; zeval|]).
  eapply spec_bind_lift; [apply assert_eq_ok; by rewrite Lfd|]. do 2 (eapply spec_bind_lift; [reflexivity|]).
  do 2 (eapply spec_bind_lift; [apply add64_ok; rewrite Lfi; zeval|]).
  eapply spec_lift; [|done]. apply assert_eq_ok. by rewrite Lfi.
Qed.

(** C37: the repository's tests on trees of index blocks pass: on inodes with up to four levels of index
    blocks that [fake_inode] writes on its own, [get_block_id] finds every block, [blocks] returns all
    of them in order, [to_vec] leaves out the blocks below its filter, [shrink] and [extend] through the
    sizes of the tests keep the numbers of blocks that [index_blocks] asks for, and [clear_size] gives
    all of them back. *)
Theorem index_tests_pass :
  test_small_get_block_id = Ok tt /\ test_medium_get_block_id = Ok tt /\ test_large_get_block_id = Ok tt /\
  test_inode_blocks = Ok tt /\ test_to_vec_filter = Ok tt /\ test_shrink = Ok tt /\ test_expand = Ok tt /\
  test_clear_size = Ok tt.
Proof.
  destruct get_block_id_tests as (T1 & T2 & T3).
  split_and!; [exact T1|exact T2|exact T3|exact inode_blocks_test|exact to_vec_filter_test|exact shrink_test|exact expand_test|exact clear_size_test].
Qed.
